(* ===== verification/_CoqProject ===== *)
-Q . S2P
Prelude.v
Errors.v
Protocol.v
NodeComm.v
RingBuffer.v
HashTable.v
DList.v
StringUtils.v
MetadataStore.v
Json.v
VolumeMeta.v
Cluster.v
Volume.v
Io.v
VolumeIo.v
Config.v
ConfigMem.v
ConfigLoad.v
Memory.v
MemoryPool.v
Replication.v
VolumeHistory.v
VolumeIsolation.v
ReplicaRead.v
ReplicaHandler.v
VolumeInit.v
EventLoop.v
Log.v
Socket.v
Format.v
DiskInit.v
CommModule.v
Bdev.v
Vhost.v
Cli.v
Nvmf.v
SelfTest.v
E2eTest.v
Node.v
UnitTests.v
