(* ===== verification/Prelude.v ===== *)
(** * XSAN: a verification development of the storage daemon's C sources

    XSAN is a distributed block storage daemon written in C.  A node keeps volumes
    whose blocks live on local disks and on replicas at other nodes.  The volume
    manager creates volumes, persists them, translates their blocks to disks and
    replicates writes; it stands on a metadata store over RocksDB, a block I/O layer
    over SPDK, a message protocol with its connections, and a layer of containers,
    strings, configuration, logging and memory management.  Volumes are exported as
    virtual devices and over NVMe-oF; a daemon brings the parts up and down, and a
    command line tool talks to the user.  This library is a shallow
    embedding of these parts: C functions are Gallina functions on explicit states,
    and the theorems are about them.

    ** Files

    - [Prelude.v] (this file): machine integers, runs of operations, the simulation
      principle, traced computations, shared lemmas.
    - [Errors.v]: [src/include/xsan_error.h], [src/src/common/error.c]: codes, texts,
      translation of errno, categories; the class [StorageCodes] of codes that the
      sources use and no header defines.
    - [Protocol.v]: [src/src/network/protocol.c]: header codec, checksum, messages.
    - [NodeComm.v]: [src/src/network/xsan_node_comm.c]: receive buffer and framing,
      dispatch, sending, connecting, the list of active connections.  [CommModule.v]:
      start and stop of the same module and the life of its sockets and connections.
    - [RingBuffer.v], [HashTable.v], [DList.v]: the containers of [src/src/common/].
    - [StringUtils.v]: [src/src/utils/string_utils.c].  [Format.v]: what is printed with
      formats there, in the log and for errors, with the doubles this needs.
    - [MetadataStore.v]: [src/src/metadata/xsan_metadata_store.c] over the class
      [RocksDB]; the class [MetaStore] is what its clients rely on.
    - [Json.v], [VolumeMeta.v]: the JSON form of volumes and allocation maps in
      [src/src/storage/volume_manager.c], over the classes [JsonC] and [SpdkUuid].
    - [Cluster.v]: [src/src/cluster/xsan_cluster.c].
    - [DiskInit.v]: [src/src/storage/disk_manager.c], as far as the file goes.
    - [Volume.v]: creation, deletion, state and start-up scan of volumes.
      [VolumeHistory.v]: sequences of these operations as a step relation, with the
      invariant of the states they reach.  [VolumeIsolation.v]: such histories together
      with the address translation of [VolumeIo.v].
    - [VolumeInit.v]: start and stop of the volume manager, keys of its tables.
    - [Io.v]: [src/src/io/xsan_io.c], block I/O requests.
    - [VolumeIo.v]: address translation and the local I/O of a volume.
    - [Replication.v], [ReplicaRead.v], [ReplicaHandler.v]: replicated writes, reads
      with failover, and the requests served for other nodes, with the contexts of
      [src/src/replication/].
    - [Config.v], [ConfigMem.v], [ConfigLoad.v]: [src/src/utils/config.c]: the store, its
      memory, and the sections read from it.
    - [Memory.v], [MemoryPool.v]: [src/src/utils/memory.c].
    - [Log.v]: [src/src/utils/log.c], with the files it writes and rotates.
    - [EventLoop.v], [Socket.v]: [src/src/network/event_loop.c] over the class [Epoll],
      [src/src/network/socket.c] over the class [Inet].
    - [Bdev.v]: [src/src/bdev/xsan_bdev.c] over the class [BlockDevice].
    - [Vhost.v]: [src/src/vhost/xsan_vhost.c], volumes as devices, over [SpdkIov].
    - [Nvmf.v]: [src/src/nvmf/xsan_nvmf_target.c].
    - [Cli.v]: [src/src/main/xsan_cli.c] and [src/src/common/version.c].
    - [SelfTest.v], [E2eTest.v], [Node.v]: [src/src/main/xsan_node.c], its two tests and
      the daemon, with [src/src/core/spdk_manager.c].
    - [UnitTests.v]: the assertions of [src/tests], run on the models.

    ** Conventions

    A [w]-bit integer is a [Z] with its wrap-around written out.  A null pointer is
    [None], or the address 0 where addresses matter.  Whether an allocation or a call
    of another library succeeds is an argument of the function that makes it.
    Callbacks, destructors and messages are traces.  A mutex is not recursive: to
    lock it twice never returns.  Undefined behaviour and blocking are results of
    their own ([None], or the constructors of an outcome type), so that a theorem
    that gives another result excludes them.  Code that the sources only declare or
    link is a class with the documented behaviour as its laws, and every class with laws
    has an instance with which the theorems are applied to concrete inputs.  Messages
    written to the log have no effect in the models of the components that write them.

    ** Theorems

    - Containers, configuration, memory pools and the metadata store refine a queue, a
      finite map, a sequence, two lists of blocks and a map whose writes may fail: any
      sequence of calls gives the answers of the abstract object.
    - The codecs are exact: headers, messages, volumes, allocation maps, numbers,
      escaped strings, configuration files and seed lists are read back as written.
    - Messages sent back to back are dispatched in order and once, however the byte stream
      is cut, up to the first one that is freed when its dispatch returns: the code then
      reads the freed message, and the run is undefined.  The handlers of replica requests
      free theirs; a block written on a primary still reaches the local I/O of the replica
      unchanged.
    - Creating a volume persists it completely or leaves the list of volumes as it was;
      deleting it restores that list.  The store is restored as well if its deletions
      succeed and its failed writes have not happened.
    - In every state that a history of volume operations reaches, whatever fails in the
      store or for lack of memory, the volumes are well typed, the store holds their
      records, and no extent of a volume is given back; extents leak and other records
      remain only after failures of the store or of an allocation that the statements name.
    - Logical blocks are translated to places inside their extents; blocks of different
      volumes never share a byte of a disk, if the disk manager hands out no space twice,
      and neither do different blocks of one if the disk's block size divides the volume's.
    - A replicated write counts every replica once, unless a send fails in the socket or
      no replica is writable, and completes exactly once after the last answer; a read
      tries each replica at most once, ends, and calls its user at most once.
    - A request to an exposed volume is answered exactly once when the volume layer reports
      it, frees what it allocated and moves exactly its bytes; what is written to a device
      is read back.
    - The event loop keeps the registry of its descriptors and releases what it acquired.
      The log touches no file but its own and loses nothing but what rotation is meant to
      drop, if the system refuses nothing.  Addresses are read back as printed, without
      the zone of an IPv6 address.
    - The parts that hold resources (configuration, volume and disk managers,
      communication module, block device I/O, NVMe-oF target, node) release on every path
      what they acquired, apart from the exceptions the statements name, and the daemon
      takes its parts down in reverse order unless the start of the volume manager or the
      test does not return.  The end-to-end test of the daemon cleans up wherever it fails;
      the write and read sequence ends whatever the volume layer answers.
    - Several theorems state exactly when a component does not do what it is for: local
      I/O and remote reads end in undefined behaviour, a start with stored volumes and
      the resizing of a tracked block deadlock, writes to a node without a connection
      never complete, a deletion that cannot read the allocation map loses the extents.

    ** Bounds and fuel

    The framing loop runs on a measure of the buffered bytes; the walks over linked
    blocks of a pool on the size of the heap; the readers of lines and tokens on the
    length of the text; reads with failover on four levels, shown to be enough for the
    three replicas a volume can have; the callbacks of the write and read sequence on four
    levels, one for each I/O, shown to be enough.  The capacity of the event loop doubles
    at most 32 times for a 32-bit descriptor.

    ** Not modelled

    - Output only: [xsan_config_print], [xsan_memory_print_stats],
      [_log_volume_and_replica_states], [_xsan_vbdev_dump_info_json].
    - Functions that only free what their argument holds: [xsan_protocol_message_destroy],
      the release of device information and of replicated I/O contexts (whose local request
      no code sets); and the empty callbacks of the virtual device module.
    - Code that does not exist: the disk manager after its start, where the source file
      ends (its clients use the class [DiskManager]);
      [_xsan_check_replicated_write_completion] (the class [WriteCompletion]);
      [xsan_volume_get_by_id] (a parameter); the policy and virtualization interfaces of
      [src/include], which are declarations only.
    - Concurrency: each function runs to its end or waits; a mutex is modelled where one
      thread can block itself.
    - Libraries: RocksDB, json-c, SPDK, epoll, the socket calls and the C library beyond
      what the conventions above say.  Other doubles than those of byte counts are an
      abstract type with parser and printer as parameters.

    The rest of this file is the vocabulary that the component files share. *)

From stdpp Require Import prelude gmap.
From Stdlib Require Import ZArith Lia.

#[global] Open Scope Z_scope.

(** ** Machine integers

    A [w]-bit unsigned C integer is a [Z] in [0, 2^w); every arithmetic
    operation of the source that can leave the range is followed by [wrap]. *)

Definition wrap (w z : Z) : Z := z mod 2 ^ w.

(** Conversion to a signed [w]-bit integer (two's complement). *)
Definition swrap (w z : Z) : Z :=
  let r := wrap w z in if r <? 2 ^ (w - 1) then r else r - 2 ^ w.

Definition in_u (w z : Z) : Prop := 0 <= z < 2 ^ w.

(** Pointers are addresses; the null pointer is address 0. *)
Abbreviation ptr := Z (only parsing).
Definition NULL : ptr := 0.

Declare Scope xsan_scope.
Delimit Scope xsan_scope with xsan.

(** [a.[i]] reads the C array [a] at index [i]; [a.[i := v]] is [a]
    after the store.  Component invariants bound every index that is used. *)
Notation "a .[ i ]" := (default 0 (a !! Z.to_nat i))
  (at level 1, format "a .[ i ]") : xsan_scope.
Notation "a .[ i := v ]" := (<[Z.to_nat i := v]> a)
  (at level 1, format "a .[ i  :=  v ]") : xsan_scope.

#[global] Open Scope xsan_scope.

(** Length of a list as an integer. *)
Definition Zlen {A} (l : list A) : Z := Z.of_nat (length l).
#[global] Arguments Zlen : simpl never.
#[global] Arguments wrap : simpl never.

(** ** Runs of an operation-labelled machine *)

Section Runs.
Context {S Op Out : Type}.

Fixpoint run (step : S -> Op -> S * Out) (s : S) (ops : list Op) : S * list Out :=
  match ops with
  | [] => (s, [])
  | op :: ops' =>
      let '(s1, o) := step s op in
      let '(s2, os) := run step s1 ops' in
      (s2, o :: os)
  end.
End Runs.

(** A concrete machine implements an abstract one through the relation [R]
    when every operation, started in related states, yields related states and
    the same observation. *)
Class Refines {C A Op Out : Type} (cstep : C -> Op -> C * Out)
    (astep : A -> Op -> A * Out) (R : C -> A -> Prop) : Prop :=
  refines_step : forall c a op, R c a ->
    R (cstep c op).1 (astep a op).1 /\ (cstep c op).2 = (astep a op).2.

(** ** Traced computations

    A run of C code as the events it makes and its result; the result is [None]
    when the run reaches undefined behaviour, after the events already made. *)
Definition traced (E A : Type) : Type := list E * option A.

Section Traced.
Context {E : Type}.

Definition tret {A} (a : A) : traced E A := ([], Some a).
Definition tundef {A} : traced E A := ([], None).
Definition temit (e : E) : traced E unit := ([e], Some tt).
Definition tbind {A B} (x : traced E A) (f : A -> traced E B) : traced E B :=
  match x with
  | (t, Some a) => (t ++ (f a).1, (f a).2)
  | (t, None) => (t, None)
  end.
End Traced.

Notation "'let*' x := e 'in' k" := (tbind e (fun x => k))
  (at level 200, x name, e at level 200, k at level 200) : xsan_scope.

(** ** Proof automation *)

Create HintDb xsan.
Create Rewrite HintDb xsan.

(** Case analysis on every boolean comparison and [decide] in sight. *)
Ltac case_cmp :=
  repeat match goal with
  | |- context [Z.eqb ?x ?y] => destruct (Z.eqb_spec x y)
  | |- context [Z.ltb ?x ?y] => destruct (Z.ltb_spec x y)
  | |- context [Z.leb ?x ?y] => destruct (Z.leb_spec x y)
  | H : context [Z.eqb ?x ?y] |- _ => destruct (Z.eqb_spec x y)
  | H : context [Z.ltb ?x ?y] |- _ => destruct (Z.ltb_spec x y)
  | H : context [Z.leb ?x ?y] |- _ => destruct (Z.leb_spec x y)
  end.

(** Powers of two of literal widths, as [lia] needs them. *)
Ltac pow2s :=
  repeat match goal with
  | H : context [2 ^ Zpos ?p] |- _ =>
      let v := eval vm_compute in (2 ^ Zpos p) in change (2 ^ Zpos p) with v in H
  | |- context [2 ^ Zpos ?p] =>
      let v := eval vm_compute in (2 ^ Zpos p) in change (2 ^ Zpos p) with v
  end.

(** ** Shared lemmas *)

Lemma wrap_small w z : in_u w z -> wrap w z = z.
Proof. intros H. apply Z.mod_small, H. Qed.

Lemma wrap_range w z : 0 <= w -> in_u w (wrap w z).
Proof. intros Hw. apply Z.mod_pos_bound. apply Z.pow_pos_nonneg; lia. Qed.

Lemma wrap_wrap w z : 0 <= w -> wrap w (wrap w z) = wrap w z.
Proof. intros Hw. now apply wrap_small, wrap_range. Qed.

#[export] Hint Resolve wrap_range : xsan.
#[export] Hint Rewrite @length_insert @length_app @length_replicate : xsan.

Lemma Zlen_nonneg {A} (l : list A) : 0 <= Zlen l.
Proof. unfold Zlen. lia. Qed.

Lemma Zlen_app {A} (l k : list A) : Zlen (l ++ k) = Zlen l + Zlen k.
Proof. unfold Zlen. rewrite length_app. lia. Qed.

Lemma Zlen_cons {A} (x : A) (l : list A) : Zlen (x :: l) = 1 + Zlen l.
Proof. unfold Zlen. simpl. lia. Qed.

Lemma Zlen_nil {A} : Zlen (@nil A) = 0.
Proof. reflexivity. Qed.

#[export] Hint Rewrite @Zlen_app @Zlen_cons @Zlen_nil : xsan.

Lemma run_app {S Op Out} (step : S -> Op -> S * Out) s ops1 ops2 :
  run step s (ops1 ++ ops2) =
    ((run step (run step s ops1).1 ops2).1,
     (run step s ops1).2 ++ (run step (run step s ops1).1 ops2).2).
Proof.
  revert s. induction ops1 as [|op ops1 IH]; intros s; simpl.
  - now destruct (run step s ops2).
  - destruct (step s op) as [s1 o]. rewrite IH.
    now destruct (run step s1 ops1) as [s2 os]; simpl.
Qed.

Lemma tbind_ret {E A B} (a : A) (f : A -> traced E B) : tbind (tret a) f = f a.
Proof. simpl. now destruct (f a). Qed.

Lemma tbind_assoc {E A B C} (x : traced E A) (f : A -> traced E B) (g : B -> traced E C) :
  tbind (tbind x f) g = tbind x (fun a => tbind (f a) g).
Proof.
  destruct x as [t [a|]]; [|done]. simpl. destruct (f a) as [t' [b|]]; simpl; [|done].
  now rewrite app_assoc.
Qed.

Lemma tbind_some {E A B} t (a : A) (f : A -> traced E B) t' b :
  f a = (t', b) -> tbind (t, Some a) f = (t ++ t', b).
Proof. intros H. simpl. now rewrite H. Qed.

(** Simulation lifts from single operations to runs: the two machines produce
    the same list of observations. *)
Lemma run_refines {C A Op Out} (cstep : C -> Op -> C * Out)
    (astep : A -> Op -> A * Out) R `{!Refines cstep astep R} ops c a :
  R c a ->
  R (run cstep c ops).1 (run astep a ops).1 /\
  (run cstep c ops).2 = (run astep a ops).2.
Proof.
  revert c a. induction ops as [|op ops IH]; intros c a HR; simpl; [easy|].
  destruct (refines_step c a op HR) as [HR' Ho].
  destruct (cstep c op) as [c1 o1], (astep a op) as [a1 o2]; simpl in *.
  destruct (IH _ _ HR') as [HR'' Hos].
  destruct (run cstep c1 ops), (run astep a1 ops); simpl in *. split; congruence.
Qed.

(** An invariant preserved by every operation holds after every run. *)
Lemma run_invariant {S Op Out} (step : S -> Op -> S * Out) (I : S -> Prop) ops s :
  (forall s op, I s -> I (step s op).1) -> I s -> I (run step s ops).1.
Proof.
  intros Hstep. revert s. induction ops as [|op ops IH]; intros s Hs; simpl; [easy|].
  specialize (Hstep s op Hs). destruct (step s op) as [s1 o]; simpl in *.
  specialize (IH s1 Hstep). now destruct (run step s1 ops).
Qed.

(** A filter that keeps every element is the identity. *)
Lemma filter_all {A} (P : A -> Prop) `{forall x, Decision (P x)} (l : list A) :
  (forall x, x ∈ l -> P x) -> filter P l = l.
Proof.
  induction l as [|x l IH]; intros Hl; [done|].
  rewrite filter_cons_True by (apply Hl; left). f_equal. apply IH.
  intros y Hy. apply Hl. now right.
Qed.
