(* ===== verification/Errors.v ===== *)
(** * Error codes and their classification

    Models [include/xsan_error.h] (the codes) and [src/common/error.c] (message
    table, translation from errno and to HTTP statuses, category strings,
    recoverable and fatal errors).  A value of the C type [xsan_error_t] is an
    [int32_t]; it is represented by a [Z]. *)

From stdpp Require Import prelude gmap strings.
From S2P Require Import Prelude.

#[local] Open Scope Z_scope.

Abbreviation xsan_error_t := Z (only parsing).

Definition XSAN_OK : xsan_error_t := 0.
Definition XSAN_ERROR_GENERIC : xsan_error_t := (-1).
Definition XSAN_ERROR_INVALID_PARAM : xsan_error_t := (-2).
Definition XSAN_ERROR_BUSY : xsan_error_t := (-3).
Definition XSAN_ERROR_NOT_FOUND : xsan_error_t := (-4).
Definition XSAN_ERROR_ALREADY_EXISTS : xsan_error_t := (-5).
Definition XSAN_ERROR_TIMEOUT : xsan_error_t := (-6).
Definition XSAN_ERROR_NO_MEMORY : xsan_error_t := (-7).
Definition XSAN_ERROR_IO : xsan_error_t := (-8).
Definition XSAN_ERROR_PERMISSION_DENIED : xsan_error_t := (-9).
Definition XSAN_ERROR_INTERRUPTED : xsan_error_t := (-10).
Definition XSAN_ERROR_SYSTEM : xsan_error_t := (-11).
Definition XSAN_ERROR_UNSUPPORTED : xsan_error_t := (-12).
Definition XSAN_ERROR_NOT_INITIALIZED : xsan_error_t := (-13).
Definition XSAN_ERROR_THREAD_CONTEXT : xsan_error_t := (-14).
Definition XSAN_ERROR_NETWORK : xsan_error_t := (-20).
Definition XSAN_ERROR_NODE_UNREACHABLE : xsan_error_t := (-21).
Definition XSAN_ERROR_CONNECTION_LOST : xsan_error_t := (-22).
Definition XSAN_ERROR_CONNECTION_REFUSED : xsan_error_t := (-23).
Definition XSAN_ERROR_ADDRESS_IN_USE : xsan_error_t := (-24).
Definition XSAN_ERROR_NETWORK_DOWN : xsan_error_t := (-25).
Definition XSAN_ERROR_HOST_UNREACHABLE : xsan_error_t := (-26).
Definition XSAN_ERROR_STORAGE_GENERIC : xsan_error_t := (-40).
Definition XSAN_ERROR_DEVICE_FAILED : xsan_error_t := (-41).
Definition XSAN_ERROR_DEVICE_NOT_FOUND : xsan_error_t := (-42).
Definition XSAN_ERROR_VOLUME_NOT_FOUND : xsan_error_t := (-43).
Definition XSAN_ERROR_VOLUME_EXISTS : xsan_error_t := (-44).
Definition XSAN_ERROR_VOLUME_BUSY : xsan_error_t := (-45).
Definition XSAN_ERROR_BLOCK_NOT_FOUND : xsan_error_t := (-46).
Definition XSAN_ERROR_BLOCK_CORRUPTED : xsan_error_t := (-47).
Definition XSAN_ERROR_DISK_FULL : xsan_error_t := (-48).
Definition XSAN_ERROR_INSUFFICIENT_SPACE : xsan_error_t := (-49).
Definition XSAN_ERROR_STORAGE_IO : xsan_error_t := (-50).
Definition XSAN_ERROR_CLUSTER_GENERIC : xsan_error_t := (-60).
Definition XSAN_ERROR_NODE_NOT_FOUND : xsan_error_t := (-61).
Definition XSAN_ERROR_NODE_EXISTS : xsan_error_t := (-62).
Definition XSAN_ERROR_SPLIT_BRAIN : xsan_error_t := (-63).
Definition XSAN_ERROR_QUORUM_LOST : xsan_error_t := (-64).
Definition XSAN_ERROR_CLUSTER_NOT_READY : xsan_error_t := (-65).
Definition XSAN_ERROR_INVALID_NODE_STATE : xsan_error_t := (-66).
Definition XSAN_ERROR_REPLICATION_GENERIC : xsan_error_t := (-80).
Definition XSAN_ERROR_REPLICA_NOT_FOUND : xsan_error_t := (-81).
Definition XSAN_ERROR_REPLICA_OUTDATED : xsan_error_t := (-82).
Definition XSAN_ERROR_SYNC_FAILED : xsan_error_t := (-83).
Definition XSAN_ERROR_CONSISTENCY_CHECK_FAILED : xsan_error_t := (-84).
Definition XSAN_ERROR_RECOVERY_FAILED : xsan_error_t := (-85).
Definition XSAN_ERROR_NOT_ENOUGH_REPLICAS : xsan_error_t := (-86).
Definition XSAN_ERROR_POLICY_GENERIC : xsan_error_t := (-100).
Definition XSAN_ERROR_POLICY_NOT_FOUND : xsan_error_t := (-101).
Definition XSAN_ERROR_POLICY_VIOLATION : xsan_error_t := (-102).
Definition XSAN_ERROR_QOS_LIMIT_EXCEEDED : xsan_error_t := (-103).
Definition XSAN_ERROR_VIRTUALIZATION_GENERIC : xsan_error_t := (-120).
Definition XSAN_ERROR_LIBVIRT_FAILED : xsan_error_t := (-121).
Definition XSAN_ERROR_VM_NOT_FOUND : xsan_error_t := (-122).
Definition XSAN_ERROR_STORAGE_POOL_FAILED : xsan_error_t := (-123).
Definition XSAN_ERROR_CONFIG_GENERIC : xsan_error_t := (-140).
Definition XSAN_ERROR_CONFIG_INVALID : xsan_error_t := (-141).
Definition XSAN_ERROR_CONFIG_MISSING : xsan_error_t := (-142).
Definition XSAN_ERROR_CONFIG_PARSE : xsan_error_t := (-143).
Definition XSAN_ERROR_METADATA_GENERIC : xsan_error_t := (-160).
Definition XSAN_ERROR_METADATA_READ_FAILED : xsan_error_t := (-161).
Definition XSAN_ERROR_METADATA_WRITE_FAILED : xsan_error_t := (-162).
Definition XSAN_ERROR_METADATA_CORRUPTED : xsan_error_t := (-163).
Definition XSAN_ERROR_TASK_GENERIC : xsan_error_t := (-180).
Definition XSAN_ERROR_TASK_NOT_FOUND : xsan_error_t := (-181).
Definition XSAN_ERROR_TASK_FAILED : xsan_error_t := (-182).
Definition XSAN_ERROR_TASK_CANCELLED : xsan_error_t := (-183).
Definition XSAN_ERROR_SECURITY_GENERIC : xsan_error_t := (-200).
Definition XSAN_ERROR_AUTHENTICATION_FAILED : xsan_error_t := (-201).
Definition XSAN_ERROR_AUTHORIZATION_FAILED : xsan_error_t := (-202).
Definition XSAN_ERROR_ENCRYPTION_FAILED : xsan_error_t := (-203).
Definition XSAN_ERROR_DECRYPTION_FAILED : xsan_error_t := (-204).

(** The codes the header defines, in the header's order. *)
Definition xsan_error_codes : list xsan_error_t :=
  [XSAN_OK;
   XSAN_ERROR_GENERIC;
   XSAN_ERROR_INVALID_PARAM;
   XSAN_ERROR_BUSY;
   XSAN_ERROR_NOT_FOUND;
   XSAN_ERROR_ALREADY_EXISTS;
   XSAN_ERROR_TIMEOUT;
   XSAN_ERROR_NO_MEMORY;
   XSAN_ERROR_IO;
   XSAN_ERROR_PERMISSION_DENIED;
   XSAN_ERROR_INTERRUPTED;
   XSAN_ERROR_SYSTEM;
   XSAN_ERROR_UNSUPPORTED;
   XSAN_ERROR_NOT_INITIALIZED;
   XSAN_ERROR_THREAD_CONTEXT;
   XSAN_ERROR_NETWORK;
   XSAN_ERROR_NODE_UNREACHABLE;
   XSAN_ERROR_CONNECTION_LOST;
   XSAN_ERROR_CONNECTION_REFUSED;
   XSAN_ERROR_ADDRESS_IN_USE;
   XSAN_ERROR_NETWORK_DOWN;
   XSAN_ERROR_HOST_UNREACHABLE;
   XSAN_ERROR_STORAGE_GENERIC;
   XSAN_ERROR_DEVICE_FAILED;
   XSAN_ERROR_DEVICE_NOT_FOUND;
   XSAN_ERROR_VOLUME_NOT_FOUND;
   XSAN_ERROR_VOLUME_EXISTS;
   XSAN_ERROR_VOLUME_BUSY;
   XSAN_ERROR_BLOCK_NOT_FOUND;
   XSAN_ERROR_BLOCK_CORRUPTED;
   XSAN_ERROR_DISK_FULL;
   XSAN_ERROR_INSUFFICIENT_SPACE;
   XSAN_ERROR_STORAGE_IO;
   XSAN_ERROR_CLUSTER_GENERIC;
   XSAN_ERROR_NODE_NOT_FOUND;
   XSAN_ERROR_NODE_EXISTS;
   XSAN_ERROR_SPLIT_BRAIN;
   XSAN_ERROR_QUORUM_LOST;
   XSAN_ERROR_CLUSTER_NOT_READY;
   XSAN_ERROR_INVALID_NODE_STATE;
   XSAN_ERROR_REPLICATION_GENERIC;
   XSAN_ERROR_REPLICA_NOT_FOUND;
   XSAN_ERROR_REPLICA_OUTDATED;
   XSAN_ERROR_SYNC_FAILED;
   XSAN_ERROR_CONSISTENCY_CHECK_FAILED;
   XSAN_ERROR_RECOVERY_FAILED;
   XSAN_ERROR_NOT_ENOUGH_REPLICAS;
   XSAN_ERROR_POLICY_GENERIC;
   XSAN_ERROR_POLICY_NOT_FOUND;
   XSAN_ERROR_POLICY_VIOLATION;
   XSAN_ERROR_QOS_LIMIT_EXCEEDED;
   XSAN_ERROR_VIRTUALIZATION_GENERIC;
   XSAN_ERROR_LIBVIRT_FAILED;
   XSAN_ERROR_VM_NOT_FOUND;
   XSAN_ERROR_STORAGE_POOL_FAILED;
   XSAN_ERROR_CONFIG_GENERIC;
   XSAN_ERROR_CONFIG_INVALID;
   XSAN_ERROR_CONFIG_MISSING;
   XSAN_ERROR_CONFIG_PARSE;
   XSAN_ERROR_METADATA_GENERIC;
   XSAN_ERROR_METADATA_READ_FAILED;
   XSAN_ERROR_METADATA_WRITE_FAILED;
   XSAN_ERROR_METADATA_CORRUPTED;
   XSAN_ERROR_TASK_GENERIC;
   XSAN_ERROR_TASK_NOT_FOUND;
   XSAN_ERROR_TASK_FAILED;
   XSAN_ERROR_TASK_CANCELLED;
   XSAN_ERROR_SECURITY_GENERIC;
   XSAN_ERROR_AUTHENTICATION_FAILED;
   XSAN_ERROR_AUTHORIZATION_FAILED;
   XSAN_ERROR_ENCRYPTION_FAILED;
   XSAN_ERROR_DECRYPTION_FAILED].

(** ** The message table *)

Definition ERROR_MESSAGES_ARRAY_SIZE : Z := 1 + 224.

(** The assignments of [initialize_error_messages], in order; the array is
    static, so every other slot is NULL ([None] below). *)
Definition error_message_assignments : list (Z * string) :=
  [(0, "Success");
   (Z.abs XSAN_ERROR_GENERIC, "Generic error");
   (Z.abs XSAN_ERROR_INVALID_PARAM, "Invalid parameter");
   (Z.abs XSAN_ERROR_NO_MEMORY, "Out of memory");
   (Z.abs XSAN_ERROR_IO, "I/O error");
   (Z.abs XSAN_ERROR_NETWORK, "Network error");
   (Z.abs XSAN_ERROR_NOT_FOUND, "Not found");
   (Z.abs XSAN_ERROR_TIMEOUT, "Operation timed out");
   (Z.abs XSAN_ERROR_UNSUPPORTED, "Feature or function not implemented");
   (Z.abs XSAN_ERROR_SYSTEM, "System error");
   (Z.abs XSAN_ERROR_PERMISSION_DENIED, "Permission denied");
   (Z.abs XSAN_ERROR_BUSY, "Resource busy");
   (Z.abs XSAN_ERROR_INTERRUPTED, "Operation interrupted");
   (Z.abs XSAN_ERROR_ALREADY_EXISTS, "Item or resource already exists");
   (Z.abs XSAN_ERROR_NOT_INITIALIZED, "Resource or module not initialized");
   (Z.abs XSAN_ERROR_STORAGE_GENERIC, "Storage error");
   (Z.abs XSAN_ERROR_DEVICE_FAILED, "Device failed");
   (Z.abs XSAN_ERROR_DEVICE_NOT_FOUND, "Device not found");
   (Z.abs XSAN_ERROR_VOLUME_NOT_FOUND, "Volume not found");
   (Z.abs XSAN_ERROR_VOLUME_EXISTS, "Volume exists");
   (Z.abs XSAN_ERROR_VOLUME_BUSY, "Volume busy");
   (Z.abs XSAN_ERROR_BLOCK_NOT_FOUND, "Block not found");
   (Z.abs XSAN_ERROR_BLOCK_CORRUPTED, "Block corrupted");
   (Z.abs XSAN_ERROR_REPLICATION_GENERIC, "Replication error");
   (Z.abs XSAN_ERROR_REPLICA_NOT_FOUND, "Replica not found");
   (Z.abs XSAN_ERROR_REPLICA_OUTDATED, "Replica outdated");
   (Z.abs XSAN_ERROR_SYNC_FAILED, "Synchronization failed");
   (Z.abs XSAN_ERROR_CONSISTENCY_CHECK_FAILED, "Consistency check failed");
   (Z.abs XSAN_ERROR_RECOVERY_FAILED, "Recovery failed");
   (Z.abs XSAN_ERROR_NOT_ENOUGH_REPLICAS, "Not enough replicas");
   (Z.abs XSAN_ERROR_POLICY_GENERIC, "Policy error");
   (Z.abs XSAN_ERROR_POLICY_NOT_FOUND, "Policy not found");
   (Z.abs XSAN_ERROR_POLICY_VIOLATION, "Policy violation");
   (Z.abs XSAN_ERROR_QOS_LIMIT_EXCEEDED, "QoS limit exceeded");
   (Z.abs XSAN_ERROR_VIRTUALIZATION_GENERIC, "Virtualization error");
   (Z.abs XSAN_ERROR_LIBVIRT_FAILED, "libvirt operation failed");
   (Z.abs XSAN_ERROR_VM_NOT_FOUND, "Virtual machine not found");
   (Z.abs XSAN_ERROR_STORAGE_POOL_FAILED, "Storage pool operation failed");
   (Z.abs XSAN_ERROR_CONFIG_GENERIC, "Configuration error");
   (Z.abs XSAN_ERROR_CONFIG_INVALID, "Invalid configuration");
   (Z.abs XSAN_ERROR_CONFIG_MISSING, "Missing configuration");
   (Z.abs XSAN_ERROR_CONFIG_PARSE, "Configuration parse error");
   (Z.abs XSAN_ERROR_METADATA_GENERIC, "Metadata error");
   (Z.abs XSAN_ERROR_METADATA_READ_FAILED, "Metadata read failed");
   (Z.abs XSAN_ERROR_METADATA_WRITE_FAILED, "Metadata write failed");
   (Z.abs XSAN_ERROR_METADATA_CORRUPTED, "Metadata corrupted");
   (Z.abs XSAN_ERROR_TASK_GENERIC, "Task/Job error");
   (Z.abs XSAN_ERROR_TASK_NOT_FOUND, "Task/Job not found");
   (Z.abs XSAN_ERROR_TASK_FAILED, "Task/Job failed");
   (Z.abs XSAN_ERROR_TASK_CANCELLED, "Task/Job cancelled");
   (Z.abs XSAN_ERROR_SECURITY_GENERIC, "Security error");
   (Z.abs XSAN_ERROR_AUTHENTICATION_FAILED, "Authentication failed");
   (Z.abs XSAN_ERROR_AUTHORIZATION_FAILED, "Authorization failed");
   (Z.abs XSAN_ERROR_ENCRYPTION_FAILED, "Encryption failed");
   (Z.abs XSAN_ERROR_DECRYPTION_FAILED, "Decryption failed");
   (Z.abs XSAN_ERROR_THREAD_CONTEXT, "Operation called from an incorrect thread context")].

Definition initialize_error_messages : gmap Z string :=
  fold_left (fun m a => <[a.1 := a.2]> m) error_message_assignments ∅.

Definition xsan_error_string (error : xsan_error_t) : string :=
  if error =? XSAN_OK then default "NULL" (initialize_error_messages !! 0)
  else
    let index := swrap 32 (- error) in
    if (0 <? index) && (index <? ERROR_MESSAGES_ARRAY_SIZE) then
      match initialize_error_messages !! index with
      | Some s => s
      | None => "Unknown error"
      end
    else "Unknown error".

(** ** errno values (Linux) *)

Definition EPERM := 1.
Definition ENOENT := 2.
Definition EINTR := 4.
Definition EIO := 5.
Definition EAGAIN := 11.
Definition ENOMEM := 12.
Definition EACCES := 13.
Definition EBUSY := 16.
Definition EEXIST := 17.
Definition ENODEV := 19.
Definition EINVAL := 22.
Definition ENOSPC := 28.
Definition EADDRINUSE := 98.
Definition ENETDOWN := 100.
Definition ENETUNREACH := 101.
Definition ECONNABORTED := 103.
Definition ECONNRESET := 104.
Definition ETIMEDOUT := 110.
Definition ECONNREFUSED := 111.
Definition EHOSTUNREACH := 113.

Definition xsan_error_from_errno (sys_errno : Z) : xsan_error_t :=
  if sys_errno =? 0 then XSAN_OK
  else if sys_errno =? EINVAL then XSAN_ERROR_INVALID_PARAM
  else if sys_errno =? ENOMEM then XSAN_ERROR_NO_MEMORY
  else if sys_errno =? ENOENT then XSAN_ERROR_NOT_FOUND
  else if sys_errno =? EEXIST then XSAN_ERROR_ALREADY_EXISTS
  else if (sys_errno =? EACCES) || (sys_errno =? EPERM) then XSAN_ERROR_PERMISSION_DENIED
  else if sys_errno =? EBUSY then XSAN_ERROR_BUSY
  else if sys_errno =? ETIMEDOUT then XSAN_ERROR_TIMEOUT
  else if sys_errno =? EINTR then XSAN_ERROR_INTERRUPTED
  else if sys_errno =? EIO then XSAN_ERROR_IO
  else if sys_errno =? ENOSPC then XSAN_ERROR_DISK_FULL
  else if sys_errno =? ECONNRESET then XSAN_ERROR_CONNECTION_LOST
  else if sys_errno =? ECONNREFUSED then XSAN_ERROR_CONNECTION_REFUSED
  else if sys_errno =? ECONNABORTED then XSAN_ERROR_CONNECTION_LOST
  else if sys_errno =? EADDRINUSE then XSAN_ERROR_ADDRESS_IN_USE
  else if sys_errno =? ENETDOWN then XSAN_ERROR_NETWORK_DOWN
  else if (sys_errno =? ENETUNREACH) || (sys_errno =? EHOSTUNREACH)
  then XSAN_ERROR_HOST_UNREACHABLE
  else XSAN_ERROR_SYSTEM.

(** [switch] over a list of case labels. *)
Definition is_one_of (error : xsan_error_t) (cases : list xsan_error_t) : bool :=
  existsb (Z.eqb error) cases.

Definition xsan_error_to_http_status (error : xsan_error_t) : Z :=
  if error =? XSAN_OK then 200
  else if is_one_of error
    [XSAN_ERROR_INVALID_PARAM; XSAN_ERROR_CONFIG_INVALID; XSAN_ERROR_CONFIG_PARSE]
  then 400
  else if is_one_of error [XSAN_ERROR_PERMISSION_DENIED; XSAN_ERROR_AUTHORIZATION_FAILED]
  then 403
  else if is_one_of error [XSAN_ERROR_AUTHENTICATION_FAILED] then 401
  else if is_one_of error
    [XSAN_ERROR_NOT_FOUND; XSAN_ERROR_VOLUME_NOT_FOUND; XSAN_ERROR_NODE_NOT_FOUND;
     XSAN_ERROR_REPLICA_NOT_FOUND; XSAN_ERROR_POLICY_NOT_FOUND; XSAN_ERROR_VM_NOT_FOUND;
     XSAN_ERROR_TASK_NOT_FOUND; XSAN_ERROR_DEVICE_NOT_FOUND]
  then 404
  else if is_one_of error
    [XSAN_ERROR_ALREADY_EXISTS; XSAN_ERROR_VOLUME_EXISTS; XSAN_ERROR_NODE_EXISTS]
  then 409
  else if is_one_of error [XSAN_ERROR_TIMEOUT] then 408
  else if is_one_of error [XSAN_ERROR_BUSY; XSAN_ERROR_VOLUME_BUSY] then 423
  else if is_one_of error [XSAN_ERROR_INSUFFICIENT_SPACE; XSAN_ERROR_DISK_FULL] then 507
  else if is_one_of error
    [XSAN_ERROR_NO_MEMORY; XSAN_ERROR_GENERIC; XSAN_ERROR_IO; XSAN_ERROR_SYSTEM;
     XSAN_ERROR_BLOCK_CORRUPTED; XSAN_ERROR_METADATA_CORRUPTED]
  then 500
  else if is_one_of error [XSAN_ERROR_UNSUPPORTED] then 501
  else if is_one_of error
    [XSAN_ERROR_CLUSTER_NOT_READY; XSAN_ERROR_NODE_UNREACHABLE; XSAN_ERROR_QUORUM_LOST;
     XSAN_ERROR_NETWORK]
  then 503
  else 500.

Definition xsan_error_category_string (error : xsan_error_t) : string :=
  let within lo hi := (lo <=? error) && (error <=? hi) in
  if error =? XSAN_OK then "Success"
  else if within XSAN_ERROR_ALREADY_EXISTS XSAN_ERROR_GENERIC then "Generic"
  else if within XSAN_ERROR_INVALID_PARAM XSAN_ERROR_HOST_UNREACHABLE
  then "File System & Disk"
  else if within XSAN_ERROR_NETWORK_DOWN XSAN_ERROR_CONNECTION_LOST then "Network"
  else if within XSAN_ERROR_INVALID_NODE_STATE XSAN_ERROR_CLUSTER_GENERIC then "Cluster"
  else if within XSAN_ERROR_BLOCK_CORRUPTED XSAN_ERROR_STORAGE_GENERIC
  then "Storage & Device"
  else if within XSAN_ERROR_NOT_ENOUGH_REPLICAS XSAN_ERROR_REPLICATION_GENERIC
  then "Replication"
  else if within XSAN_ERROR_QOS_LIMIT_EXCEEDED XSAN_ERROR_POLICY_GENERIC then "Policy"
  else if within XSAN_ERROR_STORAGE_POOL_FAILED XSAN_ERROR_VIRTUALIZATION_GENERIC
  then "Virtualization"
  else if within XSAN_ERROR_CONFIG_PARSE XSAN_ERROR_CONFIG_GENERIC then "Configuration"
  else if within XSAN_ERROR_METADATA_CORRUPTED XSAN_ERROR_METADATA_GENERIC
  then "Metadata"
  else if within XSAN_ERROR_TASK_CANCELLED XSAN_ERROR_TASK_GENERIC then "Task/Job"
  else if within XSAN_ERROR_DECRYPTION_FAILED XSAN_ERROR_SECURITY_GENERIC then "Security"
  else "Unknown Category".

Definition xsan_error_is_recoverable (error : xsan_error_t) : bool :=
  is_one_of error
    [XSAN_ERROR_TIMEOUT; XSAN_ERROR_INTERRUPTED; XSAN_ERROR_BUSY; XSAN_ERROR_VOLUME_BUSY;
     XSAN_ERROR_CONNECTION_LOST; XSAN_ERROR_CONNECTION_REFUSED;
     XSAN_ERROR_HOST_UNREACHABLE; XSAN_ERROR_NETWORK_DOWN; XSAN_ERROR_NODE_UNREACHABLE;
     XSAN_ERROR_SYNC_FAILED; XSAN_ERROR_CLUSTER_NOT_READY].

Definition xsan_error_is_fatal (error : xsan_error_t) : bool :=
  is_one_of error
    [XSAN_ERROR_NO_MEMORY; XSAN_ERROR_BLOCK_CORRUPTED; XSAN_ERROR_METADATA_CORRUPTED;
     XSAN_ERROR_DEVICE_FAILED; XSAN_ERROR_SPLIT_BRAIN; XSAN_ERROR_QUORUM_LOST;
     XSAN_ERROR_RECOVERY_FAILED; XSAN_ERROR_DISK_FULL; XSAN_ERROR_SYSTEM].

(** The codes of the header that the category ranges leave without a category:
    the general errors below ALREADY_EXISTS and the ends of the network and
    storage blocks. *)
Definition uncategorised_codes : list xsan_error_t :=
  [XSAN_ERROR_TIMEOUT; XSAN_ERROR_NO_MEMORY; XSAN_ERROR_IO; XSAN_ERROR_PERMISSION_DENIED;
   XSAN_ERROR_INTERRUPTED; XSAN_ERROR_SYSTEM; XSAN_ERROR_UNSUPPORTED;
   XSAN_ERROR_NOT_INITIALIZED; XSAN_ERROR_THREAD_CONTEXT; XSAN_ERROR_NETWORK;
   XSAN_ERROR_NODE_UNREACHABLE; XSAN_ERROR_HOST_UNREACHABLE; XSAN_ERROR_DISK_FULL;
   XSAN_ERROR_INSUFFICIENT_SPACE; XSAN_ERROR_STORAGE_IO].

(** The codes of the header that have no message. *)
Definition messageless_codes : list xsan_error_t :=
  [XSAN_ERROR_NODE_UNREACHABLE; XSAN_ERROR_CONNECTION_LOST; XSAN_ERROR_CONNECTION_REFUSED;
   XSAN_ERROR_ADDRESS_IN_USE; XSAN_ERROR_NETWORK_DOWN; XSAN_ERROR_HOST_UNREACHABLE;
   XSAN_ERROR_DISK_FULL; XSAN_ERROR_INSUFFICIENT_SPACE; XSAN_ERROR_STORAGE_IO;
   XSAN_ERROR_CLUSTER_GENERIC; XSAN_ERROR_NODE_NOT_FOUND; XSAN_ERROR_NODE_EXISTS;
   XSAN_ERROR_SPLIT_BRAIN; XSAN_ERROR_QUORUM_LOST; XSAN_ERROR_CLUSTER_NOT_READY;
   XSAN_ERROR_INVALID_NODE_STATE].

(** ** Codes without a definition

    The storage, replication and network sources also return codes that no
    header of the tree defines.  They are left open here: all that is assumed of
    them is that they are none of the codes the header does define, so in
    particular that they are failures. *)
Class StorageCodes := {
  XSAN_ERROR_OUT_OF_MEMORY : xsan_error_t;
  XSAN_ERROR_INTERNAL : xsan_error_t;
  XSAN_ERROR_RESOURCE_UNAVAILABLE : xsan_error_t;
  XSAN_ERROR_TOO_MANY_EXTENTS : xsan_error_t;
  XSAN_ERROR_OUT_OF_BOUNDS : xsan_error_t;
  XSAN_ERROR_UNMAPPED_LBA : xsan_error_t;
  XSAN_ERROR_INVALID_PARAM_ALIGNMENT : xsan_error_t;
  XSAN_ERROR_INVALID_PARAM_SIZE : xsan_error_t;
  XSAN_ERROR_INVALID_MSG_TYPE : xsan_error_t;
  XSAN_ERROR_PROTOCOL_GENERIC : xsan_error_t;
  XSAN_ERROR_REPLICATION_UNAVAILABLE : xsan_error_t;
  XSAN_ERROR_NOT_IMPLEMENTED : xsan_error_t;
  storage_codes_fresh : Forall (fun c => c ∉ xsan_error_codes)
    [XSAN_ERROR_OUT_OF_MEMORY; XSAN_ERROR_INTERNAL; XSAN_ERROR_RESOURCE_UNAVAILABLE;
     XSAN_ERROR_TOO_MANY_EXTENTS; XSAN_ERROR_OUT_OF_BOUNDS; XSAN_ERROR_UNMAPPED_LBA;
     XSAN_ERROR_INVALID_PARAM_ALIGNMENT; XSAN_ERROR_INVALID_PARAM_SIZE;
     XSAN_ERROR_INVALID_MSG_TYPE; XSAN_ERROR_PROTOCOL_GENERIC;
     XSAN_ERROR_REPLICATION_UNAVAILABLE; XSAN_ERROR_NOT_IMPLEMENTED]
}.

(** ** Theorems *)

Lemma is_one_of_spec error cases : is_one_of error cases = true <-> error ∈ cases.
Proof.
  unfold is_one_of. rewrite existsb_exists, list_elem_of_In. split.
  - intros (x & Hx & ->%Z.eqb_eq). done.
  - intros Hx. exists error. split; [done | apply Z.eqb_refl].
Qed.

(** A property of the defined codes is checked by evaluation. *)
Lemma forall_codes (f : xsan_error_t -> bool) :
  forallb f xsan_error_codes = true ->
  forall e, e ∈ xsan_error_codes -> f e = true.
Proof.
  intros H e He. rewrite forallb_forall in H. apply H. now apply list_elem_of_In.
Qed.

(** The translation of errno is success exactly for errno 0. *)
Lemma error_from_errno_ok n : xsan_error_from_errno n = XSAN_OK <-> n = 0.
Proof.
  split.
  - unfold xsan_error_from_errno. repeat case_match; try discriminate.
    intros _. now apply Z.eqb_eq.
  - intros ->. reflexivity.
Qed.

Lemma error_from_errno_in_codes n : xsan_error_from_errno n ∈ xsan_error_codes.
Proof.
  apply is_one_of_spec. unfold xsan_error_from_errno. repeat case_match; reflexivity.
Qed.

(** Among the codes the header defines, exactly fifteen get no category:
    the ranges of the category function follow another numbering. *)
Theorem category_string_exact e :
  e ∈ xsan_error_codes ->
  xsan_error_category_string e = "Unknown Category" <-> e ∈ uncategorised_codes.
Proof.
  intros He.
  pose (f e := Bool.eqb (bool_decide (xsan_error_category_string e = "Unknown Category"))
                        (is_one_of e uncategorised_codes)).
  assert (Hf : f e = true) by (apply forall_codes; [vm_compute; reflexivity | done]).
  unfold f in Hf. apply eqb_prop in Hf. rewrite <- is_one_of_spec, <- Hf.
  now rewrite bool_decide_eq_true.
Qed.

Lemma category_string_exact_witness :
  xsan_error_category_string XSAN_ERROR_SYSTEM = "Unknown Category".
Proof.
  apply (category_string_exact XSAN_ERROR_SYSTEM); apply is_one_of_spec; reflexivity.
Defined.

Lemma error_string_exact e :
  e ∈ xsan_error_codes ->
  xsan_error_string e = "Unknown error" <-> e ∈ messageless_codes.
Proof.
  intros He.
  pose (f e := Bool.eqb (bool_decide (xsan_error_string e = "Unknown error"))
                        (is_one_of e messageless_codes)).
  assert (Hf : f e = true) by (apply forall_codes; [vm_compute; reflexivity | done]).
  unfold f in Hf. apply eqb_prop in Hf. rewrite <- is_one_of_spec, <- Hf.
  now rewrite bool_decide_eq_true.
Qed.

(** No error is both recoverable and fatal. *)
Lemma recoverable_not_fatal e :
  xsan_error_is_recoverable e = true -> xsan_error_is_fatal e = false.
Proof.
  intros H%is_one_of_spec. unfold xsan_error_is_fatal.
  repeat (apply elem_of_cons in H as [-> | H]; [reflexivity |]).
  now apply elem_of_nil in H.
Qed.

(** An instance of the open codes, for the witnesses. *)
#[export] Instance toy_codes : StorageCodes.
Proof.
  refine {|
    XSAN_ERROR_OUT_OF_MEMORY := -301; XSAN_ERROR_INTERNAL := -302;
    XSAN_ERROR_RESOURCE_UNAVAILABLE := -303; XSAN_ERROR_TOO_MANY_EXTENTS := -304;
    XSAN_ERROR_OUT_OF_BOUNDS := -305; XSAN_ERROR_UNMAPPED_LBA := -306;
    XSAN_ERROR_INVALID_PARAM_ALIGNMENT := -307; XSAN_ERROR_INVALID_PARAM_SIZE := -308;
    XSAN_ERROR_INVALID_MSG_TYPE := -309; XSAN_ERROR_PROTOCOL_GENERIC := -310;
    XSAN_ERROR_REPLICATION_UNAVAILABLE := -311; XSAN_ERROR_NOT_IMPLEMENTED := -312 |}.
  apply (bool_decide_unpack _). vm_compute. exact I.
Defined.

Section OpenCodes.
Context {SC : StorageCodes}.

(** No open code is a code of the header. *)
Ltac fresh_code :=
  intros He; pose proof storage_codes_fresh as Hf; rewrite !Forall_cons in Hf;
  destruct_and! Hf; repeat match goal with
  | H : ?c ∉ xsan_error_codes |- _ =>
      first [destruct H; rewrite He; apply (bool_decide_unpack _); vm_compute; exact I
            |clear H]
  end.

Lemma out_of_memory_fails : XSAN_ERROR_OUT_OF_MEMORY <> XSAN_OK.
Proof. fresh_code. Qed.
Lemma internal_fails : XSAN_ERROR_INTERNAL <> XSAN_OK.
Proof. fresh_code. Qed.
Lemma resource_unavailable_fails : XSAN_ERROR_RESOURCE_UNAVAILABLE <> XSAN_OK.
Proof. fresh_code. Qed.
Lemma too_many_extents_fails : XSAN_ERROR_TOO_MANY_EXTENTS <> XSAN_OK.
Proof. fresh_code. Qed.
Lemma out_of_bounds_fails : XSAN_ERROR_OUT_OF_BOUNDS <> XSAN_OK.
Proof. fresh_code. Qed.
Lemma unmapped_lba_fails : XSAN_ERROR_UNMAPPED_LBA <> XSAN_OK.
Proof. fresh_code. Qed.
Lemma alignment_fails : XSAN_ERROR_INVALID_PARAM_ALIGNMENT <> XSAN_OK.
Proof. fresh_code. Qed.
Lemma size_fails : XSAN_ERROR_INVALID_PARAM_SIZE <> XSAN_OK.
Proof. fresh_code. Qed.
Lemma msg_type_fails : XSAN_ERROR_INVALID_MSG_TYPE <> XSAN_OK.
Proof. fresh_code. Qed.
Lemma protocol_generic_fails : XSAN_ERROR_PROTOCOL_GENERIC <> XSAN_OK.
Proof. fresh_code. Qed.
Lemma replication_unavailable_fails : XSAN_ERROR_REPLICATION_UNAVAILABLE <> XSAN_OK.
Proof. fresh_code. Qed.
Lemma not_implemented_fails : XSAN_ERROR_NOT_IMPLEMENTED <> XSAN_OK.
Proof. fresh_code. Qed.
End OpenCodes.

#[export] Hint Resolve out_of_memory_fails internal_fails resource_unavailable_fails
  too_many_extents_fails out_of_bounds_fails unmapped_lba_fails alignment_fails size_fails
  msg_type_fails protocol_generic_fails replication_unavailable_fails
  not_implemented_fails : xsan.
