(* ===== verification/Protocol.v ===== *)
(** * The wire protocol

    Models [src/network/protocol.c] and [src/include/xsan_protocol.h]: the
    24-byte message header, its serialization in network byte order, the
    checksum, and message construction.  Byte strings are lists of integers in
    [0, 256); the host is little-endian ([__BYTE_ORDER == __LITTLE_ENDIAN]), so
    [memcpy] from an integer yields its little-endian bytes. *)

From stdpp Require Import prelude.
From Stdlib Require Import Permutation Zbitwise.
From S2P Require Import Prelude Errors.

#[local] Open Scope Z_scope.

(** ** Bytes of machine integers *)

Definition is_bytes (l : list Z) : Prop := Forall (fun b => 0 <= b < 256) l.

(** The object representation of an [n]-byte integer on the host. *)
Fixpoint le_bytes (n : nat) (z : Z) : list Z :=
  match n with
  | O => []
  | S n' => z mod 256 :: le_bytes n' (z / 256)
  end.

(** The integer read back from an object representation. *)
Fixpoint le_val (l : list Z) : Z :=
  match l with
  | [] => 0
  | b :: l' => b + 256 * le_val l'
  end.

Definition bswap (n : nat) (z : Z) : Z := le_val (rev (le_bytes n z)).

(** Big-endian bytes of an integer. *)
Definition be_bytes (n : nat) (z : Z) : list Z := rev (le_bytes n z).

(** Network byte order conversions on the little-endian host; [ntohl] and
    [ntohs] are the same functions. *)
Definition htonl (v : Z) : Z := bswap 4 v.
Definition htons (v : Z) : Z := bswap 2 v.

Definition local_htonll (val : Z) : Z :=
  Z.lor (Z.shiftl (htonl (Z.land val 0xFFFFFFFF)) 32) (htonl (Z.shiftr val 32)).

(** ** Message types and the header *)

Definition XSAN_PROTOCOL_MAGIC : Z := 0x5853414E.
Definition XSAN_PROTOCOL_VERSION : Z := 1.
Definition XSAN_PROTOCOL_MAX_PAYLOAD_SIZE : Z := 16 * 1024 * 1024.
Definition XSAN_MESSAGE_HEADER_SIZE : Z := 24.

Inductive xsan_message_type :=
  | UNDEFINED | HEARTBEAT | HEARTBEAT_ACK | NODE_REGISTER_REQ | NODE_REGISTER_RESP
  | GET_CLUSTER_STATUS_REQ | GET_CLUSTER_STATUS_RESP
  | READ_BLOCK_REQ | READ_BLOCK_RESP | WRITE_BLOCK_REQ | WRITE_BLOCK_RESP
  | CREATE_VOLUME_REQ | CREATE_VOLUME_RESP | DELETE_VOLUME_REQ | DELETE_VOLUME_RESP
  | ERROR_RESP
  | REPLICA_WRITE_BLOCK_REQ | REPLICA_WRITE_BLOCK_RESP
  | REPLICA_READ_BLOCK_REQ | REPLICA_READ_BLOCK_RESP.

Definition msg_type_code (t : xsan_message_type) : Z :=
  match t with
  | UNDEFINED => 0 | HEARTBEAT => 1 | HEARTBEAT_ACK => 2
  | NODE_REGISTER_REQ => 10 | NODE_REGISTER_RESP => 11
  | GET_CLUSTER_STATUS_REQ => 20 | GET_CLUSTER_STATUS_RESP => 21
  | READ_BLOCK_REQ => 100 | READ_BLOCK_RESP => 101
  | WRITE_BLOCK_REQ => 102 | WRITE_BLOCK_RESP => 103
  | CREATE_VOLUME_REQ => 200 | CREATE_VOLUME_RESP => 201
  | DELETE_VOLUME_REQ => 202 | DELETE_VOLUME_RESP => 203
  | ERROR_RESP => 500
  | REPLICA_WRITE_BLOCK_REQ => 600 | REPLICA_WRITE_BLOCK_RESP => 601
  | REPLICA_READ_BLOCK_REQ => 602 | REPLICA_READ_BLOCK_RESP => 603
  end.

(** The sentinel after the last enumerator. *)
Definition XSAN_MSG_TYPE_MAX : Z := 604.

Record xsan_message_header := mk_header {
  magic : Z; type : Z; version : Z; payload_length : Z; transaction_id : Z; checksum : Z
}.

Record header_wf (h : xsan_message_header) : Prop := {
  hw_magic : in_u 32 (magic h);
  hw_type : in_u 16 (type h);
  hw_version : in_u 16 (version h);
  hw_payload_length : in_u 32 (payload_length h);
  hw_transaction_id : in_u 64 (transaction_id h);
  hw_checksum : in_u 32 (checksum h)
}.

(** [payload] is [None] for the NULL pointer. *)
Record xsan_message := mk_message {
  m_header : xsan_message_header;
  m_payload : option (list Z)
}.

Definition xsan_protocol_header_init (type payload_length transaction_id : Z)
  : xsan_message_header :=
  mk_header XSAN_PROTOCOL_MAGIC (wrap 16 type) XSAN_PROTOCOL_VERSION payload_length
    transaction_id 0.

(** The bytes stored into the caller's buffer. *)
Definition xsan_protocol_header_serialize (h : xsan_message_header) : list Z :=
  let magic_n := htonl (magic h) in
  let type_n := htons (type h) in
  let version_n := htons (version h) in
  let payload_length_n := htonl (payload_length h) in
  let transaction_id_n := local_htonll (transaction_id h) in
  let checksum_n := htonl (checksum h) in
  le_bytes 4 magic_n ++ le_bytes 2 type_n ++ le_bytes 2 version_n ++
  le_bytes 4 payload_length_n ++ le_bytes 8 transaction_id_n ++ le_bytes 4 checksum_n.

(** [memcpy] of [n] bytes at offset [off] of the buffer into an integer. *)
Definition load (off n : nat) (buffer : list Z) : Z := le_val (take n (drop off buffer)).

(** The header structure is filled field by field; on an early return it keeps
    the fields read so far. *)
Definition xsan_protocol_header_deserialize (buffer : list Z) (h0 : xsan_message_header)
  : xsan_error_t * xsan_message_header :=
  let h1 := mk_header (htonl (load 0 4 buffer)) (type h0) (version h0)
              (payload_length h0) (transaction_id h0) (checksum h0) in
  if negb (magic h1 =? XSAN_PROTOCOL_MAGIC) then (XSAN_ERROR_INVALID_PARAM, h1)
  else
    let h2 := mk_header (magic h1) (htons (load 4 2 buffer)) (htons (load 6 2 buffer))
                (htonl (load 8 4 buffer)) (transaction_id h1) (checksum h1) in
    if XSAN_PROTOCOL_MAX_PAYLOAD_SIZE <? payload_length h2
    then (XSAN_ERROR_INVALID_PARAM, h2)
    else
      (XSAN_OK,
       mk_header (magic h2) (type h2) (version h2) (payload_length h2)
         (local_htonll (load 12 8 buffer)) (htonl (load 20 4 buffer))).

(** ** Checksum *)

Definition xsan_protocol_calculate_checksum (data : list Z) : Z :=
  fold_left (fun c b => Z.land (wrap 32 (c + b)) 0xFFFFFFFF) data 0.

(** The buffer that the checksum runs over: [fresh] is the content of the block
    returned by the allocator, overwritten by the serialized header and, when
    there is a payload, by the payload's first [payload_length] bytes. *)
Definition checksum_data (h : xsan_message_header) (payload : option (list Z))
    (fresh : list Z) : list Z :=
  xsan_protocol_header_serialize h ++
  match payload with
  | Some p => if 0 <? payload_length h then take (Z.to_nat (payload_length h)) p else []
  | None => take (Z.to_nat (payload_length h)) (drop 24 fresh)
  end.

Definition clear_checksum (h : xsan_message_header) : xsan_message_header :=
  mk_header (magic h) (type h) (version h) (payload_length h) (transaction_id h) 0.

Section Allocation.
(** [malloc_ok n] tells whether an allocation of [n] bytes succeeds. *)
Variable malloc_ok : Z -> bool.

Definition xsan_protocol_verify_checksum (h : xsan_message_header)
    (payload : option (list Z)) (fresh : list Z) : bool :=
  if checksum h =? 0 then true
  else
    let temp := clear_checksum h in
    if negb (malloc_ok (XSAN_MESSAGE_HEADER_SIZE + payload_length h)) then false
    else xsan_protocol_calculate_checksum (checksum_data temp payload fresh) =? checksum h.

(** [sizeof(xsan_message_t)]: the packed header followed by an aligned pointer. *)
Definition sizeof_message : Z := 32.

(** Checksum computation and the end of both constructors. *)
Definition finish_message (h : xsan_message_header) (payload : option (list Z))
    (fresh : list Z) : option xsan_message :=
  if negb (malloc_ok (XSAN_MESSAGE_HEADER_SIZE + payload_length h)) then None
  else
    Some (mk_message
      (mk_header (magic h) (type h) (version h) (payload_length h) (transaction_id h)
         (xsan_protocol_calculate_checksum (checksum_data h payload fresh)))
      payload).

Definition xsan_protocol_message_create (type transaction_id : Z)
    (payload_data : option (list Z)) (payload_length : Z) (fresh : list Z)
  : option xsan_message :=
  if XSAN_PROTOCOL_MAX_PAYLOAD_SIZE <? payload_length then None
  else if negb (malloc_ok sizeof_message) then None
  else
    let header := xsan_protocol_header_init type payload_length transaction_id in
    if 0 <? payload_length then
      if negb (malloc_ok payload_length) then None
      else
        let payload := match payload_data with
                       | Some d => take (Z.to_nat payload_length) d
                       | None => replicate (Z.to_nat payload_length) 0
                       end in
        finish_message header (Some payload) fresh
    else finish_message header None fresh.

(** The copy of the structured part and the additional part into the fresh
    payload block [block]: [ptr] advances only past a copied structured part,
    and the bytes that no copy reaches keep the block's content. *)
Definition fill_payload (structured additional : option (list Z))
    (slen alen : Z) (block : list Z) : list Z :=
  let head := match structured with
              | Some s => if 0 <? slen then take (Z.to_nat slen) s else []
              | None => []
              end in
  let tail := match additional with
              | Some a => if 0 <? alen then take (Z.to_nat alen) a else []
              | None => []
              end in
  let written := head ++ tail in
  written ++ drop (length written) block.

Definition xsan_protocol_message_create_with_data (type transaction_id : Z)
    (structured : option (list Z)) (structured_len : Z)
    (additional : option (list Z)) (additional_len : Z)
    (block fresh : list Z) : option xsan_message :=
  let total_64 := wrap 64 (structured_len + additional_len) in
  if XSAN_PROTOCOL_MAX_PAYLOAD_SIZE <? total_64 then None
  else
    let total := wrap 32 total_64 in
    if negb (malloc_ok sizeof_message) then None
    else
      let header := xsan_protocol_header_init type total transaction_id in
      if 0 <? total then
        if negb (malloc_ok total) then None
        else
          finish_message header
            (Some (fill_payload structured additional structured_len additional_len
                     (take (Z.to_nat total) block)))
            fresh
      else finish_message header None fresh.
End Allocation.

(** The payload that [xsan_protocol_message_create] stores. *)
Definition created_payload (payload_data : option (list Z)) (len : Z) : list Z :=
  match payload_data with
  | Some d => take (Z.to_nat len) d
  | None => replicate (Z.to_nat len) 0
  end.

(** Sum of a list of integers. *)
Definition sumZ (l : list Z) : Z := fold_right Z.add 0 l.

(** What a message made by either constructor looks like. *)
Record message_ok (m : xsan_message) (type tid : Z) (p : list Z) : Prop := {
  mo_clear : clear_checksum (m_header m) = xsan_protocol_header_init type (Zlen p) tid;
  mo_payload : m_payload m = if 0 <? Zlen p then Some p else None;
  mo_bytes : is_bytes p;
  mo_len : Zlen p <= XSAN_PROTOCOL_MAX_PAYLOAD_SIZE;
  mo_checksum : checksum (m_header m) =
    sumZ (xsan_protocol_header_serialize (xsan_protocol_header_init type (Zlen p) tid)) + sumZ p;
  mo_range : 0 < checksum (m_header m) < 2 ^ 32
}.

(** ** Byte lemmas *)

Lemma le_bytes_length n z : length (le_bytes n z) = n.
Proof. revert z. induction n; intros; simpl; auto. Qed.

Lemma le_bytes_range n z : is_bytes (le_bytes n z).
Proof.
  revert z. induction n as [|n IH]; intros z; simpl; constructor; [|apply IH].
  apply Z.mod_pos_bound. lia.
Qed.

Lemma le_val_range l : is_bytes l -> 0 <= le_val l < 256 ^ Zlen l.
Proof.
  induction 1 as [|b l Hb _ IH]; [unfold Zlen; simpl; lia|].
  rewrite Zlen_cons, Z.pow_add_r by (pose proof (Zlen_nonneg l); lia). simpl. lia.
Qed.

Lemma le_val_bytes n z : le_val (le_bytes n z) = z mod 256 ^ Z.of_nat n.
Proof.
  revert z. induction n as [|n IH]; intros z.
  - simpl. now rewrite Z.mod_1_r.
  - cbn [le_bytes le_val]. rewrite IH, Nat2Z.inj_succ, Z.pow_succ_r by lia.
    rewrite Z.rem_mul_r by (try apply Z.pow_pos_nonneg; lia). lia.
Qed.

Lemma le_bytes_val l : is_bytes l -> le_bytes (length l) (le_val l) = l.
Proof.
  induction 1 as [|b l Hb _ IH]; [done|]. cbn [length le_bytes le_val].
  rewrite (Z.mul_comm 256), Z.mod_add, (Z.mod_small b) by lia.
  rewrite Z.div_add, (Z.div_small b), Z.add_0_l by lia. now rewrite IH.
Qed.

Lemma le_val_app a b : le_val (a ++ b) = le_val a + 256 ^ Zlen a * le_val b.
Proof.
  induction a as [|x a IH]; [unfold Zlen; simpl; lia|].
  rewrite Zlen_cons, Z.pow_add_r by (pose proof (Zlen_nonneg a); lia). simpl. rewrite IH. lia.
Qed.

Lemma le_bytes_app n m z :
  le_bytes (n + m) z = le_bytes n z ++ le_bytes m (z / 256 ^ Z.of_nat n).
Proof.
  revert z. induction n as [|n IH]; intros z.
  - simpl. now rewrite Z.div_1_r.
  - cbn [le_bytes plus app]. rewrite IH, Nat2Z.inj_succ, Z.pow_succ_r by lia.
    now rewrite Z.div_div by (try apply Z.pow_pos_nonneg; lia).
Qed.

Lemma le_bytes_mod n z : le_bytes n (z mod 256 ^ Z.of_nat n) = le_bytes n z.
Proof.
  rewrite <- le_val_bytes. rewrite <- (le_bytes_length n z) at 1.
  apply le_bytes_val, le_bytes_range.
Qed.

Lemma is_bytes_app a b : is_bytes (a ++ b) <-> is_bytes a /\ is_bytes b.
Proof. apply Forall_app. Qed.

Lemma is_bytes_rev l : is_bytes l -> is_bytes (rev l).
Proof. apply Forall_rev. Qed.

(** Storing a byte-swapped integer stores the big-endian bytes. *)
Lemma store_bswap n z : le_bytes n (bswap n z) = rev (le_bytes n z).
Proof.
  unfold bswap. rewrite <- (le_bytes_length n z) at 1. rewrite <- length_rev.
  apply le_bytes_val, is_bytes_rev, le_bytes_range.
Qed.

Lemma bswap_bswap n z : bswap n (bswap n z) = z mod 256 ^ Z.of_nat n.
Proof. unfold bswap at 1. now rewrite store_bswap, rev_involutive, le_val_bytes. Qed.

Lemma bswap_range n z : 0 <= bswap n z < 256 ^ Z.of_nat n.
Proof.
  unfold bswap. pose proof (le_val_range _ (is_bytes_rev _ (le_bytes_range n z))) as H.
  unfold Zlen in H. now rewrite length_rev, le_bytes_length in H.
Qed.

Lemma lor_shiftl_add a b n :
  0 <= n -> 0 <= b < 2 ^ n -> Z.lor (Z.shiftl a n) b = b + 2 ^ n * a.
Proof.
  intros Hn Hb. pose proof (Z.add_lor_land (Z.shiftl a n) b) as H.
  rewrite Z.shiftl_mul_pow2 in * by lia.
  enough (Z.land (a * 2 ^ n) b = 0) by lia.
  rewrite <- Z.shiftl_mul_pow2 by lia. apply Z.bits_inj'. intros i Hi.
  rewrite Z.land_spec, Z.bits_0, Z.shiftl_spec by lia.
  destruct (Z.ltb_spec i n) as [Hlt|Hge]; [now rewrite Z.testbit_neg_r by lia|].
  apply andb_false_intro2. rewrite Z.testbit_false by lia.
  rewrite Z.div_small; [done|]. pose proof (Z.pow_le_mono_r 2 n i). lia.
Qed.

(** The manual 64-bit conversion is the 8-byte swap. *)
Lemma local_htonll_bswap v : in_u 64 v -> local_htonll v = bswap 8 v.
Proof.
  unfold in_u. intros Hv. unfold local_htonll, htonl.
  rewrite lor_shiftl_add by (try apply (bswap_range 4); lia).
  change 0xFFFFFFFF with (Z.ones 32). rewrite Z.land_ones, Z.shiftr_div_pow2 by lia.
  unfold bswap at 3. change 8%nat with (4 + 4)%nat. rewrite le_bytes_app, rev_app_distr.
  rewrite le_val_app. unfold Zlen. rewrite length_rev, le_bytes_length.
  unfold bswap. change (2 ^ 32) with (256 ^ Z.of_nat 4). now rewrite le_bytes_mod.
Qed.

Lemma be_bytes_length n z : length (be_bytes n z) = n.
Proof. unfold be_bytes. now rewrite length_rev, le_bytes_length. Qed.

Lemma be_bytes_range n z : is_bytes (be_bytes n z).
Proof. apply is_bytes_rev, le_bytes_range. Qed.

Lemma serialize_be h :
  header_wf h ->
  xsan_protocol_header_serialize h =
    be_bytes 4 (magic h) ++ be_bytes 2 (type h) ++ be_bytes 2 (version h) ++
    be_bytes 4 (payload_length h) ++ be_bytes 8 (transaction_id h) ++ be_bytes 4 (checksum h).
Proof.
  intros [_ _ _ _ Ht _]. unfold xsan_protocol_header_serialize, htonl, htons.
  rewrite local_htonll_bswap by done. now rewrite !store_bswap.
Qed.

Lemma serialize_length h : header_wf h -> length (xsan_protocol_header_serialize h) = 24%nat.
Proof. intros Hw. rewrite serialize_be by done. now rewrite !length_app, !be_bytes_length. Qed.

Lemma serialize_bytes h : header_wf h -> is_bytes (xsan_protocol_header_serialize h).
Proof.
  intros Hw. rewrite serialize_be by done. unfold is_bytes. rewrite !Forall_app.
  split_and!; apply be_bytes_range.
Qed.

(** Loading a field back from its place in a buffer. *)
Lemma load_field pre n z post :
  load (length pre) n (pre ++ be_bytes n z ++ post) = bswap n z.
Proof.
  unfold load. rewrite drop_app_length, take_app_length' by now rewrite be_bytes_length.
  reflexivity.
Qed.

Lemma load_field_at off pre n z post buf :
  buf = pre ++ be_bytes n z ++ post -> off = length pre -> load off n buf = bswap n z.
Proof. intros -> ->. apply load_field. Qed.

Ltac field pre :=
  eapply (load_field_at _ pre); [rewrite <- ?app_assoc; reflexivity |
    rewrite ?length_app, ?be_bytes_length; reflexivity].

(** The six fields of a serialized header, read back from a longer buffer. *)
Lemma load_header h rest :
  header_wf h ->
  let buf := xsan_protocol_header_serialize h ++ rest in
  load 0 4 buf = bswap 4 (magic h) /\ load 4 2 buf = bswap 2 (type h) /\
  load 6 2 buf = bswap 2 (version h) /\ load 8 4 buf = bswap 4 (payload_length h) /\
  load 12 8 buf = bswap 8 (transaction_id h) /\ load 20 4 buf = bswap 4 (checksum h).
Proof.
  intros Hw. rewrite serialize_be by done. rewrite <- !app_assoc. simpl.
  pose (b1 := be_bytes 4 (magic h)). pose (b2 := be_bytes 2 (type h)).
  pose (b3 := be_bytes 2 (version h)). pose (b4 := be_bytes 4 (payload_length h)).
  pose (b5 := be_bytes 8 (transaction_id h)).
  split_and!; [field (@nil Z) | field b1 | field (b1 ++ b2) | field (b1 ++ b2 ++ b3)
              | field (b1 ++ b2 ++ b3 ++ b4) | field (b1 ++ b2 ++ b3 ++ b4 ++ b5)].
Qed.

Lemma htonll_bswap z : 0 <= z < 2 ^ 64 -> local_htonll (bswap 8 z) = z.
Proof.
  intros Hz. rewrite local_htonll_bswap by apply (bswap_range 8).
  rewrite bswap_bswap. now apply Z.mod_small.
Qed.

Lemma deserialize_serialize h h0 rest :
  header_wf h -> magic h = XSAN_PROTOCOL_MAGIC ->
  payload_length h <= XSAN_PROTOCOL_MAX_PAYLOAD_SIZE ->
  xsan_protocol_header_deserialize (xsan_protocol_header_serialize h ++ rest) h0 = (XSAN_OK, h).
Proof.
  intros Hw Hm Hp. destruct (load_header h rest Hw) as (L1 & L2 & L3 & L4 & L5 & L6).
  destruct Hw as [H1 H2 H3 H4 H5 H6]. unfold in_u in *.
  unfold xsan_protocol_header_deserialize, htonl, htons.
  rewrite L1, L2, L3, L4, L5, L6, htonll_bswap, !bswap_bswap by done.
  rewrite !Z.mod_small by done. cbn [magic payload_length transaction_id checksum type version].
  rewrite Hm, Z.eqb_refl. simpl negb. cbn iota.
  destruct (Z.ltb_spec XSAN_PROTOCOL_MAX_PAYLOAD_SIZE (payload_length h)); [lia|].
  destruct h; simpl in *. now rewrite Hm.
Qed.

Lemma take_bytes n l : is_bytes l -> is_bytes (take n l).
Proof. apply Forall_take. Qed.

Lemma load_bytes_back off n buf :
  is_bytes buf -> (off + n <= length buf)%nat ->
  be_bytes n (bswap n (load off n buf)) = take n (drop off buf) /\
  0 <= load off n buf < 256 ^ Z.of_nat n.
Proof.
  intros Hb Hl. set (c := take n (drop off buf)).
  assert (Hc : is_bytes c) by (apply Forall_take, Forall_drop, Hb).
  assert (Hn : length c = n) by (unfold c; rewrite length_take, length_drop; lia).
  split.
  - unfold be_bytes. rewrite store_bswap, rev_involutive. unfold load. fold c.
    rewrite <- Hn at 1. now apply le_bytes_val.
  - pose proof (le_val_range c Hc) as H. unfold Zlen in H. now rewrite Hn in H.
Qed.

(** Consecutive chunks of a buffer, joined. *)
Lemma take_split n m (l : list Z) : take (n + m) l = take n l ++ take m (drop n l).
Proof. now rewrite take_take_drop. Qed.

Lemma deserialize_ok buf h0 h :
  is_bytes buf -> (24 <= length buf)%nat ->
  xsan_protocol_header_deserialize buf h0 = (XSAN_OK, h) ->
  take 24 buf = xsan_protocol_header_serialize h /\ header_wf h /\
  magic h = XSAN_PROTOCOL_MAGIC /\ payload_length h <= XSAN_PROTOCOL_MAX_PAYLOAD_SIZE.
Proof.
  intros Hb Hl. unfold xsan_protocol_header_deserialize, htonl, htons.
  cbn [magic payload_length transaction_id checksum type version].
  destruct (Z.eqb_spec (bswap 4 (load 0 4 buf)) XSAN_PROTOCOL_MAGIC) as [Hm|]; [|done].
  destruct (Z.ltb_spec XSAN_PROTOCOL_MAX_PAYLOAD_SIZE (bswap 4 (load 8 4 buf))); [done|].
  simpl negb. cbn iota. intros [= <-].
  assert (Hr : forall off n, (off + n <= 24)%nat ->
    be_bytes n (bswap n (load off n buf)) = take n (drop off buf) /\
    0 <= load off n buf < 256 ^ Z.of_nat n) by (intros; apply load_bytes_back; auto; lia).
  rewrite local_htonll_bswap by (apply (Hr 12%nat 8%nat); lia).
  match goal with |- _ = xsan_protocol_header_serialize ?h /\ _ => assert (Hw : header_wf h) end.
  { constructor; cbn [magic payload_length transaction_id checksum type version];
      first [apply (bswap_range 4) | apply (bswap_range 2) | apply (bswap_range 8)]. }
  split_and!; [|done..]. rewrite serialize_be by done.
  cbn [magic payload_length transaction_id checksum type version].
  rewrite !(fun off n H => proj1 (Hr off n H)) by lia.
  rewrite (take_split 4 20), (take_split 2 18 (drop 4 _)), (take_split 2 16 (drop 2 _)).
  rewrite (take_split 4 12 (drop 2 _)), (take_split 8 4 (drop 4 _)), !drop_drop. done.
Qed.

(** ** Checksum lemmas *)

Lemma sumZ_app a b : sumZ (a ++ b) = sumZ a + sumZ b.
Proof. induction a; simpl; lia. Qed.

Lemma sumZ_bound l : is_bytes l -> 0 <= sumZ l <= 255 * Zlen l.
Proof.
  induction 1 as [|b l Hb _ IH]; [simpl; unfold Zlen; simpl; lia|].
  rewrite Zlen_cons. simpl. lia.
Qed.

Lemma sumZ_perm a b : Permutation a b -> sumZ a = sumZ b.
Proof. induction 1; simpl; lia. Qed.

Lemma sumZ_insert i b l x : l !! i = Some x -> sumZ (<[i := b]> l) = sumZ l - x + b.
Proof.
  revert i. induction l as [|y l IH]; intros [|i] Hx; simplify_eq/=; [lia|].
  rewrite (IH _ Hx). lia.
Qed.

(** The loop computes the byte sum modulo 2^32. *)
Lemma checksum_sum data : xsan_protocol_calculate_checksum data = wrap 32 (sumZ data).
Proof.
  unfold xsan_protocol_calculate_checksum.
  enough (H : forall c, wrap 32 c = c -> fold_left (fun c b => Z.land (wrap 32 (c + b)) 0xFFFFFFFF)
    data c = wrap 32 (c + sumZ data)) by now rewrite H.
  induction data as [|b data IH]; intros c Hc; simpl; [now rewrite Z.add_0_r|].
  change 0xFFFFFFFF with (Z.ones 32). rewrite Z.land_ones by lia.
  change (wrap 32 (c + b) mod 2 ^ 32) with (wrap 32 (wrap 32 (c + b))).
  rewrite wrap_wrap, IH by (try apply wrap_wrap; lia).
  unfold wrap. rewrite Z.add_mod_idemp_l by lia. f_equal. lia.
Qed.

Lemma finish_message_inv mok h p fresh m :
  finish_message mok h p fresh = Some m ->
  clear_checksum (m_header m) = clear_checksum h /\ m_payload m = p /\
  checksum (m_header m) = xsan_protocol_calculate_checksum (checksum_data h p fresh).
Proof. unfold finish_message. destruct (mok _); [|done]. by intros [= <-]. Qed.

Lemma header_init_wf ty len tid :
  in_u 64 tid -> 0 <= len <= XSAN_PROTOCOL_MAX_PAYLOAD_SIZE ->
  header_wf (xsan_protocol_header_init ty len tid).
Proof.
  intros Ht Hl. unfold XSAN_PROTOCOL_MAX_PAYLOAD_SIZE in Hl.
  constructor; simpl; auto with xsan; unfold in_u; [vm_compute; easy | apply wrap_range; lia
    | vm_compute; easy | lia | vm_compute; easy].
Qed.

(** The checksum of a header with the protocol magic and a payload within the
    limit is the exact byte sum: it does not wrap and is not zero. *)
Lemma checksum_exact h p fresh :
  header_wf h -> magic h = XSAN_PROTOCOL_MAGIC ->
  payload_length h <= XSAN_PROTOCOL_MAX_PAYLOAD_SIZE ->
  is_bytes p -> Zlen p = payload_length h ->
  xsan_protocol_calculate_checksum (checksum_data h (Some p) fresh) =
    sumZ (xsan_protocol_header_serialize h) + sumZ p /\
  0 < sumZ (xsan_protocol_header_serialize h) + sumZ p < 2 ^ 32.
Proof.
  intros Hw Hm Hp Hb Hl. pose proof (sumZ_bound _ (serialize_bytes h Hw)) as B1.
  pose proof (sumZ_bound p Hb) as B2. unfold Zlen in B1. rewrite serialize_length in B1 by done.
  unfold XSAN_PROTOCOL_MAX_PAYLOAD_SIZE in Hp.
  assert (Hpos : 314 <= sumZ (xsan_protocol_header_serialize h)).
  { rewrite serialize_be, Hm, sumZ_app by done.
    change (sumZ (be_bytes 4 XSAN_PROTOCOL_MAGIC)) with 314.
    match goal with |- _ <= _ + sumZ ?l => assert (0 <= sumZ l) end; [|lia].
    apply sumZ_bound. unfold is_bytes. rewrite !Forall_app. split_and!; apply be_bytes_range. }
  assert (Hpay : checksum_data h (Some p) fresh = xsan_protocol_header_serialize h ++ p).
  { unfold checksum_data. f_equal. unfold Zlen in Hl.
    destruct (Z.ltb_spec 0 (payload_length h)).
    - rewrite take_ge; [done | lia].
    - destruct p; [done | simpl in Hl; lia]. }
  rewrite Hpay, checksum_sum, sumZ_app, wrap_small; unfold in_u; lia.
Qed.

Lemma checksum_data_nil h fresh fresh' :
  payload_length h = 0 -> checksum_data h None fresh = checksum_data h (Some []) fresh'.
Proof. intros E. unfold checksum_data. rewrite E. done. Qed.

Lemma finish_message_ok mok type tid p fresh m :
  in_u 64 tid -> is_bytes p -> Zlen p <= XSAN_PROTOCOL_MAX_PAYLOAD_SIZE ->
  finish_message mok (xsan_protocol_header_init type (Zlen p) tid)
    (if 0 <? Zlen p then Some p else None) fresh = Some m ->
  message_ok m type tid p.
Proof.
  intros Ht Hb Hl (E1 & E2 & E3)%finish_message_inv.
  pose proof (Zlen_nonneg p) as Hn.
  pose proof (header_init_wf type (Zlen p) tid Ht (conj Hn Hl)) as Hw.
  destruct (checksum_exact _ p fresh Hw eq_refl Hl Hb eq_refl) as [Hc Hr].
  assert (Hcs : checksum (m_header m) =
    sumZ (xsan_protocol_header_serialize (xsan_protocol_header_init type (Zlen p) tid)) + sumZ p).
  { rewrite E3, <- Hc. destruct (Z.ltb_spec 0 (Zlen p)); [done|].
    destruct p; [|rewrite Zlen_cons in *; pose proof (Zlen_nonneg p); lia].
    now rewrite (checksum_data_nil _ fresh fresh). }
  constructor; try done. now rewrite Hcs.
Qed.

Lemma message_ok_wf m type tid p :
  in_u 64 tid -> message_ok m type tid p ->
  header_wf (m_header m) /\ magic (m_header m) = XSAN_PROTOCOL_MAGIC /\
  payload_length (m_header m) = Zlen p.
Proof.
  intros Ht [E1 E2 E3 E4 _ E6]. pose proof (Zlen_nonneg p).
  pose proof (header_init_wf type (Zlen p) tid Ht (conj (Zlen_nonneg p) E4)) as [? ? ? ? ? ?].
  destruct (m_header m); unfold clear_checksum, xsan_protocol_header_init in E1;
    simpl in *; simplify_eq.
  split_and!; [constructor; simpl; try done; unfold in_u; lia | done..].
Qed.

(** A constructed message accepts exactly the payloads of the same length whose
    byte sum is that of its own payload. *)
Lemma message_ok_verify mok m type tid p p' fresh :
  in_u 64 tid -> message_ok m type tid p ->
  mok (XSAN_MESSAGE_HEADER_SIZE + Zlen p) = true ->
  is_bytes p' -> Zlen p' = Zlen p ->
  xsan_protocol_verify_checksum mok (m_header m)
    (if 0 <? Zlen p' then Some p' else None) fresh = true <-> sumZ p' = sumZ p.
Proof.
  intros Ht Hok Hmok Hb' Hl'. pose proof (message_ok_wf _ _ _ _ Ht Hok) as (_ & _ & Hpl).
  destruct Hok as [E1 E2 Hb E4 E5 E6].
  unfold xsan_protocol_verify_checksum. destruct (Z.eqb_spec (checksum (m_header m)) 0); [lia|].
  rewrite Hpl, Hmok, E1. simpl negb. cbn iota. rewrite <- Hl' in *.
  pose proof (header_init_wf type (Zlen p') tid Ht (conj (Zlen_nonneg p') E4)) as Hw.
  destruct (checksum_exact _ p' fresh Hw eq_refl E4 Hb' eq_refl) as [Hc Hr].
  rewrite Z.eqb_eq, E5.
  assert (Hd : xsan_protocol_calculate_checksum (checksum_data
    (xsan_protocol_header_init type (Zlen p') tid) (if 0 <? Zlen p' then Some p' else None) fresh)
    = sumZ (xsan_protocol_header_serialize (xsan_protocol_header_init type (Zlen p') tid))
      + sumZ p'); [|lia].
  rewrite <- Hc. destruct (Z.ltb_spec 0 (Zlen p')); [done|].
  destruct p'; [|rewrite Zlen_cons in *; pose proof (Zlen_nonneg p'); lia].
  now rewrite (checksum_data_nil _ fresh fresh).
Qed.

Lemma created_payload_spec data len :
  0 <= len -> (forall d, data = Some d -> is_bytes d /\ len <= Zlen d) ->
  is_bytes (created_payload data len) /\ Zlen (created_payload data len) = len.
Proof.
  intros Hl Hd. unfold Zlen in *. destruct data as [d|]; simpl.
  - destruct (Hd d eq_refl) as [Hb Hle]. split; [now apply take_bytes|].
    rewrite length_take. lia.
  - rewrite length_replicate. split; [|lia]. apply Forall_replicate. lia.
Qed.

Lemma message_create_ok mok type tid data len fresh m :
  in_u 64 tid -> 0 <= len -> (forall d, data = Some d -> is_bytes d /\ len <= Zlen d) ->
  xsan_protocol_message_create mok type tid data len fresh = Some m ->
  message_ok m type tid (created_payload data len).
Proof.
  intros Ht Hl Hd. destruct (created_payload_spec data len Hl Hd) as [Hb Hz].
  unfold xsan_protocol_message_create.
  destruct (Z.ltb_spec XSAN_PROTOCOL_MAX_PAYLOAD_SIZE len) as [|Hle]; [done|].
  destruct (mok sizeof_message); [|done]. simpl negb. cbn iota.
  intros Hf. apply (finish_message_ok mok type tid _ fresh); [done..|lia|].
  rewrite Hz. destruct (Z.ltb_spec 0 len); [|done]. destruct (mok len); [|done]. apply Hf.
Qed.

Lemma fill_payload_full s a block :
  fill_payload (Some s) (Some a) (Zlen s) (Zlen a) block = (s ++ a) ++ drop (length (s ++ a)) block.
Proof.
  assert (H : forall l : list Z, (if 0 <? Zlen l then take (Z.to_nat (Zlen l)) l else []) = l).
  { intros [|x l]; [done|]. unfold Zlen. rewrite Nat2Z.id, firstn_all. done. }
  unfold fill_payload. now rewrite !H.
Qed.

Lemma message_create_with_data_ok mok type tid s a block fresh m :
  in_u 64 tid -> is_bytes s -> is_bytes a ->
  Zlen s + Zlen a < 2 ^ 64 -> Zlen block = Zlen s + Zlen a ->
  xsan_protocol_message_create_with_data mok type tid (Some s) (Zlen s) (Some a) (Zlen a)
    block fresh = Some m ->
  message_ok m type tid (s ++ a).
Proof.
  intros Ht Hs Ha Hlt Hblk. unfold xsan_protocol_message_create_with_data.
  pose proof (Zlen_nonneg s). pose proof (Zlen_nonneg a).
  rewrite (wrap_small 64) by (unfold in_u; lia).
  destruct (Z.ltb_spec XSAN_PROTOCOL_MAX_PAYLOAD_SIZE (Zlen s + Zlen a)) as [|Hle]; [done|].
  rewrite (wrap_small 32) by (unfold in_u, XSAN_PROTOCOL_MAX_PAYLOAD_SIZE in *; lia).
  destruct (mok sizeof_message); [|done]. simpl negb. cbn iota. rewrite <- Zlen_app in *.
  intros Hf. apply (finish_message_ok mok type tid _ fresh); [done|apply is_bytes_app; auto|done|].
  destruct (Z.ltb_spec 0 (Zlen (s ++ a))); [|done]. destruct (mok _); [|done]. revert Hf.
  simpl negb. cbn iota. rewrite fill_payload_full, drop_ge, app_nil_r; [done|].
  rewrite length_take. unfold Zlen in *. lia.
Qed.

(** ** Properties *)

(** C10: Deserialization accepts a buffer and yields a header exactly when the
    buffer starts with that header's serialization, the header carries the
    protocol magic and its payload length is within the protocol limit. *)
Theorem header_codec buf h0 h :
  is_bytes buf -> (24 <= length buf)%nat ->
  xsan_protocol_header_deserialize buf h0 = (XSAN_OK, h) <->
  (take 24 buf = xsan_protocol_header_serialize h /\ header_wf h /\
   magic h = XSAN_PROTOCOL_MAGIC /\ payload_length h <= XSAN_PROTOCOL_MAX_PAYLOAD_SIZE).
Proof.
  intros Hb Hl. split; [now apply deserialize_ok|]. intros (Ht & Hw & Hm & Hp).
  rewrite <- (take_drop 24 buf), Ht. now apply deserialize_serialize.
Qed.

Lemma header_codec_witness :
  let h := mk_header XSAN_PROTOCOL_MAGIC 600 1 5 0x0102030405060708 77 in
  xsan_protocol_header_deserialize
    [0x58; 0x53; 0x41; 0x4E; 2; 88; 0; 1; 0; 0; 0; 5; 1; 2; 3; 4; 5; 6; 7; 8; 0; 0; 0; 77; 9]
    (mk_header 0 0 0 0 0 0) = (XSAN_OK, h).
Proof.
  intros h. apply header_codec.
  - repeat constructor; lia.
  - simpl; lia.
  - split_and!; [vm_compute; reflexivity | | reflexivity | vm_compute; congruence].
    constructor; simpl; unfold in_u; vm_compute; split; congruence.
Defined.

(** C15: A message built by [xsan_protocol_message_create] has a non-zero
    checksum, and verification with its header accepts a payload of the same
    length exactly when the payload has the byte sum of the original: the sum
    never wraps at 32 bits, so every single-byte corruption is rejected. *)
Theorem message_create_verify mok type tid data len fresh m p' fresh' :
  in_u 64 tid -> 0 <= len -> (forall d, data = Some d -> is_bytes d /\ len <= Zlen d) ->
  xsan_protocol_message_create mok type tid data len fresh = Some m ->
  mok (XSAN_MESSAGE_HEADER_SIZE + len) = true ->
  is_bytes p' -> Zlen p' = len ->
  checksum (m_header m) <> 0 /\
  (xsan_protocol_verify_checksum mok (m_header m)
     (if 0 <? Zlen p' then Some p' else None) fresh' = true
   <-> sumZ p' = sumZ (created_payload data len)).
Proof.
  intros Ht Hl Hd Hc Hm Hb Hz.
  pose proof (message_create_ok _ _ _ _ _ _ _ Ht Hl Hd Hc) as Hok.
  destruct (created_payload_spec data len Hl Hd) as [_ Hcl].
  split; [destruct Hok; lia|].
  apply (message_ok_verify mok m type tid); auto; congruence.
Qed.

Lemma message_create_verify_witness :
  exists m, xsan_protocol_message_create (fun _ => true) 600 7 (Some [1; 2; 3]) 3 [] = Some m /\
    checksum (m_header m) <> 0 /\
    (xsan_protocol_verify_checksum (fun _ => true) (m_header m) (Some [1; 2; 4]) [] = true
     <-> sumZ [1; 2; 4] = sumZ [1; 2; 3]).
Proof.
  eexists. split; [reflexivity|].
  apply (message_create_verify (fun _ => true) 600 7 (Some [1; 2; 3]) 3 [] _ [1; 2; 4] []).
  - unfold in_u; lia.
  - lia.
  - intros d [= <-]. split; [repeat constructor; lia | vm_compute; congruence].
  - reflexivity.
  - reflexivity.
  - repeat constructor; lia.
  - reflexivity.
Defined.

(** [xsan_protocol_message_create_with_data] concatenates the structured
    part and the additional data, declares their total length, and the result
    passes checksum verification. *)
Theorem message_create_with_data_spec mok type tid s a block fresh m fresh' :
  in_u 64 tid -> is_bytes s -> is_bytes a -> 0 < Zlen s ->
  Zlen s + Zlen a < 2 ^ 64 -> Zlen block = Zlen s + Zlen a ->
  (forall n, mok n = true) ->
  xsan_protocol_message_create_with_data mok type tid (Some s) (Zlen s) (Some a) (Zlen a)
    block fresh = Some m ->
  m_payload m = Some (s ++ a) /\
  payload_length (m_header m) = Zlen s + Zlen a /\
  xsan_protocol_verify_checksum mok (m_header m) (m_payload m) fresh' = true.
Proof.
  intros Ht Hs Ha Hpos Hlt Hblk Hmok Hc.
  pose proof (message_create_with_data_ok _ _ _ _ _ _ _ _ Ht Hs Ha Hlt Hblk Hc) as Hok.
  pose proof (message_ok_wf _ _ _ _ Ht Hok) as (_ & _ & Hpl).
  pose proof (message_ok_verify mok m type tid _ (s ++ a) fresh' Ht Hok (Hmok _)) as Hv.
  destruct Hok as [_ E2 E3 _ _ _]. pose proof (Zlen_nonneg a).
  assert (Hlen : (0 <? Zlen (s ++ a)) = true) by (rewrite Zlen_app; apply Z.ltb_lt; lia).
  rewrite Hlen in *. rewrite E2, Hpl, Zlen_app. split_and!; [done..|]. now apply Hv.
Qed.

Lemma message_create_with_data_spec_witness :
  exists m, xsan_protocol_message_create_with_data (fun _ => true) 600 7 (Some [1; 2]) 2
      (Some [9]) 1 [0; 0; 0] [] = Some m /\
    m_payload m = Some [1; 2; 9] /\ payload_length (m_header m) = 3 /\
    xsan_protocol_verify_checksum (fun _ => true) (m_header m) (m_payload m) [] = true.
Proof.
  eexists. split; [reflexivity|].
  apply (message_create_with_data_spec (fun _ => true) 600 7 [1; 2] [9] [0; 0; 0] [] _ []);
    first [vm_compute; reflexivity | vm_compute; split; congruence
          | repeat constructor; lia | reflexivity].
Defined.
