(* ===== verification/NodeComm.v ===== *)
(** * Node communication: message framing over a byte stream

    Models the receive and send paths of [src/network/xsan_node_comm.c]: the
    per-connection receive buffer and its growth, the extraction of messages
    from the byte stream, handler registration and dispatch, and
    [xsan_node_comm_send_msg].  SPDK's socket calls are parameters.  The receive loop reads
    the length of a message after the message was dispatched; when the handler has freed
    it by then, which the header asks it to do, the read is undefined and so is the rest of
    the call. *)

From stdpp Require Import prelude.
From S2P Require Import Prelude Errors Protocol.

#[local] Open Scope Z_scope.

Definition XSAN_COMM_INITIAL_RECV_BUF_SIZE : Z := XSAN_MESSAGE_HEADER_SIZE + 4096.

(** The size a grown receive buffer may not exceed. *)
Definition RECV_BUF_LIMIT : Z := XSAN_PROTOCOL_MAX_PAYLOAD_SIZE + XSAN_MESSAGE_HEADER_SIZE + 4096.

(** ** Handlers *)

(** The handler table of the module: which message types have a handler. *)
Record handler_table := mk_handlers {
  module_initialized : bool;
  specific_handlers : Z -> bool
}.

Definition xsan_node_comm_register_message_handler (g : handler_table) (type : Z)
    (handler_set : bool) : handler_table * xsan_error_t :=
  if negb (module_initialized g) then (g, XSAN_ERROR_NOT_INITIALIZED)
  else if (type <=? 0) || (XSAN_MSG_TYPE_MAX <=? type) then (g, XSAN_ERROR_INVALID_PARAM)
  else (mk_handlers (module_initialized g)
          (fun t => if t =? type then handler_set else specific_handlers g t), XSAN_OK).

(** Where a complete message goes. *)
Inductive dispatched :=
  | ToSpecific (type : Z) (m : xsan_message)
  | ToGeneric (m : xsan_message)
  | Discarded (m : xsan_message).

Definition dispatch (g : handler_table) (app_handler : bool) (m : xsan_message) : dispatched :=
  let t := type (m_header m) in
  if (0 <? t) && (t <? XSAN_MSG_TYPE_MAX) && specific_handlers g t then ToSpecific t m
  else if app_handler then ToGeneric m
  else Discarded m.

(** ** The receive side of a connection

    [recv_buf] holds the first [recv_buf_len] bytes of the C buffer. *)
Record conn := mk_conn {
  recv_buf : list Z;
  recv_buf_capacity : Z;
  partial_recv_header : xsan_message_header;
  header_fully_received : bool;
  app_msg_handler : bool
}.

Definition zero_header : xsan_message_header := mk_header 0 0 0 0 0 0.

(** The zeroed context with its first receive buffer. *)
Definition create_connection_ctx (app_handler : bool) : conn :=
  mk_conn [] XSAN_COMM_INITIAL_RECV_BUF_SIZE zero_header false app_handler.

Section Receive.
(** Outcome of an allocation of the given size. *)
Variable malloc_ok : Z -> bool.
Variable g : handler_table.
(** Whether the handler leaves the message allocated when it returns.  It is responsible
    for freeing it, then or later. *)
Variable keeps : dispatched -> bool.

(** The message is freed when its dispatch returns; a discarded one always is. *)
Definition freed (d : dispatched) : bool :=
  match d with Discarded _ => true | _ => negb (keeps d) end.

(** [FUndef]: the message was dispatched, and is then read although it is freed. *)
Inductive iter_result :=
  | FBreak (c : conn)
  | FClose
  | FNext (c : conn) (d : dispatched)
  | FUndef (d : dispatched).

(** Second half of an iteration: a header is there; is the payload complete? *)
Definition take_payload (c : conn) : iter_result :=
  let h := partial_recv_header c in
  if payload_length h <=? Zlen (recv_buf c) then
    if negb (malloc_ok sizeof_message) then FClose
    else if (0 <? payload_length h) && negb (malloc_ok (payload_length h)) then FClose
    else
      let n := Z.to_nat (payload_length h) in
      let payload := if 0 <? payload_length h then Some (take n (recv_buf c)) else None in
      let d := dispatch g (app_msg_handler c) (mk_message h payload) in
      if freed d then FUndef d else
      FNext (mk_conn (drop n (recv_buf c)) (recv_buf_capacity c) h false (app_msg_handler c)) d
  else FBreak c.

(** One iteration of [while (recv_buf_len > 0)]. *)
Definition frame_iter (c : conn) : iter_result :=
  if header_fully_received c then take_payload c
  else if XSAN_MESSAGE_HEADER_SIZE <=? Zlen (recv_buf c) then
    let '(err, h) := xsan_protocol_header_deserialize (recv_buf c) (partial_recv_header c) in
    if negb (err =? XSAN_OK) then FClose
    else if negb (magic h =? XSAN_PROTOCOL_MAGIC) then FClose
    else if XSAN_PROTOCOL_MAX_PAYLOAD_SIZE <? payload_length h then FClose
    else take_payload (mk_conn (drop 24 (recv_buf c)) (recv_buf_capacity c) h true
                         (app_msg_handler c))
  else FBreak c.

(** Each iteration that goes on decreases twice the number of buffered bytes
    plus one for a pending header. *)
Definition frame_measure (c : conn) : nat :=
  2 * length (recv_buf c) + (if header_fully_received c then 1 else 0).

(** How the inner loop ends: with the connection, by closing it, or undefined. *)
Inductive frame_end := FeConn (c : conn) | FeClosed | FeUndef.

Fixpoint frame_loop (fuel : nat) (c : conn) : frame_end * list dispatched :=
  match fuel with
  | O => (FeConn c, [])
  | S fuel' =>
      if 0 <? Zlen (recv_buf c) then
        match frame_iter c with
        | FBreak c' => (FeConn c', [])
        | FClose => (FeClosed, [])
        | FNext c' d => let '(o, ds) := frame_loop fuel' c' in (o, d :: ds)
        | FUndef d => (FeUndef, [d])
        end
      else (FeConn c, [])
  end.

(** The whole inner loop; the fuel covers every iteration it can make. *)
Definition frame (c : conn) : frame_end * list dispatched :=
  frame_loop (S (frame_measure c)) c.

Definition conn_append (c : conn) (bytes : list Z) : conn :=
  mk_conn (recv_buf c ++ bytes) (recv_buf_capacity c) (partial_recv_header c)
    (header_fully_received c) (app_msg_handler c).

(** Growth of a full receive buffer; [None] closes the connection. *)
Definition grow (c : conn) : option conn :=
  if Zlen (recv_buf c) =? recv_buf_capacity c then
    let new_capacity := if 0 <? recv_buf_capacity c then wrap 64 (recv_buf_capacity c * 2)
                        else XSAN_COMM_INITIAL_RECV_BUF_SIZE in
    if RECV_BUF_LIMIT <? new_capacity then None
    else if negb (malloc_ok new_capacity) then None
    else Some (mk_conn (recv_buf c) new_capacity (partial_recv_header c)
                 (header_fully_received c) (app_msg_handler c))
  else Some c.

(** Results of [spdk_sock_recv]: data, an orderly shutdown, or an errno. *)
Inductive recv_result := RecvData (bytes : list Z) | RecvEof | RecvErr (err : Z).

(** [spdk_sock_recv i room] is the result of the [i]-th call, made with [room]
    bytes of buffer space. *)
Variable spdk_sock_recv : nat -> Z -> recv_result.

Inductive outcome :=
  | Running (c : conn)   (** the loop would call recv again *)
  | Alive (c : conn)     (** returned: no more data now *)
  | PeerClosed | ErrorClosed
  | Undefined.           (** a freed message was read *)

(** [_process_received_data_for_connection], up to [n] receive calls from call
    [i] on: the outcome, the messages dispatched and the bytes received. *)
Fixpoint process (n i : nat) (c : conn) : outcome * list dispatched * list Z :=
  match n with
  | O => (Running c, [], [])
  | S n' =>
      match grow c with
      | None => (ErrorClosed, [], [])
      | Some c1 =>
          match spdk_sock_recv i (recv_buf_capacity c1 - Zlen (recv_buf c1)) with
          | RecvData bytes =>
              match frame (conn_append c1 bytes) with
              | (FeClosed, ds) => (ErrorClosed, ds, bytes)
              | (FeUndef, ds) => (Undefined, ds, bytes)
              | (FeConn c2, ds) =>
                  let '(o, ds', bs) := process n' (S i) c2 in (o, ds ++ ds', bytes ++ bs)
              end
          | RecvEof => (PeerClosed, [], [])
          | RecvErr e => (if e =? EAGAIN then Alive c1 else ErrorClosed, [], [])
          end
      end
  end.
End Receive.

(** The bytes of a message on the wire: the elements of the [iovec] that
    [xsan_node_comm_send_msg] hands to the socket. *)
Definition wire_bytes (m : xsan_message) : list Z :=
  xsan_protocol_header_serialize (m_header m) ++
  match m_payload m with
  | Some p => if 0 <? payload_length (m_header m)
              then take (Z.to_nat (payload_length (m_header m))) p else []
  | None => []
  end.

(** ** Sending *)

Inductive send_event := SendCallback (status : Z).

(** [xsan_node_comm_send_msg].  [on_thread]: the caller runs on an SPDK thread;
    [ctx_valid]: the socket's callback argument is a context of this socket;
    [busy]: the context has a send callback pending; [written]: the result of
    [spdk_sock_writev] on [wire_bytes m], a byte count or an errno.  Yields the
    return code, the callbacks made and the new [busy]. *)
Definition xsan_node_comm_send_msg (initialized sock_set on_thread ctx_valid busy : bool)
    (m : option xsan_message) (send_cb : bool) (written : Z + Z)
  : xsan_error_t * list send_event * bool :=
  if negb initialized then (XSAN_ERROR_GENERIC, [], busy)
  else match m with
  | None => (XSAN_ERROR_INVALID_PARAM, [], busy)
  | Some m =>
      if negb sock_set then (XSAN_ERROR_INVALID_PARAM, [], busy)
      else if negb on_thread then (XSAN_ERROR_THREAD_CONTEXT, [], busy)
      else if negb ctx_valid then (XSAN_ERROR_INVALID_PARAM, [], busy)
      else if busy then (XSAN_ERROR_BUSY, [], busy)
      else
        match written with
        | inr err_no =>
            (xsan_error_from_errno err_no, if send_cb then [SendCallback (- err_no)] else [], busy)
        | inl bytes_written =>
            if bytes_written <? Zlen (wire_bytes m) then (XSAN_OK, [], send_cb)
            else (XSAN_OK, if send_cb then [SendCallback 0] else [], busy)
        end
  end.

(** ** Connecting *)

Inductive connect_event := ConnectCallback (sock : bool) (status : Z).

(** [xsan_node_comm_connect].  [pending_ok]: the allocation of the pending operation
    succeeds; [sock]: the errno when [spdk_sock_connect_ext] fails.  On success the
    callback is stored in the pending operation, which no other function of the file
    reads.  Yields the return code and the callbacks made. *)
Definition xsan_node_comm_connect (initialized on_thread pending_ok : bool)
    (target_ip_set : bool) (target_port : Z) (connect_cb : bool) (sock : option Z)
  : xsan_error_t * list connect_event :=
  if negb initialized then (XSAN_ERROR_GENERIC, [])
  else if negb target_ip_set || (target_port =? 0) || negb connect_cb
  then (XSAN_ERROR_INVALID_PARAM, [])
  else if negb on_thread then (XSAN_ERROR_THREAD_CONTEXT, [])
  else if negb pending_ok then (XSAN_ERROR_NO_MEMORY, [])
  else match sock with
  | Some err_no => (xsan_error_from_errno err_no, [ConnectCallback false (- err_no)])
  | None => (XSAN_OK, [])
  end.

(** ** The list of active connections and its lock

    The intrusive list headed by [active_connections_head], as the sequence of
    its contexts (context address and socket).  The lock is a default pthread
    mutex: locking it again on the same thread does not return ([None]). *)
Record comm_ctx := mk_comm { active_connections : list (ptr * ptr); lock_held : bool }.

Definition mutex_lock (s : comm_ctx) : option comm_ctx :=
  if lock_held s then None else Some (mk_comm (active_connections s) true).

Definition mutex_unlock (s : comm_ctx) : comm_ctx := mk_comm (active_connections s) false.

Definition add_connection_to_active_list (ctx : ptr * ptr) (s : comm_ctx) : option comm_ctx :=
  s1 ← mutex_lock s; Some (mutex_unlock (mk_comm (ctx :: active_connections s1) true)).

Definition remove_connection_from_active_list (ctx : ptr * ptr) (s : comm_ctx)
  : option comm_ctx :=
  s1 ← mutex_lock s;
  Some (mutex_unlock (mk_comm (filter (fun x => x <> ctx) (active_connections s1)) true)).

(** [xsan_node_comm_disconnect]: the new state and whether a context was freed. *)
Definition xsan_node_comm_disconnect (sock : ptr) (s : comm_ctx) : option (comm_ctx * bool) :=
  if sock =? NULL then Some (s, false)
  else
    s1 ← mutex_lock s;
    match find (fun x => x.2 =? sock) (active_connections s1) with
    | Some ctx =>
        s2 ← remove_connection_from_active_list ctx s1;
        Some (mutex_unlock s2, true)
    | None => Some (mutex_unlock s1, false)
    end.

(** ** Specification vocabulary *)

(** A message as the protocol allows it on the wire. *)
Record wire_ok (m : xsan_message) : Prop := {
  wo_header : header_wf (m_header m);
  wo_magic : magic (m_header m) = XSAN_PROTOCOL_MAGIC;
  wo_length : payload_length (m_header m) <= XSAN_PROTOCOL_MAX_PAYLOAD_SIZE;
  wo_payload : exists p, Zlen p = payload_length (m_header m) /\
    m_payload m = if 0 <? payload_length (m_header m) then Some p else None
}.

Definition with_cap (k : Z) (c : conn) : conn :=
  mk_conn (recv_buf c) k (partial_recv_header c) (header_fully_received c) (app_msg_handler c).

(** The largest capacity that doubling from the initial size can reach. *)
Definition MAX_REACHABLE_CAPACITY : Z := XSAN_COMM_INITIAL_RECV_BUF_SIZE * 2 ^ 11.

(** The buffered bytes fit and the capacity is a doubling of the initial one. *)
Definition buffer_ok (c : conn) : Prop :=
  Zlen (recv_buf c) <= recv_buf_capacity c /\
  exists k, 0 <= k <= 11 /\ recv_buf_capacity c = XSAN_COMM_INITIAL_RECV_BUF_SIZE * 2 ^ k.

Definition message_of (d : dispatched) : xsan_message :=
  match d with ToSpecific _ m | ToGeneric m | Discarded m => m end.

(** What SPDK documents of a receive: at least one byte, at most the room. *)
Definition recv_bounded (recv : nat -> Z -> recv_result) : Prop :=
  forall i room bytes, recv i room = RecvData bytes -> 0 < Zlen bytes <= room.

(** A connection between two messages. *)
Definition idle (c : conn) : Prop := recv_buf c = [] /\ header_fully_received c = false.

(** A settled connection has nothing left to extract. *)
Definition settled (c : conn) : Prop :=
  if header_fully_received c then Zlen (recv_buf c) < payload_length (partial_recv_header c)
  else Zlen (recv_buf c) < XSAN_MESSAGE_HEADER_SIZE.

(** A pending header with a non-empty payload, as the loop leaves it. *)
Definition header_pending_ok (c : conn) : Prop :=
  header_fully_received c = true -> 0 < payload_length (partial_recv_header c).

(** ** Framing lemmas *)

(** The messages up to and including the first one that is freed. *)
Fixpoint until_freed (keeps : dispatched -> bool) (ds : list dispatched) : list dispatched :=
  match ds with
  | [] => []
  | d :: ds' => if freed keeps d then [d] else d :: until_freed keeps ds'
  end.

Lemma until_freed_all keeps ds :
  existsb (freed keeps) (until_freed keeps ds) = false -> until_freed keeps ds = ds.
Proof.
  induction ds as [|d ds IH]; [done|]. simpl. destruct (freed keeps d) eqn:E; simpl; rewrite E;
    [done|]. intros H. by rewrite IH.
Qed.

Section Framing.
Variable mok : Z -> bool.
Variable g : handler_table.
Variable keeps : dispatched -> bool.

Lemma load_app off n buf b :
  (off + n <= length buf)%nat -> load off n (buf ++ b) = load off n buf.
Proof.
  intros H. unfold load. rewrite drop_app_le by lia.
  rewrite take_app_le by (rewrite length_drop; lia). done.
Qed.

Lemma deserialize_app buf b h0 :
  (24 <= length buf)%nat ->
  xsan_protocol_header_deserialize (buf ++ b) h0 = xsan_protocol_header_deserialize buf h0.
Proof.
  intros H. unfold xsan_protocol_header_deserialize. now rewrite !load_app by lia.
Qed.

Lemma dispatch_message a m : message_of (dispatch g a m) = m.
Proof. unfold dispatch. now repeat case_match. Qed.

Lemma take_payload_next c c' d :
  take_payload mok g keeps c = FNext c' d ->
  header_fully_received c' = false /\ (length (recv_buf c') <= length (recv_buf c))%nat /\
  recv_buf_capacity c' = recv_buf_capacity c /\
  payload_length (m_header (message_of d)) <= Zlen (recv_buf c) /\ freed keeps d = false.
Proof.
  unfold take_payload. destruct (Z.leb_spec (payload_length (partial_recv_header c))
    (Zlen (recv_buf c))); [|done].
  destruct (negb _); [done|]. destruct (_ && _); [done|].
  destruct (freed keeps _) eqn:Ef; [done|]. intros [= <- <-].
  rewrite dispatch_message. simpl. rewrite length_drop. split_and!; (done || lia).
Qed.

Lemma take_payload_undef c d :
  take_payload mok g keeps c = FUndef d ->
  payload_length (m_header (message_of d)) <= Zlen (recv_buf c) /\ freed keeps d = true.
Proof.
  unfold take_payload. destruct (Z.leb_spec (payload_length (partial_recv_header c))
    (Zlen (recv_buf c))); [|done].
  destruct (negb _); [done|]. destruct (_ && _); [done|].
  destruct (freed keeps _) eqn:Ef; [|done]. intros [= <-]. by rewrite dispatch_message.
Qed.

Lemma frame_iter_undef c d :
  frame_iter mok g keeps c = FUndef d ->
  payload_length (m_header (message_of d)) <= Zlen (recv_buf c) /\ freed keeps d = true.
Proof.
  unfold frame_iter. destruct (header_fully_received c); [apply take_payload_undef|].
  destruct (_ <=? _); [|done]. destruct (xsan_protocol_header_deserialize _ _) as [err h].
  destruct (negb _); [done|]. destruct (negb _); [done|]. destruct (_ <? _); [done|].
  intros [H1 H2]%take_payload_undef. split; [|done].
  cbn [recv_buf] in H1. unfold Zlen in *. rewrite length_drop in H1. lia.
Qed.

Lemma frame_iter_next c c' d :
  frame_iter mok g keeps c = FNext c' d ->
  (frame_measure c' < frame_measure c)%nat /\ (length (recv_buf c') <= length (recv_buf c))%nat /\
  recv_buf_capacity c' = recv_buf_capacity c /\
  payload_length (m_header (message_of d)) <= Zlen (recv_buf c) /\ freed keeps d = false.
Proof.
  unfold frame_iter, frame_measure. destruct (header_fully_received c) eqn:Hh.
  - intros (H1 & H2 & H3 & H4 & H5)%take_payload_next. rewrite H1. split_and!; (done || lia).
  - destruct (Z.leb_spec XSAN_MESSAGE_HEADER_SIZE (Zlen (recv_buf c))) as [Hl|]; [|done].
    unfold XSAN_MESSAGE_HEADER_SIZE, Zlen in Hl.
    destruct (xsan_protocol_header_deserialize _ _) as [err h].
    destruct (negb _); [done|]. destruct (negb _); [done|]. destruct (_ <? _); [done|].
    intros (N1 & N2 & N3 & N4 & N5)%take_payload_next.
    cbn [recv_buf recv_buf_capacity] in *. unfold Zlen in *. rewrite length_drop in *.
    rewrite N1. split_and!; (done || lia).
Qed.

(** Fuel above the measure does not change the result. *)
Lemma frame_loop_fuel n m c :
  (frame_measure c < n)%nat -> (frame_measure c < m)%nat ->
  frame_loop mok g keeps n c = frame_loop mok g keeps m c.
Proof.
  revert m c. induction n as [|n IH]; intros [|m] c Hn Hm; try lia. simpl.
  case_match; [|done]. destruct (frame_iter mok g keeps c) as [| |c' d|d] eqn:E; try done.
  apply frame_iter_next in E as (E & _). rewrite (IH m c') by lia. done.
Qed.

Lemma frame_eq c :
  frame mok g keeps c =
    if 0 <? Zlen (recv_buf c) then
      match frame_iter mok g keeps c with
      | FBreak c' => (FeConn c', [])
      | FClose => (FeClosed, [])
      | FNext c' d => let '(o, ds) := frame mok g keeps c' in (o, d :: ds)
      | FUndef d => (FeUndef, [d])
      end
    else (FeConn c, []).
Proof.
  unfold frame at 1. simpl. case_match; [|done].
  destruct (frame_iter mok g keeps c) as [| |c' d|d] eqn:E; try done.
  apply frame_iter_next in E as (E & _).
  unfold frame. now rewrite (frame_loop_fuel (frame_measure c) (S (frame_measure c')) c') by lia.
Qed.

(** Appending bytes to the buffer does not change what an iteration does. *)
Lemma take_payload_app c b :
  take_payload mok g keeps (conn_append c b) =
  match take_payload mok g keeps c with
  | FNext c' d => FNext (conn_append c' b) d
  | FUndef d => FUndef d
  | FClose => FClose
  | FBreak c' => take_payload mok g keeps (conn_append c' b)
  end.
Proof.
  unfold take_payload at 2. destruct (Z.leb_spec (payload_length (partial_recv_header c))
    (Zlen (recv_buf c))) as [Hl|]; [|done].
  unfold take_payload. simpl. rewrite Zlen_app. pose proof (Zlen_nonneg b).
  rewrite (proj2 (Z.leb_le _ _)) by lia. unfold Zlen in Hl.
  rewrite take_app_le, drop_app_le by lia. by repeat case_match.
Qed.

Lemma take_payload_break c c' : take_payload mok g keeps c = FBreak c' ->
  c' = c /\ Zlen (recv_buf c) < payload_length (partial_recv_header c).
Proof.
  unfold take_payload. destruct (Z.leb_spec (payload_length (partial_recv_header c))
    (Zlen (recv_buf c))); repeat case_match; try done. by intros [= <-].
Qed.

Lemma frame_iter_break c c' :
  frame_iter mok g keeps c = FBreak c' ->
  if header_fully_received c' then Zlen (recv_buf c') < payload_length (partial_recv_header c')
  else c' = c /\ Zlen (recv_buf c') < XSAN_MESSAGE_HEADER_SIZE.
Proof.
  unfold frame_iter. destruct (header_fully_received c) eqn:Hh.
  - intros [-> ?]%take_payload_break. now rewrite Hh.
  - destruct (Z.leb_spec XSAN_MESSAGE_HEADER_SIZE (Zlen (recv_buf c))).
    + destruct (xsan_protocol_header_deserialize _ _) as [err h].
      repeat case_match; try done; intros [-> ?]%take_payload_break; simplify_eq/=; done.
    + intros [= <-]. now rewrite Hh.
Qed.

Lemma frame_iter_app c b :
  frame_iter mok g keeps (conn_append c b) =
  match frame_iter mok g keeps c with
  | FNext c' d => FNext (conn_append c' b) d
  | FUndef d => FUndef d
  | FClose => FClose
  | FBreak c' => frame_iter mok g keeps (conn_append c' b)
  end.
Proof.
  destruct (frame_iter mok g keeps c) as [c'| |c' d|d] eqn:E; revert E; unfold frame_iter at 1;
    destruct (header_fully_received c) eqn:Hh.
  1, 3, 5, 7: intros E; unfold frame_iter; simpl; rewrite Hh, take_payload_app, E; try done.
  { apply take_payload_break in E as [-> _]. simpl. now rewrite Hh. }
  all: destruct (Z.leb_spec XSAN_MESSAGE_HEADER_SIZE (Zlen (recv_buf c))) as [Hl|]; try done.
  2: now intros [= <-].
  all: pose proof Hl as Hn; unfold XSAN_MESSAGE_HEADER_SIZE, Zlen in Hn.
  all: destruct (xsan_protocol_header_deserialize _ _) as [err h] eqn:Ed.
  all: intros E; unfold frame_iter at 1; simpl; rewrite Hh, Zlen_app.
  all: rewrite (proj2 (Z.leb_le _ _)) by (pose proof (Zlen_nonneg b); lia).
  all: rewrite deserialize_app, Ed, drop_app_le by lia.
  all: repeat case_match; try done.
  all: match goal with |- take_payload _ _ _ (mk_conn (?l ++ ?r) ?k ?h ?f ?a) = _ =>
         change (mk_conn (l ++ r) k h f a) with (conn_append (mk_conn l k h f a) r) end.
  all: rewrite take_payload_app, E; try done.
  apply take_payload_break in E as [-> _]. done.
Qed.

Lemma conn_append_nil c : conn_append c [] = c.
Proof. destruct c. unfold conn_append. simpl. now rewrite app_nil_r. Qed.

Lemma conn_append_app c a b : conn_append (conn_append c a) b = conn_append c (a ++ b).
Proof. unfold conn_append. simpl. now rewrite app_assoc. Qed.

Lemma settled_frame c : settled c -> frame mok g keeps c = (FeConn c, []).
Proof.
  unfold settled. intros H. rewrite frame_eq. destruct (0 <? _); [|done].
  unfold frame_iter, take_payload. destruct (header_fully_received c).
  - destruct (Z.leb_spec (payload_length (partial_recv_header c)) (Zlen (recv_buf c))); [lia|done].
  - destruct (Z.leb_spec XSAN_MESSAGE_HEADER_SIZE (Zlen (recv_buf c))); [lia|done].
Qed.

Lemma frame_settled c c' ds :
  header_pending_ok c -> frame mok g keeps c = (FeConn c', ds) -> settled c' /\ header_pending_ok c'.
Proof.
  remember (frame_measure c) as n eqn:Hn. revert c ds Hn.
  induction n as [n IH] using lt_wf_ind. intros c ds -> Hp. rewrite frame_eq.
  destruct (Z.ltb_spec 0 (Zlen (recv_buf c))) as [Hl|Hl].
  - destruct (frame_iter mok g keeps c) as [c1| |c1 d|d] eqn:E; [|done| |done].
    + intros [= <- <-]. apply frame_iter_break in E. unfold settled, header_pending_ok.
      destruct (header_fully_received c1); [|now split; [tauto|]].
      pose proof (Zlen_nonneg (recv_buf c1)). split; [done|lia].
    + pose proof (frame_iter_next c c1 d E) as [Hm _].
      destruct (frame mok g keeps c1) as [o ds1] eqn:E1. intros [= -> <-].
      eapply (IH (frame_measure c1)); [done..| |exact E1].
      unfold header_pending_ok. enough (header_fully_received c1 = false) by congruence.
      revert E. unfold frame_iter. repeat (case_match; try done);
        intros E%take_payload_next; tauto.
  - intros [= <- <-]. unfold settled. split; [|done]. pose proof (Zlen_nonneg (recv_buf c)).
    unfold header_pending_ok, XSAN_MESSAGE_HEADER_SIZE in *.
    destruct (header_fully_received c); [specialize (Hp eq_refl)|]; lia.
Qed.

(** Extraction commutes with the arrival of further bytes. *)
Lemma frame_append c b :
  frame mok g keeps (conn_append c b) =
  match frame mok g keeps c with
  | (FeConn c', ds) => let '(o, ds') := frame mok g keeps (conn_append c' b) in (o, ds ++ ds')
  | r => r
  end.
Proof.
  remember (frame_measure c) as n eqn:Hn. revert c Hn.
  induction n as [n IH] using lt_wf_ind. intros c ->. rewrite (frame_eq c).
  destruct (Z.ltb_spec 0 (Zlen (recv_buf c))) as [Hl|Hl];
    [|now destruct (frame mok g keeps (conn_append c b))].
  rewrite frame_eq, frame_iter_app. simpl recv_buf. rewrite Zlen_app.
  rewrite (proj2 (Z.ltb_lt _ _)) by (pose proof (Zlen_nonneg b); lia).
  destruct (frame_iter mok g keeps c) as [c1| |c1 d|d] eqn:E; [|done| |done].
  - destruct b as [|x b].
    + rewrite conn_append_nil. apply frame_iter_break in E as Hs.
      assert (Hs' : settled c1) by (unfold settled; destruct (header_fully_received c1); tauto).
      rewrite (settled_frame c1 Hs').
      unfold settled in Hs'. unfold frame_iter, take_payload.
      destruct (header_fully_received c1); case_cmp; (lia || done).
    + rewrite (frame_eq (conn_append c1 _)). simpl recv_buf. rewrite Zlen_app, Zlen_cons.
      rewrite (proj2 (Z.ltb_lt _ _)) by
        (pose proof (Zlen_nonneg b); pose proof (Zlen_nonneg (recv_buf c1)); lia).
      destruct (frame_iter mok g keeps (conn_append c1 (x :: b))) as [| |c2 d2|]; try done.
      now destruct (frame mok g keeps c2).
  - pose proof (frame_iter_next c c1 d E) as [Hm _].
    rewrite (IH _ Hm c1 eq_refl). destruct (frame mok g keeps c1) as [[c2| |] ds]; [|done..].
    now destruct (frame mok g keeps (conn_append c2 b)).
Qed.

(** The capacity plays no role in extraction. *)
Lemma take_payload_cap k c :
  take_payload mok g keeps (with_cap k c) =
  match take_payload mok g keeps c with
  | FNext c' d => FNext (with_cap k c') d
  | FUndef d => FUndef d
  | FClose => FClose
  | FBreak c' => FBreak (with_cap k c')
  end.
Proof. unfold take_payload, with_cap. simpl. now repeat case_match. Qed.

Lemma frame_iter_cap k c :
  frame_iter mok g keeps (with_cap k c) =
  match frame_iter mok g keeps c with
  | FNext c' d => FNext (with_cap k c') d
  | FUndef d => FUndef d
  | FClose => FClose
  | FBreak c' => FBreak (with_cap k c')
  end.
Proof.
  unfold frame_iter. simpl. destruct (header_fully_received c); [apply take_payload_cap|].
  destruct (_ <=? _); [|done].
  destruct (xsan_protocol_header_deserialize _ _) as [err h].
  destruct (negb _); [done|]. destruct (negb _); [done|]. destruct (_ <? _); [done|].
  apply (take_payload_cap k (mk_conn _ (recv_buf_capacity c) _ _ _)).
Qed.

Lemma frame_cap k c :
  frame mok g keeps (with_cap k c) =
  let '(o, ds) := frame mok g keeps c in
  (match o with FeConn c' => FeConn (with_cap k c') | o => o end, ds).
Proof.
  remember (frame_measure c) as n eqn:Hn. revert c Hn.
  induction n as [n IH] using lt_wf_ind. intros c ->. rewrite (frame_eq c), frame_eq.
  simpl recv_buf. case_match; [|done]. rewrite frame_iter_cap.
  destruct (frame_iter mok g keeps c) as [c1| |c1 d|d] eqn:E; try done.
  apply frame_iter_next in E as [Hm _]. rewrite (IH _ Hm c1 eq_refl).
  now destruct (frame mok g keeps c1).
Qed.

(** Extraction is undefined exactly when one of the messages dispatched was freed, and then
    that message is the last one. *)
Lemma frame_undef c o ds :
  frame mok g keeps c = (o, ds) ->
  (o = FeUndef <-> existsb (freed keeps) ds = true) /\ until_freed keeps ds = ds.
Proof.
  remember (frame_measure c) as n eqn:Hn. revert c o ds Hn.
  induction n as [n IH] using lt_wf_ind. intros c o ds ->. rewrite frame_eq.
  destruct (0 <? Zlen (recv_buf c)); [|by intros [= <- <-]].
  destruct (frame_iter mok g keeps c) as [c1| |c1 d|d] eqn:E; [by intros [= <- <-]..| |].
  - apply frame_iter_next in E as (Hm & _ & _ & _ & Hd).
    destruct (frame mok g keeps c1) as [o1 ds1] eqn:F. intros [= <- <-].
    destruct (IH _ Hm c1 o1 ds1 eq_refl F) as [H1 H2]. simpl. rewrite Hd, H2. done.
  - apply frame_iter_undef in E as [_ Hd]. intros [= <- <-]. simpl. by rewrite Hd.
Qed.
End Framing.

Section Process.
Variable mok : Z -> bool.
Variable g : handler_table.
Variable keeps : dispatched -> bool.
Variable recv : nat -> Z -> recv_result.

Lemma grow_cap c c1 : grow mok c = Some c1 -> exists k, c1 = with_cap k c.
Proof.
  unfold grow. repeat case_match; try done; intros [= <-]; eexists; try done;
    by instantiate (1 := recv_buf_capacity c); destruct c.
Qed.

(** What [process] dispatches is what extraction finds in the bytes received. *)
Lemma process_frame n i c o ds bs :
  settled c -> header_pending_ok c -> process mok g keeps recv n i c = (o, ds, bs) ->
  exists o', frame mok g keeps (with_cap 0 (conn_append c bs)) = (o', ds) /\
    match o with
    | Running c' | Alive c' => o' = FeConn (with_cap 0 c')
    | PeerClosed => exists c', o' = FeConn c'
    | ErrorClosed => o' <> FeUndef
    | Undefined => o' = FeUndef
    end.
Proof.
  revert i c o ds bs. induction n as [|n IH]; intros i c o ds bs Hs Hp; simpl.
  { intros [= <- <- <-]. rewrite conn_append_nil, frame_cap, settled_frame by done. eauto. }
  destruct (grow mok c) as [c1|] eqn:Eg.
  2: { intros [= <- <- <-]. rewrite conn_append_nil, frame_cap, settled_frame by done. eauto. }
  apply grow_cap in Eg as [k Eg].
  destruct (recv i _) as [bytes| |e].
  2, 3: intros [= <- <- <-]; rewrite conn_append_nil, frame_cap, settled_frame by done;
    simpl; eexists; split; [done|]; subst c1; try destruct (e =? EAGAIN); eauto.
  pose proof (frame_cap mok g keeps k (conn_append c bytes)) as Hk.
  change (with_cap k (conn_append c bytes)) with (conn_append (with_cap k c) bytes) in Hk.
  rewrite <- Eg in Hk. pose proof (frame_cap mok g keeps 0 (conn_append c bytes)) as H0.
  destruct (frame mok g keeps (conn_append c bytes)) as [o0 ds0] eqn:F. rewrite Hk.
  destruct o0 as [c0| |]; simpl in *.
  - assert (Hpa : header_pending_ok (conn_append c bytes)) by exact Hp.
    destruct (frame_settled mok g keeps _ _ _ Hpa F) as [Hs0 Hp0].
    destruct (process mok g keeps recv n (S i) (with_cap k c0)) as [[o1 ds1] bs1] eqn:E.
    intros [= <- <- <-].
    destruct (IH (S i) (with_cap k c0) o1 ds1 bs1 Hs0 Hp0 E) as (o' & E' & Ho').
    exists o'. split; [|done]. rewrite <- conn_append_app.
    change (with_cap 0 (conn_append (conn_append c bytes) bs1))
      with (conn_append (with_cap 0 (conn_append c bytes)) bs1).
    rewrite frame_append, H0.
    change (conn_append (with_cap 0 c0) bs1)
      with (with_cap 0 (conn_append (with_cap k c0) bs1)). now rewrite E'.
  - intros [= <- <- <-]. rewrite H0. eauto.
  - intros [= <- <- <-]. rewrite H0. eauto.
Qed.

Lemma frame_bounds c o ds :
  frame mok g keeps c = (o, ds) ->
  (forall c', o = FeConn c' -> recv_buf_capacity c' = recv_buf_capacity c /\
                             Zlen (recv_buf c') <= Zlen (recv_buf c)) /\
  Forall (fun d => payload_length (m_header (message_of d)) <= Zlen (recv_buf c)) ds.
Proof.
  remember (frame_measure c) as n eqn:Hn. revert c o ds Hn.
  induction n as [n IH] using lt_wf_ind. intros c o ds ->. rewrite frame_eq.
  destruct (0 <? Zlen (recv_buf c)); [|intros [= <- <-]; split; [by intros ? [= <-]|done]].
  destruct (frame_iter mok g keeps c) as [c1| |c1 d|d] eqn:E.
  - intros [= <- <-]. split; [|done]. intros ? [= <-]. revert E. unfold frame_iter.
    destruct (header_fully_received c); [by intros [-> _]%take_payload_break|].
    destruct (_ <=? _); [|by intros [= <-]].
    destruct (xsan_protocol_header_deserialize _ _) as [err h].
    destruct (negb _); [done|]. destruct (negb _); [done|]. destruct (_ <? _); [done|].
    intros [-> _]%take_payload_break. simpl. unfold Zlen. rewrite length_drop. split; [done|lia].
  - intros [= <- <-]. done.
  - pose proof (frame_iter_next mok g keeps c c1 d E) as (Hm & Hl & Hc & Hpl & _).
    destruct (frame mok g keeps c1) as [o1 ds1] eqn:F. intros [= <- <-].
    destruct (IH _ Hm c1 o1 ds1 eq_refl F) as [H1 H2]. unfold Zlen in *. split.
    + intros c' Ec. destruct (H1 c' Ec). split; [congruence|lia].
    + constructor; [lia|]. eapply Forall_impl; [exact H2|]. simpl. lia.
  - apply frame_iter_undef in E as [E _]. intros [= <- <-]. split; [done|by constructor].
Qed.

Lemma grow_ok c c1 :
  buffer_ok c -> grow mok c = Some c1 ->
  buffer_ok c1 /\ Zlen (recv_buf c1) < recv_buf_capacity c1.
Proof.
  intros (Hl & k & Hk & Hc). unfold grow.
  destruct (Z.eqb_spec (Zlen (recv_buf c)) (recv_buf_capacity c)) as [He|He].
  2: { intros [= <-]. split; [split; eauto | lia]. }
  assert (Hpos : 0 < recv_buf_capacity c)
    by (rewrite Hc; unfold XSAN_COMM_INITIAL_RECV_BUF_SIZE, XSAN_MESSAGE_HEADER_SIZE;
        pose proof (Z.pow_pos_nonneg 2 k); lia).
  rewrite (proj2 (Z.ltb_lt _ _) Hpos).
  assert (Hle : recv_buf_capacity c <= XSAN_COMM_INITIAL_RECV_BUF_SIZE * 2 ^ 11).
  { rewrite Hc. apply Z.mul_le_mono_nonneg_l; [vm_compute; congruence|].
    apply Z.pow_le_mono_r; lia. }
  change (XSAN_COMM_INITIAL_RECV_BUF_SIZE * 2 ^ 11) with 8437760 in Hle.
  rewrite wrap_small by (unfold in_u; lia).
  destruct (Z.ltb_spec RECV_BUF_LIMIT (recv_buf_capacity c * 2)) as [|Hlim]; [done|].
  destruct (negb _); [done|]. intros [= <-]. simpl. split; [|lia]. split; simpl; [lia|].
  change RECV_BUF_LIMIT with 16781336 in Hlim.
  assert (k <> 11) by (intros ->; rewrite Hc in Hlim; vm_compute in Hlim; congruence).
  exists (k + 1). split; [lia|]. rewrite Hc, Z.pow_add_r by lia. lia.
Qed.

Lemma process_bounds n i c o ds bs :
  recv_bounded recv -> buffer_ok c -> process mok g keeps recv n i c = (o, ds, bs) ->
  match o with Running c' | Alive c' => buffer_ok c' | _ => True end /\
  Forall (fun d => payload_length (m_header (message_of d)) <= MAX_REACHABLE_CAPACITY) ds.
Proof.
  intros Hr. revert i c o ds bs. induction n as [|n IH]; intros i c o ds bs Hb; simpl.
  { intros [= <- <- <-]. done. }
  destruct (grow mok c) as [c1|] eqn:Eg; [|by intros [= <- <- <-]].
  destruct (grow_ok c c1 Hb Eg) as [Hb1 Hlt].
  destruct (recv i _) as [bytes| |e] eqn:Er; [|by intros [= <- <- <-]|].
  2: { intros [= <- <- <-]. by destruct (e =? EAGAIN). }
  apply Hr in Er. destruct (frame mok g keeps (conn_append c1 bytes)) as [o1 ds1] eqn:F.
  apply frame_bounds in F as [F1 F2]. simpl in F1, F2. rewrite Zlen_app in *.
  destruct Hb1 as (Hl1 & k & Hk & Hc1).
  assert (Hmax : recv_buf_capacity c1 <= MAX_REACHABLE_CAPACITY).
  { rewrite Hc1. unfold MAX_REACHABLE_CAPACITY.
    apply Z.mul_le_mono_nonneg_l; [vm_compute; congruence | apply Z.pow_le_mono_r; lia]. }
  assert (Hds : Forall (fun d => payload_length (m_header (message_of d))
                                 <= MAX_REACHABLE_CAPACITY) ds1).
  { eapply Forall_impl; [exact F2|]. simpl. lia. }
  destruct o1 as [c2| |]; [|by intros [= <- <- <-]..].
  destruct (F1 c2 eq_refl) as [Hc2 Hl2].
  destruct (process mok g keeps recv n (S i) c2) as [[o2 ds2] bs2] eqn:E. intros [= <- <- <-].
  destruct (IH (S i) c2 o2 ds2 bs2) as [H1 H2]; [|done|].
  - split; [lia|]. exists k. split; [done|congruence].
  - split; [done|]. now apply Forall_app.
Qed.
End Process.

(** ** Delivery of a stream of messages *)

Section Delivery.
Variable mok : Z -> bool.
Variable g : handler_table.
Variable keeps : dispatched -> bool.
Hypothesis mok_all : forall n, mok n = true.

Lemma idle_settled c : idle c -> settled c /\ header_pending_ok c.
Proof.
  intros [Hb Hh]. unfold settled, header_pending_ok. rewrite Hb, Hh. split; [vm_compute|]; done.
Qed.

Lemma wire_split m :
  wire_ok m -> exists p, wire_bytes m = xsan_protocol_header_serialize (m_header m) ++ p /\
    Zlen p = payload_length (m_header m) /\
    m_payload m = if 0 <? payload_length (m_header m) then Some p else None.
Proof.
  intros [Hw _ _ (p & Hl & Hp)]. exists p. split_and!; try done.
  unfold wire_bytes. rewrite Hp. f_equal. unfold Zlen in Hl.
  destruct (Z.ltb_spec 0 (payload_length (m_header m))).
  - apply take_ge. lia.
  - destruct p; [done|simpl in Hl; lia].
Qed.

(** The header of a message is taken off the front of the buffer. *)
Lemma frame_iter_header c m x :
  wire_ok m -> idle c ->
  frame_iter mok g keeps (conn_append c (xsan_protocol_header_serialize (m_header m) ++ x)) =
  take_payload mok g keeps (mk_conn x (recv_buf_capacity c) (m_header m) true (app_msg_handler c)).
Proof.
  intros [Hw Hm Hp _] [Hb Hh]. unfold frame_iter, conn_append.
  cbn [recv_buf header_fully_received partial_recv_header recv_buf_capacity app_msg_handler].
  rewrite Hb, Hh, app_nil_l, Zlen_app.
  pose proof (serialize_length _ Hw) as Hl. pose proof (Zlen_nonneg x).
  rewrite (proj2 (Z.leb_le _ _)) by (unfold Zlen; rewrite Hl;
    unfold XSAN_MESSAGE_HEADER_SIZE, Zlen in *; lia).
  rewrite deserialize_serialize by done. rewrite Hm. simpl negb. cbn iota.
  rewrite (proj2 (Z.ltb_ge _ _)) by done.
  now rewrite drop_app_length' by done.
Qed.

Lemma frame_header c m x :
  wire_ok m -> idle c ->
  frame mok g keeps (conn_append c (xsan_protocol_header_serialize (m_header m) ++ x)) =
  match take_payload mok g keeps (mk_conn x (recv_buf_capacity c) (m_header m) true (app_msg_handler c))
  with
  | FBreak c' => (FeConn c', [])
  | FClose => (FeClosed, [])
  | FNext c' d => let '(o, ds) := frame mok g keeps c' in (o, d :: ds)
  | FUndef d => (FeUndef, [d])
  end.
Proof.
  intros Hok Hc. rewrite frame_eq, frame_iter_header by done.
  rewrite (proj2 (Z.ltb_lt _ _)); [done|]. unfold conn_append. cbn [recv_buf].
  rewrite !Zlen_app. pose proof (Zlen_nonneg (recv_buf c)). pose proof (Zlen_nonneg x).
  pose proof (serialize_length _ (wo_header _ Hok)). unfold Zlen in *. lia.
Qed.

Lemma frame_message c m :
  wire_ok m -> idle c ->
  frame mok g keeps (conn_append c (wire_bytes m)) =
    let d := dispatch g (app_msg_handler c) m in
    (if freed keeps d then FeUndef
     else FeConn (mk_conn [] (recv_buf_capacity c) (m_header m) false (app_msg_handler c)), [d]).
Proof.
  intros Hok Hc. destruct (wire_split m Hok) as (p & -> & Hl & Hp).
  assert (Hn : Z.to_nat (payload_length (m_header m)) = length p)
    by (rewrite <- Hl; apply Nat2Z.id).
  rewrite (frame_header c m) by done. unfold take_payload. simpl.
  rewrite Hl, Z.leb_refl, !mok_all, Hn, drop_all, firstn_all. simpl negb.
  rewrite andb_false_r, <- Hp. cbn iota. destruct m as [h q]. cbn [m_header m_payload] in *.
  destruct (freed keeps _); [done|]. by rewrite frame_eq.
Qed.

Lemma frame_messages c msgs :
  Forall wire_ok msgs -> idle c ->
  exists o, frame mok g keeps (conn_append c (concat (map wire_bytes msgs))) =
    (o, until_freed keeps (map (dispatch g (app_msg_handler c)) msgs)).
Proof.
  intros Hm. revert c. induction Hm as [|m msgs Hm Hms IH]; intros c Hc; cbn [map concat].
  - rewrite conn_append_nil. exists (FeConn c). apply settled_frame. now apply idle_settled.
  - rewrite <- conn_append_app, frame_append, frame_message by done. cbn [until_freed].
    destruct (freed keeps _); [by eexists|].
    set (c1 := mk_conn [] (recv_buf_capacity c) (m_header m) false (app_msg_handler c)).
    destruct (IH c1) as [o E]; [done|]. exists o. rewrite E. done.
Qed.

(** A proper prefix of one message yields no message, and a header only when it
    is complete. *)
Lemma frame_partial c m bs rest :
  wire_ok m -> idle c -> wire_bytes m = bs ++ rest -> rest <> [] ->
  exists c', frame mok g keeps (conn_append c bs) = (FeConn c', []) /\
    (header_fully_received c' = true -> partial_recv_header c' = m_header m).
Proof.
  intros Hok Hc Hw Hr. destruct (wire_split m Hok) as (p & E & Hl & Hp). rewrite E in Hw.
  pose proof (serialize_length _ (wo_header _ Hok)) as Hsl.
  apply app_eq_app in Hw as (l & [[H1 H2]|[H1 H2]]).
  - (* bs stops inside the header or at its end *)
    destruct l as [|y l].
    + rewrite app_nil_r in H1. simpl in H2. subst bs rest.
      rewrite <- (app_nil_r (xsan_protocol_header_serialize _)).
      rewrite (frame_header c m) by done. unfold take_payload. simpl. rewrite Zlen_nil.
      destruct (Z.leb_spec (payload_length (m_header m)) 0); [|eauto].
      destruct p; [done|]. rewrite Zlen_cons in Hl. pose proof (Zlen_nonneg p). lia.
    + exists (conn_append c bs). rewrite settled_frame; [|].
      * split; [done|]. destruct Hc as [_ Hh]. simpl. congruence.
      * unfold settled. destruct Hc as [Hb Hh]. simpl. rewrite Hb, Hh. simpl.
        apply (f_equal length) in H1. rewrite length_app, Hsl in H1. simpl in H1.
        unfold Zlen, XSAN_MESSAGE_HEADER_SIZE. lia.
  - subst bs. rewrite (frame_header c m) by done. unfold take_payload. simpl.
    destruct (Z.leb_spec (payload_length (m_header m)) (Zlen l)); [|eauto].
    subst p. rewrite Zlen_app in Hl. destruct rest; [done|].
    rewrite Zlen_cons in Hl. pose proof (Zlen_nonneg rest). lia.
Qed.

Lemma frame_prefix c msgs bs rest :
  Forall wire_ok msgs -> idle c -> concat (map wire_bytes msgs) = bs ++ rest ->
  exists o ms1 ms2, msgs = ms1 ++ ms2 /\
    frame mok g keeps (conn_append c bs) = (o, map (dispatch g (app_msg_handler c)) ms1) /\
    o <> FeClosed /\
    (forall c', o = FeConn c' -> header_fully_received c' = true ->
     exists m, m ∈ msgs /\ partial_recv_header c' = m_header m).
Proof.
  intros Hm. revert c bs. induction Hm as [|m msgs Hm Hms IH]; intros c bs Hc Hw;
    cbn [map concat] in Hw.
  - symmetry in Hw. apply app_eq_nil in Hw as [-> ->]. exists (FeConn c), [], [].
    rewrite conn_append_nil, settled_frame by now apply idle_settled.
    split_and!; try done. destruct Hc. intros c' [= <-]. congruence.
  - apply app_eq_app in Hw as (l & [[H1 H2]|[H1 H2]]).
    + destruct l as [|y l].
      * rewrite app_nil_r in H1. subst bs. rewrite frame_message by done.
        eexists _, [m], msgs. split_and!; try done; [by case_match|].
        intros c'. case_match; [done|]. by intros [= <-].
      * destruct (frame_partial c m bs (y :: l) Hm Hc H1) as (c' & E & Hh); [done|].
        exists (FeConn c'), [], (m :: msgs). split_and!; try done. intros ? [= <-] Ht. exists m.
        split; [left | auto].
    + subst bs. rewrite <- conn_append_app, frame_append, frame_message by done.
      cbv zeta. destruct (freed keeps _).
      { exists FeUndef, [m], msgs. done. }
      set (c1 := mk_conn [] (recv_buf_capacity c) (m_header m) false (app_msg_handler c)).
      destruct (IH c1 l) as (o & ms1 & ms2 & -> & E & Hcl & Hh); [done..|].
      exists o, (m :: ms1), ms2. rewrite E. split_and!; try done.
      intros c' Ec Ht. destruct (Hh c' Ec Ht) as (m' & Hin & Heq). exists m'.
      split; [now right | done].
Qed.
End Delivery.

Section Stream.
Variable mok : Z -> bool.
Variable g : handler_table.
Variable keeps : dispatched -> bool.
Variable recv : nat -> Z -> recv_result.
Hypothesis mok_all : forall n, mok n = true.
Hypothesis recv_ok : recv_bounded recv.
Hypothesis recv_again : forall i room e, recv i room = RecvErr e -> e = EAGAIN.
Variables (c0 : conn) (msgs : list xsan_message).
Hypothesis c0_idle : idle c0.
Hypothesis msgs_ok : Forall wire_ok msgs.
Hypothesis msgs_fit :
  Forall (fun m => payload_length (m_header m) <= MAX_REACHABLE_CAPACITY) msgs.

(** The buffer of a connection that is inside the stream can always grow. *)
Lemma grow_in_stream pre rest c ds0 :
  concat (map wire_bytes msgs) = pre ++ rest -> buffer_ok c -> settled c ->
  frame mok g keeps (with_cap 0 (conn_append c0 pre)) = (FeConn (with_cap 0 c), ds0) ->
  is_Some (grow mok c).
Proof.
  intros Hw Hb Hs Hf. unfold grow.
  destruct (Z.eqb_spec (Zlen (recv_buf c)) (recv_buf_capacity c)) as [He|]; [|done].
  assert (Hlt : Zlen (recv_buf c) < MAX_REACHABLE_CAPACITY).
  { unfold settled in Hs. destruct (header_fully_received c) eqn:Hh.
    - destruct (frame_prefix mok g keeps mok_all (with_cap 0 c0) msgs pre rest)
        as (o & ms1 & ms2 & _ & E & _ & Hhd); [done..|].
      change (conn_append (with_cap 0 c0) pre) with (with_cap 0 (conn_append c0 pre)) in E.
      rewrite E in Hf. injection Hf as -> _.
      destruct (Hhd _ eq_refl Hh) as (m & Hin & Heq).
      simpl in Heq. rewrite Heq in Hs. rewrite Forall_forall in msgs_fit.
      specialize (msgs_fit m Hin). lia.
    - change MAX_REACHABLE_CAPACITY with 8437760. unfold XSAN_MESSAGE_HEADER_SIZE in Hs. lia. }
  destruct Hb as (_ & k & Hk & Hc).
  change MAX_REACHABLE_CAPACITY with (4120 * 2 ^ 11) in Hlt.
  change XSAN_COMM_INITIAL_RECV_BUF_SIZE with 4120 in Hc.
  assert (Hk10 : k <= 10).
  { destruct (Z.le_gt_cases k 10); [done|]. replace k with 11 in Hc by lia. lia. }
  pose proof (Z.pow_le_mono_r 2 k 10 ltac:(lia) Hk10).
  assert (0 < 2 ^ k) by (apply Z.pow_pos_nonneg; lia). change (2 ^ 10) with 1024 in *.
  rewrite (proj2 (Z.ltb_lt 0 _)), wrap_small by (unfold in_u; lia).
  rewrite mok_all. rewrite (proj2 (Z.ltb_ge RECV_BUF_LIMIT _)); [done|].
  change RECV_BUF_LIMIT with 16781336. lia.
Qed.

Lemma process_no_close n i c pre ds0 o ds bs :
  (exists rest, concat (map wire_bytes msgs) = (pre ++ bs) ++ rest) ->
  buffer_ok c -> settled c -> header_pending_ok c ->
  frame mok g keeps (with_cap 0 (conn_append c0 pre)) = (FeConn (with_cap 0 c), ds0) ->
  process mok g keeps recv n i c = (o, ds, bs) -> o <> ErrorClosed.
Proof.
  revert i c pre ds0 o ds bs.
  induction n as [|n IH]; intros i c pre ds0 o ds bs [rest Hw] Hb Hs Hp Hf; simpl.
  { by intros [= <- <- <-]. }
  rewrite <- app_assoc in Hw.
  destruct (grow_in_stream pre (bs ++ rest) c ds0 Hw Hb Hs Hf) as [c1 Eg].
  rewrite Eg. destruct (grow_ok mok c c1 Hb Eg) as [Hb1 Hlt1].
  destruct (grow_cap mok c c1 Eg) as [k Hc1].
  destruct (recv i _) as [bytes| |e] eqn:Er; [|by intros [= <- <- <-]|].
  2: { apply recv_again in Er as ->. by intros [= <- <- <-]. }
  apply recv_ok in Er.
  pose proof (frame_append mok g keeps (with_cap 0 (conn_append c0 pre)) bytes) as Happ.
  rewrite Hf in Happ.
  change (conn_append (with_cap 0 (conn_append c0 pre)) bytes)
    with (conn_append (conn_append (with_cap 0 c0) pre) bytes) in Happ.
  rewrite conn_append_app in Happ.
  pose proof (frame_cap mok g keeps 0 (conn_append c1 bytes)) as Hcap.
  replace (with_cap 0 (conn_append c1 bytes)) with (conn_append (with_cap 0 c) bytes) in Hcap
    by (subst c1; done).
  destruct (frame mok g keeps (conn_append c1 bytes)) as [o1 ds1] eqn:F.
  rewrite Hcap in Happ.
  destruct o1 as [c2| |]; simpl in Happ; [| |by intros [= <- <- <-]].
  - destruct (process mok g keeps recv n (S i) c2) as [[o2 ds2] bs2] eqn:E. intros [= <- <- <-].
    assert (Hp1 : header_pending_ok (conn_append c1 bytes)) by (subst c1; exact Hp).
    destruct (frame_settled mok g keeps _ _ _ Hp1 F) as [Hs2 Hp2].
    destruct (frame_bounds mok g keeps _ _ _ F) as [Hbd _]. destruct (Hbd c2 eq_refl) as [Hc2 Hl2].
    simpl in Hc2, Hl2. rewrite Zlen_app in Hl2.
    eapply (IH (S i) c2 (pre ++ bytes) _ o2 ds2 bs2); [| |done|done| |done].
    + exists rest. now rewrite <- !app_assoc in *.
    + destruct Hb1 as (_ & k' & Hk' & Hc'). split; [lia|]. exists k'. split; [done|congruence].
    + exact Happ.
  - intros [= <- <- <-]. exfalso. rewrite app_assoc in Hw.
    destruct (frame_prefix mok g keeps mok_all (with_cap 0 c0) msgs (pre ++ bytes) rest)
      as (c' & ms1 & ms2 & _ & Ep & Hcl & _); [done..|]. congruence.
Qed.
End Stream.

(** ** Properties *)

Lemma create_idle app :
  idle (create_connection_ctx app) /\ buffer_ok (create_connection_ctx app).
Proof.
  split; [done|]. split; [vm_compute; congruence|]. exists 0. split; [lia|reflexivity].
Qed.

(** When the bytes received are those of whole messages, the messages are what is
    dispatched, up to the first one that is freed. *)
Lemma stream_dispatched mok g keeps recv app msgs n o ds :
  (forall k, mok k = true) -> Forall wire_ok msgs ->
  process mok g keeps recv n 0 (create_connection_ctx app) = (o, ds, concat (map wire_bytes msgs)) ->
  ds = until_freed keeps (map (dispatch g app) msgs).
Proof.
  intros Hmok Hok Hpr. destruct (create_idle app) as [Hi Hb].
  set (c0 := create_connection_ctx app) in *.
  destruct (idle_settled c0 Hi) as [Hs Hp].
  destruct (process_frame mok g keeps recv n 0 c0 o ds _ Hs Hp Hpr) as (o' & Hf & _).
  destruct (frame_messages mok g keeps Hmok (with_cap 0 c0) msgs) as (c' & E); [done..|].
  change (with_cap 0 (conn_append c0 ?bs)) with (conn_append (with_cap 0 c0) bs) in Hf.
  rewrite E in Hf. by injection Hf.
Qed.

(** The receive run is undefined exactly when a message it dispatched was freed. *)
Lemma process_undefined mok g keeps recv app n o ds bs :
  process mok g keeps recv n 0 (create_connection_ctx app) = (o, ds, bs) ->
  (o = Undefined <-> existsb (freed keeps) ds = true) /\ until_freed keeps ds = ds.
Proof.
  intros Hpr. destruct (idle_settled _ (proj1 (create_idle app))) as [Hs Hp].
  destruct (process_frame mok g keeps recv n 0 _ o ds bs Hs Hp Hpr) as (o' & Hf & Ho).
  destruct (frame_undef mok g keeps _ _ _ Hf) as [Hu Hd]. split; [|done]. rewrite <- Hu.
  destruct o; simpl in Ho; split; intros Hx; try (destruct Ho; congruence); congruence.
Qed.

(** C4: Messages written to the wire one after another and received in pieces
    of any size are dispatched in order and exactly once, and the receiver does not close
    the connection, as long as payloads fit the receive buffer's largest size, allocations
    succeed and the socket reports no error.  Delivery goes on as long as the messages are
    still allocated when their dispatch returns: the first message that its handler has
    freed by then, or that has no handler, is the last one dispatched, because the code
    then reads its length to remove it from the buffer, which is undefined. *)
Theorem stream_delivered mok g keeps recv app msgs n o ds bs rest :
  (forall k, mok k = true) -> recv_bounded recv ->
  (forall i room e, recv i room = RecvErr e -> e = EAGAIN) ->
  Forall wire_ok msgs ->
  Forall (fun m => payload_length (m_header m) <= MAX_REACHABLE_CAPACITY) msgs ->
  process mok g keeps recv n 0 (create_connection_ctx app) = (o, ds, bs) ->
  concat (map wire_bytes msgs) = bs ++ rest ->
  o <> ErrorClosed /\
  (o = Undefined <-> existsb (freed keeps) ds = true) /\
  (exists ms1 ms2, msgs = ms1 ++ ms2 /\ ds = map (dispatch g app) ms1) /\
  (rest = [] -> ds = until_freed keeps (map (dispatch g app) msgs)) /\
  (rest = [] -> o <> Undefined -> ds = map (dispatch g app) msgs).
Proof.
  intros Hmok Hrb Hra Hok Hfit Hpr Hw. destruct (create_idle app) as [Hi Hb].
  set (c0 := create_connection_ctx app) in *.
  destruct (idle_settled c0 Hi) as [Hs Hp].
  destruct (process_frame mok g keeps recv n 0 c0 o ds bs Hs Hp Hpr) as (o' & Hf & _).
  change (with_cap 0 (conn_append c0 bs)) with (conn_append (with_cap 0 c0) bs) in Hf.
  pose proof (process_undefined mok g keeps recv app n o ds bs Hpr) as [Hu _].
  assert (Hall : rest = [] -> ds = until_freed keeps (map (dispatch g app) msgs)).
  { intros ->. rewrite app_nil_r in Hw. rewrite <- Hw in Hpr.
    exact (stream_dispatched mok g keeps recv app msgs n o ds Hmok Hok Hpr). }
  split_and!; [| done | | done |].
  - apply (process_no_close mok g keeps recv Hmok Hrb Hra c0 msgs Hi Hok Hfit n 0 c0 [] [] o ds bs);
      [now exists rest | done..| |done].
    rewrite conn_append_nil, frame_cap, settled_frame by done. done.
  - destruct (frame_prefix mok g keeps Hmok (with_cap 0 c0) msgs bs rest)
      as (c' & ms1 & ms2 & -> & E & _); [done..|].
    exists ms1, ms2. split; [done|]. rewrite E in Hf. by injection Hf.
  - intros Hr Hn. rewrite (Hall Hr) in *. apply until_freed_all.
    destruct (existsb _ _); [tauto|done].
Qed.

(** A socket that hands out a fixed byte string seven bytes at a time. *)
Definition drip_socket (stream : list Z) (i : nat) (room : Z) : recv_result :=
  match take (min 7 (Z.to_nat room)) (drop (7 * i) stream) with
  | [] => RecvErr EAGAIN
  | bytes => RecvData bytes
  end.

Definition sample_message : xsan_message :=
  mk_message (mk_header XSAN_PROTOCOL_MAGIC 600 1 3 9 0) (Some [1; 2; 3]).

Lemma drip_socket_ok stream :
  recv_bounded (drip_socket stream) /\
  (forall i room e, drip_socket stream i room = RecvErr e -> e = EAGAIN).
Proof.
  split.
  - intros i room bytes. unfold drip_socket.
    destruct (take _ _) as [|x l] eqn:E; [done|]. intros [= <-].
    pose proof (f_equal length E) as Hl. rewrite length_take in Hl.
    unfold Zlen. cbn [length] in *. lia.
  - intros i room e. unfold drip_socket. destruct (take _ _); [|done]. by intros [= <-].
Qed.

Lemma sample_message_ok : wire_ok sample_message.
Proof.
  constructor; simpl; [|done|vm_compute; congruence|].
  - constructor; simpl; unfold in_u; vm_compute; split; congruence.
  - exists [1; 2; 3]. done.
Qed.

(** Two messages to handlers that keep them are both delivered; handlers that free them end
    the run at the first. *)
Lemma stream_delivered_witness :
  (exists o, process (fun _ => true) (mk_handlers true (fun t => t =? 600)) (fun _ => true)
      (drip_socket (wire_bytes sample_message ++ wire_bytes sample_message)) 10 0
      (create_connection_ctx false)
    = (o, [ToSpecific 600 sample_message; ToSpecific 600 sample_message],
       wire_bytes sample_message ++ wire_bytes sample_message) /\
    o <> ErrorClosed /\ o <> Undefined) /\
  (exists bs, process (fun _ => true) (mk_handlers true (fun t => t =? 600)) (fun _ => false)
      (drip_socket (wire_bytes sample_message ++ wire_bytes sample_message)) 10 0
      (create_connection_ctx false)
    = (Undefined, [ToSpecific 600 sample_message], bs)).
Proof.
  split; [|eexists; vm_compute; reflexivity].
  eexists _. split; [vm_compute; reflexivity|].
  destruct (stream_delivered (fun _ => true) (mk_handlers true (fun t => t =? 600))
    (fun _ => true)
    (drip_socket (wire_bytes sample_message ++ wire_bytes sample_message)) false
    [sample_message; sample_message] 10
    (Alive (mk_conn [] 4120 (m_header sample_message) false false))
    [ToSpecific 600 sample_message; ToSpecific 600 sample_message]
    (wire_bytes sample_message ++ wire_bytes sample_message) []) as (H1 & _ & _).
  - reflexivity.
  - apply drip_socket_ok.
  - apply drip_socket_ok.
  - repeat constructor; apply sample_message_ok.
  - repeat constructor; vm_compute; congruence.
  - vm_compute; reflexivity.
  - vm_compute; reflexivity.
  - split; [exact H1 | discriminate].
Defined.

(** How the byte stream is cut into receive calls does not matter: two
    connections that received the same bytes dispatched the same messages. *)
Theorem fragmentation_invariance mok g keeps recv1 recv2 n1 n2 app o1 o2 ds1 ds2 bs :
  process mok g keeps recv1 n1 0 (create_connection_ctx app) = (o1, ds1, bs) ->
  process mok g keeps recv2 n2 0 (create_connection_ctx app) = (o2, ds2, bs) ->
  ds1 = ds2.
Proof.
  intros H1 H2. destruct (idle_settled _ (proj1 (create_idle app))) as [Hs Hp].
  destruct (process_frame mok g keeps recv1 n1 0 _ o1 ds1 bs Hs Hp H1) as (? & E1 & _).
  destruct (process_frame mok g keeps recv2 n2 0 _ o2 ds2 bs Hs Hp H2) as (? & E2 & _).
  congruence.
Qed.

Lemma fragmentation_invariance_witness :
  [ToGeneric sample_message] = [ToGeneric sample_message].
Proof.
  apply (fragmentation_invariance (fun _ => true) (mk_handlers true (fun _ => false))
    (fun _ => true)
    (drip_socket (wire_bytes sample_message))
    (fun i room => if (i =? 0)%nat then RecvData (wire_bytes sample_message) else RecvEof)
    8 2 true (Alive (mk_conn [] 4120 (m_header sample_message) false true)) PeerClosed _ _
    (wire_bytes sample_message)); vm_compute; reflexivity.
Defined.

(** C38: Whatever the peer sends, the buffered bytes never exceed the receive
    buffer, the buffer's capacity is the initial one doubled at most eleven
    times, and no message with a payload above 8437760 bytes is ever
    dispatched, although the protocol admits payloads of 16 MiB.  The bounds hold as long
    as the run is defined: up to and including the dispatch of the first message that is
    freed by the time its length is read again. *)
Theorem receive_buffer_bound mok g keeps recv n app o ds bs :
  recv_bounded recv ->
  process mok g keeps recv n 0 (create_connection_ctx app) = (o, ds, bs) ->
  match o with Running c | Alive c => buffer_ok c | _ => True end /\
  Forall (fun d => payload_length (m_header (message_of d)) <= 8437760) ds.
Proof.
  intros Hr Hp. change 8437760 with MAX_REACHABLE_CAPACITY.
  eapply (process_bounds mok g keeps recv n 0); [done|apply create_idle|done].
Qed.

Lemma receive_buffer_bound_witness :
  buffer_ok (mk_conn [] 4120 (m_header sample_message) false true) /\
  Forall (fun d => payload_length (m_header (message_of d)) <= 8437760)
    [ToGeneric sample_message].
Proof.
  apply (receive_buffer_bound (fun _ => true) (mk_handlers true (fun _ => false))
    (fun _ => true)
    (drip_socket (wire_bytes sample_message)) 8 true
    (Alive (mk_conn [] 4120 (m_header sample_message) false true)) _
    (wire_bytes sample_message)).
  - apply drip_socket_ok.
  - vm_compute; reflexivity.
Defined.

(** Disconnecting a socket that has an active connection never returns: the
    list lock is taken again while it is held. *)
Theorem disconnect_active_deadlocks sock s :
  sock <> NULL -> lock_held s = false ->
  xsan_node_comm_disconnect sock s = None <->
  exists ctx, ctx ∈ active_connections s /\ ctx.2 = sock.
Proof.
  intros Hn Hl. unfold xsan_node_comm_disconnect, mutex_lock.
  rewrite (proj2 (Z.eqb_neq _ _)) by done. rewrite Hl. simpl.
  destruct (find _ _) as [ctx|] eqn:E; simpl.
  - split; [|done]. intros _. apply find_some in E as [Hin Heq].
    exists ctx. split; [now apply list_elem_of_In | now apply Z.eqb_eq].
  - split; [done|]. intros (ctx & Hin & <-). apply list_elem_of_In in Hin.
    apply (find_none _ _ E) in Hin. now rewrite Z.eqb_refl in Hin.
Qed.

Lemma disconnect_active_deadlocks_witness :
  xsan_node_comm_disconnect 7 (mk_comm [(100, 5); (200, 7)] false) = None.
Proof.
  apply disconnect_active_deadlocks; [done|done|]. exists (200, 7). split; [|done].
  right. left.
Defined.
