(* ===== verification/RingBuffer.v ===== *)
(** * The ring buffer

    Models [src/common/ring_buffer.c]: a fixed-capacity circular array of
    pointers.  The abstract specification is a bounded FIFO queue, and the
    circular array is proved to implement it on every sequence of calls. *)

From stdpp Require Import prelude.
From S2P Require Import Prelude Errors.

#[local] Open Scope Z_scope.

(** [value_destroy_func] is represented by whether it is set; the values it is
    called on are returned, in call order, by the operations that call it. *)
Record xsan_ring_buffer := mk_rb {
  rb_buffer : list ptr;
  rb_capacity : Z;
  rb_count : Z;
  rb_head : Z;
  rb_tail : Z;
  rb_value_destroy : bool
}.

(** A handle is [None] for the NULL pointer.  [malloc_ok] and [calloc_ok] are
    the outcomes of the two allocations. *)
Definition xsan_ring_buffer_create (capacity : Z) (value_destroy : bool)
    (malloc_ok calloc_ok : bool) : option xsan_ring_buffer :=
  if capacity =? 0 then None
  else if negb malloc_ok then None
  else if negb calloc_ok then None
  else Some (mk_rb (replicate (Z.to_nat capacity) NULL) capacity 0 0 0 value_destroy).

Definition xsan_ring_buffer_push (h : option xsan_ring_buffer) (value : ptr)
  : option xsan_ring_buffer * xsan_error_t :=
  match h with
  | None => (h, XSAN_ERROR_INVALID_PARAM)
  | Some rb =>
      if rb_count rb =? rb_capacity rb then (h, XSAN_ERROR_INSUFFICIENT_SPACE)
      else
        (Some (mk_rb (rb_buffer rb).[rb_tail rb := value] (rb_capacity rb)
                 (wrap 64 (rb_count rb + 1)) (rb_head rb)
                 (wrap 64 (rb_tail rb + 1) mod rb_capacity rb) (rb_value_destroy rb)),
         XSAN_OK)
  end.

(** [value_ptr] says whether the caller's out-pointer is non-NULL; the value
    stored through it is the last component. *)
Definition xsan_ring_buffer_pop (h : option xsan_ring_buffer) (value_ptr : bool)
  : option xsan_ring_buffer * (xsan_error_t * option ptr) :=
  match h with
  | None => (h, (XSAN_ERROR_INVALID_PARAM, None))
  | Some rb =>
      if negb value_ptr then (h, (XSAN_ERROR_INVALID_PARAM, None))
      else if rb_count rb =? 0 then (h, (XSAN_ERROR_NOT_FOUND, None))
      else
        (Some (mk_rb (rb_buffer rb) (rb_capacity rb) (wrap 64 (rb_count rb - 1))
                 (wrap 64 (rb_head rb + 1) mod rb_capacity rb) (rb_tail rb)
                 (rb_value_destroy rb)),
         (XSAN_OK, Some (rb_buffer rb).[rb_head rb]))
  end.

Definition xsan_ring_buffer_peek (h : option xsan_ring_buffer) (value_ptr : bool)
  : xsan_error_t * option ptr :=
  match h with
  | None => (XSAN_ERROR_INVALID_PARAM, None)
  | Some rb =>
      if negb value_ptr then (XSAN_ERROR_INVALID_PARAM, None)
      else if rb_count rb =? 0 then (XSAN_ERROR_NOT_FOUND, None)
      else (XSAN_OK, Some (rb_buffer rb).[rb_head rb])
  end.

Definition xsan_ring_buffer_size (h : option xsan_ring_buffer) : Z :=
  match h with Some rb => rb_count rb | None => 0 end.

Definition xsan_ring_buffer_get_capacity (h : option xsan_ring_buffer) : Z :=
  match h with Some rb => rb_capacity rb | None => 0 end.

Definition xsan_ring_buffer_is_empty (h : option xsan_ring_buffer) : bool :=
  match h with Some rb => rb_count rb =? 0 | None => true end.

Definition xsan_ring_buffer_is_full (h : option xsan_ring_buffer) : bool :=
  match h with Some rb => rb_count rb =? rb_capacity rb | None => false end.

(** The destruction loop of [xsan_ring_buffer_clear]: [n] iterations left, the
    cursor at [current_head]; yields the values passed to the destructor. *)
Fixpoint clear_loop (rb : xsan_ring_buffer) (n : nat) (current_head : Z) : list ptr :=
  match n with
  | O => []
  | S n' =>
      let v := (rb_buffer rb).[current_head] in
      let rest := clear_loop rb n' (wrap 64 (current_head + 1) mod rb_capacity rb) in
      if v =? NULL then rest else v :: rest
  end.

Definition xsan_ring_buffer_clear (h : option xsan_ring_buffer)
  : option xsan_ring_buffer * list ptr :=
  match h with
  | None => (h, [])
  | Some rb =>
      (Some (mk_rb (rb_buffer rb) (rb_capacity rb) 0 0 0 (rb_value_destroy rb)),
       if rb_value_destroy rb then clear_loop rb (Z.to_nat (rb_count rb)) (rb_head rb)
       else [])
  end.

(** [xsan_ring_buffer_destroy] clears and frees; the handle is gone. *)
Definition xsan_ring_buffer_destroy (h : option xsan_ring_buffer)
  : option xsan_ring_buffer * list ptr :=
  (None, (xsan_ring_buffer_clear h).2).

(** ** Calls and observations *)

Inductive rb_op :=
  | RbPush (value : ptr) | RbPop (value_ptr : bool) | RbPeek (value_ptr : bool)
  | RbSize | RbCapacity | RbIsEmpty | RbIsFull | RbClear.

Inductive rb_out :=
  | OErr (e : xsan_error_t) | OVal (r : xsan_error_t * option ptr)
  | ONum (n : Z) | OBool (b : bool) | ODestroyed (vs : list ptr).

Definition rb_step (h : option xsan_ring_buffer) (op : rb_op)
  : option xsan_ring_buffer * rb_out :=
  match op with
  | RbPush v => let '(h', e) := xsan_ring_buffer_push h v in (h', OErr e)
  | RbPop p => let '(h', r) := xsan_ring_buffer_pop h p in (h', OVal r)
  | RbPeek p => (h, OVal (xsan_ring_buffer_peek h p))
  | RbSize => (h, ONum (xsan_ring_buffer_size h))
  | RbCapacity => (h, ONum (xsan_ring_buffer_get_capacity h))
  | RbIsEmpty => (h, OBool (xsan_ring_buffer_is_empty h))
  | RbIsFull => (h, OBool (xsan_ring_buffer_is_full h))
  | RbClear => let '(h', vs) := xsan_ring_buffer_clear h in (h', ODestroyed vs)
  end.

(** ** Specification: a bounded queue, oldest element first *)

Record bqueue := mk_bq { bq_cap : Z; bq_items : list ptr; bq_destroy : bool }.

Definition bq_step (q : bqueue) (op : rb_op) : bqueue * rb_out :=
  match op with
  | RbPush v =>
      if Zlen (bq_items q) =? bq_cap q then (q, OErr XSAN_ERROR_INSUFFICIENT_SPACE)
      else (mk_bq (bq_cap q) (bq_items q ++ [v]) (bq_destroy q), OErr XSAN_OK)
  | RbPop false => (q, OVal (XSAN_ERROR_INVALID_PARAM, None))
  | RbPop true =>
      match bq_items q with
      | [] => (q, OVal (XSAN_ERROR_NOT_FOUND, None))
      | v :: vs => (mk_bq (bq_cap q) vs (bq_destroy q), OVal (XSAN_OK, Some v))
      end
  | RbPeek false => (q, OVal (XSAN_ERROR_INVALID_PARAM, None))
  | RbPeek true =>
      (q, OVal (match bq_items q with
                | [] => (XSAN_ERROR_NOT_FOUND, None)
                | v :: _ => (XSAN_OK, Some v)
                end))
  | RbSize => (q, ONum (Zlen (bq_items q)))
  | RbCapacity => (q, ONum (bq_cap q))
  | RbIsEmpty => (q, OBool (bool_decide (bq_items q = [])))
  | RbIsFull => (q, OBool (Zlen (bq_items q) =? bq_cap q))
  | RbClear =>
      (mk_bq (bq_cap q) [] (bq_destroy q),
       ODestroyed (if bq_destroy q then filter (fun v => v <> NULL) (bq_items q) else []))
  end.

(** ** Invariant and abstraction *)

Record rb_wf (rb : xsan_ring_buffer) : Prop := {
  wf_cap : 0 < rb_capacity rb < 2 ^ 64;
  wf_len : Zlen (rb_buffer rb) = rb_capacity rb;
  wf_count : 0 <= rb_count rb <= rb_capacity rb;
  wf_head : 0 <= rb_head rb < rb_capacity rb;
  wf_tail : rb_tail rb = (rb_head rb + rb_count rb) mod rb_capacity rb
}.

(** The [n] elements found from index [start] on, wrapping at the capacity. *)
Fixpoint segment (buf : list ptr) (cap start : Z) (n : nat) : list ptr :=
  match n with
  | O => []
  | S n' => buf.[start mod cap] :: segment buf cap (start + 1) n'
  end.

Definition rb_contents (rb : xsan_ring_buffer) : list ptr :=
  segment (rb_buffer rb) (rb_capacity rb) (rb_head rb) (Z.to_nat (rb_count rb)).

Definition rb_abs (h : option xsan_ring_buffer) (q : bqueue) : Prop :=
  exists rb, h = Some rb /\ rb_wf rb /\
    q = mk_bq (rb_capacity rb) (rb_contents rb) (rb_value_destroy rb).

(** ** Lemmas *)

Lemma mod_inj_window a b c : 0 < c -> a mod c = b mod c -> Z.abs (a - b) < c -> a = b.
Proof.
  intros Hc E Hab.
  pose proof (Z.div_mod a c ltac:(lia)). pose proof (Z.div_mod b c ltac:(lia)).
  assert (a - b = c * (a / c - b / c)) by lia.
  assert (a / c - b / c = 0) by nia. lia.
Qed.

Lemma segment_length buf cap start n : length (segment buf cap start n) = n.
Proof. revert start. induction n; intros; simpl; auto. Qed.

Lemma segment_mod buf cap start n :
  0 < cap -> segment buf cap (start mod cap) n = segment buf cap start n.
Proof.
  intros Hc. revert start. induction n as [|n IH]; intros start; simpl; [done|].
  rewrite Z.mod_mod by lia. f_equal.
  rewrite <- (IH (start mod cap + 1)), Z.add_mod_idemp_l by lia. apply IH.
Qed.

Lemma segment_snoc buf cap start n :
  segment buf cap start (S n) = segment buf cap start n ++ [buf.[(start + Z.of_nat n) mod cap]].
Proof.
  revert start. induction n as [|n IH]; intros start.
  - simpl. now rewrite Z.add_0_r.
  - change (segment buf cap start (S (S n)))
      with (buf.[start mod cap] :: segment buf cap (start + 1) (S n)).
    rewrite IH. now replace (start + 1 + Z.of_nat n) with (start + Z.of_nat (S n)) by lia.
Qed.

(** A store at an index outside the segment does not change it. *)
Lemma segment_insert_ne buf cap start n i v :
  0 < cap -> 0 <= i ->
  (forall k, 0 <= k < Z.of_nat n -> (start + k) mod cap <> i) ->
  segment buf.[i := v] cap start n = segment buf cap start n.
Proof.
  intros Hc Hi. revert start. induction n as [|n IH]; intros start Hne; simpl; [done|].
  f_equal.
  - rewrite list_lookup_insert_ne; [done|]. specialize (Hne 0 ltac:(lia)).
    rewrite Z.add_0_r in Hne. pose proof (Z.mod_pos_bound start cap Hc). lia.
  - apply IH. intros k Hk. rewrite <- Z.add_assoc. apply Hne. lia.
Qed.

Lemma rb_contents_len rb : rb_wf rb -> Zlen (rb_contents rb) = rb_count rb.
Proof.
  intros [_ _ Hc _ _]. unfold Zlen, rb_contents. rewrite segment_length. lia.
Qed.

(** Index arithmetic never wraps at 64 bits: indices stay below the capacity. *)
Lemma next_index rb i :
  rb_wf rb -> 0 <= i < rb_capacity rb -> wrap 64 (i + 1) = i + 1.
Proof. intros [Hc _ _ _ _] Hi. apply wrap_small. unfold in_u. lia. Qed.

Lemma push_wf rb v :
  rb_wf rb -> rb_count rb <> rb_capacity rb ->
  exists rb', xsan_ring_buffer_push (Some rb) v = (Some rb', XSAN_OK) /\
    rb_wf rb' /\ rb_contents rb' = rb_contents rb ++ [v] /\
    rb_capacity rb' = rb_capacity rb /\ rb_value_destroy rb' = rb_value_destroy rb.
Proof.
  intros Hwf Hne. pose proof Hwf as [Hcap Hlen Hcnt Hhd Htl]. simpl.
  destruct (Z.eqb_spec (rb_count rb) (rb_capacity rb)) as [|_]; [easy|].
  assert (Ht : 0 <= rb_tail rb < rb_capacity rb) by (rewrite Htl; apply Z.mod_pos_bound; lia).
  rewrite (next_index rb (rb_tail rb)) by auto.
  rewrite (wrap_small 64 (rb_count rb + 1)) by (unfold in_u; lia).
  eexists. split; [done|]. split_and!; simpl; try done.
  - constructor; simpl; try lia.
    + unfold Zlen in *. now rewrite length_insert.
    + now rewrite Htl, Z.add_mod_idemp_l, Z.add_assoc by lia.
  - unfold rb_contents; simpl. rewrite Z2Nat.inj_add by lia. simpl Z.to_nat at 2.
    rewrite Nat.add_1_r, segment_snoc. f_equal.
    + apply segment_insert_ne; [lia..|]. intros k Hk E. rewrite Htl in E.
      apply mod_inj_window in E; lia.
    + rewrite Z2Nat.id, <- Htl by lia. rewrite list_lookup_insert_eq; [done|].
      unfold Zlen in Hlen. lia.
Qed.

Lemma pop_wf rb :
  rb_wf rb -> 0 < rb_count rb ->
  exists rb', xsan_ring_buffer_pop (Some rb) true =
    (Some rb', (XSAN_OK, Some (rb_buffer rb).[rb_head rb])) /\
    rb_wf rb' /\ rb_contents rb = (rb_buffer rb).[rb_head rb] :: rb_contents rb' /\
    rb_capacity rb' = rb_capacity rb /\ rb_value_destroy rb' = rb_value_destroy rb.
Proof.
  intros Hwf Hpos. pose proof Hwf as [Hcap Hlen Hcnt Hhd Htl]. simpl.
  destruct (Z.eqb_spec (rb_count rb) 0); [lia|].
  rewrite (next_index rb (rb_head rb)) by auto.
  rewrite (wrap_small 64 (rb_count rb - 1)) by (unfold in_u; lia).
  eexists. split; [done|]. repeat split; simpl; try lia.
  - apply Z.mod_pos_bound; lia.
  - apply Z.mod_pos_bound; lia.
  - rewrite Z.add_mod_idemp_l, Htl by lia. f_equal. lia.
  - unfold rb_contents; simpl. rewrite segment_mod by lia.
    replace (Z.to_nat (rb_count rb)) with (S (Z.to_nat (rb_count rb - 1))) by lia.
    simpl. now rewrite Z.mod_small by lia.
Qed.

(** The loop of [clear] visits exactly the contents, oldest first. *)
Lemma clear_loop_contents rb n i :
  rb_wf rb -> 0 <= i < rb_capacity rb ->
  clear_loop rb n i = filter (fun v => v <> NULL) (segment (rb_buffer rb) (rb_capacity rb) i n).
Proof.
  intros Hwf. revert i. induction n as [|n IH]; intros i Hi; simpl; [done|].
  rewrite (next_index rb), IH by (auto; apply Z.mod_pos_bound; lia).
  rewrite segment_mod by lia. rewrite (Z.mod_small i) by lia.
  rewrite filter_cons. destruct (Z.eqb_spec (rb_buffer rb).[i] NULL);
    case_decide; congruence.
Qed.

Lemma rb_abs_intro rb' cap items d :
  rb_wf rb' -> rb_contents rb' = items -> rb_capacity rb' = cap ->
  rb_value_destroy rb' = d -> rb_abs (Some rb') (mk_bq cap items d).
Proof. intros Hwf <- <- <-. now exists rb'. Qed.

#[export] Hint Resolve rb_abs_intro : xsan.

Lemma clear_wf rb :
  rb_wf rb ->
  rb_wf (mk_rb (rb_buffer rb) (rb_capacity rb) 0 0 0 (rb_value_destroy rb)).
Proof. intros [Hcap Hlen Hcnt Hhd Htl]. now constructor; simpl; try lia. Qed.

Lemma rb_contents_nil rb : rb_wf rb -> rb_contents rb = [] <-> rb_count rb = 0.
Proof.
  intros Hwf. pose proof (rb_contents_len rb Hwf) as Hl. split.
  - intros E. now rewrite E in Hl.
  - intros E. rewrite E in Hl. now destruct (rb_contents rb).
Qed.

#[export] Instance rb_refines : Refines rb_step bq_step rb_abs.
Proof.
  intros h q op (rb & -> & Hwf & ->).
  pose proof (rb_contents_len rb Hwf) as Hl.
  pose proof (rb_contents_nil rb Hwf) as Hnil.
  destruct op as [v|[]|[]| | | | |]; unfold rb_step, bq_step, bq_items, bq_cap, bq_destroy;
    rewrite ?Hl; try (split; simpl; now auto with xsan).
  - destruct (Z.eqb_spec (rb_count rb) (rb_capacity rb)) as [Hf|Hf].
    + simpl. rewrite (proj2 (Z.eqb_eq _ _) Hf). split; simpl; auto with xsan.
    + destruct (push_wf rb v Hwf Hf) as (rb' & -> & ? & ? & ? & ?).
      split; simpl; auto with xsan.
  - destruct (Z.eq_dec (rb_count rb) 0) as [H0|H0].
    + simpl. rewrite (proj2 (Z.eqb_eq _ _) H0), (proj2 Hnil H0).
      split; simpl; auto with xsan. apply rb_abs_intro; tauto.
    + pose proof (wf_count _ Hwf).
      destruct (pop_wf rb Hwf ltac:(lia)) as (rb' & -> & ? & -> & ? & ?).
      split; simpl; auto with xsan.
  - destruct (Z.eq_dec (rb_count rb) 0) as [H0|H0].
    + simpl. rewrite (proj2 (Z.eqb_eq _ _) H0), (proj2 Hnil H0).
      split; simpl; auto with xsan. apply rb_abs_intro; tauto.
    + pose proof (wf_count _ Hwf). simpl. rewrite (proj2 (Z.eqb_neq _ _) H0).
      destruct (pop_wf rb Hwf ltac:(lia)) as (rb' & _ & ? & E & ? & ?).
      split; simpl; auto with xsan. now rewrite E.
  - split; simpl; auto with xsan. do 2 f_equal.
    destruct (Z.eqb_spec (rb_count rb) 0); symmetry;
      [apply bool_decide_eq_true | apply bool_decide_eq_false]; tauto.
  - split; simpl; [apply rb_abs_intro; auto using clear_wf|].
    destruct (rb_value_destroy rb); [|done]. f_equal.
    apply clear_loop_contents; [done | apply Hwf].
Qed.

Lemma create_abs cap d rb :
  in_u 64 cap -> xsan_ring_buffer_create cap d true true = Some rb ->
  rb_abs (Some rb) (mk_bq cap [] d).
Proof.
  unfold xsan_ring_buffer_create, in_u. intros Hc. destruct (Z.eqb_spec cap 0); [done|].
  intros [= <-]. apply rb_abs_intro; try done.
  constructor; simpl; [lia | | lia | lia | now rewrite Z.mod_0_l].
  unfold Zlen. rewrite length_replicate. lia.
Qed.

(** ** Properties *)

(** C37: From creation on, every sequence of push, pop, peek, size, capacity,
    emptiness, fullness and clear calls on a ring buffer returns exactly what a
    bounded FIFO queue of the same capacity returns, destructor calls included. *)
Theorem ring_buffer_is_fifo cap d rb ops :
  in_u 64 cap ->
  xsan_ring_buffer_create cap d true true = Some rb ->
  (run rb_step (Some rb) ops).2 = (run bq_step (mk_bq cap [] d) ops).2.
Proof.
  intros Hc Hcr. apply (run_refines rb_step bq_step rb_abs). eauto using create_abs.
Qed.

Lemma ring_buffer_is_fifo_witness :
  (run rb_step (Some (mk_rb [0; 0] 2 0 0 0 true))
     [RbPush 5; RbPush 6; RbPush 7; RbPop true; RbPush 8; RbPeek true; RbClear]).2
  = [OErr XSAN_OK; OErr XSAN_OK; OErr XSAN_ERROR_INSUFFICIENT_SPACE;
     OVal (XSAN_OK, Some 5); OErr XSAN_OK; OVal (XSAN_OK, Some 6); ODestroyed [6; 8]].
Proof.
  rewrite (ring_buffer_is_fifo 2 true);
    [vm_compute; reflexivity | unfold in_u; lia | reflexivity].
Defined.

(** In every state reachable from creation the head and tail indices are
    inside the buffer, the tail is the head advanced by the count, and the
    count does not exceed the capacity. *)
Theorem ring_buffer_invariant cap d rb ops :
  in_u 64 cap ->
  xsan_ring_buffer_create cap d true true = Some rb ->
  exists rb', (run rb_step (Some rb) ops).1 = Some rb' /\ rb_wf rb' /\
    rb_capacity rb' = cap.
Proof.
  intros Hc Hcr.
  destruct (run_refines rb_step bq_step rb_abs ops (Some rb) (mk_bq cap [] d))
    as [(rb' & E & Hwf & Eq) _]; [eauto using create_abs|].
  exists rb'. split_and!; [done..|].
  assert (Hcap : bq_cap (run bq_step (mk_bq cap [] d) ops).1 = cap).
  { apply (run_invariant bq_step (fun q => bq_cap q = cap)); [|done].
    intros q op <-. destruct op as [?|[]|[]| | | | |]; simpl; repeat case_match; done. }
  now rewrite Eq in Hcap.
Qed.

Lemma ring_buffer_invariant_witness :
  exists rb', (run rb_step (Some (mk_rb [0; 0] 2 0 0 0 true)) [RbPush 5; RbPop true]).1
    = Some rb' /\ rb_wf rb' /\ rb_capacity rb' = 2.
Proof.
  apply (ring_buffer_invariant 2 true); [unfold in_u; lia | reflexivity].
Defined.
