(* ===== verification/HashTable.v ===== *)
(** * The hash table

    Models [src/common/hashtable.c]: separate chaining over a fixed bucket
    array, with user-supplied hash, comparison and destructor functions.  The
    table is proved to implement a finite map from key contents to entries, and
    its iterator to enumerate every entry exactly once. *)

From stdpp Require Import prelude gmap fin_maps.
From S2P Require Import Prelude Errors.

#[local] Open Scope Z_scope.

(** What the table relies on in its callbacks: a key pointer [p] stands for the
    content [key_of p]; comparison tests equality of contents, and the 32-bit
    hash depends on the content only. *)
Class HashKey {K : Type} (key_of : ptr -> K) (hash_func : ptr -> Z)
    (compare_func : ptr -> ptr -> Z) : Prop := {
  compare_eq p q : compare_func p q = 0 <-> key_of p = key_of q;
  hash_range p : in_u 32 (hash_func p);
  hash_content p q : key_of p = key_of q -> hash_func p = hash_func q
}.

(** An entry is its key pointer and its value pointer; a chain lists the entries
    reached from a bucket's head through [next]. *)
Definition ht_entry : Type := ptr * ptr.

Record xsan_hashtable := mk_ht {
  ht_buckets : list (list ht_entry);
  ht_capacity : Z;
  ht_size : Z;
  key_destroy : bool;     (** a key destructor was supplied *)
  value_destroy : bool    (** a value destructor was supplied *)
}.

(** Destructor calls, in order. *)
Inductive destroy_call := DestroyKey (p : ptr) | DestroyValue (p : ptr).

Definition XSAN_HASHTABLE_DEFAULT_CAPACITY : Z := 16.

Definition xsan_hashtable_create (initial_capacity : Z) (hash_set compare_set : bool)
    (kd vd malloc_ok calloc_ok : bool) : option xsan_hashtable :=
  if negb hash_set || negb compare_set then None
  else if negb malloc_ok then None
  else
    let capacity := if 0 <? initial_capacity then initial_capacity
                    else XSAN_HASHTABLE_DEFAULT_CAPACITY in
    if negb calloc_ok then None
    else Some (mk_ht (replicate (Z.to_nat capacity) []) capacity 0 kd vd).

Section Operations.
Variable hash_func : ptr -> Z.
Variable compare_func : ptr -> ptr -> Z.

(** The chain walk shared by the three operations. *)
Fixpoint chain_find (key : ptr) (chain : list ht_entry) : option ht_entry :=
  match chain with
  | [] => None
  | e :: rest => if compare_func e.1 key =? 0 then Some e else chain_find key rest
  end.

(** The walk of [put]: the first entry that compares equal gets the value. *)
Fixpoint chain_update (key value : ptr) (chain : list ht_entry) : list ht_entry :=
  match chain with
  | [] => []
  | e :: rest =>
      if compare_func e.1 key =? 0 then (e.1, value) :: rest
      else e :: chain_update key value rest
  end.

(** The walk of [remove]: the first entry that compares equal is unlinked. *)
Fixpoint chain_remove (key : ptr) (chain : list ht_entry) : list ht_entry :=
  match chain with
  | [] => []
  | e :: rest => if compare_func e.1 key =? 0 then rest else e :: chain_remove key rest
  end.

Definition bucket_index (ht : xsan_hashtable) (key : ptr) : Z :=
  hash_func key mod ht_capacity ht.

Definition bucket (ht : xsan_hashtable) (i : Z) : list ht_entry :=
  default [] (ht_buckets ht !! Z.to_nat i).

Definition set_bucket (ht : xsan_hashtable) (i : Z) (chain : list ht_entry) (size : Z)
  : xsan_hashtable :=
  mk_ht (<[Z.to_nat i := chain]> (ht_buckets ht)) (ht_capacity ht) size
    (key_destroy ht) (value_destroy ht).

Definition xsan_hashtable_put (h : option xsan_hashtable) (key value : ptr) (malloc_ok : bool)
  : option xsan_hashtable * (xsan_error_t * list destroy_call) :=
  match h with
  | None => (h, (XSAN_ERROR_INVALID_PARAM, []))
  | Some ht =>
      if key =? NULL then (h, (XSAN_ERROR_INVALID_PARAM, []))
      else
        let index := bucket_index ht key in
        match chain_find key (bucket ht index) with
        | Some e =>
            (Some (set_bucket ht index (chain_update key value (bucket ht index)) (ht_size ht)),
             (XSAN_OK, if value_destroy ht && negb (e.2 =? value) then [DestroyValue e.2] else []))
        | None =>
            if negb malloc_ok then (h, (XSAN_ERROR_NO_MEMORY, []))
            else (Some (set_bucket ht index ((key, value) :: bucket ht index)
                          (wrap 64 (ht_size ht + 1))), (XSAN_OK, []))
        end
  end.

Definition xsan_hashtable_get (h : option xsan_hashtable) (key : ptr) : ptr :=
  match h with
  | None => NULL
  | Some ht =>
      if key =? NULL then NULL
      else match chain_find key (bucket ht (bucket_index ht key)) with
           | Some e => e.2
           | None => NULL
           end
  end.

(** Destructor calls for one entry: the key first, then the value. *)
Definition destroy_entry (ht : xsan_hashtable) (e : ht_entry) : list destroy_call :=
  (if key_destroy ht then [DestroyKey e.1] else []) ++
  (if value_destroy ht then [DestroyValue e.2] else []).

Definition xsan_hashtable_remove (h : option xsan_hashtable) (key : ptr)
  : option xsan_hashtable * (xsan_error_t * list destroy_call) :=
  match h with
  | None => (h, (XSAN_ERROR_INVALID_PARAM, []))
  | Some ht =>
      if key =? NULL then (h, (XSAN_ERROR_INVALID_PARAM, []))
      else
        let index := bucket_index ht key in
        match chain_find key (bucket ht index) with
        | Some e =>
            (Some (set_bucket ht index (chain_remove key (bucket ht index))
                     (wrap 64 (ht_size ht - 1))), (XSAN_OK, destroy_entry ht e))
        | None => (h, (XSAN_ERROR_NOT_FOUND, []))
        end
  end.

Definition xsan_hashtable_size (h : option xsan_hashtable) : Z :=
  match h with Some ht => ht_size ht | None => 0 end.

Definition xsan_hashtable_clear (h : option xsan_hashtable)
  : option xsan_hashtable * list destroy_call :=
  match h with
  | None => (h, [])
  | Some ht =>
      (Some (mk_ht (map (fun _ => []) (ht_buckets ht)) (ht_capacity ht) 0
               (key_destroy ht) (value_destroy ht)),
       concat (map (fun chain => concat (map (destroy_entry ht) chain)) (ht_buckets ht)))
  end.

Definition xsan_hashtable_destroy (h : option xsan_hashtable)
  : option xsan_hashtable * list destroy_call :=
  (None, (xsan_hashtable_clear h).2).
End Operations.

(** ** Iteration

    [it_current] is the chain suffix that starts at [current_entry]; the empty
    suffix is the NULL pointer. *)
Record ht_iter := mk_iter { it_bucket : Z; it_current : list ht_entry }.

Definition xsan_hashtable_iter_init : ht_iter := mk_iter 0 [].

(** The inner [while (current_entry == NULL)], over the buckets not yet
    visited: the remaining suffix and the new bucket index. *)
Fixpoint iter_advance (remaining : list (list ht_entry)) (index : Z)
  : option (list ht_entry * Z) :=
  match remaining with
  | [] => None
  | chain :: rest =>
      match chain with
      | [] => iter_advance rest (wrap 64 (index + 1))
      | _ => Some (chain, wrap 64 (index + 1))
      end
  end.

(** [Some e] when the call returns true with entry [e]. *)
Definition xsan_hashtable_iter_next (ht : xsan_hashtable) (it : ht_iter)
  : ht_iter * option ht_entry :=
  match tail (it_current it) with
  | (e :: _) as cur => (mk_iter (it_bucket it) cur, Some e)
  | [] =>
      match iter_advance (drop (Z.to_nat (it_bucket it)) (ht_buckets ht)) (it_bucket it) with
      | Some (cur, i) => (mk_iter i cur, head cur)
      | None => (mk_iter (ht_capacity ht) [], None)
      end
  end.

(** The entries returned by up to [n] calls. *)
Fixpoint iter_collect (ht : xsan_hashtable) (n : nat) (it : ht_iter) : list ht_entry :=
  match n with
  | O => []
  | S n' =>
      match xsan_hashtable_iter_next ht it with
      | (it', Some e) => e :: iter_collect ht n' it'
      | (_, None) => []
      end
  end.

(** ** Calls and observations *)

Inductive ht_op :=
  | HtPut (key value : ptr) (malloc_ok : bool) | HtGet (key : ptr) | HtRemove (key : ptr)
  | HtSize.

Inductive ht_out :=
  | OStatus (r : xsan_error_t * list destroy_call) | OPtr (p : ptr) | OSize (n : Z).

Definition ht_step hash cmp (h : option xsan_hashtable) (op : ht_op)
  : option xsan_hashtable * ht_out :=
  match op with
  | HtPut k v a => let '(h', r) := xsan_hashtable_put hash cmp h k v a in (h', OStatus r)
  | HtGet k => (h, OPtr (xsan_hashtable_get hash cmp h k))
  | HtRemove k => let '(h', r) := xsan_hashtable_remove hash cmp h k in (h', OStatus r)
  | HtSize => (h, OSize (xsan_hashtable_size h))
  end.

(** ** Specification: a finite map from key contents to entries *)

Section Spec.
Context {K : Type} `{Countable K}.
Variable key_of : ptr -> K.

Record ht_spec := mk_spec { sp_map : gmap K ht_entry; sp_kd : bool; sp_vd : bool }.

Definition spec_set (s : ht_spec) (m : gmap K ht_entry) : ht_spec :=
  mk_spec m (sp_kd s) (sp_vd s).

Definition spec_step (s : ht_spec) (op : ht_op) : ht_spec * ht_out :=
  match op with
  | HtPut k v a =>
      if k =? NULL then (s, OStatus (XSAN_ERROR_INVALID_PARAM, []))
      else match sp_map s !! key_of k with
           | Some e =>
               (spec_set s (<[key_of k := (e.1, v)]> (sp_map s)),
                OStatus (XSAN_OK, if sp_vd s && negb (e.2 =? v) then [DestroyValue e.2] else []))
           | None =>
               if a then (spec_set s (<[key_of k := (k, v)]> (sp_map s)), OStatus (XSAN_OK, []))
               else (s, OStatus (XSAN_ERROR_NO_MEMORY, []))
           end
  | HtGet k =>
      (s, OPtr (if k =? NULL then NULL else from_option snd NULL (sp_map s !! key_of k)))
  | HtRemove k =>
      if k =? NULL then (s, OStatus (XSAN_ERROR_INVALID_PARAM, []))
      else match sp_map s !! key_of k with
           | Some e =>
               (spec_set s (delete (key_of k) (sp_map s)),
                OStatus (XSAN_OK, (if sp_kd s then [DestroyKey e.1] else []) ++
                                  (if sp_vd s then [DestroyValue e.2] else [])))
           | None => (s, OStatus (XSAN_ERROR_NOT_FOUND, []))
           end
  | HtSize => (s, OSize (wrap 64 (Z.of_nat (size (sp_map s)))))
  end.
End Spec.
Arguments ht_spec K {_ _}.

(** ** Invariant and abstraction *)

Definition ht_entries (ht : xsan_hashtable) : list ht_entry := concat (ht_buckets ht).

Section Refinement.
Context {K : Type} `{Countable K}.
Variable key_of : ptr -> K.
Variable hash_func : ptr -> Z.
Variable compare_func : ptr -> ptr -> Z.

Definition keyed (l : list ht_entry) : list (K * ht_entry) := (fun e => (key_of e.1, e)) <$> l.

Record ht_wf (ht : xsan_hashtable) : Prop := {
  hw_cap : 0 < ht_capacity ht < 2 ^ 64;
  hw_len : Zlen (ht_buckets ht) = ht_capacity ht;
  hw_size : ht_size ht = wrap 64 (Zlen (ht_entries ht));
  hw_nodup : NoDup (keyed (ht_entries ht)).*1;
  hw_place : forall i chain e, ht_buckets ht !! i = Some chain -> e ∈ chain ->
    bucket_index hash_func ht e.1 = Z.of_nat i
}.

Definition ht_abs (h : option xsan_hashtable) (s : ht_spec K) : Prop :=
  exists ht, h = Some ht /\ ht_wf ht /\
    s = mk_spec (list_to_map (keyed (ht_entries ht))) (key_destroy ht) (value_destroy ht).

Context `{!HashKey key_of hash_func compare_func}.

(** ** Chains *)

Lemma chain_find_none p c :
  chain_find compare_func p c = None -> forall e, e ∈ c -> key_of e.1 <> key_of p.
Proof.
  induction c as [|e c IH]; simpl; intros Hf e' He'; [by apply not_elem_of_nil in He'|].
  destruct (Z.eqb_spec (compare_func e.1 p) 0) as [|Hne]; [done|].
  apply elem_of_cons in He' as [->|He']; [|by apply IH]. now rewrite <- compare_eq.
Qed.

Lemma chain_find_some p v c e :
  chain_find compare_func p c = Some e ->
  exists c1 c2, c = c1 ++ e :: c2 /\ key_of e.1 = key_of p /\
    chain_update compare_func p v c = c1 ++ (e.1, v) :: c2 /\
    chain_remove compare_func p c = c1 ++ c2.
Proof.
  induction c as [|x c IH]; simpl; [done|].
  destruct (Z.eqb_spec (compare_func x.1 p) 0) as [Heq|_].
  - intros [= ->]. exists [], c. split_and!; try done. now apply compare_eq.
  - intros (c1 & c2 & -> & Hk & -> & ->)%IH. now exists (x :: c1), c2.
Qed.

(** ** The bucket array *)

Lemma concat_bucket (bs : list (list ht_entry)) i b :
  bs !! i = Some b -> concat bs ≡ₚ b ++ concat (delete i bs).
Proof.
  intros Hi. rewrite (delete_take_drop bs i), concat_app.
  rewrite <- (take_drop_middle bs i b Hi) at 1. rewrite concat_app. simpl.
  now rewrite Permutation_app_swap_app.
Qed.

Lemma concat_set_bucket (bs : list (list ht_entry)) i b b' :
  bs !! i = Some b -> concat (<[i := b']> bs) ≡ₚ b' ++ concat (delete i bs).
Proof.
  intros Hi. rewrite (concat_bucket _ i b'); [|apply list_lookup_insert_eq; eauto using lookup_lt_Some].
  f_equiv. f_equiv. now rewrite !delete_take_drop, take_insert_ge, drop_insert_lt by lia.
Qed.

Lemma bucket_index_range ht p : ht_wf ht -> 0 <= bucket_index hash_func ht p < ht_capacity ht.
Proof. intros Hw. apply Z.mod_pos_bound. apply Hw. Qed.

Lemma bucket_lookup ht p :
  ht_wf ht ->
  ht_buckets ht !! Z.to_nat (bucket_index hash_func ht p)
    = Some (bucket ht (bucket_index hash_func ht p)).
Proof.
  intros Hw. pose proof (bucket_index_range ht p Hw) as Hr. pose proof (hw_len _ Hw) as Hl.
  unfold bucket. destruct (lookup_lt_is_Some_2 (ht_buckets ht)
    (Z.to_nat (bucket_index hash_func ht p))) as [b ->]; [|done]. unfold Zlen in Hl. lia.
Qed.

(** The entries outside the bucket of a key hold other keys. *)
Lemma other_buckets ht p e :
  ht_wf ht -> e ∈ concat (delete (Z.to_nat (bucket_index hash_func ht p)) (ht_buckets ht)) ->
  key_of e.1 <> key_of p.
Proof.
  intros Hw He Hk. apply list_elem_of_In, in_concat in He as (b & Hb & Heb).
  apply list_elem_of_In in Hb, Heb. apply list_elem_of_lookup in Hb as [j Hj].
  pose proof (bucket_index_range ht p Hw) as Hr.
  assert (Hpl : forall i, ht_buckets ht !! i = Some b -> Z.of_nat i = bucket_index hash_func ht p).
  { intros i Hi. rewrite <- (hw_place _ Hw i b e Hi Heb). unfold bucket_index.
    now rewrite (hash_content e.1 p Hk). }
  destruct (decide (j < Z.to_nat (bucket_index hash_func ht p))%nat).
  - rewrite list_lookup_delete_lt in Hj by done. specialize (Hpl _ Hj). lia.
  - rewrite list_lookup_delete_ge in Hj by lia. specialize (Hpl _ Hj). lia.
Qed.

Lemma keyed_not_elem l p :
  (forall e, e ∈ l -> key_of e.1 <> key_of p) -> key_of p ∉ (keyed l).*1.
Proof.
  intros Hl Hin. unfold keyed in Hin. rewrite <- list_fmap_compose in Hin.
  apply list_elem_of_fmap in Hin as (e & Hk & He). now apply (Hl e He).
Qed.

(** The state of the bucket of [p], seen from the whole table: either its entry
    [e] heads a permutation of the entries, or no entry has its key. *)
Lemma ht_lookup_split ht p v :
  ht_wf ht ->
  let i := bucket_index hash_func ht p in
  match chain_find compare_func p (bucket ht i) with
  | Some e => exists rest,
      key_of e.1 = key_of p /\ ht_entries ht ≡ₚ e :: rest /\
      concat (<[Z.to_nat i := chain_update compare_func p v (bucket ht i)]> (ht_buckets ht))
        ≡ₚ (e.1, v) :: rest /\
      concat (<[Z.to_nat i := chain_remove compare_func p (bucket ht i)]> (ht_buckets ht))
        ≡ₚ rest
  | None => forall e, e ∈ ht_entries ht -> key_of e.1 <> key_of p
  end.
Proof.
  intros Hw i. pose proof (bucket_lookup ht p Hw) as Hb. fold i in Hb.
  destruct (chain_find compare_func p (bucket ht i)) as [e|] eqn:Hf.
  - destruct (chain_find_some p v _ _ Hf) as (c1 & c2 & Hc & Hk & Hu & Hr).
    exists ((c1 ++ c2) ++ concat (delete (Z.to_nat i) (ht_buckets ht))).
    unfold ht_entries. rewrite !(concat_set_bucket _ _ _ _ Hb), (concat_bucket _ _ _ Hb).
    rewrite Hu, Hr, Hc. split_and!; [done| |
      |done]; rewrite <- Permutation_middle; done.
  - intros e He. unfold ht_entries in He. rewrite (concat_bucket _ _ _ Hb) in He.
    apply elem_of_app in He as [He|He]; [eauto using chain_find_none|].
    eapply other_buckets; eauto.
Qed.

Lemma keyed_map_perm l l' :
  NoDup (keyed l).*1 -> l ≡ₚ l' ->
  NoDup (keyed l').*1 /\ list_to_map (M := gmap K ht_entry) (keyed l) = list_to_map (keyed l').
Proof.
  intros Hn Hp. assert (Hk : keyed l ≡ₚ keyed l') by (unfold keyed; now rewrite Hp).
  split; [now rewrite <- Hk | now apply list_to_map_proper].
Qed.

(** Replacing one bucket keeps every entry in the bucket of its key. *)
Lemma place_set_bucket ht p chain n :
  ht_wf ht -> (forall e, e ∈ chain -> e ∈ bucket ht (bucket_index hash_func ht p) \/
                                      hash_func e.1 = hash_func p) ->
  forall j b e, ht_buckets (set_bucket ht (bucket_index hash_func ht p) chain n) !! j = Some b ->
    e ∈ b -> bucket_index hash_func (set_bucket ht (bucket_index hash_func ht p) chain n) e.1
             = Z.of_nat j.
Proof.
  intros Hw Hc j b e Hj He. pose proof (bucket_index_range ht p Hw) as Hr. simpl in Hj.
  change (bucket_index hash_func (set_bucket _ _ _ _) e.1) with (bucket_index hash_func ht e.1).
  apply list_lookup_insert_Some in Hj as [(<- & <- & _)|[_ Hj]].
  - rewrite Z2Nat.id by lia. destruct (Hc e He) as [He'|He'].
    + rewrite (hw_place _ Hw _ _ e (bucket_lookup ht p Hw) He'). lia.
    + unfold bucket_index. now rewrite He'.
  - now apply (hw_place _ Hw j b).
Qed.

Lemma set_bucket_abs ht p chain n l :
  ht_wf ht ->
  concat (<[Z.to_nat (bucket_index hash_func ht p) := chain]> (ht_buckets ht)) ≡ₚ l ->
  NoDup (keyed l).*1 -> n = wrap 64 (Zlen l) ->
  (forall e, e ∈ chain -> e ∈ bucket ht (bucket_index hash_func ht p) \/
                          hash_func e.1 = hash_func p) ->
  ht_abs (Some (set_bucket ht (bucket_index hash_func ht p) chain n))
    (mk_spec (list_to_map (keyed l)) (key_destroy ht) (value_destroy ht)).
Proof.
  intros Hw Hp Hn Hsz Hc.
  destruct (keyed_map_perm l (concat (<[Z.to_nat (bucket_index hash_func ht p) := chain]>
    (ht_buckets ht)))) as [Hn' Hm]; [done|by rewrite Hp|].
  eexists. split_and!; [done| |now rewrite Hm].
  constructor; [apply Hw| | |done|now apply place_set_bucket].
  - simpl. unfold Zlen. rewrite length_insert. apply Hw.
  - simpl. subst n. unfold ht_entries. simpl. unfold Zlen. now rewrite Hp.
Qed.

(** The abstract map, decomposed at the key of [p]. *)
Lemma abs_split l e rest p :
  NoDup (keyed l).*1 -> l ≡ₚ e :: rest -> key_of e.1 = key_of p ->
  NoDup (keyed rest).*1 /\ (key_of p ∉ (keyed rest).*1) /\
  list_to_map (M := gmap K ht_entry) (keyed l) = <[key_of p := e]> (list_to_map (keyed rest)).
Proof.
  intros Hn Hp Hk. destruct (keyed_map_perm l (e :: rest) Hn Hp) as [Hn' ->].
  unfold keyed in *. simpl in *. apply NoDup_cons in Hn' as [Hni Hn']. rewrite Hk in *. done.
Qed.

Lemma abs_none l p :
  (forall e, e ∈ l -> key_of e.1 <> key_of p) ->
  list_to_map (M := gmap K ht_entry) (keyed l) !! key_of p = None.
Proof. intros Hl. apply not_elem_of_list_to_map_1. now apply keyed_not_elem. Qed.

Lemma keyed_cons e l : (keyed (e :: l)).*1 = key_of e.1 :: (keyed l).*1.
Proof. done. Qed.

Lemma elem_of_chain_update p v c e :
  e ∈ chain_update compare_func p v c -> e ∈ c \/ hash_func e.1 = hash_func p.
Proof.
  destruct (chain_find compare_func p c) as [x|] eqn:Hf.
  - destruct (chain_find_some p v c x Hf) as (c1 & c2 & Hc & Hk & Hu & _). rewrite Hu, Hc.
    rewrite !elem_of_app, !elem_of_cons. intros [?|[->|?]]; [tauto| |tauto].
    right. simpl. now apply hash_content.
  - revert Hf. induction c as [|x c IH]; simpl; [by intros _ ?%elem_of_nil|].
    destruct (_ =? _); [done|]. intros Hf. rewrite !elem_of_cons. intros [->|Hin]; [tauto|].
    destruct (IH Hf Hin); tauto.
Qed.

Lemma elem_of_chain_remove p c e : e ∈ chain_remove compare_func p c -> e ∈ c.
Proof.
  induction c as [|x c IH]; simpl; [done|]. rewrite elem_of_cons.
  destruct (_ =? _); [tauto|]. rewrite elem_of_cons. tauto.
Qed.

Lemma wrap_size_change (l : list ht_entry) k :
  wrap 64 (wrap 64 (Zlen l) + k) = wrap 64 (Zlen l + k).
Proof. unfold wrap. now rewrite Z.add_mod_idemp_l by lia. Qed.

Lemma put_refines ht k v a :
  ht_wf ht ->
  let s := mk_spec (list_to_map (keyed (ht_entries ht))) (key_destroy ht) (value_destroy ht) in
  ht_abs (ht_step hash_func compare_func (Some ht) (HtPut k v a)).1
         (spec_step key_of s (HtPut k v a)).1 /\
  (ht_step hash_func compare_func (Some ht) (HtPut k v a)).2 = (spec_step key_of s (HtPut k v a)).2.
Proof.
  intros Hw s. unfold ht_step, xsan_hashtable_put, spec_step, s, spec_set. cbn [sp_map sp_kd sp_vd].
  destruct (k =? NULL); [by split; [exists ht|]|].
  pose proof (ht_lookup_split ht k v Hw) as Hs. cbv zeta in Hs.
  destruct (chain_find compare_func k _) as [e|].
  - destruct Hs as (rest & Hk & Hp & Hu & _).
    destruct (abs_split _ _ _ k (hw_nodup _ Hw) Hp Hk) as (Hn & Hni & ->).
    rewrite lookup_insert_eq, insert_insert_eq. split; [|done].
    replace (<[key_of k:=(e.1, v)]> (list_to_map (keyed rest)))
      with (list_to_map (M := gmap K ht_entry) (keyed ((e.1, v) :: rest))) by (simpl; now rewrite Hk).
    apply set_bucket_abs; [done..| | |apply elem_of_chain_update].
    + rewrite keyed_cons. simpl. rewrite Hk. now apply NoDup_cons.
    + rewrite (hw_size _ Hw). unfold Zlen. now rewrite Hp.
  - rewrite abs_none by done. destruct a; [|by split; [exists ht|]]. split; [|done].
    replace (<[key_of k:=(k, v)]> (list_to_map (keyed (ht_entries ht))))
      with (list_to_map (M := gmap K ht_entry) (keyed ((k, v) :: ht_entries ht))) by done.
    apply set_bucket_abs; [done| | | |].
    + rewrite (concat_set_bucket _ _ _ _ (bucket_lookup ht k Hw)). simpl. f_equiv.
      unfold ht_entries. symmetry. apply concat_bucket, bucket_lookup, Hw.
    + rewrite keyed_cons. apply NoDup_cons. split; [now apply keyed_not_elem | apply Hw].
    + rewrite (hw_size _ Hw), wrap_size_change. f_equal. rewrite Zlen_cons. lia.
    + intros e. rewrite elem_of_cons. intros [->|]; auto.
Qed.

Lemma remove_refines ht k :
  ht_wf ht ->
  let s := mk_spec (list_to_map (keyed (ht_entries ht))) (key_destroy ht) (value_destroy ht) in
  ht_abs (ht_step hash_func compare_func (Some ht) (HtRemove k)).1
         (spec_step key_of s (HtRemove k)).1 /\
  (ht_step hash_func compare_func (Some ht) (HtRemove k)).2 = (spec_step key_of s (HtRemove k)).2.
Proof.
  intros Hw s. unfold ht_step, xsan_hashtable_remove, spec_step, s, spec_set.
  cbn [sp_map sp_kd sp_vd].
  destruct (k =? NULL); [by split; [exists ht|]|].
  pose proof (ht_lookup_split ht k 0 Hw) as Hs. cbv zeta in Hs.
  destruct (chain_find compare_func k _) as [e|].
  - destruct Hs as (rest & Hk & Hp & _ & Hr).
    destruct (abs_split _ _ _ k (hw_nodup _ Hw) Hp Hk) as (Hn & Hni & ->).
    rewrite lookup_insert_eq, delete_insert_id by now apply not_elem_of_list_to_map_1.
    split; [|done].
    apply set_bucket_abs; [done..| |eauto using elem_of_chain_remove].
    rewrite (hw_size _ Hw). replace (wrap 64 (Zlen (ht_entries ht)) - 1)
      with (wrap 64 (Zlen (ht_entries ht)) + -1) by lia.
    rewrite wrap_size_change. f_equal. unfold Zlen. rewrite Hp. simpl. lia.
  - rewrite abs_none by done. by split; [exists ht|].
Qed.

#[export] Instance ht_refines : Refines (ht_step hash_func compare_func) (spec_step key_of) ht_abs.
Proof.
  intros h s op (ht & -> & Hw & ->). destruct op as [k v a|k|k|].
  - now apply put_refines.
  - split; [by exists ht|]. simpl. f_equal. destruct (k =? NULL); [done|].
    pose proof (ht_lookup_split ht k 0 Hw) as Hs. cbv zeta in Hs.
    destruct (chain_find compare_func k _) as [e|].
    + destruct Hs as (rest & Hk & Hp & _).
      destruct (abs_split _ _ _ k (hw_nodup _ Hw) Hp Hk) as (_ & _ & ->).
      now rewrite lookup_insert_eq.
    + now rewrite abs_none.
  - now apply remove_refines.
  - split; [by exists ht|]. simpl. f_equal. rewrite (hw_size _ Hw). f_equal.
    rewrite map_size_list_to_map by apply Hw. unfold Zlen, keyed. now rewrite length_fmap.
Qed.

Lemma ht_create_abs cap kd vd ht :
  in_u 64 cap -> xsan_hashtable_create cap true true kd vd true true = Some ht ->
  ht_abs (Some ht) (mk_spec ∅ kd vd).
Proof.
  unfold xsan_hashtable_create, in_u. intros Hc [= <-].
  assert (He : forall n, concat (replicate n (@nil ht_entry)) = []) by (induction n; done).
  eexists. split_and!; [done| |unfold ht_entries; simpl; now rewrite He].
  assert (Hcap : 0 < (if 0 <? cap then cap else 16) < 2 ^ 64) by (case_cmp; lia).
  constructor; simpl; unfold ht_entries; simpl; rewrite ?He; try done.
  - unfold Zlen. rewrite length_replicate. unfold XSAN_HASHTABLE_DEFAULT_CAPACITY. lia.
  - apply NoDup_nil_2.
  - intros i chain e Hi Hin. apply lookup_replicate in Hi as [-> _].
    by apply not_elem_of_nil in Hin.
Qed.
End Refinement.

(** ** The iterator *)

Lemma iter_advance_spec rem idx :
  0 <= idx -> idx + Zlen rem < 2 ^ 64 ->
  match iter_advance rem idx with
  | None => concat rem = []
  | Some (cur, i) => exists k, cur <> [] /\ i = idx + Z.of_nat k /\ (k <= length rem)%nat /\
      concat rem = cur ++ concat (drop k rem)
  end.
Proof.
  revert idx. induction rem as [|chain rem IH]; intros idx Hi Hl; simpl; [done|].
  rewrite Zlen_cons in Hl. pose proof (Zlen_nonneg rem).
  rewrite wrap_small by (unfold in_u; lia). destruct chain as [|e chain].
  - specialize (IH (idx + 1) ltac:(lia) ltac:(lia)).
    destruct (iter_advance rem (idx + 1)) as [[cur i]|]; [|done].
    destruct IH as (k & Hc & -> & Hk & E). exists (S k). split_and!; [done|lia|simpl; lia|done].
  - exists 1%nat. split_and!; [done|lia|simpl; lia|]. simpl. now rewrite drop_0.
Qed.

Lemma iter_collect_spec ht n it :
  ht_capacity ht < 2 ^ 64 -> Zlen (ht_buckets ht) = ht_capacity ht ->
  0 <= it_bucket it <= ht_capacity ht ->
  iter_collect ht n it =
    take n (tail (it_current it) ++ concat (drop (Z.to_nat (it_bucket it)) (ht_buckets ht))).
Proof.
  intros Hc Hl. revert it. induction n as [|n IH]; intros it Hi; simpl; [done|].
  unfold xsan_hashtable_iter_next. destruct (tail (it_current it)) as [|e cur] eqn:Ht.
  - pose proof (iter_advance_spec (drop (Z.to_nat (it_bucket it)) (ht_buckets ht)) (it_bucket it))
      as Ha. unfold Zlen in *. rewrite length_drop in Ha. specialize (Ha ltac:(lia) ltac:(lia)).
    destruct (iter_advance _ _) as [[cur i]|]; [|by rewrite Ha].
    destruct Ha as (k & Hne & -> & Hk & E). destruct cur as [|e cur]; [done|].
    simpl. rewrite E. simpl. f_equal. rewrite IH by (simpl; lia). simpl.
    rewrite drop_drop. now rewrite Z2Nat.inj_add, Nat2Z.id by lia.
  - simpl. f_equal. rewrite IH by done. done.
Qed.

(** ** Properties *)

(** C11: From creation on, every sequence of put, get, remove and size calls on
    the hash table answers as a finite map from key contents to entries does,
    including the status codes and the destructor calls made on replaced and
    removed entries.  A put that cannot allocate its entry answers
    [XSAN_ERROR_NO_MEMORY], as the code does; the header documents another code, which
    the sources do not define. *)
Theorem hashtable_is_map {K} `{Countable K} (key_of : ptr -> K) hash cmp
    `{!HashKey key_of hash cmp} cap kd vd ht ops :
  in_u 64 cap ->
  xsan_hashtable_create cap true true kd vd true true = Some ht ->
  (run (ht_step hash cmp) (Some ht) ops).2 = (run (spec_step key_of) (mk_spec ∅ kd vd) ops).2.
Proof.
  intros Hc Hcr. apply (run_refines _ _ (ht_abs key_of hash)). eapply ht_create_abs; eauto.
Qed.

(** Keys for the witnesses: pointers compared by address, hashed modulo 2^32. *)
#[export] Instance address_keys : HashKey (fun p : ptr => p) (wrap 32) (fun p q => p - q).
Proof.
  split; [intros; lia | intros; apply wrap_range; lia | by intros p q ->].
Qed.

Lemma hashtable_is_map_witness :
  (run (ht_step (wrap 32) (fun p q => p - q)) (Some (mk_ht [[]; []] 2 0 false true))
     [HtPut 3 10 true; HtPut 5 11 true; HtPut 3 12 true; HtGet 3; HtRemove 5; HtGet 5; HtSize]).2
  = [OStatus (XSAN_OK, []); OStatus (XSAN_OK, []); OStatus (XSAN_OK, [DestroyValue 10]);
     OPtr 12; OStatus (XSAN_OK, [DestroyValue 11]); OPtr NULL; OSize 1].
Proof.
  rewrite (hashtable_is_map (fun p : ptr => p) (wrap 32) (fun p q => p - q) 2 false true);
    [vm_compute; reflexivity | unfold in_u; lia | reflexivity].
Defined.

(** In every reachable table the iterator returns, whatever the number of
    calls beyond the size, exactly the entries of the map, each once. *)
Theorem iterator_enumerates {K} `{Countable K} (key_of : ptr -> K) hash cmp
    `{!HashKey key_of hash cmp} cap kd vd ht ops n :
  in_u 64 cap ->
  xsan_hashtable_create cap true true kd vd true true = Some ht ->
  let m := sp_map (run (spec_step key_of) (mk_spec ∅ kd vd) ops).1 in
  (size m <= n)%nat ->
  exists ht', (run (ht_step hash cmp) (Some ht) ops).1 = Some ht' /\
    iter_collect ht' n xsan_hashtable_iter_init ≡ₚ (map_to_list m).*2.
Proof.
  intros Hc Hcr m Hn.
  destruct (run_refines (ht_step hash cmp) (spec_step key_of) (ht_abs key_of hash) ops
    (Some ht) (mk_spec ∅ kd vd)) as [(ht' & -> & Hw & Hs) _].
  { eapply ht_create_abs; eauto. }
  exists ht'. split; [done|]. unfold m in *. rewrite Hs in *. simpl in *.
  pose proof (hw_nodup _ _ _ Hw) as Hnd. rewrite map_size_list_to_map in Hn by done.
  unfold keyed in Hn at 1. rewrite length_fmap in Hn.
  pose proof (hw_cap _ _ _ Hw).
  rewrite iter_collect_spec by (try apply Hw; simpl; lia). simpl. rewrite drop_0.
  fold (ht_entries ht'). rewrite take_ge by done.
  rewrite map_to_list_to_map by done. unfold keyed. rewrite <- list_fmap_compose.
  rewrite (list_fmap_ext _ id) by done. now rewrite list_fmap_id.
Qed.

Lemma iterator_enumerates_witness :
  exists ht', (run (ht_step (wrap 32) (fun p q => p - q)) (Some (mk_ht [[]; []] 2 0 false true))
     [HtPut 3 10 true; HtPut 4 11 true]).1 = Some ht' /\
    iter_collect ht' 5 xsan_hashtable_iter_init ≡ₚ [(3, 10); (4, 11)].
Proof.
  destruct (iterator_enumerates (fun p : ptr => p) (wrap 32) (fun p q => p - q) 2 false true
    (mk_ht [[]; []] 2 0 false true) [HtPut 3 10 true; HtPut 4 11 true] 5) as (ht' & E & P);
    [unfold in_u; lia | reflexivity | vm_compute; lia |].
  exists ht'. split; [exact E|]. etransitivity; [exact P|].
  vm_compute. first [reflexivity | apply Permutation_swap].
Defined.
