(* ===== verification/DList.v ===== *)
(** * The doubly linked list

    Models [src/common/list.c] over an explicit heap of nodes with [prev] and
    [next] pointers.  An operation yields [None] when it would dereference an
    address that is not a live node, so the theorems also show memory safety. *)

From stdpp Require Import prelude gmap.
From S2P Require Import Prelude Errors.

#[local] Open Scope Z_scope.

Record xsan_list_node := mk_node { nd_value : ptr; nd_prev : ptr; nd_next : ptr }.

Record xsan_list := mk_list {
  l_head : ptr; l_tail : ptr; l_size : Z; l_value_destroy : bool
}.

(** A list together with the heap its nodes live in: the live nodes, by address. *)
Record list_state := mk_ls { ls_heap : gmap ptr xsan_list_node; ls_list : xsan_list }.

Definition set_next (h : gmap ptr xsan_list_node) (p q : ptr) : option (gmap ptr xsan_list_node) :=
  n ← h !! p; Some (<[p := mk_node (nd_value n) (nd_prev n) q]> h).

Definition set_prev (h : gmap ptr xsan_list_node) (p q : ptr) : option (gmap ptr xsan_list_node) :=
  n ← h !! p; Some (<[p := mk_node (nd_value n) q (nd_next n)]> h).

Definition xsan_list_create (value_destroy malloc_ok : bool) : option xsan_list :=
  if malloc_ok then Some (mk_list NULL NULL 0 value_destroy) else None.

(** [a] is the address the allocator returns for the node, if it has memory. *)
Definition create_new_node (value : ptr) (a : option ptr) (h : gmap ptr xsan_list_node)
  : option (ptr * gmap ptr xsan_list_node) :=
  q ← a; Some (q, <[q := mk_node value NULL NULL]> h).

Definition xsan_list_append (value : ptr) (a : option ptr) (s : list_state)
  : option (list_state * ptr) :=
  let l := ls_list s in
  match create_new_node value a (ls_heap s) with
  | None => Some (s, NULL)
  | Some (node, h) =>
      if l_tail l =? NULL then
        Some (mk_ls h (mk_list node node (wrap 64 (l_size l + 1)) (l_value_destroy l)), node)
      else
        h1 ← set_next h (l_tail l) node;
        h2 ← set_prev h1 node (l_tail l);
        Some (mk_ls h2 (mk_list (l_head l) node (wrap 64 (l_size l + 1)) (l_value_destroy l)), node)
  end.

Definition xsan_list_prepend (value : ptr) (a : option ptr) (s : list_state)
  : option (list_state * ptr) :=
  let l := ls_list s in
  match create_new_node value a (ls_heap s) with
  | None => Some (s, NULL)
  | Some (node, h) =>
      if l_head l =? NULL then
        Some (mk_ls h (mk_list node node (wrap 64 (l_size l + 1)) (l_value_destroy l)), node)
      else
        h1 ← set_prev h (l_head l) node;
        h2 ← set_next h1 node (l_head l);
        Some (mk_ls h2 (mk_list node (l_tail l) (wrap 64 (l_size l + 1)) (l_value_destroy l)), node)
  end.

Definition xsan_list_insert_after (prev_node value : ptr) (a : option ptr) (s : list_state)
  : option (list_state * ptr) :=
  let l := ls_list s in
  if prev_node =? NULL then Some (s, NULL)
  else if prev_node =? l_tail l then xsan_list_append value a s
  else match create_new_node value a (ls_heap s) with
  | None => Some (s, NULL)
  | Some (new_node, h) =>
      pn ← h !! prev_node;
      h1 ← set_next h new_node (nd_next pn);
      h2 ← set_prev h1 new_node prev_node;
      h3 ← (if nd_next pn =? NULL then Some h2 else set_prev h2 (nd_next pn) new_node);
      h4 ← set_next h3 prev_node new_node;
      Some (mk_ls h4 (mk_list (l_head l) (l_tail l) (wrap 64 (l_size l + 1)) (l_value_destroy l)),
            new_node)
  end.

Definition xsan_list_insert_before (next_node value : ptr) (a : option ptr) (s : list_state)
  : option (list_state * ptr) :=
  let l := ls_list s in
  if next_node =? NULL then Some (s, NULL)
  else if next_node =? l_head l then xsan_list_prepend value a s
  else match create_new_node value a (ls_heap s) with
  | None => Some (s, NULL)
  | Some (new_node, h) =>
      nn ← h !! next_node;
      h1 ← set_prev h new_node (nd_prev nn);
      h2 ← set_next h1 new_node next_node;
      h3 ← (if nd_prev nn =? NULL then Some h2 else set_next h2 (nd_prev nn) new_node);
      h4 ← set_prev h3 next_node new_node;
      Some (mk_ls h4 (mk_list (l_head l) (l_tail l) (wrap 64 (l_size l + 1)) (l_value_destroy l)),
            new_node)
  end.

(** The error code and the values passed to the destructor. *)
Definition xsan_list_remove_node (node : ptr) (s : list_state)
  : option (list_state * (xsan_error_t * list ptr)) :=
  let l := ls_list s in
  if node =? NULL then Some (s, (XSAN_ERROR_INVALID_PARAM, []))
  else
    let is_head := node =? l_head l in
    let is_tail := node =? l_tail l in
    n ← ls_heap s !! node;
    h1 ← (if nd_prev n =? NULL then Some (ls_heap s) else set_next (ls_heap s) (nd_prev n) (nd_next n));
    n1 ← h1 !! node;
    h2 ← (if nd_next n1 =? NULL then Some h1 else set_prev h1 (nd_next n1) (nd_prev n1));
    n2 ← h2 !! node;
    let head := if is_head then nd_next n2 else l_head l in
    let tail := if is_tail then nd_prev n2 else l_tail l in
    let destroyed := if l_value_destroy l && negb (nd_value n2 =? NULL) then [nd_value n2] else [] in
    let size := wrap 64 (l_size l - 1) in
    let h3 := delete node h2 in
    Some (mk_ls h3 (if size =? 0 then mk_list NULL NULL size (l_value_destroy l)
                    else mk_list head tail size (l_value_destroy l)),
          (XSAN_OK, destroyed)).

Definition xsan_list_pop_front (s : list_state) : option (list_state * ptr) :=
  let l := ls_list s in
  if l_head l =? NULL then Some (s, NULL)
  else
    n ← ls_heap s !! l_head l;
    let head := nd_next n in
    '(h1, tail) ← (if head =? NULL then Some (ls_heap s, NULL)
                   else h' ← set_prev (ls_heap s) head NULL; Some (h', l_tail l));
    Some (mk_ls (delete (l_head l) h1)
            (mk_list head tail (wrap 64 (l_size l - 1)) (l_value_destroy l)), nd_value n).

Definition xsan_list_pop_back (s : list_state) : option (list_state * ptr) :=
  let l := ls_list s in
  if l_tail l =? NULL then Some (s, NULL)
  else
    n ← ls_heap s !! l_tail l;
    let tail := nd_prev n in
    '(h1, head) ← (if tail =? NULL then Some (ls_heap s, NULL)
                   else h' ← set_next (ls_heap s) tail NULL; Some (h', l_head l));
    Some (mk_ls (delete (l_tail l) h1)
            (mk_list head tail (wrap 64 (l_size l - 1)) (l_value_destroy l)), nd_value n).

(** The loop of [clear]; at most [fuel] nodes are visited. *)
Fixpoint clear_nodes (fuel : nat) (destroy : bool) (current : ptr) (h : gmap ptr xsan_list_node)
  : option (gmap ptr xsan_list_node * list ptr) :=
  if current =? NULL then Some (h, [])
  else match fuel with
  | O => None
  | S fuel' =>
      n ← h !! current;
      '(h', vs) ← clear_nodes fuel' destroy (nd_next n) (delete current h);
      Some (h', if destroy && negb (nd_value n =? NULL) then nd_value n :: vs else vs)
  end.

Definition xsan_list_clear (fuel : nat) (s : list_state) : option (list_state * list ptr) :=
  let l := ls_list s in
  '(h, vs) ← clear_nodes fuel (l_value_destroy l) (l_head l) (ls_heap s);
  Some (mk_ls h (mk_list NULL NULL 0 (l_value_destroy l)), vs).

Definition xsan_list_get_head (s : list_state) : ptr := l_head (ls_list s).
Definition xsan_list_get_tail (s : list_state) : ptr := l_tail (ls_list s).

Definition xsan_list_node_next (node : ptr) (s : list_state) : option ptr :=
  if node =? NULL then Some NULL else nd_next <$> ls_heap s !! node.
Definition xsan_list_node_prev (node : ptr) (s : list_state) : option ptr :=
  if node =? NULL then Some NULL else nd_prev <$> ls_heap s !! node.
Definition xsan_list_node_get_value (node : ptr) (s : list_state) : option ptr :=
  if node =? NULL then Some NULL else nd_value <$> ls_heap s !! node.

Definition xsan_list_size (s : list_state) : Z := l_size (ls_list s).
Definition xsan_list_is_empty (s : list_state) : bool := l_size (ls_list s) =? 0.

(** A client's traversal: from a node, follow [next] or [prev] to NULL and
    collect the values. *)
Fixpoint walk (step : ptr -> list_state -> option ptr) (fuel : nat) (p : ptr) (s : list_state)
  : option (list ptr) :=
  if p =? NULL then Some []
  else match fuel with
  | O => None
  | S fuel' =>
      v ← xsan_list_node_get_value p s;
      q ← step p s;
      vs ← walk step fuel' q s;
      Some (v :: vs)
  end.

(** ** Calls and their specification on sequences of (node, value) pairs *)

Inductive list_op :=
  | LAppend (v : ptr) (a : option ptr)
  | LPrepend (v : ptr) (a : option ptr)
  | LInsertAfter (p v : ptr) (a : option ptr)
  | LInsertBefore (p v : ptr) (a : option ptr)
  | LRemove (p : ptr)
  | LPopFront
  | LPopBack.

Inductive list_out := LNode (p : ptr) | LValue (v : ptr) | LStatus (r : xsan_error_t * list ptr).

Definition list_exec (op : list_op) (s : list_state) : option (list_state * list_out) :=
  match op with
  | LAppend v a => '(s', p) ← xsan_list_append v a s; Some (s', LNode p)
  | LPrepend v a => '(s', p) ← xsan_list_prepend v a s; Some (s', LNode p)
  | LInsertAfter p v a => '(s', q) ← xsan_list_insert_after p v a s; Some (s', LNode q)
  | LInsertBefore p v a => '(s', q) ← xsan_list_insert_before p v a s; Some (s', LNode q)
  | LRemove p => '(s', r) ← xsan_list_remove_node p s; Some (s', LStatus r)
  | LPopFront => '(s', v) ← xsan_list_pop_front s; Some (s', LValue v)
  | LPopBack => '(s', v) ← xsan_list_pop_back s; Some (s', LValue v)
  end.

Abbreviation nodes := (list (ptr * ptr)) (only parsing).

Fixpoint insert_after_spec (p : ptr) (n : ptr * ptr) (ns : nodes) : nodes :=
  match ns with
  | [] => []
  | m :: ns' => if m.1 =? p then m :: n :: ns' else m :: insert_after_spec p n ns'
  end.

Fixpoint insert_before_spec (p : ptr) (n : ptr * ptr) (ns : nodes) : nodes :=
  match ns with
  | [] => []
  | m :: ns' => if m.1 =? p then n :: m :: ns' else m :: insert_before_spec p n ns'
  end.

Definition node_value (p : ptr) (ns : nodes) : ptr :=
  from_option snd NULL (find (fun m => m.1 =? p) ns).

Definition list_spec (destroy : bool) (op : list_op) (ns : nodes) : nodes * list_out :=
  match op with
  | LAppend _ None | LPrepend _ None | LInsertAfter _ _ None | LInsertBefore _ _ None =>
      (ns, LNode NULL)
  | LAppend v (Some q) => (ns ++ [(q, v)], LNode q)
  | LPrepend v (Some q) => ((q, v) :: ns, LNode q)
  | LInsertAfter p v (Some q) => (insert_after_spec p (q, v) ns, LNode q)
  | LInsertBefore p v (Some q) => (insert_before_spec p (q, v) ns, LNode q)
  | LRemove p =>
      let v := node_value p ns in
      (filter (fun m => m.1 <> p) ns,
       LStatus (XSAN_OK, if destroy && negb (v =? NULL) then [v] else []))
  | LPopFront => (tail ns, LValue (from_option snd NULL (head ns)))
  | LPopBack => (removelast ns, LValue (from_option snd NULL (last ns)))
  end.

(** ** The representation invariant *)

Definition first_ptr (ns : nodes) (e : ptr) : ptr := from_option fst e (head ns).
Definition last_ptr (ns : nodes) (e : ptr) : ptr := from_option fst e (last ns).

(** The nodes [ns] are linked in the heap between [prev] and [next]. *)
Fixpoint seg (h : gmap ptr xsan_list_node) (prev : ptr) (ns : nodes) (next : ptr) : Prop :=
  match ns with
  | [] => True
  | (p, v) :: ns' => h !! p = Some (mk_node v prev (first_ptr ns' next)) /\ seg h p ns' next
  end.

Record list_rep (s : list_state) (ns : nodes) : Prop := {
  rep_nodup : NoDup ns.*1;
  rep_nonnull : Forall (fun p => p <> NULL) ns.*1;
  rep_seg : seg (ls_heap s) NULL ns NULL;
  rep_head : l_head (ls_list s) = first_ptr ns NULL;
  rep_tail : l_tail (ls_list s) = last_ptr ns NULL;
  rep_size : l_size (ls_list s) = Zlen ns;
  rep_bound : Zlen ns < 2 ^ 64
}.

(** The allocator returns a fresh non-null address (and a list of 2^64 nodes does
    not fit the address space), and node arguments are nodes of the list. *)
Definition op_ok (op : list_op) (s : list_state) (ns : nodes) : Prop :=
  let fresh a := forall q, a = Some q ->
    q <> NULL /\ ls_heap s !! q = None /\ Zlen ns + 1 < 2 ^ 64 in
  match op with
  | LAppend _ a | LPrepend _ a => fresh a
  | LInsertAfter p _ a | LInsertBefore p _ a => fresh a /\ p ∈ ns.*1
  | LRemove p => p ∈ ns.*1
  | LPopFront | LPopBack => True
  end.

(** ** Segments *)

Lemma first_ptr_elem ns e : ns <> [] -> first_ptr ns e ∈ ns.*1.
Proof. destruct ns as [|[p v] ns]; [done|]. intros _. left. Qed.

Lemma last_ptr_snoc ns p v e : last_ptr (ns ++ [(p, v)]) e = p.
Proof. unfold last_ptr. now rewrite last_snoc. Qed.

Lemma last_ptr_elem ns e : ns <> [] -> last_ptr ns e ∈ ns.*1.
Proof.
  destruct ns as [|[p v] ns _] using rev_ind; [done|]. intros _.
  rewrite last_ptr_snoc, fmap_app. apply elem_of_app. right. left.
Qed.

Lemma first_ptr_app n1 n2 e : first_ptr (n1 ++ n2) e = first_ptr n1 (first_ptr n2 e).
Proof. by destruct n1. Qed.

Lemma last_ptr_app n1 n2 e : last_ptr (n1 ++ n2) e = last_ptr n2 (last_ptr n1 e).
Proof.
  destruct n2 as [|[p v] n2 _] using rev_ind; [now rewrite app_nil_r|].
  now rewrite app_assoc, !last_ptr_snoc.
Qed.

Lemma last_ptr_cons p v ns e : last_ptr ((p, v) :: ns) e = last_ptr ns p.
Proof. apply (last_ptr_app [(p, v)] ns e). Qed.

Lemma seg_app h prev n1 n2 nx :
  seg h prev (n1 ++ n2) nx <->
  seg h prev n1 (first_ptr n2 nx) /\ seg h (last_ptr n1 prev) n2 nx.
Proof.
  revert prev. induction n1 as [|[p v] n1 IH]; intros prev; simpl; [tauto|].
  rewrite IH, first_ptr_app, last_ptr_cons. tauto.
Qed.

Lemma seg_frame h h' prev ns nx :
  (forall p, p ∈ ns.*1 -> h' !! p = h !! p) -> seg h prev ns nx -> seg h' prev ns nx.
Proof.
  revert prev. induction ns as [|[p v] ns IH]; intros prev Hf; simpl; [done|].
  intros [Hp Hs]. split; [rewrite Hf; [done|left]|]. apply IH; [|done].
  intros q Hq. apply Hf. now right.
Qed.

(** Setting the [next] of the last node of a segment. *)
Lemma link_next h prev ns nx q :
  ns <> [] -> NoDup ns.*1 -> seg h prev ns nx ->
  exists h', set_next h (last_ptr ns prev) q = Some h' /\ seg h' prev ns q /\
    forall x, x <> last_ptr ns prev -> h' !! x = h !! x.
Proof.
  destruct ns as [|[p v] ns _] using rev_ind; [done|]. intros _ Hn Hs.
  apply seg_app in Hs as [H1 H2]. simpl in H1, H2. destruct H2 as [H2 _].
  rewrite last_ptr_snoc. unfold set_next. rewrite H2. simpl. eexists. split_and!; [done| |].
  - apply seg_app. split; [|by split; [rewrite lookup_insert_eq|]].
    eapply seg_frame; [|exact H1]. intros x Hx. apply lookup_insert_ne. intros ->.
    rewrite fmap_app in Hn. apply NoDup_app in Hn as (_ & Hd & _). apply (Hd x Hx). left.
  - intros x Hx. by apply lookup_insert_ne.
Qed.

(** Setting the [prev] of the first node of a segment. *)
Lemma link_prev h prev ns nx e q :
  ns <> [] -> NoDup ns.*1 -> seg h prev ns nx ->
  exists h', set_prev h (first_ptr ns e) q = Some h' /\ seg h' q ns nx /\
    forall x, x <> first_ptr ns e -> h' !! x = h !! x.
Proof.
  destruct ns as [|[p v] ns]; [done|]. intros _ Hn [H1 H2]. simpl.
  unfold set_prev, first_ptr. simpl. rewrite H1. simpl. eexists. split_and!; [done|..].
  - rewrite lookup_insert_eq. done.
  - eapply seg_frame; [|exact H2]. intros x Hx. apply lookup_insert_ne. intros ->.
    simpl in Hn. apply NoDup_cons in Hn as [Hn _]. done.
  - intros x Hx. by apply lookup_insert_ne.
Qed.

(** A freshly allocated node is a segment of its own. *)
Lemma seg_new h q v : seg (<[q := mk_node v NULL NULL]> h) NULL [(q, v)] NULL.
Proof. split; [apply lookup_insert_eq | done]. Qed.

Lemma seg_alive h prev ns nx p : seg h prev ns nx -> p ∈ ns.*1 -> is_Some (h !! p).
Proof.
  revert prev. induction ns as [|[x v] ns IH]; intros prev; simpl; [by intros _ ?%elem_of_nil|].
  intros [Hx Hs]. rewrite elem_of_cons. intros [->|Hp]; eauto.
Qed.

Lemma seg_fresh h prev ns nx q : seg h prev ns nx -> h !! q = None -> q ∉ ns.*1.
Proof. intros Hs Hq Hin. destruct (seg_alive _ _ _ _ _ Hs Hin). congruence. Qed.

Lemma seg_alloc h prev ns nx q n :
  seg h prev ns nx -> h !! q = None -> seg (<[q := n]> h) prev ns nx.
Proof.
  intros Hs Hq. eapply seg_frame; [|exact Hs]. intros p Hp. apply lookup_insert_ne.
  intros ->. by apply (seg_fresh _ _ _ _ _ Hs Hq).
Qed.

Lemma nonnull_last ns : Forall (fun p => p <> NULL) ns.*1 ->
  last_ptr ns NULL = NULL <-> ns = [].
Proof.
  intros Hf. split; [|by intros ->]. destruct (decide (ns = [])) as [|Hne]; [done|].
  rewrite Forall_forall in Hf. intros E. destruct (Hf _ (last_ptr_elem ns NULL Hne) E).
Qed.

Lemma nonnull_first ns : Forall (fun p => p <> NULL) ns.*1 ->
  first_ptr ns NULL = NULL <-> ns = [].
Proof.
  intros Hf. split; [|by intros ->]. destruct (decide (ns = [])) as [|Hne]; [done|].
  rewrite Forall_forall in Hf. intros E. destruct (Hf _ (first_ptr_elem ns NULL Hne) E).
Qed.

(** ** Insertion *)

Lemma rep_inserted s n1 n2 q v h' hd tl sz d :
  list_rep s (n1 ++ n2) -> q <> NULL -> ls_heap s !! q = None -> Zlen (n1 ++ n2) + 1 < 2 ^ 64 ->
  seg h' NULL n1 q -> seg h' (last_ptr n1 NULL) [(q, v)] (first_ptr n2 NULL) -> seg h' q n2 NULL ->
  hd = first_ptr (n1 ++ (q, v) :: n2) NULL -> tl = last_ptr (n1 ++ (q, v) :: n2) NULL ->
  sz = wrap 64 (l_size (ls_list s) + 1) ->
  list_rep (mk_ls h' (mk_list hd tl sz d)) (n1 ++ (q, v) :: n2).
Proof.
  intros Hr Hq Hf Hb H1 [H2 _] H3 -> -> ->.
  pose proof (seg_fresh _ _ _ _ _ (rep_seg _ _ Hr) Hf) as Hni.
  destruct Hr as [Hn Hnn _ _ _ Hs _].
  assert (Hp : (n1 ++ (q, v) :: n2).*1 ≡ₚ q :: (n1 ++ n2).*1)
    by (rewrite !fmap_app; simpl; now rewrite Permutation_middle).
  assert (Hl : Zlen (n1 ++ (q, v) :: n2) = Zlen (n1 ++ n2) + 1)
    by (rewrite !Zlen_app, Zlen_cons; lia).
  pose proof (Zlen_nonneg (n1 ++ n2)).
  constructor; simpl; try done.
  - rewrite Hp. now apply NoDup_cons.
  - rewrite Hp. now constructor.
  - apply seg_app. split; [done|]. simpl. split; [done|done].
  - rewrite Hl, Hs. apply wrap_small. unfold in_u. lia.
  - lia.
Qed.

(** Pointers of the two halves and the fresh node are pairwise different. *)
Lemma rep_disjoint s n1 n2 :
  list_rep s (n1 ++ n2) ->
  NoDup n1.*1 /\ NoDup n2.*1 /\ (forall p, p ∈ n1.*1 -> p ∈ n2.*1 -> False) /\
  seg (ls_heap s) NULL n1 (first_ptr n2 NULL) /\ seg (ls_heap s) (last_ptr n1 NULL) n2 NULL.
Proof.
  intros [Hn _ Hs _ _ _ _]. apply seg_app in Hs as [H1 H2]. rewrite fmap_app in Hn.
  apply NoDup_app in Hn as (? & ? & ?). split_and!; auto.
Qed.

(** What a call promises when its arguments are as [op_ok] says. *)
Definition op_correct (op : list_op) (s : list_state) (ns : list (ptr * ptr)) : Prop :=
  let d := l_value_destroy (ls_list s) in
  exists s', list_exec op s = Some (s', (list_spec d op ns).2) /\
    list_rep s' (list_spec d op ns).1 /\ l_value_destroy (ls_list s') = d.

Lemma append_correct v a s ns :
  list_rep s ns -> op_ok (LAppend v a) s ns ->
  op_correct (LAppend v a) s ns.
Proof.
  intros Hr Hok. unfold op_correct. destruct a as [q|]; simpl in *; [|by exists s].
  destruct (Hok q eq_refl) as (Hq & Hf & Hb).
  assert (Hr0 : list_rep s (ns ++ [])) by now rewrite app_nil_r.
  assert (Hb0 : Zlen (ns ++ []) + 1 < 2 ^ 64) by now rewrite app_nil_r.
  pose proof (rep_seg _ _ Hr) as Hs. pose proof (seg_fresh _ _ _ _ _ Hs Hf) as Hni.
  set (h1 := <[q := mk_node v NULL NULL]> (ls_heap s)).
  pose proof (seg_alloc _ _ _ _ q (mk_node v NULL NULL) Hs Hf) as Hs1.
  unfold xsan_list_append. simpl. rewrite (rep_tail _ _ Hr). fold h1 in Hs1 |- *.
  destruct (Z.eqb_spec (last_ptr ns NULL) NULL) as [Ht|Ht].
  - apply nonnull_last in Ht; [|apply Hr]. subst ns. eexists. split_and!; [done| |done].
    apply (rep_inserted s [] []); try done. apply seg_new.
  - assert (Hne : ns <> []) by (intros ->; done).
    pose proof (last_ptr_elem ns NULL Hne) as Hin.
    destruct (link_next h1 NULL ns NULL q Hne (rep_nodup _ _ Hr) Hs1) as (h2 & -> & Hs2 & F2). simpl.
    destruct (link_prev h2 NULL [(q, v)] NULL NULL (last_ptr ns NULL)) as (h3 & E3 & Hs3 & F3);
      [done|by apply NoDup_singleton| |].
    { eapply seg_frame; [|apply (seg_new (ls_heap s) q v)]. intros x Hx. apply F2.
      apply list_elem_of_singleton in Hx as ->. simpl. intros E. apply Hni. now rewrite E. }
    change (first_ptr [(q, v)] NULL) with q in *. rewrite E3. simpl.
    eexists. split_and!; [done| |done].
    apply (rep_inserted s ns []); try done.
    + eapply seg_frame; [|exact Hs2]. intros x Hx. apply F3. by intros ->.
    + rewrite (rep_head _ _ Hr). rewrite first_ptr_app. by destruct ns.
    + now rewrite last_ptr_snoc.
Qed.

Lemma prepend_correct v a s ns :
  list_rep s ns -> op_ok (LPrepend v a) s ns ->
  op_correct (LPrepend v a) s ns.
Proof.
  intros Hr Hok. unfold op_correct. destruct a as [q|]; simpl in *; [|by exists s].
  destruct (Hok q eq_refl) as (Hq & Hf & Hb).
  pose proof (rep_seg _ _ Hr) as Hs. pose proof (seg_fresh _ _ _ _ _ Hs Hf) as Hni.
  set (h1 := <[q := mk_node v NULL NULL]> (ls_heap s)).
  pose proof (seg_alloc _ _ _ _ q (mk_node v NULL NULL) Hs Hf) as Hs1.
  unfold xsan_list_prepend. simpl. rewrite (rep_head _ _ Hr). fold h1 in Hs1 |- *.
  destruct (Z.eqb_spec (first_ptr ns NULL) NULL) as [Ht|Ht].
  - apply nonnull_first in Ht; [|apply Hr]. subst ns. eexists. split_and!; [done| |done].
    apply (rep_inserted s [] []); try done. apply seg_new.
  - assert (Hne : ns <> []) by (intros ->; done).
    pose proof (first_ptr_elem ns NULL Hne) as Hin.
    destruct (link_prev h1 NULL ns NULL NULL q Hne (rep_nodup _ _ Hr) Hs1)
      as (h2 & -> & Hs2 & F2). simpl.
    destruct (link_next h2 NULL [(q, v)] NULL (first_ptr ns NULL)) as (h3 & E3 & Hs3 & F3);
      [done|by apply NoDup_singleton| |].
    { eapply seg_frame; [|apply (seg_new (ls_heap s) q v)]. intros x Hx. apply F2.
      apply list_elem_of_singleton in Hx as ->. simpl. intros E. apply Hni. now rewrite E. }
    change (last_ptr [(q, v)] NULL) with q in *. rewrite E3. simpl.
    eexists. split_and!; [done| |done].
    apply (rep_inserted s [] ns); try done.
    + eapply seg_frame; [|exact Hs2]. intros x Hx. apply F3. by intros ->.
    + rewrite (rep_tail _ _ Hr). simpl app. rewrite last_ptr_cons.
      destruct ns as [|[x w] ns _] using rev_ind; [done|]. now rewrite !last_ptr_snoc.
Qed.

Lemma seg_last_lookup h prev ns nx :
  ns <> [] -> seg h prev ns nx -> exists v pr, h !! last_ptr ns prev = Some (mk_node v pr nx).
Proof.
  destruct ns as [|[p v] ns _] using rev_ind; [done|]. intros _ [_ [H _]]%seg_app.
  rewrite last_ptr_snoc. eauto.
Qed.

Lemma seg_first_lookup h prev ns nx e :
  ns <> [] -> seg h prev ns nx -> exists v n, h !! first_ptr ns e = Some (mk_node v prev n).
Proof. destruct ns as [|[p v] ns]; [done|]. intros _ [H _]. eauto. Qed.

Lemma split_at p (ns : nodes) :
  p ∈ ns.*1 -> exists n1 v n2, ns = n1 ++ (p, v) :: n2 /\ p ∉ n1.*1.
Proof.
  induction ns as [|[x v] ns IH]; simpl; [by intros ?%elem_of_nil|].
  rewrite elem_of_cons. destruct (decide (p = x)) as [<-|Hne].
  - intros _. exists [], v, ns. split; [done|]. apply not_elem_of_nil.
  - intros [|Hin]; [done|]. destruct (IH Hin) as (n1 & w & n2 & -> & Hni).
    exists ((x, v) :: n1), w, n2. split; [done|]. simpl. now apply not_elem_of_cons.
Qed.

Lemma insert_after_split p v n (n1 n2 : nodes) :
  p ∉ n1.*1 -> insert_after_spec p n (n1 ++ (p, v) :: n2) = (n1 ++ [(p, v)]) ++ n :: n2.
Proof.
  induction n1 as [|[x w] n1 IH]; simpl; intros Hni; [now rewrite Z.eqb_refl|].
  apply not_elem_of_cons in Hni as [Hne Hni]. rewrite (proj2 (Z.eqb_neq x p)) by done.
  now rewrite IH.
Qed.

Lemma insert_before_split p v n (n1 n2 : nodes) :
  p ∉ n1.*1 -> insert_before_spec p n (n1 ++ (p, v) :: n2) = n1 ++ n :: (p, v) :: n2.
Proof.
  induction n1 as [|[x w] n1 IH]; simpl; intros Hni; [now rewrite Z.eqb_refl|].
  apply not_elem_of_cons in Hni as [Hne Hni]. rewrite (proj2 (Z.eqb_neq x p)) by done.
  now rewrite IH.
Qed.

Lemma insert_mid s n1 n2 q v p r :
  list_rep s (n1 ++ n2) -> n1 <> [] -> n2 <> [] ->
  q <> NULL -> ls_heap s !! q = None -> Zlen (n1 ++ n2) + 1 < 2 ^ 64 ->
  p = last_ptr n1 NULL -> r = first_ptr n2 NULL ->
  let h := <[q := mk_node v NULL NULL]> (ls_heap s) in
  (exists h1 h2 h3 h4, set_next h q r = Some h1 /\ set_prev h1 q p = Some h2 /\
     set_prev h2 r q = Some h3 /\ set_next h3 p q = Some h4 /\
     seg h4 NULL n1 q /\ seg h4 p [(q, v)] r /\ seg h4 q n2 NULL) /\
  (exists h1 h2 h3 h4, set_prev h q p = Some h1 /\ set_next h1 q r = Some h2 /\
     set_next h2 p q = Some h3 /\ set_prev h3 r q = Some h4 /\
     seg h4 NULL n1 q /\ seg h4 p [(q, v)] r /\ seg h4 q n2 NULL).
Proof.
  intros Hr N1 N2 Hq Hf Hb -> -> h.
  pose proof (seg_fresh _ _ _ _ _ (rep_seg _ _ Hr) Hf) as Hni. rewrite fmap_app in Hni.
  destruct (rep_disjoint s n1 n2 Hr) as (Hd1 & Hd2 & Hdj & Hs1 & Hs2).
  apply (seg_alloc _ _ _ _ q (mk_node v NULL NULL)) in Hs1; [|done].
  apply (seg_alloc _ _ _ _ q (mk_node v NULL NULL)) in Hs2; [|done]. fold h in Hs1, Hs2.
  pose proof (seg_new (ls_heap s) q v) as Hsq. fold h in Hsq.
  pose proof (last_ptr_elem n1 NULL N1) as Hp. pose proof (first_ptr_elem n2 NULL N2) as Hrr.
  set (p := last_ptr n1 NULL) in *. set (r := first_ptr n2 NULL) in *.
  assert (Hq1 : [(q, v)] <> []) by done.
  assert (Hqn : NoDup [(q, v)].*1) by apply NoDup_singleton.
  assert (Hqe : forall x, x ∈ [(q, v)].*1 -> x = q) by (intros x Hx; by apply list_elem_of_singleton in Hx).
  apply not_elem_of_app in Hni as [Hni1 Hni2].
  assert (D1 : forall x, x ∈ n1.*1 -> x <> q /\ x <> r) by (intros x Hx; split; intros ->; eauto).
  assert (D2 : forall x, x ∈ n2.*1 -> x <> q /\ x <> p) by (intros x Hx; split; intros ->; eauto).
  pose proof (not_eq_sym (proj1 (D1 p Hp))) as Dqp.
  pose proof (not_eq_sym (proj1 (D2 r Hrr))) as Dqr.
  split.
  - destruct (link_next h NULL [(q, v)] NULL r Hq1 Hqn Hsq) as (h1 & E1 & Hq' & F1).
    change (last_ptr [(q, v)] NULL) with q in *.
    destruct (link_prev h1 NULL [(q, v)] r NULL p Hq1 Hqn Hq') as (h2 & E2 & Hq2 & F2).
    change (first_ptr [(q, v)] NULL) with q in *.
    assert (H2n2 : seg h2 p n2 NULL).
    { eapply seg_frame; [|exact Hs2]. intros x [? ?]%D2. by rewrite F2, F1. }
    destruct (link_prev h2 p n2 NULL NULL q N2 Hd2 H2n2) as (h3 & E3 & H3n2 & F3).
    assert (H3n1 : seg h3 NULL n1 r).
    { eapply seg_frame; [|exact Hs1]. intros x [? ?]%D1. by rewrite F3, F2, F1. }
    destruct (link_next h3 NULL n1 r q N1 Hd1 H3n1) as (h4 & E4 & H4n1 & F4).
    exists h1, h2, h3, h4. split_and!; try done.
    + eapply seg_frame; [|exact Hq2]. intros x ->%Hqe. by rewrite F4, F3.
    + eapply seg_frame; [|exact H3n2]. intros x [? ?]%D2. by rewrite F4.
  - destruct (link_prev h NULL [(q, v)] NULL NULL p Hq1 Hqn Hsq) as (h1 & E1 & Hq' & F1).
    change (first_ptr [(q, v)] NULL) with q in *.
    destruct (link_next h1 p [(q, v)] NULL r Hq1 Hqn Hq') as (h2 & E2 & Hq2 & F2).
    change (last_ptr [(q, v)] p) with q in *.
    assert (H2n1 : seg h2 NULL n1 r).
    { eapply seg_frame; [|exact Hs1]. intros x [? ?]%D1. by rewrite F2, F1. }
    destruct (link_next h2 NULL n1 r q N1 Hd1 H2n1) as (h3 & E3 & H3n1 & F3).
    assert (H3n2 : seg h3 p n2 NULL).
    { eapply seg_frame; [|exact Hs2]. intros x [? ?]%D2. by rewrite F3, F2, F1. }
    destruct (link_prev h3 p n2 NULL NULL q N2 Hd2 H3n2) as (h4 & E4 & H4n2 & F4).
    exists h1, h2, h3, h4. split_and!; try done.
    + eapply seg_frame; [|exact H3n1]. intros x [? ?]%D1. by rewrite F4.
    + eapply seg_frame; [|exact Hq2]. intros x ->%Hqe. by rewrite F4, F3.
Qed.

Lemma rep_nonnull_ends s n1 n2 :
  list_rep s (n1 ++ n2) ->
  (n1 <> [] -> last_ptr n1 NULL <> NULL) /\ (n2 <> [] -> first_ptr n2 NULL <> NULL).
Proof.
  intros Hr. pose proof (rep_nonnull _ _ Hr) as Hn. rewrite fmap_app in Hn.
  apply Forall_app in Hn as [H1 H2].
  split; intros Hne E; [apply nonnull_last in E | apply nonnull_first in E]; done.
Qed.

(** Insertion strictly inside the list keeps both ends. *)
Lemma rep_mid_inserted s n1 n2 q v h' d :
  list_rep s (n1 ++ n2) -> n1 <> [] -> n2 <> [] -> q <> NULL -> ls_heap s !! q = None ->
  Zlen (n1 ++ n2) + 1 < 2 ^ 64 -> seg h' NULL n1 q ->
  seg h' (last_ptr n1 NULL) [(q, v)] (first_ptr n2 NULL) -> seg h' q n2 NULL ->
  list_rep (mk_ls h' (mk_list (l_head (ls_list s)) (l_tail (ls_list s))
                        (wrap 64 (l_size (ls_list s) + 1)) d)) (n1 ++ (q, v) :: n2).
Proof.
  intros Hr N1 N2 Hq Hf Hb H1 H2 H3. apply (rep_inserted s n1 n2); try done.
  - rewrite (rep_head _ _ Hr), !first_ptr_app. by destruct n1.
  - rewrite (rep_tail _ _ Hr), !last_ptr_app, last_ptr_cons.
    destruct n2 as [|[x u] n2 _] using rev_ind; [done|]. now rewrite !last_ptr_snoc.
Qed.

Lemma insert_after_correct p v a s ns :
  list_rep s ns -> op_ok (LInsertAfter p v a) s ns -> op_correct (LInsertAfter p v a) s ns.
Proof.
  intros Hr [Hok Hin]. pose proof (rep_nonnull _ _ Hr) as Hnn. rewrite Forall_forall in Hnn.
  specialize (Hnn p Hin). destruct (split_at p ns Hin) as (n1 & w & n2 & -> & Hni).
  unfold op_correct. simpl. unfold xsan_list_insert_after.
  rewrite (proj2 (Z.eqb_neq p NULL)) by done. rewrite (rep_tail _ _ Hr).
  destruct (decide (n2 = [])) as [->|N2].
  - rewrite last_ptr_snoc, Z.eqb_refl.
    destruct (append_correct v a s _ Hr Hok) as (s' & E & Hr' & Hd). simpl in E.
    exists s'. split_and!; [|destruct a; simpl in *; [rewrite insert_after_split|]; done | done].
    rewrite E. by destruct a.
  - assert (Hl : last_ptr (n1 ++ (p, w) :: n2) NULL <> p).
    { rewrite last_ptr_app, last_ptr_cons. intros E. pose proof (rep_nodup _ _ Hr) as Hn.
      rewrite fmap_app in Hn. apply NoDup_app in Hn as (_ & _ & Hn). simpl in Hn.
      apply NoDup_cons in Hn as [Hn _]. apply Hn. rewrite <- E. by apply last_ptr_elem. }
    rewrite (proj2 (Z.eqb_neq p _)) by done. destruct a as [q|]; [|by exists s].
    destruct (Hok q eq_refl) as (Hq & Hf & Hb). rewrite insert_after_split by done.
    assert (Hr2 : list_rep s ((n1 ++ [(p, w)]) ++ n2)) by now rewrite <- app_assoc.
    assert (Hb2 : Zlen ((n1 ++ [(p, w)]) ++ n2) + 1 < 2 ^ 64) by now rewrite <- app_assoc.
    assert (N1 : n1 ++ [(p, w)] <> []) by (by destruct n1).
    destruct (insert_mid s _ n2 q v p (first_ptr n2 NULL) Hr2 N1 N2 Hq Hf Hb2)
      as [(h1 & h2 & h3 & h4 & E1 & E2 & E3 & E4 & S1 & S2 & S3) _];
      [now rewrite last_ptr_snoc | done |].
    destruct (rep_disjoint s _ n2 Hr2) as (_ & _ & _ & Hs1 & Hs2).
    destruct (seg_last_lookup _ _ _ _ N1 Hs1) as (v' & pr & Hp). rewrite last_ptr_snoc in Hp.
    simpl. rewrite lookup_insert_ne by (intros ->; congruence). rewrite Hp. simpl.
    rewrite E1. simpl. rewrite E2. simpl.
    rewrite (proj2 (Z.eqb_neq _ NULL)) by now apply (rep_nonnull_ends s _ n2 Hr2).
    rewrite E3. simpl. rewrite E4. simpl.
    eexists. split_and!; [done| |done].
    rewrite <- (rep_tail _ _ Hr). apply rep_mid_inserted; try done. now rewrite last_ptr_snoc.
Qed.

Lemma insert_before_correct p v a s ns :
  list_rep s ns -> op_ok (LInsertBefore p v a) s ns -> op_correct (LInsertBefore p v a) s ns.
Proof.
  intros Hr [Hok Hin]. pose proof (rep_nonnull _ _ Hr) as Hnn. rewrite Forall_forall in Hnn.
  specialize (Hnn p Hin). destruct (split_at p ns Hin) as (n1 & w & n2 & -> & Hni).
  unfold op_correct. simpl. unfold xsan_list_insert_before.
  rewrite (proj2 (Z.eqb_neq p NULL)) by done. rewrite (rep_head _ _ Hr).
  destruct (decide (n1 = [])) as [->|N1].
  - change (first_ptr ([] ++ (p, w) :: n2) NULL) with p. rewrite Z.eqb_refl.
    destruct (prepend_correct v a s _ Hr Hok) as (s' & E & Hr' & Hd). simpl in E.
    exists s'. split_and!; [|destruct a; simpl in *; [rewrite Z.eqb_refl|]; done | done].
    rewrite E. by destruct a.
  - assert (Hl : first_ptr (n1 ++ (p, w) :: n2) NULL <> p).
    { rewrite first_ptr_app. intros E. apply Hni. rewrite <- E. by apply first_ptr_elem. }
    rewrite (proj2 (Z.eqb_neq p _)) by done. destruct a as [q|]; [|by exists s].
    destruct (Hok q eq_refl) as (Hq & Hf & Hb). rewrite insert_before_split by done.
    assert (N2 : (p, w) :: n2 <> []) by done.
    destruct (insert_mid s n1 _ q v (last_ptr n1 NULL) p Hr N1 N2 Hq Hf Hb)
      as [_ (h1 & h2 & h3 & h4 & E1 & E2 & E3 & E4 & S1 & S2 & S3)]; [done|done|].
    destruct (rep_disjoint s _ _ Hr) as (_ & _ & _ & Hs1 & Hs2). destruct Hs2 as [Hp _].
    simpl. rewrite lookup_insert_ne by (intros ->; congruence). rewrite Hp. simpl.
    rewrite E1. simpl. rewrite E2. simpl.
    rewrite (proj2 (Z.eqb_neq _ NULL)) by now apply (rep_nonnull_ends s n1 _ Hr).
    rewrite E3. simpl. rewrite E4. simpl.
    eexists. split_and!; [done| |done]. rewrite <- (rep_head _ _ Hr). by apply rep_mid_inserted.
Qed.

(** ** Removal *)

(** Unlinking a node: its neighbours point at each other, its cell is freed. *)
Lemma unlink s n1 p v n2 :
  list_rep s (n1 ++ (p, v) :: n2) ->
  let pr := last_ptr n1 NULL in let nx := first_ptr n2 NULL in
  ls_heap s !! p = Some (mk_node v pr nx) /\
  exists h1 h2,
    (if pr =? NULL then Some (ls_heap s) else set_next (ls_heap s) pr nx) = Some h1 /\
    h1 !! p = Some (mk_node v pr nx) /\
    (if nx =? NULL then Some h1 else set_prev h1 nx pr) = Some h2 /\
    h2 !! p = Some (mk_node v pr nx) /\
    seg (delete p h2) NULL (n1 ++ n2) NULL.
Proof.
  intros Hr pr nx. destruct (rep_disjoint s n1 _ Hr) as (Hd1 & Hd2 & Hdj & Hs1 & [Hp Hs2]).
  simpl in Hd2, Hdj. apply NoDup_cons in Hd2 as [Hpn2 Hd2].
  assert (Hpn1 : p ∉ n1.*1) by (intros Hin; apply (Hdj p Hin); left).
  destruct (rep_nonnull_ends s n1 _ Hr) as [Hl1 _].
  assert (Hr2 : list_rep s ((n1 ++ [(p, v)]) ++ n2)) by now rewrite <- app_assoc.
  destruct (rep_nonnull_ends s _ n2 Hr2) as [_ Hf2].
  split; [done|].
  assert (H1 : exists h1, (if pr =? NULL then Some (ls_heap s) else set_next (ls_heap s) pr nx)
    = Some h1 /\ seg h1 NULL n1 nx /\ (forall x, x ∉ n1.*1 -> h1 !! x = ls_heap s !! x)).
  { unfold pr. destruct (decide (n1 = [])) as [->|N1].
    - simpl. eauto.
    - rewrite (proj2 (Z.eqb_neq _ _)) by auto.
      destruct (link_next _ _ _ _ nx N1 Hd1 Hs1) as (h1 & E & S & F). exists h1.
      split_and!; try done. intros x Hx. apply F. intros ->. by apply Hx, last_ptr_elem. }
  destruct H1 as (h1 & E1 & S1 & F1).
  assert (S2 : seg h1 p n2 NULL).
  { eapply seg_frame; [|exact Hs2]. intros x Hx. apply F1. intros Hin.
    apply (Hdj x Hin). now right. }
  assert (H2 : exists h2, (if nx =? NULL then Some h1 else set_prev h1 nx pr) = Some h2 /\
    seg h2 pr n2 NULL /\ (forall x, x ∉ n2.*1 -> h2 !! x = h1 !! x)).
  { unfold nx. destruct (decide (n2 = [])) as [->|N2].
    - simpl. eauto.
    - rewrite (proj2 (Z.eqb_neq _ _)) by auto.
      destruct (link_prev _ _ _ _ NULL pr N2 Hd2 S2) as (h2 & E & S & F). exists h2.
      split_and!; try done. intros x Hx. apply F. intros ->. by apply Hx, first_ptr_elem. }
  destruct H2 as (h2 & E2 & S2' & F2).
  exists h1, h2. split_and!; [done|by rewrite F1|done|by rewrite F2, F1|].
  apply seg_app. split.
  - eapply seg_frame; [|exact S1]. intros x Hx. rewrite lookup_delete_ne by (intros ->; done).
    apply F2. intros Hin. apply (Hdj x Hx). now right.
  - eapply seg_frame; [|exact S2']. intros x Hx. apply lookup_delete_ne. by intros ->.
Qed.

Lemma rep_removed s n1 p v n2 h' hd tl d :
  list_rep s (n1 ++ (p, v) :: n2) -> seg h' NULL (n1 ++ n2) NULL ->
  hd = first_ptr (n1 ++ n2) NULL -> tl = last_ptr (n1 ++ n2) NULL ->
  list_rep (mk_ls h' (mk_list hd tl (wrap 64 (l_size (ls_list s) - 1)) d)) (n1 ++ n2) /\
  wrap 64 (l_size (ls_list s) - 1) = Zlen (n1 ++ n2).
Proof.
  intros [Hn Hnn _ _ _ Hsz Hb] Hs -> ->.
  assert (Hp : (n1 ++ (p, v) :: n2).*1 ≡ₚ p :: (n1 ++ n2).*1)
    by (rewrite !fmap_app; simpl; now rewrite Permutation_middle).
  rewrite Hp in Hn, Hnn. apply NoDup_cons in Hn as [_ Hn]. apply Forall_cons in Hnn as [_ Hnn].
  assert (Hl : Zlen (n1 ++ (p, v) :: n2) = Zlen (n1 ++ n2) + 1)
    by (rewrite !Zlen_app, Zlen_cons; lia).
  pose proof (Zlen_nonneg (n1 ++ n2)).
  assert (Hw : wrap 64 (l_size (ls_list s) - 1) = Zlen (n1 ++ n2))
    by (rewrite wrap_small; unfold in_u; lia).
  split; [|done]. constructor; simpl; try done. lia.
Qed.

Lemma remove_spec_split p v (n1 n2 : nodes) :
  NoDup (n1 ++ (p, v) :: n2).*1 ->
  filter (fun m => m.1 <> p) (n1 ++ (p, v) :: n2) = n1 ++ n2 /\
  node_value p (n1 ++ (p, v) :: n2) = v.
Proof.
  intros Hn. rewrite fmap_app in Hn. apply NoDup_app in Hn as (_ & Hd & Hn). simpl in *.
  apply NoDup_cons in Hn as [Hn2 _].
  assert (Hid : forall l : nodes, p ∉ l.*1 -> filter (fun m => m.1 <> p) l = l).
  { intros l Hl. apply filter_all. intros m Hm E. apply Hl. rewrite <- E. now apply list_elem_of_fmap_2. }
  assert (Hn1 : p ∉ n1.*1) by (intros Hin; apply (Hd p Hin); left).
  split.
  - rewrite filter_app, filter_cons_False by (simpl; tauto). now rewrite !Hid.
  - unfold node_value. clear -Hn1. induction n1 as [|[x w] n1 IH]; simpl in *.
    + now rewrite Z.eqb_refl.
    + apply not_elem_of_cons in Hn1 as [Hne Hn1]. rewrite (proj2 (Z.eqb_neq x p)) by done. auto.
Qed.

Lemma remove_correct p s ns :
  list_rep s ns -> op_ok (LRemove p) s ns -> op_correct (LRemove p) s ns.
Proof.
  intros Hr Hin. simpl in Hin. pose proof (rep_nonnull _ _ Hr) as Hnn.
  rewrite Forall_forall in Hnn. specialize (Hnn p Hin).
  destruct (split_at p ns Hin) as (n1 & v & n2 & -> & Hni).
  unfold op_correct. simpl. destruct (remove_spec_split p v n1 n2 (rep_nodup _ _ Hr)) as [-> ->].
  unfold xsan_list_remove_node. rewrite (proj2 (Z.eqb_neq p NULL)) by done.
  destruct (unlink s n1 p v n2 Hr) as (Hp & h1 & h2 & E1 & P1 & E2 & P2 & S).
  rewrite Hp. simpl. rewrite E1. simpl. rewrite P1. simpl. rewrite E2. simpl. rewrite P2. simpl.
  assert (Hhd : (if p =? l_head (ls_list s) then first_ptr n2 NULL else l_head (ls_list s))
                = first_ptr (n1 ++ n2) NULL).
  { rewrite (rep_head _ _ Hr), !first_ptr_app. destruct n1 as [|[x w] n1]; simpl.
    - by rewrite Z.eqb_refl.
    - unfold first_ptr. simpl in *. apply not_elem_of_cons in Hni as [? _].
      by rewrite (proj2 (Z.eqb_neq p x)). }
  assert (Htl : (if p =? l_tail (ls_list s) then last_ptr n1 NULL else l_tail (ls_list s))
                = last_ptr (n1 ++ n2) NULL).
  { rewrite (rep_tail _ _ Hr), !last_ptr_app, last_ptr_cons.
    destruct (decide (n2 = [])) as [->|N2]; [by simpl; rewrite Z.eqb_refl|].
    pose proof (last_ptr_elem n2 p N2) as Hl. pose proof (rep_nodup _ _ Hr) as Hn.
    rewrite fmap_app in Hn. apply NoDup_app in Hn as (_ & _ & Hn). simpl in Hn.
    apply NoDup_cons in Hn as [Hn _]. rewrite (proj2 (Z.eqb_neq p _)) by (intros E; apply Hn; now rewrite E).
    destruct n2 as [|[x u] n2 _] using rev_ind; [done|]. now rewrite !last_ptr_snoc. }
  rewrite Hhd, Htl.
  destruct (rep_removed s n1 p v n2 (delete p h2) _ _ (l_value_destroy (ls_list s)) Hr S
    eq_refl eq_refl) as [Hrep Hsz].
  eexists. split_and!; [done| |by simpl; destruct (_ =? 0)].
  destruct (Z.eqb_spec (wrap 64 (l_size (ls_list s) - 1)) 0) as [H0|]; [|done].
  rewrite H0 in Hsz. destruct (n1 ++ n2); [done|].
  rewrite Zlen_cons in Hsz. pose proof (Zlen_nonneg l). lia.
Qed.

Lemma pop_front_correct s ns : list_rep s ns -> op_correct LPopFront s ns.
Proof.
  intros Hr. unfold op_correct. simpl. unfold xsan_list_pop_front. rewrite (rep_head _ _ Hr).
  destruct ns as [|[p v] ns]; [by exists s|].
  change (first_ptr ((p, v) :: ns) NULL) with p.
  pose proof (rep_nonnull _ _ Hr) as Hnn. apply Forall_cons in Hnn as [Hp _]. simpl in Hp.
  rewrite (proj2 (Z.eqb_neq p NULL)) by done.
  destruct (unlink s [] p v ns Hr) as (Hl & h1 & h2 & E1 & P1 & E2 & P2 & S). simpl in E1.
  injection E1 as <-. change (last_ptr [] NULL) with NULL in *. rewrite Hl. simpl.
  assert (Htl : ns <> [] -> l_tail (ls_list s) = last_ptr ns NULL).
  { intros Hne. rewrite (rep_tail _ _ Hr), last_ptr_cons.
    destruct ns as [|[x u] ns _] using rev_ind; [done|]. now rewrite !last_ptr_snoc. }
  pose proof (rep_removed s [] p v ns (delete p h2) (first_ptr ns NULL) (last_ptr ns NULL)
    (l_value_destroy (ls_list s)) Hr S eq_refl eq_refl) as [Hrep _].
  destruct (decide (ns = [])) as [->|Hne].
  - simpl in E2. injection E2 as <-. simpl. eexists. split_and!; [done|done|done].
  - assert (Hnn : first_ptr ns NULL <> NULL)
      by (apply (rep_nonnull_ends s [(p, v)] ns); done).
    rewrite (proj2 (Z.eqb_neq _ NULL)) in E2 |- * by done. rewrite E2. simpl.
    rewrite Htl by done. eexists. split_and!; [done|done|done].
Qed.

Lemma pop_back_correct s ns : list_rep s ns -> op_correct LPopBack s ns.
Proof.
  intros Hr. unfold op_correct. simpl. unfold xsan_list_pop_back. rewrite (rep_tail _ _ Hr).
  destruct ns as [|[p v] ns _] using rev_ind; [by exists s|].
  rewrite last_ptr_snoc, last_snoc, removelast_last. simpl.
  pose proof (rep_nonnull _ _ Hr) as Hnn. rewrite fmap_app in Hnn.
  apply Forall_app in Hnn as [_ Hnn]. apply Forall_cons in Hnn as [Hp _]. simpl in Hp.
  rewrite (proj2 (Z.eqb_neq p NULL)) by done.
  destruct (unlink s ns p v [] Hr) as (Hl & h1 & h2 & E1 & P1 & E2 & P2 & S). simpl in E2.
  injection E2 as <-. change (first_ptr [] NULL) with NULL in *. rewrite Hl. simpl.
  rewrite app_nil_r in S.
  assert (Hhd : ns <> [] -> l_head (ls_list s) = first_ptr ns NULL).
  { intros Hne. rewrite (rep_head _ _ Hr), first_ptr_app. by destruct ns. }
  assert (Hrep : list_rep (mk_ls (delete p h1) (mk_list (first_ptr ns NULL) (last_ptr ns NULL)
    (wrap 64 (l_size (ls_list s) - 1)) (l_value_destroy (ls_list s)))) ns).
  { rewrite <- (app_nil_r ns) at 3. rewrite <- (app_nil_r ns) in S.
    apply (rep_removed s ns p v []); rewrite ?app_nil_r; try done. now rewrite app_nil_r in S. }
  destruct (decide (ns = [])) as [->|Hne].
  - simpl in E1. injection E1 as <-. simpl. eexists. split_and!; [done|done|done].
  - assert (Hnn : last_ptr ns NULL <> NULL) by (apply (rep_nonnull_ends s ns [(p, v)]); done).
    rewrite (proj2 (Z.eqb_neq _ NULL)) in E1 |- * by done. rewrite E1. simpl.
    rewrite Hhd by done. eexists. split_and!; [done|done|done].
Qed.

(** ** Traversal and clearing *)

Lemma walk_next s prev ns fuel :
  seg (ls_heap s) prev ns NULL -> Forall (fun p => p <> NULL) ns.*1 -> (length ns <= fuel)%nat ->
  walk xsan_list_node_next fuel (first_ptr ns NULL) s = Some ns.*2.
Proof.
  revert prev fuel. induction ns as [|[p v] ns IH]; intros prev fuel.
  { by destruct fuel. }
  intros [Hp Hs] Hnn Hf. apply Forall_cons in Hnn as [Hn Hnn]. simpl in Hn.
  destruct fuel as [|fuel]; simpl in Hf; [lia|]. cbn [walk].
  change (first_ptr ((p, v) :: ns) NULL) with p.
  assert (Hnx : xsan_list_node_next p s = Some (first_ptr ns NULL) /\
                xsan_list_node_get_value p s = Some v).
  { unfold xsan_list_node_next, xsan_list_node_get_value.
    now rewrite (proj2 (Z.eqb_neq p NULL)), Hp by done. }
  destruct Hnx as [-> ->]. rewrite (proj2 (Z.eqb_neq p NULL)) by done. simpl.
  rewrite (IH p fuel) by (done || lia). done.
Qed.

Lemma walk_prev s ns nx fuel :
  seg (ls_heap s) NULL ns nx -> Forall (fun p => p <> NULL) ns.*1 -> (length ns <= fuel)%nat ->
  walk xsan_list_node_prev fuel (last_ptr ns NULL) s = Some (reverse ns.*2).
Proof.
  revert nx fuel. induction ns as [|[p v] ns IH] using rev_ind; intros nx fuel.
  { by destruct fuel. }
  intros Hs Hnn Hf. apply seg_app in Hs as [Hs [Hp _]].
  rewrite fmap_app in Hnn. apply Forall_app in Hnn as [Hnn Hn].
  apply Forall_cons in Hn as [Hn _]. simpl in Hn. rewrite length_app in Hf. simpl in Hf.
  destruct fuel as [|fuel]; [lia|]. rewrite last_ptr_snoc, fmap_app, reverse_app. cbn [walk].
  assert (Hpv : xsan_list_node_prev p s = Some (last_ptr ns NULL) /\
                xsan_list_node_get_value p s = Some v).
  { unfold xsan_list_node_prev, xsan_list_node_get_value.
    now rewrite (proj2 (Z.eqb_neq p NULL)), Hp by done. }
  destruct Hpv as [-> ->]. rewrite (proj2 (Z.eqb_neq p NULL)) by done. simpl.
  rewrite (IH _ fuel Hs) by (done || lia). done.
Qed.

Lemma clear_nodes_spec d h prev ns :
  NoDup ns.*1 -> seg h prev ns NULL -> Forall (fun p => p <> NULL) ns.*1 ->
  exists h', clear_nodes (length ns) d (first_ptr ns NULL) h =
    Some (h', if d then filter (fun v => v <> NULL) ns.*2 else []) /\
    (forall p, h' !! p = if decide (p ∈ ns.*1) then None else h !! p).
Proof.
  revert h prev. induction ns as [|[p v] ns IH]; intros h prev Hn Hs Hnn.
  { exists h. split; [by destruct d|]. intros p. rewrite decide_False; [done|apply not_elem_of_nil]. }
  destruct Hs as [Hp Hs]. apply NoDup_cons in Hn as [Hni Hn].
  apply Forall_cons in Hnn as [Hpn Hnn]. cbn [length clear_nodes].
  change (first_ptr ((p, v) :: ns) NULL) with p. simpl in Hpn, Hni.
  rewrite (proj2 (Z.eqb_neq p NULL)), Hp by done. simpl.
  destruct (IH (delete p h) p Hn) as (h' & E & F); [|done|].
  { eapply seg_frame; [|exact Hs]. intros x Hx. apply lookup_delete_ne. by intros ->. }
  rewrite E. simpl. exists h'. split.
  - f_equal. f_equal. destruct d; [|done]. simpl.
    destruct (Z.eqb_spec v NULL) as [->|Hv]; simpl;
      [rewrite filter_cons_False by tauto | rewrite filter_cons_True by done]; done.
  - intros x. rewrite F. destruct (decide (x = p)) as [->|Hne].
    + rewrite lookup_delete_eq. repeat case_decide; try done. exfalso; set_solver +H0.
    + rewrite lookup_delete_ne by done.
      repeat case_decide; try done; exfalso; set_solver +H Hne H0.
Qed.

(** ** Properties *)

(** C19: On a well-formed list every insertion, removal and pop runs without
    touching a dead node, returns what the same operation on the sequence of
    nodes returns, and leaves a well-formed list holding the resulting
    sequence; a failed allocation leaves the list unchanged. *)
Theorem list_operations_correct op s ns :
  list_rep s ns -> op_ok op s ns -> op_correct op s ns.
Proof.
  intros Hr Hok. destruct op.
  - now apply append_correct.
  - now apply prepend_correct.
  - now apply insert_after_correct.
  - now apply insert_before_correct.
  - now apply remove_correct.
  - now apply pop_front_correct.
  - now apply pop_back_correct.
Qed.

(** A three-node list for the witnesses. *)
Definition sample_list : list_state :=
  mk_ls (list_to_map [(10, mk_node 1 NULL 20); (20, mk_node 2 10 30); (30, mk_node 3 20 NULL)])
    (mk_list 10 30 3 true).

Lemma sample_list_rep : list_rep sample_list [(10, 1); (20, 2); (30, 3)].
Proof.
  constructor; try done.
  - simpl. repeat (apply NoDup_cons; split; [set_solver|]). apply NoDup_nil_2.
  - repeat constructor; done.
Qed.

Lemma list_operations_correct_witness :
  exists s', list_exec (LRemove 20) sample_list = Some (s', LStatus (XSAN_OK, [2])) /\
    list_rep s' [(10, 1); (30, 3)] /\ l_value_destroy (ls_list s') = true.
Proof.
  apply (list_operations_correct (LRemove 20) sample_list [(10, 1); (20, 2); (30, 3)]).
  - apply sample_list_rep.
  - simpl. set_solver.
Defined.

(** Following [next] from the head visits the values in order, following
    [prev] from the tail visits them in reverse order, and both walks end. *)
Theorem list_traversals s ns :
  list_rep s ns ->
  walk xsan_list_node_next (length ns) (xsan_list_get_head s) s = Some ns.*2 /\
  walk xsan_list_node_prev (length ns) (xsan_list_get_tail s) s = Some (reverse ns.*2) /\
  xsan_list_size s = Zlen ns /\ xsan_list_is_empty s = bool_decide (ns = []).
Proof.
  intros [_ Hnn Hs Hh Ht Hsz _]. unfold xsan_list_get_head, xsan_list_get_tail. rewrite Hh, Ht.
  split_and!; [by eapply walk_next | by eapply walk_prev | done |].
  unfold xsan_list_is_empty. rewrite Hsz. destruct ns as [|n ns]; [done|].
  rewrite Zlen_cons. pose proof (Zlen_nonneg ns).
  rewrite bool_decide_eq_false_2 by done. apply Z.eqb_neq. lia.
Qed.

Lemma list_traversals_witness :
  walk xsan_list_node_next 3 10 sample_list = Some [1; 2; 3] /\
  walk xsan_list_node_prev 3 30 sample_list = Some [3; 2; 1] /\
  xsan_list_size sample_list = 3 /\ xsan_list_is_empty sample_list = false.
Proof. exact (list_traversals sample_list _ sample_list_rep). Defined.

(** Clearing a well-formed list passes its non-NULL values to the
    destructor in order, frees exactly its nodes and leaves it empty. *)
Theorem list_clear_correct s ns :
  list_rep s ns ->
  exists s', xsan_list_clear (length ns) s =
    Some (s', if l_value_destroy (ls_list s) then filter (fun v => v <> NULL) ns.*2 else []) /\
    list_rep s' [] /\
    (forall p, ls_heap s' !! p = if decide (p ∈ ns.*1) then None else ls_heap s !! p).
Proof.
  intros [Hn Hnn Hs Hh _ _ _]. unfold xsan_list_clear. rewrite Hh.
  destruct (clear_nodes_spec (l_value_destroy (ls_list s)) (ls_heap s) NULL ns Hn Hs Hnn)
    as (h' & E & F). rewrite E. simpl. eexists. split_and!; [done| |done].
  constructor; simpl; try done. apply NoDup_nil_2.
Qed.

Lemma list_clear_correct_witness :
  exists s', xsan_list_clear 3 sample_list = Some (s', [1; 2; 3]) /\ list_rep s' [] /\
    (forall p, ls_heap s' !! p =
       if decide (p ∈ [10; 20; 30]) then None else ls_heap sample_list !! p).
Proof. exact (list_clear_correct sample_list _ sample_list_rep). Defined.
