(* ===== verification/StringUtils.v ===== *)
(** * String utilities ([src/src/utils/string_utils.c])

    C strings are lists of characters (the terminating NUL is not part of the
    list), character buffers are lists with an explicit length, pointers that
    may be null are options and the outcome of an allocation is the answer of
    [alloc] on the requested size.  The ctype functions are those of the C
    locale.  The file models the bounded copies, trimming, case conversion and
    comparison, searching and replacing, numeric and boolean conversion, the
    configuration-line parser and the escape codec.  The functions that use
    floating point and the [printf] wrapper are in [Format.v]. *)

From stdpp Require Import prelude strings.
From Stdlib Require Import ZArith Lia Ascii.
From Stdlib Require String.
From S2P Require Import Prelude.

Abbreviation cstring := (list ascii).

(** A string literal. *)
Definition lit (s : string) : cstring := String.list_ascii_of_string s.

Notation "'$' s" := (lit s%string) (at level 5, s at level 0) : xsan_scope.

Definition NUL : ascii := ascii_of_N 0.

(** The characters of a C string are not NUL. *)
Definition no_nul (s : cstring) : Prop := Forall (fun c => c <> NUL) s.

Definition code (c : ascii) : Z := Z.of_N (N_of_ascii c).
Definition chr (z : Z) : ascii := ascii_of_N (Z.to_N z).

(** ** The ctype functions of the C locale *)

Definition isspace (c : ascii) : bool :=
  (code c =? 32) || ((9 <=? code c) && (code c <=? 13)).
Definition isdigit (c : ascii) : bool := (48 <=? code c) && (code c <=? 57).
Definition tolower (c : ascii) : ascii :=
  if (65 <=? code c) && (code c <=? 90) then chr (code c + 32) else c.
Definition toupper (c : ascii) : ascii :=
  if (97 <=? code c) && (code c <=? 122) then chr (code c - 32) else c.

(** ** Buffers *)

(** The C string stored in a buffer: the characters before the first NUL. *)
Fixpoint cstr_of (buf : list ascii) : cstring :=
  match buf with
  | [] => []
  | c :: rest => if decide (c = NUL) then [] else c :: cstr_of rest
  end.

(** [memcpy(buf + off, bytes, n)]. *)
Definition buf_write (buf : list ascii) (off : nat) (bytes : list ascii) : list ascii :=
  take off buf ++ bytes ++ drop (off + length bytes) buf.

Definition xsan_strcpy_safe (dest : list ascii) (src : option cstring)
    (dest_size : Z) : list ascii * Z :=
  match src with
  | None => (dest, 0)
  | Some src =>
      if dest_size =? 0 then (dest, 0) else
      let src_len := Zlen src in
      let copy_len := if src_len <? dest_size - 1 then src_len else dest_size - 1 in
      (buf_write dest 0 (take (Z.to_nat copy_len) src ++ [NUL]), copy_len)
  end.

Definition xsan_strcat_safe (dest : list ascii) (src : option cstring)
    (dest_size : Z) : list ascii * Z :=
  match src with
  | None => (dest, 0)
  | Some src =>
      if dest_size =? 0 then (dest, 0) else
      let dest_len := Zlen (cstr_of (take (Z.to_nat dest_size) dest)) in
      if dest_size <=? dest_len then (dest, dest_len) else
      let remaining := dest_size - dest_len in
      let src_len := Zlen src in
      let copy_len := if src_len <? remaining - 1 then src_len else remaining - 1 in
      (buf_write dest (Z.to_nat dest_len) (take (Z.to_nat copy_len) src ++ [NUL]),
       dest_len + copy_len)
  end.

(** ** Allocating operations *)

Section Allocating.
Variable alloc : Z -> bool.

(** A freshly allocated copy of [s]. *)
Definition new_string (s : cstring) : option cstring :=
  if alloc (Zlen s + 1) then Some s else None.

(** *** Splitting *)

Definition in_delim (delim : cstring) (c : ascii) : bool :=
  existsb (fun d => Ascii.eqb c d) delim.

Fixpoint skip_while (p : ascii -> bool) (s : cstring) : cstring :=
  match s with
  | c :: s' => if p c then skip_while p s' else s
  | [] => []
  end.

Fixpoint span_while (p : ascii -> bool) (s : cstring) : cstring * cstring :=
  match s with
  | c :: s' =>
      if p c then let '(a, b) := span_while p s' in (c :: a, b) else ([], s)
  | [] => ([], [])
  end.

(** [strtok]: the next token and what [strtok(NULL, delim)] continues from
    (past the delimiter that was overwritten with NUL). *)
Definition strtok (delim s : cstring) : option (cstring * cstring) :=
  match skip_while (in_delim delim) s with
  | [] => None
  | s' =>
      let '(tok, rest) := span_while (fun c => negb (in_delim delim c)) s' in
      Some (tok, drop 1 rest)
  end.

(** The loop of [xsan_strsplit]; [None] when a copy cannot be allocated. *)
Fixpoint split_loop (fuel : nat) (delim s : cstring) (room : nat) :
    option (list cstring) :=
  match fuel with
  | O => Some []
  | S fuel =>
      match strtok delim s, room with
      | Some (tok, rest), S room =>
          match new_string tok with
          | None => None
          | Some t => (fun ts => t :: ts) <$> split_loop fuel delim rest room
          end
      | _, _ => Some []
      end
  end.

Definition xsan_strsplit (str delim : option cstring) (max_tokens : nat) : list cstring :=
  match str, delim with
  | Some str, Some delim =>
      if decide (max_tokens = 0%nat) then [] else
      match new_string str with
      | None => []
      | Some copy => default [] (split_loop (S (length copy)) delim copy max_tokens)
      end
  | _, _ => []
  end.

(** *** Trimming *)

(** The backward scan: [n] characters are kept; the scan stops when [lo]
    characters are left or the last one kept is not white space. *)
Fixpoint trim_end (lo : nat) (s : cstring) (n : nat) : nat :=
  match n with
  | O => O
  | S m =>
      if (lo <? n)%nat && isspace (default NUL (s !! m)) then trim_end lo s m else n
  end.

Definition xsan_strtrim (str : option cstring) : option cstring :=
  match str with
  | None => None
  | Some str =>
      match skip_while isspace str with
      | [] => new_string []
      | s => new_string (take (trim_end 1 s (length s)) s)
      end
  end.

Definition xsan_strtrim_left (str : option cstring) : option cstring :=
  match str with
  | None => None
  | Some str => new_string (skip_while isspace str)
  end.

Definition xsan_strtrim_right (str : option cstring) : option cstring :=
  match str with
  | None => None
  | Some [] => new_string []
  | Some str => new_string (take (trim_end 0 str (length str)) str)
  end.

(** *** Case conversion and reversal *)

Definition xsan_strupper (str : option cstring) : option cstring :=
  match str with None => None | Some s => new_string (map toupper s) end.
Definition xsan_strlower (str : option cstring) : option cstring :=
  match str with None => None | Some s => new_string (map tolower s) end.

Definition xsan_str_reverse (str : option cstring) : option cstring :=
  match str with
  | None => None
  | Some s =>
      new_string
        (map (fun i => default NUL (s !! (length s - 1 - i)%nat)) (seq 0 (length s)))
  end.

(** *** Searching and replacing *)

Fixpoint starts (s p : cstring) : bool :=
  match p, s with
  | [], _ => true
  | _, [] => false
  | d :: p', c :: s' => Ascii.eqb c d && starts s' p'
  end.

(** [strstr]: the offset of the first occurrence. *)
Fixpoint strstr (s p : cstring) : option nat :=
  if starts s p then Some 0%nat else
  match s with
  | [] => None
  | _ :: s' => S <$> strstr s' p
  end.

Fixpoint count_loop (fuel : nat) (s old : cstring) : Z :=
  match fuel with
  | O => 0
  | S fuel =>
      match strstr s old with
      | None => 0
      | Some k => 1 + count_loop fuel (drop (k + length old) s) old
      end
  end.

Fixpoint replace_loop (fuel : nat) (s old new : cstring) : cstring :=
  match fuel with
  | O => s
  | S fuel =>
      match strstr s old with
      | None => s
      | Some k => take k s ++ new ++ replace_loop fuel (drop (k + length old) s) old new
      end
  end.

(** The size passed to the allocator, computed in [size_t]. *)
Definition replace_alloc_size (s old new : cstring) : Z :=
  let count := count_loop (length s) s old in
  wrap 64 (wrap 64 (Zlen s + wrap 64 (count * wrap 64 (Zlen new - Zlen old))) + 1).

Definition xsan_str_replace (str old new : option cstring) : option cstring :=
  match str, old, new with
  | Some s, Some old, Some new =>
      if decide (old = []) then new_string s else
      if count_loop (length s) s old =? 0 then new_string s else
      if alloc (replace_alloc_size s old new)
      then Some (replace_loop (length s) s old new) else None
  | _, _, _ => None
  end.

(** *** Escaping *)

(** The second character of the escape sequence of [c], if it has one. *)
Definition escape_char (c : ascii) : option ascii :=
  if code c =? 10 then Some "n"%char
  else if code c =? 13 then Some "r"%char
  else if code c =? 9 then Some "t"%char
  else if code c =? 92 then Some (chr 92)
  else if code c =? 34 then Some (chr 34)
  else if code c =? 39 then Some (chr 39)
  else None.

Definition escaped_len (s : cstring) : Z :=
  foldr (fun c n => n + (if decide (is_Some (escape_char c)) then 2 else 1)) 0 s.

Fixpoint escape_loop (s : cstring) : cstring :=
  match s with
  | [] => []
  | c :: s' =>
      match escape_char c with
      | Some e => chr 92 :: e :: escape_loop s'
      | None => c :: escape_loop s'
      end
  end.

Definition xsan_str_escape (str : option cstring) : option cstring :=
  match str with
  | None => None
  | Some s => if alloc (escaped_len s + 1) then Some (escape_loop s) else None
  end.

(** The character denoted by a backslash followed by [c]. *)
Definition unescape_char (c : ascii) : option ascii :=
  if code c =? 110 then Some (chr 10)
  else if code c =? 114 then Some (chr 13)
  else if code c =? 116 then Some (chr 9)
  else if code c =? 92 then Some (chr 92)
  else if code c =? 34 then Some (chr 34)
  else if code c =? 39 then Some (chr 39)
  else None.

Fixpoint unescape_loop (s : cstring) : cstring :=
  match s with
  | [] => []
  | c :: s' =>
      if code c =? 92 then
        match s' with
        | d :: s'' =>
            match unescape_char d with
            | Some u => u :: unescape_loop s''
            | None => c :: unescape_loop s'
            end
        | [] => [c]
        end
      else c :: unescape_loop s'
  end.

Definition xsan_str_unescape (str : option cstring) : option cstring :=
  match str with
  | None => None
  | Some s => if alloc (Zlen s + 1) then Some (unescape_loop s) else None
  end.

(** *** Booleans *)

Definition xsan_str_to_bool (str : option cstring) : option bool :=
  match xsan_strlower str with
  | None => None
  | Some l =>
      if decide (l ∈ [$"true"; $"yes"; $"on"; $"1"]) then Some true
      else if decide (l ∈ [$"false"; $"no"; $"off"; $"0"]) then Some false
      else None
  end.

End Allocating.

(** ** Comparison *)

Definition hd_char (s : cstring) : ascii := default NUL (head s).
Definition lower_code (c : ascii) : Z := code (tolower c).

Fixpoint casecmp_loop (s1 s2 : cstring) : Z :=
  match s1, s2 with
  | c1 :: r1, c2 :: r2 =>
      if lower_code c1 =? lower_code c2 then casecmp_loop r1 r2
      else lower_code c1 - lower_code c2
  | _, _ => lower_code (hd_char s1) - lower_code (hd_char s2)
  end.

(** The answer when a pointer is null: [same] tells whether the two pointers
    are equal. *)
Definition null_cmp (same : bool) (s1 : option cstring) : Z :=
  if same then 0 else match s1 with Some _ => 1 | None => -1 end.

Definition xsan_strcasecmp (same : bool) (s1 s2 : option cstring) : Z :=
  match s1, s2 with
  | Some s1, Some s2 => casecmp_loop s1 s2
  | _, _ => null_cmp same s1
  end.

Fixpoint ncasecmp_loop (n : nat) (s1 s2 : cstring) : Z :=
  match n, s1, s2 with
  | S n, c1 :: r1, c2 :: r2 =>
      if lower_code c1 =? lower_code c2 then ncasecmp_loop n r1 r2
      else lower_code c1 - lower_code c2
  | _, _, _ => 0
  end.

Definition xsan_strncasecmp (same : bool) (s1 s2 : option cstring) (n : nat) : Z :=
  match s1, s2, n with
  | Some s1', Some s2', S _ => ncasecmp_loop n s1' s2'
  | _, _, _ => null_cmp same s1
  end.

Definition xsan_str_starts_with (str prefix : option cstring) : bool :=
  match str, prefix with
  | Some s, Some p =>
      if Zlen s <? Zlen p then false else bool_decide (take (length p) s = p)
  | _, _ => false
  end.

Definition xsan_str_ends_with (str suffix : option cstring) : bool :=
  match str, suffix with
  | Some s, Some p =>
      if Zlen s <? Zlen p then false
      else bool_decide (take (length p) (drop (length s - length p) s) = p)
  | _, _ => false
  end.

Definition xsan_str_contains (str substr : option cstring) : bool :=
  match str, substr with
  | Some s, Some p => bool_decide (is_Some (strstr s p))
  | _, _ => false
  end.

(** [strncmp(s1, s2, n) == 0]. *)
Definition strncmp_eq (n : nat) (s1 s2 : cstring) : bool :=
  bool_decide (take n s1 = take n s2).

(** ** Hashing *)

(** [char] is signed: the character is widened to [int] with its sign. *)
Definition signed_char (c : ascii) : Z := swrap 8 (code c).

Definition xsan_str_hash (str : option cstring) : Z :=
  match str with
  | None => 0
  | Some s =>
      fold_left
        (fun hash c =>
           wrap 32 (wrap 32 (wrap 32 (Z.shiftl hash 5) + hash) + signed_char c))
        s 5381
  end.

(** ** Splitting at a character *)

(** [strchr] and [strrchr]: the text before and after the character. *)
Definition split_first (x : ascii) (s : cstring) : option (cstring * cstring) :=
  match span_while (fun y => negb (Ascii.eqb y x)) s with
  | (_, []) => None
  | (a, _ :: b) => Some (a, b)
  end.

Fixpoint split_last (x : ascii) (s : cstring) : option (cstring * cstring) :=
  match s with
  | [] => None
  | y :: s =>
      match split_last x s with
      | Some (a, b) => Some (y :: a, b)
      | None => if Ascii.eqb y x then Some ([], s) else None
      end
  end.

(** ** Numbers *)

Definition INT_MIN : Z := - 2 ^ 31.
Definition INT_MAX : Z := 2 ^ 31 - 1.
Definition LONG_MIN : Z := - 2 ^ 63.
Definition LONG_MAX : Z := 2 ^ 63 - 1.

Definition digits_val (ds : cstring) : Z :=
  fold_left (fun acc c => 10 * acc + (code c - 48)) ds 0.

Record strtol_result := StrtolResult {
  st_value : Z;
  st_rest : cstring;     (* what [endptr] points to *)
  st_noconv : bool;      (* [endptr == str] *)
  st_erange : bool       (* [errno == ERANGE] *)
}.

(** The digits after the optional sign of [s]. *)
Definition strtol_digits (neg : bool) (s digits : cstring) : strtol_result :=
  let '(ds, rest) := span_while isdigit digits in
  if decide (ds = []) then StrtolResult 0 s true false else
  let v := if neg then - digits_val ds else digits_val ds in
  if v <? LONG_MIN then StrtolResult LONG_MIN rest false true
  else if LONG_MAX <? v then StrtolResult LONG_MAX rest false true
  else StrtolResult v rest false false.

(** [strtol(str, &endptr, 10)]. *)
Definition strtol (s : cstring) : strtol_result :=
  let s1 := skip_while isspace s in
  match s1 with
  | c :: r =>
      if code c =? 45 then strtol_digits true s r
      else if code c =? 43 then strtol_digits false s r
      else strtol_digits false s s1
  | [] => strtol_digits false s s1
  end.

Definition xsan_str_to_long (str : option cstring) : option Z :=
  match str with
  | None => None
  | Some s =>
      let r := strtol s in
      if st_erange r || negb (bool_decide (st_rest r = [])) || st_noconv r then None
      else Some (st_value r)
  end.

Definition xsan_str_to_int (str : option cstring) : option Z :=
  match str with
  | None => None
  | Some s =>
      let r := strtol s in
      if st_erange r || negb (bool_decide (st_rest r = [])) || st_noconv r then None
      else if (st_value r <? INT_MIN) || (INT_MAX <? st_value r) then None
      else Some (st_value r)
  end.

(** What [printf] writes for [%d], [%ld] and [%lu]. *)
Fixpoint dec_loop (fuel : nat) (n : Z) (acc : cstring) : cstring :=
  match fuel with
  | O => acc
  | S fuel =>
      let acc' := chr (48 + n mod 10) :: acc in
      if n <? 10 then acc' else dec_loop fuel (n / 10) acc'
  end.

Definition print_unsigned (n : Z) : cstring := dec_loop 20 n [].
Definition print_signed (n : Z) : cstring :=
  if n <? 0 then "-"%char :: print_unsigned (- n) else print_unsigned n.

(** [snprintf(buffer, size, ...)] leaves at most [size - 1] characters. *)
Definition snprintf_to (size : Z) (s : cstring) : cstring := take (Z.to_nat (size - 1)) s.

Definition xsan_duration_to_human_readable (seconds buffer_size : Z) : option cstring :=
  if buffer_size <? 32 then None else
  Some (snprintf_to buffer_size (
    if seconds <? 60 then print_unsigned seconds ++ $"秒"
    else if seconds <? 3600 then
      print_unsigned (seconds / 60) ++ $"分" ++ print_unsigned (seconds mod 60) ++ $"秒"
    else if seconds <? 86400 then
      let hours := seconds / 3600 in
      let minutes := (seconds mod 3600) / 60 in
      print_unsigned hours ++ $"小时" ++ print_unsigned minutes ++ $"分"
    else
      let days := seconds / 86400 in
      let hours := (seconds mod 86400) / 3600 in
      print_unsigned days ++ $"天" ++ print_unsigned hours ++ $"小时")).

(** ** Configuration lines *)

(** The returned flag and the contents of the two output buffers, which are
    the old ones where the function returns before writing them. *)
Definition xsan_parse_config_line (line : option cstring) (key value : cstring)
    (key_size value_size : Z) : bool * cstring * cstring :=
  match line with
  | None => (false, key, value)
  | Some line =>
      if (key_size =? 0) || (value_size =? 0) then (false, key, value) else
      let line := skip_while isspace line in
      if bool_decide (head line = Some "#"%char) || bool_decide (line = [])
      then (false, key, value) else
      match span_while (fun c => negb (Ascii.eqb c "="%char)) line with
      | (_, []) => (false, key, value)
      | (raw_key, _ :: after) =>
          let key_len := trim_end 0 raw_key (length raw_key) in
          if key_size <=? Z.of_nat key_len then (false, key, value) else
          let key' := take key_len raw_key in
          let v := skip_while isspace after in
          let value_len := trim_end 0 v (length v) in
          if value_size <=? Z.of_nat value_len then (false, key', value) else
          (true, key', take value_len v)
      end
  end.

(** * Theorems *)

(** ** Characters *)

Lemma code_range c : 0 <= code c < 256.
Proof.
  unfold code. pose proof (N_ascii_bounded c). lia.
Qed.

Lemma code_chr z : 0 <= z < 256 -> code (chr z) = z.
Proof. intros Hz. unfold code, chr. rewrite N_ascii_embedding; lia. Qed.

Lemma chr_code c : chr (code c) = c.
Proof. unfold code, chr. rewrite N2Z.id. apply ascii_N_embedding. Qed.

Lemma code_inj c d : code c = code d -> c = d.
Proof. intros H. now rewrite <- (chr_code c), H, chr_code. Qed.

Lemma ascii_eqb_spec c d : Ascii.eqb c d = true <-> c = d.
Proof. apply Ascii.eqb_eq. Qed.

(** ** Buffers *)

Lemma cstr_of_terminated s rest : no_nul s -> cstr_of (s ++ NUL :: rest) = s.
Proof.
  induction 1 as [|c s Hc Hs IH]; simpl; [done|].
  rewrite decide_False by done. now rewrite IH.
Qed.

Lemma no_nul_take n s : no_nul s -> no_nul (take n s).
Proof. apply Forall_take. Qed.

Lemma cstr_of_no_nul buf : no_nul (cstr_of buf).
Proof.
  induction buf as [|c buf IH]; simpl; [constructor|].
  destruct (decide (c = NUL)); [constructor|]. now constructor.
Qed.

Lemma cstr_of_decompose n buf :
  (length (cstr_of (take n buf)) < n)%nat -> (n <= length buf)%nat ->
  exists rest, buf = cstr_of (take n buf) ++ NUL :: rest.
Proof.
  revert n. induction buf as [|c buf IH]; intros [|n] Hl Hn; simpl in *; try lia.
  destruct (decide (c = NUL)) as [->|Hc]; simpl in *; [by eexists|].
  destruct (IH n) as [rest Hr]; [lia..|]. exists rest. now rewrite <- Hr.
Qed.

Lemma buf_write_length buf off bytes :
  (off + length bytes <= length buf)%nat -> length (buf_write buf off bytes) = length buf.
Proof.
  intros H. unfold buf_write. rewrite !length_app, length_take, length_drop. lia.
Qed.

Lemma buf_write_after buf off bytes :
  (off + length bytes <= length buf)%nat ->
  drop (off + length bytes) (buf_write buf off bytes) = drop (off + length bytes) buf.
Proof.
  intros H. unfold buf_write. rewrite app_assoc, drop_app_length'; [done|].
  rewrite length_app, length_take. lia.
Qed.

(** The common last step of the two copies. *)
Lemma bounded_write dest off src size :
  (off < size <= length dest)%nat -> no_nul (take off dest) -> no_nul src ->
  let k := Nat.min (length src) (size - 1 - off) in
  let d := buf_write dest off (take k src ++ [NUL]) in
  length d = length dest /\ cstr_of d = take off dest ++ take (size - 1 - off) src /\
  drop size d = drop size dest /\ length (cstr_of d) = (off + k)%nat.
Proof.
  intros Hs Hpre Hsrc k d.
  assert (Hlen : length (take k src ++ [NUL]) = S k)
    by (rewrite length_app, length_take; simpl; lia).
  assert (Hc : cstr_of d = take off dest ++ take k src).
  { unfold d, buf_write. rewrite <- app_assoc, app_assoc; simpl.
    apply cstr_of_terminated, Forall_app. split; [done|]. now apply no_nul_take. }
  split_and!.
  - apply buf_write_length. lia.
  - rewrite Hc. f_equal. unfold k.
    destruct (Nat.min_spec (length src) (size - 1 - off)) as [[? ->]|[? ->]]; [|done].
    now rewrite !take_ge by lia.
  - pose proof (buf_write_after dest off (take k src ++ [NUL])) as Ha.
    apply (f_equal (drop (size - off - S k))) in Ha; [|lia].
    rewrite !drop_drop, Hlen in Ha.
    now replace (off + S k + (size - off - S k))%nat with size in Ha by lia.
  - rewrite Hc, length_app, !length_take. lia.
Qed.

Lemma strcpy_safe_spec dest src size :
  0 < size <= Zlen dest -> no_nul src ->
  let '(d, n) := xsan_strcpy_safe dest (Some src) size in
  length d = length dest /\ cstr_of d = take (Z.to_nat (size - 1)) src /\
  n = Zlen (cstr_of d) /\ drop (Z.to_nat size) d = drop (Z.to_nat size) dest.
Proof.
  intros Hd Hsrc. unfold xsan_strcpy_safe, Zlen in *.
  rewrite (proj2 (Z.eqb_neq size 0)) by lia.
  destruct (bounded_write dest 0 src (Z.to_nat size)) as (H1 & H2 & H3 & H4);
    [lia|constructor|done|].
  match goal with |- context [take (Z.to_nat ?k) src ++ _] =>
    replace (Z.to_nat k) with (Nat.min (length src) (Z.to_nat size - 1 - 0))
      by (case_cmp; lia) end.
  split_and!; [done| |case_cmp; lia|done].
  rewrite H2. simpl. f_equal. lia.
Qed.

Lemma strcat_safe_spec dest src size :
  0 < size <= Zlen dest -> no_nul src ->
  let old := cstr_of (take (Z.to_nat size) dest) in
  Zlen old < size ->
  let '(d, n) := xsan_strcat_safe dest (Some src) size in
  length d = length dest /\ cstr_of d = take (Z.to_nat (size - 1)) (old ++ src) /\
  n = Zlen (cstr_of d) /\ drop (Z.to_nat size) d = drop (Z.to_nat size) dest.
Proof.
  intros Hd Hsrc old Hold. unfold xsan_strcat_safe, Zlen in *.
  rewrite (proj2 (Z.eqb_neq size 0)) by lia.
  fold old. rewrite (proj2 (Z.leb_gt size _)) by lia.
  destruct (cstr_of_decompose (Z.to_nat size) dest) as [rest Hdest]; [fold old; lia..|].
  assert (Hpre : take (length old) dest = old)
    by (rewrite Hdest; fold old; apply take_app_length).
  destruct (bounded_write dest (length old) src (Z.to_nat size)) as (H1 & H2 & H3 & H4);
    [lia|rewrite Hpre; apply cstr_of_no_nul|done|].
  rewrite Nat2Z.id.
  match goal with |- context [take (Z.to_nat ?k) src ++ _] =>
    replace (Z.to_nat k) with (Nat.min (length src) (Z.to_nat size - 1 - length old))
      by (case_cmp; lia) end.
  split_and!; [done| |case_cmp; lia|done].
  rewrite H2, Hpre, take_app, (take_ge old) by lia. do 2 f_equal. lia.
Qed.

(** The bounded copy and the bounded concatenation never write outside the
    first [dest_size] bytes, always leave a terminated string there, truncate to
    what fits and return the length of the string they leave. *)
Theorem bounded_copies dest src dest_size :
  0 < dest_size <= Zlen dest -> no_nul src ->
  let old := cstr_of (take (Z.to_nat dest_size) dest) in
  let room := Z.to_nat (dest_size - 1) in
  let fits (r : list ascii * Z) (s : cstring) :=
    length r.1 = length dest /\ cstr_of r.1 = s /\ r.2 = Zlen s /\
    drop (Z.to_nat dest_size) r.1 = drop (Z.to_nat dest_size) dest in
  fits (xsan_strcpy_safe dest (Some src) dest_size) (take room src) /\
  (Zlen old < dest_size ->
   fits (xsan_strcat_safe dest (Some src) dest_size) (take room (old ++ src))).
Proof.
  intros Hd Hsrc old room fits. split.
  - pose proof (strcpy_safe_spec dest src dest_size Hd Hsrc) as H.
    destruct (xsan_strcpy_safe _ _ _) as [d n]. unfold fits; simpl.
    destruct H as (? & Hc & ? & ?). rewrite Hc in *. auto.
  - intros Hold. pose proof (strcat_safe_spec dest src dest_size Hd Hsrc Hold) as H.
    destruct (xsan_strcat_safe _ _ _) as [d n]. unfold fits; simpl.
    destruct H as (? & Hc & ? & ?). rewrite Hc in *. auto.
Qed.

Lemma bounded_copies_witness :
  cstr_of (xsan_strcpy_safe (replicate 5 NUL) (Some $"volume") 4).1 = $"vol".
Proof.
  destruct (bounded_copies (replicate 5 NUL) $"volume" 4) as [(_ & H & _) _];
    [split; vm_compute; congruence
    |repeat constructor; intros Hc; vm_compute in Hc; discriminate Hc|].
  rewrite H. vm_compute. reflexivity.
Defined.

(** ** Spans *)

Lemma skip_while_spec p s :
  exists pre, s = pre ++ skip_while p s /\ Forall (fun c => p c = true) pre /\
    (forall c, head (skip_while p s) = Some c -> p c = false).
Proof.
  induction s as [|c s (pre & Hs & Hpre & Hh)]; simpl.
  - exists []. repeat split; [constructor|done].
  - destruct (p c) eqn:Hc.
    + exists (c :: pre). repeat split; [now rewrite Hs at 1|now constructor|done].
    + exists []. repeat split; [constructor|]. simpl. intros ? [= <-]. done.
Qed.

Lemma skip_while_id p s :
  (forall c, head s = Some c -> p c = false) -> skip_while p s = s.
Proof. destruct s as [|c s]; simpl; [done|]. intros H. now rewrite (H c). Qed.

Lemma skip_while_app p a b :
  Forall (fun c => p c = true) a -> skip_while p (a ++ b) = skip_while p b.
Proof. induction 1 as [|c a Hc _ IH]; simpl; [done|]. now rewrite Hc. Qed.

Lemma span_while_spec p s :
  let '(a, b) := span_while p s in
  s = a ++ b /\ Forall (fun c => p c = true) a /\
  (forall c, head b = Some c -> p c = false).
Proof.
  induction s as [|c s IH]; simpl; [repeat split; constructor || done|].
  destruct (p c) eqn:Hc.
  - destruct (span_while p s) as [a b]. destruct IH as (-> & Ha & Hb).
    repeat split; [now constructor|done].
  - repeat split; [constructor|]. intros ? [= <-]. done.
Qed.

Lemma span_while_app p a b :
  Forall (fun c => p c = true) a -> (forall c, head b = Some c -> p c = false) ->
  span_while p (a ++ b) = (a, b).
Proof.
  intros Ha Hb. induction Ha as [|c a Hc _ IH]; simpl.
  - destruct b as [|c b]; simpl; [done|]. now rewrite (Hb c).
  - now rewrite Hc, IH.
Qed.

(** ** Trimming *)

Abbreviation spaces := (Forall (fun c => isspace c = true)).

Lemma trim_end_spec s n :
  (n <= length s)%nat ->
  let m := trim_end 0 s n in
  (m <= n)%nat /\ spaces (drop m (take n s)) /\
  (forall c, last (take m s) = Some c -> isspace c = false).
Proof.
  induction n as [|n IH]; intros Hn; cbn [trim_end].
  - repeat split; [lia|constructor|done].
  - destruct (lookup_lt_is_Some_2 s n) as [c Hc]; [lia|]. rewrite Hc; simpl.
    assert (Htake : take (S n) s = take n s ++ [c]) by now apply take_S_r.
    destruct (isspace c) eqn:Hsp.
    + destruct IH as (H1 & H2 & H3); [lia|]. repeat split; [lia| |done].
      rewrite Htake, drop_app_le by (rewrite length_take; lia).
      apply Forall_app; split; [done|]. now constructor.
    + repeat split; [lia| |].
      * rewrite drop_ge by (rewrite length_take; lia). constructor.
      * intros d. rewrite Htake, last_snoc. now intros [= <-].
Qed.

(** What a backward scan over the whole string leaves. *)
Lemma trim_right_spec s :
  let r := take (trim_end 0 s (length s)) s in
  exists post, s = r ++ post /\ spaces post /\
    (forall c, last r = Some c -> isspace c = false).
Proof.
  destruct (trim_end_spec s (length s)) as (H1 & H2 & H3); [done|].
  exists (drop (trim_end 0 s (length s)) s).
  rewrite firstn_all in H2. now rewrite take_drop.
Qed.

Lemma trim_end_prefix lo s t n :
  (n <= length s)%nat -> trim_end lo (s ++ t) n = trim_end lo s n.
Proof.
  induction n as [|n IH]; intros Hn; cbn [trim_end]; [done|].
  rewrite lookup_app_l by lia. now rewrite IH by lia.
Qed.

Lemma trim_end_app s post :
  spaces post -> (forall c, last s = Some c -> isspace c = false) ->
  trim_end 0 (s ++ post) (length (s ++ post)) = length s.
Proof.
  intros Hpost Hs. induction post as [|c post IH] using rev_ind.
  - rewrite app_nil_r. destruct s as [|c s _] using rev_ind; [done|].
    rewrite length_app, Nat.add_comm; simpl.
    rewrite lookup_app_r, Nat.sub_diag by lia; simpl.
    now rewrite (Hs c) by apply last_snoc.
  - apply Forall_app in Hpost as [Hp Hc]. rewrite Forall_singleton in Hc.
    rewrite (app_assoc s), length_app, Nat.add_comm; simpl.
    rewrite lookup_app_r, Nat.sub_diag by lia; simpl.
    rewrite Hc, (trim_end_prefix 0 (s ++ post) [c]) by done. now apply IH.
Qed.

(** The scan of [xsan_strtrim], which keeps the first character, agrees with the
    scan of [xsan_strtrim_right] when that character is not white space. *)
Lemma trim_end_lo s n :
  (forall c, head s = Some c -> isspace c = false) -> (n <= length s)%nat ->
  trim_end 1 s n = trim_end 0 s n.
Proof.
  intros Hh. induction n as [|n IH]; intros Hn; cbn [trim_end]; [done|].
  destruct n as [|n].
  - destruct s as [|c s]; simpl in *; [lia|]. now rewrite (Hh c).
  - now rewrite IH by lia.
Qed.

(** [xsan_strtrim] returns the string without the white space at its ends. *)
Lemma strtrim_spec alloc s r :
  xsan_strtrim alloc (Some s) = Some r ->
  exists pre post, s = pre ++ r ++ post /\ spaces pre /\ spaces post /\
    (forall c, head r = Some c -> isspace c = false) /\
    (forall c, last r = Some c -> isspace c = false).
Proof.
  unfold xsan_strtrim, new_string. intros H.
  destruct (skip_while_spec isspace s) as (pre & Hs & Hpre & Hh).
  destruct (skip_while isspace s) as [|c t] eqn:Hsk.
  - destruct (alloc _); simplify_eq. exists pre, []. rewrite !app_nil_r in *.
    repeat split; try done.
  - rewrite trim_end_lo in H by done.
    destruct (trim_right_spec (c :: t)) as (post & Hpost & Hsp & Hl).
    set (r' := take (trim_end 0 (c :: t) (length (c :: t))) (c :: t)) in *.
    destruct (alloc _); [injection H as <-|done].
    exists pre, post. rewrite <- Hpost. repeat split; try done.
    intros d Hd. apply Hh. rewrite Hpost. now destruct r'.
Qed.

(** Trimming a trimmed string changes nothing. *)
Lemma strtrim_id alloc s :
  alloc (Zlen s + 1) = true ->
  (forall c, head s = Some c -> isspace c = false) ->
  (forall c, last s = Some c -> isspace c = false) ->
  xsan_strtrim alloc (Some s) = Some s.
Proof.
  intros Ha Hh Hl. unfold xsan_strtrim. rewrite skip_while_id by done.
  destruct s as [|c s]; [unfold new_string; now rewrite Ha|].
  rewrite trim_end_lo by done.
  pose proof (trim_end_app (c :: s) [] (List.Forall_nil _) Hl) as Ht.
  rewrite app_nil_r in Ht. rewrite Ht, firstn_all. unfold new_string. now rewrite Ha.
Qed.

(** ** Comparison *)

Lemma tolower_nonnul c : c <> NUL -> 0 < lower_code c.
Proof.
  intros Hc. unfold lower_code, tolower. pose proof (code_range c).
  assert (code c <> 0) by (intros H0; apply Hc, code_inj; now rewrite H0).
  case_cmp; simpl; try rewrite code_chr; lia.
Qed.

Lemma lower_code_nul : lower_code NUL = 0.
Proof. reflexivity. Qed.

(** Case-insensitive comparison answers 0 exactly on strings that are equal
    after conversion to lower case. *)
Lemma strcasecmp_zero same s1 s2 :
  no_nul s1 -> no_nul s2 ->
  xsan_strcasecmp same (Some s1) (Some s2) = 0 <-> map tolower s1 = map tolower s2.
Proof.
  simpl. revert s2. induction s1 as [|c s1 IH]; intros [|d s2] H1 H2; simpl.
  - done.
  - apply Forall_cons in H2 as [Hd _]. pose proof (tolower_nonnul d Hd).
    unfold hd_char; simpl. rewrite lower_code_nul. split; [lia|done].
  - apply Forall_cons in H1 as [Hd _]. pose proof (tolower_nonnul c Hd).
    unfold hd_char; simpl. rewrite lower_code_nul. split; [lia|done].
  - apply Forall_cons in H1 as [Hc H1], H2 as [Hd H2].
    destruct (Z.eqb_spec (lower_code c) (lower_code d)) as [He|He].
    + rewrite IH by done. apply code_inj in He. rewrite He. split; congruence.
    + split; [lia|]. intros [=]. unfold lower_code in He. congruence.
Qed.

(** The bounded comparison also answers 0 when one string is a proper prefix of
    the other, whatever the bound. *)
Lemma strncasecmp_prefix same s t n :
  n <> 0%nat -> xsan_strncasecmp same (Some s) (Some (s ++ t)) n = 0.
Proof.
  destruct n as [|n]; [done|]. intros _. unfold xsan_strncasecmp.
  generalize (S n) as k. induction s as [|c s IH]; intros [|k]; simpl; try done.
  now rewrite Z.eqb_refl, IH.
Qed.

Lemma starts_spec s p : starts s p = true <-> exists t, s = p ++ t.
Proof.
  revert s. induction p as [|d p IH]; intros s; simpl.
  - split; [|destruct s; done]. intros _. now exists s.
  - destruct s as [|c s].
    + split; [done|]. now intros [t [=]].
    + simpl. rewrite andb_true_iff, ascii_eqb_spec, IH. split.
      * intros [-> [t ->]]. now exists t.
      * intros [t [= -> ->]]. split; [done|]. now exists t.
Qed.

Lemma strstr_Some s p k :
  strstr s p = Some k ->
  (k + length p <= length s)%nat /\ s = take k s ++ p ++ drop (k + length p) s.
Proof.
  revert k. induction s as [|c s IH]; intros k; cbn [strstr].
  - destruct p; simpl; [|done]. intros [= <-]. done.
  - destruct (starts (c :: s) p) eqn:Hst.
    + intros [= <-]. apply starts_spec in Hst as [t Ht]. rewrite Ht. simpl.
      rewrite length_app, drop_app_length. split; [lia|done].
    + destruct (strstr s p) as [j|] eqn:Hj; simpl; [|done]. intros [= <-].
      destruct (IH j eq_refl) as [Hl He]. simpl. split; [lia|]. now rewrite <- He.
Qed.

Lemma strstr_None s p : strstr s p = None <-> forall a b, s <> a ++ p ++ b.
Proof.
  induction s as [|c s IH]; cbn [strstr].
  - destruct p as [|d p]; simpl.
    + split; [done|]. intros H. now destruct (H [] []).
    + split; [|done]. now intros _ [|? ?] b.
  - destruct (starts (c :: s) p) eqn:Hst.
    + split; [done|]. apply starts_spec in Hst as [t Ht]. intros H. now destruct (H [] t).
    + rewrite fmap_None, IH. split.
      * intros H [|x a] b Heq; simpl in Heq.
        -- assert (starts (c :: s) p = true) by (apply starts_spec; eauto). congruence.
        -- injection Heq as -> Heq. now apply (H a b).
      * intros H a b ->. now apply (H (c :: a) b).
Qed.

(** The first occurrence is the leftmost one. *)
Lemma strstr_leftmost s p k a b :
  strstr s p = Some k -> s = a ++ p ++ b -> (k <= length a)%nat.
Proof.
  revert k a. induction s as [|c s IH]; intros k a; cbn [strstr].
  - destruct (starts [] p); simpl; [|done]. intros [= <-]. lia.
  - destruct (starts (c :: s) p) eqn:Hst; [intros [= <-]; lia|].
    destruct (strstr s p) as [j|]; simpl; [|done]. intros [= <-] Heq.
    destruct a as [|x a]; simpl in Heq.
    + assert (starts (c :: s) p = true) by (apply starts_spec; eauto). congruence.
    + injection Heq as -> Heq. specialize (IH j a eq_refl Heq). simpl. lia.
Qed.

(** ** Replacing *)

(** The pieces with the separator between each two of them. *)
Fixpoint join (sep : cstring) (pieces : list cstring) : cstring :=
  match pieces with
  | [] => []
  | [p] => p
  | p :: ps => p ++ sep ++ join sep ps
  end.

Lemma join_cons sep p ps : ps <> [] -> join sep (p :: ps) = p ++ sep ++ join sep ps.
Proof. now destruct ps. Qed.

Lemma join_length sep ps :
  ps <> [] -> Zlen (join sep ps) = Zlen (join [] ps) + (Zlen ps - 1) * Zlen sep.
Proof.
  induction ps as [|p ps IH]; [done|]. intros _.
  destruct (decide (ps = [])) as [->|Hps]; [simpl; autorewrite with xsan; lia|].
  rewrite !join_cons by done. autorewrite with xsan. rewrite (IH Hps). lia.
Qed.

Lemma replace_loop_spec fuel s old new :
  old <> [] -> (length s <= fuel)%nat ->
  exists pieces, pieces <> [] /\ s = join old pieces /\
    replace_loop fuel s old new = join new pieces /\
    count_loop fuel s old = Zlen pieces - 1 /\
    Forall (fun p => strstr p old = None) pieces.
Proof.
  intros Hold. revert s. induction fuel as [|fuel IH]; intros s Hs.
  - destruct s; simpl in Hs; [|lia]. exists [[]]. repeat split; try done.
    repeat constructor. now destruct old.
  - cbn [replace_loop count_loop]. destruct (strstr s old) as [k|] eqn:Hk.
    + destruct (strstr_Some _ _ _ Hk) as [Hl He].
      assert (length old <> 0%nat) by (destruct old; simpl; [done|lia]).
      destruct (IH (drop (k + length old) s)) as (ps & Hps & H1 & H2 & H3 & H4);
        [rewrite length_drop; lia|].
      exists (take k s :: ps). rewrite !join_cons by done. split_and!; try done.
      * now rewrite <- H1.
      * now rewrite H2.
      * rewrite H3, Zlen_cons. lia.
      * constructor; [|done]. apply strstr_None. intros a b Hab.
        pose proof (f_equal length Hab) as Hlen.
        rewrite !length_app, length_take in Hlen.
        pose proof (strstr_leftmost s old k a (b ++ drop k s) Hk) as Hle.
        rewrite (app_assoc old), (app_assoc a), <- Hab, take_drop in Hle.
        specialize (Hle eq_refl). lia.
    + exists [s]. repeat split; try done. now repeat constructor.
Qed.

Lemma replace_alloc_size_spec s old new pieces :
  pieces <> [] -> s = join old pieces ->
  count_loop (length s) s old = Zlen pieces - 1 ->
  replace_alloc_size s old new = wrap 64 (Zlen (join new pieces) + 1).
Proof.
  intros Hp Hs Hc. unfold replace_alloc_size, wrap.
  rewrite Zplus_mod_idemp_l, <- (Zplus_mod_idemp_l (_ + _)), Zplus_mod_idemp_r,
    <- (Zplus_mod_idemp_r (_ * _)), Zmult_mod_idemp_r, Zplus_mod_idemp_r,
    Zplus_mod_idemp_l.
  f_equal. rewrite Hc, Hs, (join_length old), (join_length new) by done. lia.
Qed.

(** Replacing cuts the string at its leftmost non-overlapping occurrences of
    a non-empty [old] and joins the pieces with [new]; no piece contains [old]
    any more, and the buffer, whose size is computed in wrapping [size_t]
    arithmetic, is exactly the size of the result when anything is replaced. *)
Theorem str_replace_correct alloc s old new r :
  old <> [] -> xsan_str_replace alloc (Some s) (Some old) (Some new) = Some r ->
  exists pieces, pieces <> [] /\ s = join old pieces /\ r = join new pieces /\
    Forall (fun p => strstr p old = None) pieces /\
    (1 < Zlen pieces -> Zlen r + 1 < 2 ^ 64 ->
     replace_alloc_size s old new = Zlen r + 1 /\
     alloc (replace_alloc_size s old new) = true).
Proof.
  intros Hold. unfold xsan_str_replace. rewrite decide_False by done.
  destruct (replace_loop_spec (length s) s old new Hold) as (ps & Hp & H1 & H2 & H3 & H4);
    [done|].
  destruct (Z.eqb_spec (count_loop (length s) s old) 0) as [H0|H0].
  - unfold new_string. destruct (alloc _); [|done]. intros [= <-].
    exists ps. assert (Hone : Zlen ps = 1) by lia. split_and!; try done; [|lia].
    destruct ps as [|p [|q ps]]; [done|now rewrite H1|].
    rewrite !Zlen_cons in Hone. pose proof (Zlen_nonneg ps). lia.
  - destruct (alloc _) eqn:Ha; [|done]. intros [= <-]. exists ps.
    split_and!; try done. intros _ Hlt. split; [|done].
    rewrite (replace_alloc_size_spec s old new ps), H2 by done.
    apply wrap_small. rewrite H2 in Hlt. pose proof (Zlen_nonneg (join new ps)).
    unfold in_u. lia.
Qed.

Lemma str_replace_correct_witness :
  let r := $"v-1-x" in
  exists pieces, $"v::1::x" = join $"::" pieces /\ r = join $"-" pieces.
Proof.
  destruct (str_replace_correct (fun _ => true) $"v::1::x" $"::" $"-" $"v-1-x")
    as (ps & _ & H1 & H2 & _); [vm_compute; discriminate|vm_compute; reflexivity|].
  exists ps. now split.
Defined.

(** ** Escaping *)

Lemma unescape_escape_char c e : escape_char c = Some e -> unescape_char e = Some c.
Proof.
  intros H. destruct c as [[] [] [] [] [] [] [] []]; vm_compute in H; try discriminate H;
    injection H as <-; reflexivity.
Qed.

Lemma escape_char_none c : escape_char c = None -> code c <> 92.
Proof. destruct c as [[] [] [] [] [] [] [] []]; vm_compute; congruence. Qed.

Lemma unescape_escape_loop s : unescape_loop (escape_loop s) = s.
Proof.
  induction s as [|c s IH]; simpl; [done|].
  destruct (escape_char c) as [e|] eqn:He; simpl.
  - rewrite (unescape_escape_char c e He). now rewrite IH.
  - apply escape_char_none in He. rewrite (proj2 (Z.eqb_neq _ _) He). now rewrite IH.
Qed.

Lemma escaped_len_spec s : escaped_len s = Zlen (escape_loop s).
Proof.
  induction s as [|c s IH]; [done|].
  unfold escaped_len in *. simpl. rewrite IH.
  destruct (escape_char c) as [e|]; autorewrite with xsan; simpl; lia.
Qed.

Lemma unescape_loop_length s : (length (unescape_loop s) <= length s)%nat.
Proof.
  induction s as [s IH] using (induction_ltof1 _ length); unfold ltof in IH.
  destruct s as [|c [|d s]]; simpl; [done|case_match; simpl; lia|].
  destruct (code c =? 92).
  - destruct (unescape_char d); simpl.
    + specialize (IH s). simpl in IH. lia.
    + specialize (IH (d :: s)). simpl in IH. lia.
  - specialize (IH (d :: s)). simpl in *. lia.
Qed.

(** Escaping and then unescaping gives the string back, for every string;
    the escaped length computed by the first pass is exactly what the second
    pass writes, and unescaping never writes more than its buffer holds. *)
Theorem escape_round_trip alloc s e :
  xsan_str_escape alloc (Some s) = Some e ->
  escaped_len s = Zlen e /\
  (alloc (Zlen e + 1) = true -> xsan_str_unescape alloc (Some e) = Some s) /\
  (forall t u, xsan_str_unescape alloc (Some t) = Some u -> Zlen u <= Zlen t).
Proof.
  unfold xsan_str_escape, xsan_str_unescape. intros H.
  destruct (alloc (escaped_len s + 1)); simplify_eq. split_and!.
  - apply escaped_len_spec.
  - intros ->. now rewrite unescape_escape_loop.
  - intros t u Hu. destruct (alloc (Zlen t + 1)); simplify_eq.
    pose proof (unescape_loop_length t). unfold Zlen. lia.
Qed.

Lemma escape_round_trip_witness :
  let s := [chr 97; chr 10; chr 92; chr 34] in
  let e := [chr 97; chr 92; chr 110; chr 92; chr 92; chr 92; chr 34] in
  xsan_str_unescape (fun _ => true) (Some e) = Some s.
Proof.
  apply (escape_round_trip (fun _ => true) [chr 97; chr 10; chr 92; chr 34]);
    reflexivity.
Defined.

(** ** Splitting *)

Definition not_sep (delim : cstring) (c : ascii) : Prop := in_delim delim c = false.

#[global] Instance not_sep_dec delim c : Decision (not_sep delim c).
Proof. unfold not_sep. apply _. Defined.

Lemma strtok_spec delim s :
  match strtok delim s with
  | None => Forall (fun c => in_delim delim c = true) s
  | Some (tok, rest) =>
      tok <> [] /\ Forall (not_sep delim) tok /\ (length rest < length s)%nat /\
      filter (not_sep delim) s = tok ++ filter (not_sep delim) rest
  end.
Proof.
  unfold strtok.
  destruct (skip_while_spec (in_delim delim) s) as (pre & Hs & Hpre & Hh).
  destruct (skip_while (in_delim delim) s) as [|c t] eqn:Hsk.
  { rewrite app_nil_r in Hs. now subst. }
  pose proof (span_while_spec (fun c => negb (in_delim delim c)) (c :: t)) as Hsp.
  destruct (span_while _ (c :: t)) as [tok rest]. destruct Hsp as (He & Htok & Hrest).
  assert (Hne : tok <> []).
  { intros ->. simpl in He. subst rest. specialize (Hrest c eq_refl).
    specialize (Hh c eq_refl). now rewrite Hh in Hrest. }
  assert (Hnot : Forall (not_sep delim) tok).
  { eapply Forall_impl; [exact Htok|]. intros x Hx. now apply negb_true_iff. }
  rewrite Hs, He. split_and!; try done.
  - rewrite !length_app, length_drop.
    destruct tok; [done|]. simpl. lia.
  - rewrite !filter_app.
    assert (Hpre0 : filter (not_sep delim) pre = []).
    { clear -Hpre. induction Hpre as [|x pre Hx _ IH]; [done|].
      rewrite filter_cons_False; [done|]. unfold not_sep. now rewrite Hx. }
    rewrite Hpre0, (filter_all _ tok) by now apply Forall_forall. simpl. f_equal.
    destruct rest as [|d rest]; [done|]. simpl. rewrite drop_0.
    rewrite filter_cons_False; [done|]. unfold not_sep.
    specialize (Hrest d eq_refl). apply negb_false_iff in Hrest. now rewrite Hrest.
Qed.

Lemma split_loop_spec alloc fuel delim s room :
  (forall n, alloc n = true) -> (length s < fuel)%nat ->
  exists ts, split_loop alloc fuel delim s room = Some ts /\ (length ts <= room)%nat /\
    Forall (fun t => t <> [] /\ Forall (not_sep delim) t) ts /\
    ((length ts < room)%nat -> concat ts = filter (not_sep delim) s).
Proof.
  intros Ha Hf. revert s room Hf. induction fuel as [|fuel IH]; intros s room Hf; [lia|].
  cbn [split_loop]. pose proof (strtok_spec delim s) as Ht.
  destruct (strtok delim s) as [[tok rest]|]; simpl in Ht.
  - destruct Ht as (H1 & H2 & H3 & H4). destruct room as [|room].
    + exists []. repeat split; simpl; try constructor; lia.
    + unfold new_string. rewrite Ha.
      destruct (IH rest room) as (ts & -> & Hl & Hall & Hc); [lia|].
      exists (tok :: ts). simpl. split_and!; [done|lia|now constructor|].
      intros Hlt. rewrite Hc, H4 by lia. done.
  - exists []. repeat split; simpl; [lia|constructor|]. intros _.
    clear -Ht. induction Ht as [|x s Hx _ IH]; [done|].
    rewrite filter_cons_False; [done|]. unfold not_sep. now rewrite Hx.
Qed.

(** Splitting returns at most [max_tokens] non-empty tokens without separators
    and, when it stopped before the limit, loses no other character. *)
Lemma strsplit_spec alloc s delim max_tokens :
  (forall n, alloc n = true) -> max_tokens <> 0%nat ->
  let ts := xsan_strsplit alloc (Some s) (Some delim) max_tokens in
  (length ts <= max_tokens)%nat /\
  Forall (fun t => t <> [] /\ Forall (not_sep delim) t) ts /\
  ((length ts < max_tokens)%nat -> concat ts = filter (not_sep delim) s).
Proof.
  intros Ha Hm. unfold xsan_strsplit, new_string.
  rewrite decide_False, Ha by done.
  destruct (split_loop_spec alloc (S (length s)) delim s max_tokens Ha)
    as (ts & -> & H); [lia|]. exact H.
Qed.

(** ** Numbers *)

Lemma digit_code d : 0 <= d < 10 -> code (chr (48 + d)) = 48 + d.
Proof. intros H. apply code_chr. lia. Qed.

Lemma dec_loop_spec fuel n acc :
  0 <= n < 10 ^ Z.of_nat fuel -> (0 < fuel)%nat ->
  exists ds, dec_loop fuel n acc = ds ++ acc /\ ds <> [] /\
    Forall (fun c => isdigit c = true) ds /\ Zlen ds <= Z.of_nat fuel /\
    forall a, fold_left (fun acc c => 10 * acc + (code c - 48)) ds a =
      a * 10 ^ Zlen ds + n.
Proof.
  revert n acc. induction fuel as [|fuel IH]; intros n acc Hn Hf; [lia|].
  cbn [dec_loop]. pose proof (Z.mod_pos_bound n 10 ltac:(lia)) as Hm.
  assert (Hd : isdigit (chr (48 + n mod 10)) = true)
    by (unfold isdigit; rewrite digit_code by lia; case_cmp; lia || done).
  destruct (Z.ltb_spec n 10).
  - exists [chr (48 + n mod 10)]. split_and!; [done|done|now constructor| |].
    + unfold Zlen; simpl; lia.
    + intros a. simpl. rewrite digit_code by lia. unfold Zlen; simpl.
      rewrite Z.mod_small by lia. lia.
  - rewrite Nat2Z.inj_succ, Z.pow_succ_r in Hn by lia.
    destruct fuel as [|fuel]; [simpl in Hn; lia|].
    destruct (IH (n / 10) (chr (48 + n mod 10) :: acc)) as (ds & He & Hne & Hall & Hl & Hv);
      [|lia|].
    { split; [apply Z.div_pos; lia|]. apply Z.div_lt_upper_bound; lia. }
    exists (ds ++ [chr (48 + n mod 10)]). split_and!.
    + rewrite He, <- app_assoc. done.
    + now destruct ds.
    + apply Forall_app; split; [done|now constructor].
    + rewrite Zlen_app. unfold Zlen in *; simpl. lia.
    + intros a. rewrite fold_left_app, Hv. simpl. rewrite digit_code by lia.
      rewrite Zlen_app. change (Zlen [_]) with 1.
      rewrite Z.pow_add_r by (unfold Zlen; lia). change (10 ^ 1) with 10.
      pose proof (Z.div_mod n 10 ltac:(lia)). lia.
Qed.

Lemma split_first_app x a b : x ∉ a -> split_first x (a ++ x :: b) = Some (a, b).
Proof.
  intros Hx. unfold split_first. rewrite span_while_app.
  - done.
  - apply Forall_forall. intros y Hy. apply negb_true_iff, Ascii.eqb_neq. congruence.
  - intros y [= <-]. now rewrite Ascii.eqb_refl.
Qed.

Lemma split_last_none x s : x ∉ s -> split_last x s = None.
Proof.
  induction s as [|y s IH]; simpl; [done|]. intros [Hy Hs]%not_elem_of_cons.
  rewrite IH by done. destruct (Ascii.eqb_spec y x); congruence.
Qed.

Lemma split_last_app x a b : x ∉ b -> split_last x (a ++ x :: b) = Some (a, b).
Proof.
  intros Hb. induction a as [|y a IH]; simpl; [|now rewrite IH].
  now rewrite split_last_none, Ascii.eqb_refl.
Qed.

Lemma print_unsigned_spec n :
  0 <= n < 10 ^ 20 ->
  print_unsigned n <> [] /\ Forall (fun c => isdigit c = true) (print_unsigned n) /\
  digits_val (print_unsigned n) = n.
Proof.
  intros Hn. unfold print_unsigned.
  destruct (dec_loop_spec 20 n [] Hn) as (ds & He & Hne & Hall & _ & Hv); [lia|].
  rewrite He, app_nil_r. split_and!; [done..|]. unfold digits_val. now rewrite Hv.
Qed.

Lemma digit_not_special c :
  isdigit c = true -> isspace c = false /\ code c <> 45 /\ code c <> 43.
Proof. unfold isdigit, isspace. intros H. case_cmp; simpl in *; try done; lia. Qed.

Lemma strtol_digits_spec neg s ds z :
  ds <> [] -> Forall (fun c => isdigit c = true) ds ->
  (if neg : bool then - digits_val ds else digits_val ds) = z ->
  LONG_MIN <= z <= LONG_MAX ->
  strtol_digits neg s ds = StrtolResult z [] false false.
Proof.
  intros Hne Hd <- Hz. unfold strtol_digits.
  pose proof (span_while_app isdigit ds [] Hd) as Hs. rewrite app_nil_r in Hs.
  rewrite Hs, decide_False by done.
  set (v := if neg then _ else _) in *.
  now rewrite (proj2 (Z.ltb_ge v _)), (proj2 (Z.ltb_ge _ v)) by lia.
Qed.

Lemma strtol_print z :
  LONG_MIN <= z <= LONG_MAX -> strtol (print_signed z) = StrtolResult z [] false false.
Proof.
  intros Hz. pose proof Hz as Hz'. unfold LONG_MIN, LONG_MAX in Hz'. pow2s.
  unfold strtol, print_signed. destruct (Z.ltb_spec z 0) as [Hneg|Hpos].
  - destruct (print_unsigned_spec (- z)) as (Hne & Hall & Hv); [lia|]. simpl.
    apply strtol_digits_spec; [done..|lia|done].
  - destruct (print_unsigned_spec z) as (Hne & Hall & Hv); [lia|].
    destruct (print_unsigned z) as [|c ds]; [done|].
    destruct (digit_not_special c) as (H1 & H2 & H3); [now apply Forall_inv in Hall|].
    rewrite skip_while_id by (intros ? [= <-]; done).
    rewrite (proj2 (Z.eqb_neq _ _) H2), (proj2 (Z.eqb_neq _ _) H3).
    now apply strtol_digits_spec.
Qed.

(** A number printed in decimal is read back unchanged by both conversions
    within their range, and [xsan_str_to_int] accepts exactly the strings that
    [xsan_str_to_long] accepts with a value of type [int]. *)
Theorem number_round_trip z s v :
  (INT_MIN <= z <= INT_MAX -> xsan_str_to_int (Some (print_signed z)) = Some z) /\
  (LONG_MIN <= z <= LONG_MAX -> xsan_str_to_long (Some (print_signed z)) = Some z) /\
  (xsan_str_to_int s = Some v <->
   xsan_str_to_long s = Some v /\ INT_MIN <= v <= INT_MAX).
Proof.
  split_and!.
  - intros Hz. unfold xsan_str_to_int.
    rewrite strtol_print by (unfold LONG_MIN, LONG_MAX, INT_MIN, INT_MAX in *; pow2s; lia).
    simpl. now rewrite (proj2 (Z.ltb_ge z _)), (proj2 (Z.ltb_ge _ z)) by lia.
  - intros Hz. unfold xsan_str_to_long. now rewrite strtol_print.
  - destruct s as [s|]; simpl; [|split; [done|now intros [[=] _]]].
    destruct (_ || _); [split; [done|now intros [[=] _]]|].
    destruct (Z.ltb_spec (st_value (strtol s)) INT_MIN),
      (Z.ltb_spec INT_MAX (st_value (strtol s))); simpl;
      (split; [intros [=]; subst; auto|intros [[= <-] ?]; try lia; auto]).
Qed.

(** Only the four affirmative and the four negative words are booleans,
    whatever their case. *)
Lemma str_to_bool_spec alloc s b :
  xsan_str_to_bool alloc (Some s) = Some b ->
  (map tolower s ∈ (if b then [$"true"; $"yes"; $"on"; $"1"]
                    else [$"false"; $"no"; $"off"; $"0"])).
Proof.
  unfold xsan_str_to_bool, xsan_strlower, new_string. destruct (alloc _); [|done].
  destruct (decide _); [now intros [= <-]|]. destruct (decide _); [|done].
  now intros [= <-].
Qed.

(** ** Durations *)

Lemma snprintf_to_fits size s : Zlen s < size -> snprintf_to size s = s.
Proof. intros Hs. unfold snprintf_to, Zlen in *. apply take_ge. lia. Qed.

Lemma print_unsigned_length n k :
  0 <= n < 10 ^ k -> 1 <= k <= 20 -> Zlen (print_unsigned n) <= k.
Proof.
  intros Hn Hk. unfold print_unsigned.
  assert (Hext : forall fuel extra m acc, 0 <= m < 10 ^ Z.of_nat fuel -> (0 < fuel)%nat ->
    dec_loop (fuel + extra) m acc = dec_loop fuel m acc).
  { induction fuel as [|fuel IH]; intros extra m acc Hm Hf; [lia|]. simpl.
    destruct (Z.ltb_spec m 10); [done|].
    rewrite Nat2Z.inj_succ, Z.pow_succ_r in Hm by lia.
    destruct fuel as [|fuel]; [simpl in Hm; lia|]. apply IH; [|lia].
    split; [apply Z.div_pos; lia|]. apply Z.div_lt_upper_bound; lia. }
  replace 20%nat with (Z.to_nat k + (20 - Z.to_nat k))%nat by lia.
  rewrite Hext by (rewrite ?Z2Nat.id; lia).
  destruct (dec_loop_spec (Z.to_nat k) n []) as (ds & -> & _ & _ & Hl & _);
    [rewrite Z2Nat.id; lia|lia|]. rewrite app_nil_r. lia.
Qed.

(** The 32 bytes the function insists on hold every duration: no 64-bit number
    of seconds is ever truncated. *)
Lemma duration_fits seconds size :
  in_u 64 seconds -> 32 <= size ->
  exists s, xsan_duration_to_human_readable seconds size = Some s /\
    forall size', size <= size' -> xsan_duration_to_human_readable seconds size' = Some s.
Proof.
  intros Hs Hsize. unfold in_u in Hs. pow2s.
  unfold xsan_duration_to_human_readable, snprintf_to.
  match goal with |- context [take _ ?t] => set (text := t) end.
  assert (Hlen : Zlen text <= 31).
  { unfold text.
    pose proof (Z.mod_pos_bound seconds 60 ltac:(lia)).
    pose proof (Z.mod_pos_bound seconds 3600 ltac:(lia)).
    pose proof (Z.mod_pos_bound seconds 86400 ltac:(lia)).
    assert (Hp : forall n k, 0 <= n < 10 ^ k -> 1 <= k <= 20 ->
      Zlen (print_unsigned n) <= k) by apply print_unsigned_length.
    case_cmp; autorewrite with xsan;
      repeat match goal with |- context [Zlen $?s] =>
        let v := eval vm_compute in (Zlen $s) in change (Zlen $s) with v end.
    - pose proof (Hp seconds 2). lia.
    - pose proof (Hp (seconds / 60) 2). pose proof (Hp (seconds mod 60) 2).
      pose proof (Z.div_pos seconds 60). pose proof (Z.div_lt_upper_bound seconds 60 100). lia.
    - pose proof (Hp (seconds / 3600) 2). pose proof (Hp ((seconds mod 3600) / 60) 2).
      pose proof (Z.div_pos seconds 3600).
      pose proof (Z.div_lt_upper_bound seconds 3600 100).
      pose proof (Z.div_pos (seconds mod 3600) 60).
      pose proof (Z.div_lt_upper_bound (seconds mod 3600) 60 100). lia.
    - pose proof (Hp (seconds / 86400) 15). pose proof (Hp ((seconds mod 86400) / 3600) 2).
      pose proof (Z.div_pos seconds 86400).
      pose proof (Z.div_lt_upper_bound seconds 86400 (10 ^ 15)).
      pose proof (Z.div_pos (seconds mod 86400) 3600).
      pose proof (Z.div_lt_upper_bound (seconds mod 86400) 3600 100). lia. }
  exists text. unfold Zlen in Hlen. rewrite (proj2 (Z.ltb_ge size 32)) by lia.
  split; [now rewrite take_ge by lia|]. intros size' Hs'.
  rewrite (proj2 (Z.ltb_ge size' 32)) by lia. now rewrite take_ge by lia.
Qed.

(** ** Configuration lines *)

(** No white space at either end. *)
Definition trimmed (s : cstring) : Prop :=
  (forall c, head s = Some c -> isspace c = false) /\
  (forall c, last s = Some c -> isspace c = false).

(** The shape of a configuration line that defines [k] as [v]. *)
Definition config_line (line k v : cstring) : Prop :=
  exists a b c d, line = a ++ k ++ b ++ "="%char :: c ++ v ++ d /\
    spaces a /\ spaces b /\ spaces c /\ spaces d /\ trimmed k /\ trimmed v /\
    ("="%char ∉ k) /\ head k <> Some "#"%char.

Lemma head_app_not (k t : cstring) x : head (k ++ t) <> Some x -> head k <> Some x.
Proof. destruct k; simpl; [done|]. auto. Qed.

Lemma no_eq_Forall (s : cstring) :
  Forall (fun c => negb (Ascii.eqb c "="%char) = true) s <-> "="%char ∉ s.
Proof.
  rewrite Forall_forall. split.
  - intros H Hin. specialize (H _ Hin). now rewrite Ascii.eqb_refl in H.
  - intros H c Hc. apply negb_true_iff, Ascii.eqb_neq. congruence.
Qed.

Lemma parse_config_line_sound line k0 v0 ks vs k v :
  xsan_parse_config_line (Some line) k0 v0 ks vs = (true, k, v) ->
  config_line line k v /\ Zlen k < ks /\ Zlen v < vs.
Proof.
  unfold xsan_parse_config_line. destruct (_ || _); [done|].
  destruct (skip_while_spec isspace line) as (a & Hline & Ha & Hh).
  set (l1 := skip_while isspace line) in *.
  case_bool_decide as Hhash; [done|]. case_bool_decide as Hempty; [done|]. simpl.
  pose proof (span_while_spec (fun c => negb (Ascii.eqb c "="%char)) l1) as Hspan.
  destruct (span_while _ l1) as [raw [|e after]]; [done|].
  destruct Hspan as (Hl1 & Hraw & He).
  specialize (He e eq_refl). apply negb_false_iff, Ascii.eqb_eq in He as ->.
  destruct (trim_right_spec raw) as (b & Hb & Hbs & Hkl).
  set (n := trim_end 0 raw (length raw)) in *.
  destruct (Z.leb_spec ks (Z.of_nat n)) as [|Hks]; [done|].
  destruct (skip_while_spec isspace after) as (c & Hc & Hcs & Hch).
  set (w := skip_while isspace after) in *.
  destruct (trim_right_spec w) as (d & Hd & Hds & Hvl).
  set (m := trim_end 0 w (length w)) in *.
  destruct (Z.leb_spec vs (Z.of_nat m)) as [|Hvs]; [done|]. intros [= <- <-].
  split.
  - exists a, b, c, d. rewrite Hline, Hl1, Hc. apply no_eq_Forall in Hraw.
    split_and!; try done.
    + rewrite Hb at 1. rewrite Hd at 1. now rewrite <- !app_assoc.
    + split; [|done]. intros x Hx. apply Hh. rewrite Hl1, Hb.
      now destruct (take n raw); simplify_eq.
    + split; [|done]. intros x Hx. apply Hch. rewrite Hd.
      now destruct (take m w); simplify_eq.
    + rewrite Hb in Hraw. intros Hin. apply Hraw, elem_of_app. now left.
    + rewrite Hl1, Hb, <- app_assoc in Hhash. now apply head_app_not in Hhash.
  - unfold Zlen. rewrite !length_take. lia.
Qed.

Lemma parse_config_line_complete line k0 v0 ks vs k v :
  config_line line k v -> Zlen k < ks -> Zlen v < vs ->
  xsan_parse_config_line (Some line) k0 v0 ks vs = (true, k, v).
Proof.
  intros (a & b & c & d & -> & Ha & Hb & Hc & Hd & [Hk1 Hk2] & [Hv1 Hv2] & Hne & Hhash) Hks Hvs.
  unfold xsan_parse_config_line, Zlen in *.
  rewrite (proj2 (Z.eqb_neq ks 0)), (proj2 (Z.eqb_neq vs 0)) by lia. simpl.
  assert (Hsk : exists b', spaces b' /\
    skip_while isspace (a ++ k ++ b ++ "="%char :: c ++ v ++ d) =
      k ++ b' ++ "="%char :: c ++ v ++ d).
  { rewrite skip_while_app by done. destruct k as [|x k].
    - exists []. split; [constructor|]. simpl. now rewrite skip_while_app.
    - exists b. split; [done|]. apply skip_while_id. exact Hk1. }
  destruct Hsk as (b' & Hb' & ->).
  rewrite (app_assoc k b').
  assert (Hraw : "="%char ∉ (k ++ b')).
  { intros Hin. apply elem_of_app in Hin as [Hin|Hin]; [done|].
    rewrite Forall_forall in Hb'. now specialize (Hb' _ Hin). }
  rewrite bool_decide_eq_false_2.
  2:{ destruct k as [|x k]; simpl in *; [|done]. destruct b' as [|y b']; simpl; [done|].
      intros [= ->]. apply Forall_inv in Hb'. done. }
  rewrite bool_decide_eq_false_2 by (now destruct (k ++ b')). simpl.
  rewrite span_while_app; [|now apply no_eq_Forall|intros ? [= <-]; done].
  rewrite trim_end_app by done.
  rewrite (proj2 (Z.leb_gt ks _)) by lia.
  assert (Hsv : exists d', spaces d' /\ skip_while isspace (c ++ v ++ d) = v ++ d').
  { rewrite skip_while_app by done. destruct v as [|x v].
    - exists (skip_while isspace d). split; [|done].
      destruct (skip_while_spec isspace d) as (p & Hp & _). rewrite Hp in Hd.
      now apply Forall_app in Hd.
    - exists d. split; [done|]. apply skip_while_id. exact Hv1. }
  destruct Hsv as (d' & Hd' & ->). rewrite trim_end_app by done.
  rewrite (proj2 (Z.leb_gt vs _)) by lia. now rewrite !take_app_length.
Qed.

(** The line parser succeeds exactly on lines of the form
    [key = value], with any white space around the two, a key without an equals
    sign and not starting a comment, and both fitting their buffers; it then
    returns the trimmed key and value. *)
Theorem parse_config_line_correct line k0 v0 ks vs k v :
  xsan_parse_config_line (Some line) k0 v0 ks vs = (true, k, v) <->
  config_line line k v /\ Zlen k < ks /\ Zlen v < vs.
Proof.
  split; [apply parse_config_line_sound|].
  intros (H1 & H2 & H3). now apply parse_config_line_complete.
Qed.
