(* ===== verification/MetadataStore.v ===== *)
(** * Metadata store ([src/src/metadata/xsan_metadata_store.c])

    The store wraps RocksDB, which is not part of the sources: the class
    [RocksDB] lists the calls the store makes with their documented behaviour
    (a successful write is visible, a write is atomic, iterators walk a snapshot in key
    order).  Nothing is promised about the effect of a write that fails: it may have
    reached the database or not.
    The class [MetaStore] states what the store promises to the volume manager;
    the instance [rocksdb_meta_store] discharges it.  Opening and closing are
    modelled with the trace of resources they acquire and release. *)

From stdpp Require Import prelude strings gmap sorting.
From Stdlib Require Import ZArith Lia Ascii Sorted.
From S2P Require Import Prelude Errors StringUtils.

(** ** The database *)

(** Order of keys: RocksDB's default bytewise comparator. *)
Fixpoint key_lt (a b : cstring) : bool :=
  match a, b with
  | _, [] => false
  | [], _ :: _ => true
  | c :: a', d :: b' =>
      if code c =? code d then key_lt a' b' else code c <? code d
  end.

(** The flag returned by each call is set when the call stores an error string. *)
Class RocksDB (Db : Type) := {
  db_view : Db -> gmap cstring cstring;
  rocksdb_put : Db -> cstring -> cstring -> Db * bool;
  rocksdb_get : Db -> cstring -> option cstring * bool;
  rocksdb_delete : Db -> cstring -> Db * bool;
  rocksdb_snapshot : Db -> list (cstring * cstring);
  rocksdb_put_ok : forall db k v db',
    rocksdb_put db k v = (db', false) -> db_view db' = <[k := v]> (db_view db);
  rocksdb_put_err : forall db k v db',
    rocksdb_put db k v = (db', true) ->
    db_view db' = db_view db \/ db_view db' = <[k := v]> (db_view db);
  rocksdb_get_ok : forall db k r, rocksdb_get db k = (r, false) -> r = db_view db !! k;
  rocksdb_delete_ok : forall db k db',
    rocksdb_delete db k = (db', false) -> db_view db' = delete k (db_view db);
  rocksdb_delete_err : forall db k db',
    rocksdb_delete db k = (db', true) ->
    db_view db' = db_view db \/ db_view db' = delete k (db_view db);
  rocksdb_snapshot_view : forall db, list_to_map (rocksdb_snapshot db) = db_view db;
  rocksdb_snapshot_sorted : forall db,
    StronglySorted (fun p q => key_lt p.1 q.1 = true) (rocksdb_snapshot db)
}.

(** ** Operations

    The store handle is [None] when the pointer, or its database handle, is
    null. *)

Section Store.
Context {Db : Type} `{!RocksDB Db}.

Definition xsan_metadata_store_put (store : option Db) (key value : option cstring) :
    option Db * xsan_error_t :=
  match store, key, value with
  | Some db, Some k, Some v =>
      if Zlen k =? 0 then (store, XSAN_ERROR_INVALID_PARAM) else
      let '(db', err) := rocksdb_put db k v in
      (Some db', if err then XSAN_ERROR_IO else XSAN_OK)
  | _, _, _ => (store, XSAN_ERROR_INVALID_PARAM)
  end.

(** The value is copied into a fresh buffer, NUL-terminated. *)
Definition xsan_metadata_store_get (alloc : Z -> bool) (store : option Db)
    (key : option cstring) : xsan_error_t * option cstring :=
  match store, key with
  | Some db, Some k =>
      if Zlen k =? 0 then (XSAN_ERROR_INVALID_PARAM, None) else
      let '(value, err) := rocksdb_get db k in
      if err then (XSAN_ERROR_IO, None) else
      match value with
      | None => (XSAN_ERROR_NOT_FOUND, None)
      | Some v =>
          if alloc (Zlen v + 1) then (XSAN_OK, Some v) else (XSAN_ERROR_NO_MEMORY, None)
      end
  | _, _ => (XSAN_ERROR_INVALID_PARAM, None)
  end.

Definition xsan_metadata_store_delete (store : option Db) (key : option cstring) :
    option Db * xsan_error_t :=
  match store, key with
  | Some db, Some k =>
      if Zlen k =? 0 then (store, XSAN_ERROR_INVALID_PARAM) else
      let '(db', err) := rocksdb_delete db k in
      (Some db', if err then XSAN_ERROR_IO else XSAN_OK)
  | _, _ => (store, XSAN_ERROR_INVALID_PARAM)
  end.

(** *** Iterators: the snapshot and what is left of it from the position on. *)

Record xsan_metadata_iterator := Iterator {
  it_snapshot : list (cstring * cstring);
  it_rest : list (cstring * cstring)
}.

Definition xsan_metadata_iterator_create (alloc_ok handle_ok : bool) (store : option Db) :
    option xsan_metadata_iterator :=
  match store with
  | None => None
  | Some db =>
      if negb alloc_ok then None else
      if negb handle_ok then None else
      Some (Iterator (rocksdb_snapshot db) [])
  end.

Definition xsan_metadata_iterator_seek_to_first (iter : xsan_metadata_iterator) :=
  Iterator (it_snapshot iter) (it_snapshot iter).

(** The first entry whose key is not before [key]. *)
Fixpoint seek_from (l : list (cstring * cstring)) (key : cstring) :=
  match l with
  | [] => []
  | (k, v) :: l' => if key_lt k key then seek_from l' key else l
  end.

Definition xsan_metadata_iterator_seek (iter : xsan_metadata_iterator)
    (seek_key : option cstring) :=
  match seek_key with
  | None => iter
  | Some k => Iterator (it_snapshot iter) (seek_from (it_snapshot iter) k)
  end.

Definition xsan_metadata_iterator_is_valid (iter : xsan_metadata_iterator) : bool :=
  match it_rest iter with [] => false | _ => true end.

Definition xsan_metadata_iterator_next (iter : xsan_metadata_iterator) :=
  if xsan_metadata_iterator_is_valid iter
  then Iterator (it_snapshot iter) (drop 1 (it_rest iter)) else iter.

Definition xsan_metadata_iterator_key (iter : xsan_metadata_iterator) : option cstring :=
  fst <$> head (it_rest iter).
Definition xsan_metadata_iterator_value (iter : xsan_metadata_iterator) : option cstring :=
  snd <$> head (it_rest iter).

End Store.

(** ** Opening and closing *)

Inductive resource :=
  | RStore | RDbOptions | RWriteOptions | RReadOptions | RDbHandle | RPathCopy | RErrString.

#[global] Instance resource_eq_dec : EqDecision resource.
Proof. solve_decision. Defined.

Inductive res_event := Acquire (r : resource) | Release (r : resource).

#[global] Instance res_event_eq_dec : EqDecision res_event.
Proof. solve_decision. Defined.

(** What each call of [xsan_metadata_store_open] returns. *)
Record open_env := OpenEnv {
  oe_malloc : bool;
  oe_db_options : bool;
  oe_write_options : bool;
  oe_read_options : bool;
  oe_open_error : bool;       (* [rocksdb_open] sets the error string *)
  oe_open_handle : bool;      (* [rocksdb_open] returns a handle *)
  oe_path_copy : bool
}.

Record store_handle := StoreHandle { sh_path_copy : bool }.

Definition xsan_metadata_store_open (env : open_env) (db_path : option cstring) :
    option store_handle * list res_event :=
  match db_path with
  | None => (None, [])
  | Some _ =>
      if negb (oe_malloc env) then (None, []) else
      let t := [Acquire RStore] in
      if negb (oe_db_options env) then (None, t ++ [Release RStore]) else
      let t := t ++ [Acquire RDbOptions] in
      if negb (oe_write_options env)
      then (None, t ++ [Release RDbOptions; Release RStore]) else
      let t := t ++ [Acquire RWriteOptions] in
      if negb (oe_read_options env)
      then (None, t ++ [Release RWriteOptions; Release RDbOptions; Release RStore]) else
      let t := t ++ [Acquire RReadOptions] in
      let cleanup :=
        [Release RReadOptions; Release RWriteOptions; Release RDbOptions; Release RStore] in
      if oe_open_error env
      then (None, t ++ [Acquire RErrString; Release RErrString] ++ cleanup) else
      if negb (oe_open_handle env) then (None, t ++ cleanup) else
      let t := t ++ [Acquire RDbHandle] in
      if oe_path_copy env
      then (Some (StoreHandle true), t ++ [Acquire RPathCopy])
      else (Some (StoreHandle false), t)
  end.

Definition xsan_metadata_store_close (store : option store_handle) : list res_event :=
  match store with
  | None => []
  | Some sh =>
      [Release RDbHandle; Release RReadOptions; Release RWriteOptions; Release RDbOptions] ++
      (if sh_path_copy sh then [Release RPathCopy] else []) ++ [Release RStore]
  end.

(** ** What the store promises to its clients *)

Class MetaStore (St : Type) := {
  ms_view : St -> gmap cstring cstring;
  ms_put : St -> cstring -> cstring -> St * xsan_error_t;
  ms_get : St -> cstring -> xsan_error_t * option cstring;
  ms_delete : St -> cstring -> St * xsan_error_t;
  ms_put_ok : forall s k v s',
    ms_put s k v = (s', XSAN_OK) -> ms_view s' = <[k := v]> (ms_view s);
  ms_put_err : forall s k v s' e,
    ms_put s k v = (s', e) -> e <> XSAN_OK ->
    ms_view s' = ms_view s \/ ms_view s' = <[k := v]> (ms_view s);
  ms_get_ok : forall s k r,
    ms_get s k = (XSAN_OK, r) -> r = ms_view s !! k /\ is_Some r;
  ms_get_none : forall s k e r,
    ms_get s k = (e, r) -> e <> XSAN_OK -> r = None;
  ms_get_missing : forall s k e r,
    k <> [] -> ms_get s k = (e, r) -> ms_view s !! k = None -> e <> XSAN_OK;
  ms_delete_ok : forall s k s',
    ms_delete s k = (s', XSAN_OK) -> ms_view s' = delete k (ms_view s);
  ms_delete_err : forall s k s' e,
    ms_delete s k = (s', e) -> e <> XSAN_OK ->
    ms_view s' = ms_view s \/ ms_view s' = delete k (ms_view s)
}.

(** * Theorems *)

Section Instances.
Context {Db : Type} `{!RocksDB Db}.

(** An open store over RocksDB keeps the promises of [MetaStore]. *)
#[export] Program Instance rocksdb_meta_store (alloc : Z -> bool) : MetaStore Db := {
  ms_view := db_view;
  ms_put db k v :=
    let r := xsan_metadata_store_put (Some db) (Some k) (Some v) in (default db r.1, r.2);
  ms_get db k := xsan_metadata_store_get alloc (Some db) (Some k);
  ms_delete db k :=
    let r := xsan_metadata_store_delete (Some db) (Some k) in (default db r.1, r.2)
}.
Next Obligation.
  intros alloc db k v db'; simpl. case_cmp; [done|].
  destruct (rocksdb_put db k v) as [db1 []] eqn:Hp; simpl; intros [= <-].
  now apply rocksdb_put_ok.
Qed.
Next Obligation.
  intros alloc db k v db' e; simpl. case_cmp; [intros [= <- <-]; now left|].
  destruct (rocksdb_put db k v) as [db1 []] eqn:Hp; simpl; intros [= <- <-]; [|done].
  intros _. exact (rocksdb_put_err _ _ _ _ Hp).
Qed.
Next Obligation.
  intros alloc db k r; simpl. case_cmp; [done|].
  destruct (rocksdb_get db k) as [value []] eqn:Hg; [done|].
  apply rocksdb_get_ok in Hg. destruct value as [v|]; [|done].
  destruct (alloc _); [|done]. intros [= <-]. eauto.
Qed.
Next Obligation.
  intros alloc db k e r; simpl. case_cmp; [now intros [= <- <-]|].
  destruct (rocksdb_get db k) as [value []]; [now intros [= <- <-]|].
  destruct value; [|now intros [= <- <-]].
  destruct (alloc _); intros [= <- <-]; done.
Qed.
Next Obligation.
  intros alloc db k e r Hk; simpl. case_cmp; [now intros [= <- <-]|].
  destruct (rocksdb_get db k) as [value []] eqn:Hg; [now intros [= <- <-]|].
  apply rocksdb_get_ok in Hg. intros Hr Hv. rewrite Hv in Hg. subst value.
  injection Hr as <- _. done.
Qed.
Next Obligation.
  intros alloc db k db'; simpl. case_cmp; [done|].
  destruct (rocksdb_delete db k) as [db1 []] eqn:Hp; simpl; intros [= <-].
  now apply rocksdb_delete_ok.
Qed.
Next Obligation.
  intros alloc db k db' e; simpl. case_cmp; [intros [= <- <-]; now left|].
  destruct (rocksdb_delete db k) as [db1 []] eqn:Hp; simpl; intros [= <- <-]; [|done].
  intros _. exact (rocksdb_delete_err _ _ _ Hp).
Qed.

End Instances.

(** ** Resources of open and close *)

(** The resources held after a trace; [None] when something is acquired twice or
    released without being held. *)
Definition hold (st : option (list resource)) (e : res_event) : option (list resource) :=
  match st with
  | None => None
  | Some held =>
      match e with
      | Acquire r => if decide (r ∈ held) then None else Some (r :: held)
      | Release r =>
          if decide (r ∈ held) then Some (filter (fun x => x <> r) held) else None
      end
  end.

Definition held (t : list res_event) : option (list resource) := fold_left hold t (Some []).

(** Opening the store releases everything it acquired on every failing path, and
    closing an opened store releases the rest. *)
Lemma open_close_balanced env path :
  match xsan_metadata_store_open env path with
  | (None, t) => held t = Some []
  | (Some h, t) => held (t ++ xsan_metadata_store_close (Some h)) = Some []
  end.
Proof.
  destruct path as [p|]; [|done].
  destruct env as [[] [] [] [] [] [] []]; vm_compute; reflexivity.
Qed.

(** ** Prefix scans *)

Lemma key_lt_prefix k p : starts k p = true -> key_lt k p = false.
Proof.
  revert k. induction p as [|d p IH]; intros k H; [now destruct k|].
  destruct k as [|c k]; simpl in *; [done|].
  apply andb_true_iff in H as [Hc H]. apply Ascii.eqb_eq in Hc as ->.
  rewrite Z.eqb_refl. now apply IH.
Qed.

Lemma key_lt_past k k' p :
  key_lt k k' = true -> key_lt k p = false -> starts k p = false -> starts k' p = false.
Proof.
  revert k k'. induction p as [|d p IH]; intros k k' Hlt Hge Hst; [now destruct k|].
  destruct k as [|c k]; [done|]. destruct k' as [|c' k']; [done|]. simpl in *.
  destruct (Z.eqb_spec (code c) (code c')) as [He|He].
  - apply code_inj in He as ->. destruct (Ascii.eqb_spec c' d) as [->|]; simpl in *; [|done].
    rewrite Z.eqb_refl in Hge. now apply (IH k).
  - destruct (Ascii.eqb_spec c' d) as [->|]; simpl; [|done]. exfalso.
    destruct (Z.eqb_spec (code c) (code d)); [done|].
    apply Z.ltb_lt in Hlt. apply Z.ltb_ge in Hge. lia.
Qed.

Lemma prefix_none_after (l : list (cstring * cstring)) k p :
  Forall (fun q => key_lt k q.1 = true) l -> key_lt k p = false -> starts k p = false ->
  filter (fun e => starts e.1 p = true) l = [].
Proof.
  intros Hl Hge Hst. induction Hl as [|q l Hq _ IH]; [done|].
  rewrite filter_cons_False; [done|].
  now rewrite (key_lt_past k q.1 p).
Qed.

(** The entries a client visits that seeks a prefix and walks until the first
    key without it. *)
Fixpoint take_prefix (p : cstring) (l : list (cstring * cstring)) :=
  match l with
  | e :: l' => if starts e.1 p then e :: take_prefix p l' else []
  | [] => []
  end.

Lemma take_prefix_sorted p l :
  StronglySorted (fun a b => key_lt a.1 b.1 = true) l ->
  Forall (fun e => key_lt e.1 p = false) l ->
  take_prefix p l = filter (fun e => starts e.1 p = true) l.
Proof.
  induction 1 as [|e l Hs IH He]; intros Hge; simpl; [done|].
  apply Forall_cons in Hge as [Hge Hges].
  destruct (starts e.1 p) eqn:Hst.
  - rewrite filter_cons_True by done. now rewrite IH.
  - rewrite filter_cons_False by now rewrite Hst. symmetry. now apply (prefix_none_after l e.1).
Qed.

Lemma key_lt_ge_trans k k' p :
  key_lt k p = false -> key_lt k k' = true -> key_lt k' p = false.
Proof.
  revert k k'. induction p as [|d p IH]; intros k k' Hge Hlt; [now destruct k'|].
  destruct k as [|c k]; [done|]. destruct k' as [|c' k']; [done|]. simpl in *.
  destruct (Z.eqb_spec (code c) (code c')), (Z.eqb_spec (code c) (code d)),
    (Z.eqb_spec (code c') (code d)); try lia;
    rewrite ?Z.ltb_lt, ?Z.ltb_ge in *; try lia.
  now apply (IH k).
Qed.

Lemma scan_prefix p l :
  StronglySorted (fun a b => key_lt a.1 b.1 = true) l ->
  take_prefix p (seek_from l p) = filter (fun e => starts e.1 p = true) l.
Proof.
  induction 1 as [|[k v] l Hs IH He]; simpl; [done|].
  destruct (key_lt k p) eqn:Hlt.
  - rewrite IH, filter_cons_False; [done|]. simpl. intros Hst.
    apply key_lt_prefix in Hst. congruence.
  - apply take_prefix_sorted; [now constructor|]. constructor; [done|].
    eapply Forall_impl; [exact He|]. simpl. intros q Hq.
    now apply (key_lt_ge_trans k).
Qed.

(** ** A database in memory

    The instance that the witnesses use: a finite map, and a flag that makes
    every write fail, as a full disk does; deletions succeed. *)

Definition key_le (p q : cstring * cstring) : Prop := key_lt q.1 p.1 = false.

#[global] Instance key_le_dec : RelDecision key_le.
Proof. intros p q. unfold key_le. apply _. Defined.

Lemma key_lt_trichotomy a b : key_lt a b = false -> key_lt b a = false -> a = b.
Proof.
  revert b. induction a as [|c a IH]; intros [|d b]; simpl; try done.
  destruct (Z.eqb_spec (code c) (code d)) as [He|He].
  - apply code_inj in He as ->. rewrite Z.eqb_refl. intros H1 H2. f_equal. now apply IH.
  - destruct (Z.eqb_spec (code d) (code c)); [congruence|]. rewrite !Z.ltb_ge. lia.
Qed.

Lemma key_lt_asym a b : key_lt a b = true -> key_lt b a = false.
Proof.
  revert b. induction a as [|c a IH]; intros [|d b]; simpl; try done.
  destruct (Z.eqb_spec (code c) (code d)) as [He|He].
  - rewrite He, Z.eqb_refl. apply IH.
  - destruct (Z.eqb_spec (code d) (code c)); [congruence|].
    rewrite Z.ltb_lt, Z.ltb_ge. lia.
Qed.

#[global] Instance key_le_total : Total key_le.
Proof.
  intros [a ?] [b ?]. unfold key_le; simpl.
  destruct (key_lt b a) eqn:H; [right; now apply key_lt_asym|now left].
Qed.

#[global] Instance key_le_trans : Transitive key_le.
Proof.
  intros [a va] [b vb] [c vc]. unfold key_le; simpl. intros Hba Hcb.
  destruct (key_lt c a) eqn:Hca; [|done].
  pose proof (key_lt_ge_trans c a b Hcb Hca) as Hab.
  rewrite (key_lt_trichotomy a b Hab Hba) in Hca. congruence.
Qed.

Lemma strictly_sorted l :
  NoDup l.*1 -> StronglySorted key_le l ->
  StronglySorted (fun p q => key_lt p.1 q.1 = true) l.
Proof.
  intros Hnd Hs. induction Hs as [|p l Hs IH Hp]; [constructor|].
  simpl in Hnd. apply NoDup_cons in Hnd as [Hin Hnd]. constructor; [now apply IH|].
  rewrite Forall_forall in *. intros q Hq. specialize (Hp q Hq). unfold key_le in Hp.
  destruct (key_lt p.1 q.1) eqn:H; [done|]. destruct Hin.
  rewrite (key_lt_trichotomy p.1 q.1 H Hp). now apply list_elem_of_fmap_2.
Qed.

Record mem_db := MemDb { md_map : gmap cstring cstring; md_full : bool }.

Definition mem_snapshot (db : mem_db) : list (cstring * cstring) :=
  merge_sort key_le (map_to_list (md_map db)).

Lemma mem_snapshot_perm db : mem_snapshot db ≡ₚ map_to_list (md_map db).
Proof. apply merge_sort_Permutation. Qed.

Lemma mem_snapshot_keys db : NoDup (mem_snapshot db).*1.
Proof. rewrite mem_snapshot_perm. apply NoDup_fst_map_to_list. Qed.

#[export] Program Instance mem_rocksdb : RocksDB mem_db := {
  db_view := md_map;
  rocksdb_put db k v :=
    if md_full db then (db, true) else (MemDb (<[k := v]> (md_map db)) false, false);
  rocksdb_get db k := (md_map db !! k, false);
  rocksdb_delete db k := (MemDb (delete k (md_map db)) (md_full db), false);
  rocksdb_snapshot := mem_snapshot
}.
Next Obligation. intros [m []] k v db'; simpl; intros [=]; now subst. Qed.
Next Obligation. intros [m []] k v db'; simpl; intros [=]; subst; now left. Qed.
Next Obligation. intros [m ro] k r; simpl. now intros [= <-]. Qed.
Next Obligation. intros [m full] k db'; simpl; intros [=]; now subst. Qed.
Next Obligation. intros [m full] k db'; simpl; intros [=]. Qed.
Next Obligation.
  intros db. rewrite (list_to_map_proper _ _ (mem_snapshot_keys db) (mem_snapshot_perm db)).
  apply list_to_map_to_list.
Qed.
Next Obligation.
  intros db. apply strictly_sorted; [apply mem_snapshot_keys|].
  apply StronglySorted_merge_sort; apply _.
Qed.

(** ** The store is a map whose writes may fail *)

(** A call of the store; any of its pointers may be null. *)
Inductive store_op :=
  | SPut (key value : option cstring)
  | SGet (key : option cstring)
  | SDelete (key : option cstring).

Definition store_op_key (op : store_op) : option cstring :=
  match op with SPut k _ | SGet k | SDelete k => k end.

(** The arguments that the calls accept: a store, a key that is not empty, and for a put a
    value. *)
Definition op_valid (store_set : bool) (op : store_op) : bool :=
  store_set && match op with SPut _ None => false | _ => true end &&
  match store_op_key op with Some (_ :: _) => true | _ => false end.

(** What one call may do to a map and may answer. *)
Inductive store_spec (store_set : bool) (m : gmap cstring cstring) :
    store_op -> gmap cstring cstring -> xsan_error_t * option cstring -> Prop :=
  | spec_invalid op : op_valid store_set op = false ->
      store_spec store_set m op m (XSAN_ERROR_INVALID_PARAM, None)
  | spec_put k v : op_valid store_set (SPut (Some k) (Some v)) = true ->
      store_spec store_set m (SPut (Some k) (Some v)) (<[k := v]> m) (XSAN_OK, None)
  | spec_put_fails k v m' : op_valid store_set (SPut (Some k) (Some v)) = true ->
      m' = m \/ m' = <[k := v]> m ->
      store_spec store_set m (SPut (Some k) (Some v)) m' (XSAN_ERROR_IO, None)
  | spec_delete k : op_valid store_set (SDelete (Some k)) = true ->
      store_spec store_set m (SDelete (Some k)) (delete k m) (XSAN_OK, None)
  | spec_delete_fails k m' : op_valid store_set (SDelete (Some k)) = true ->
      m' = m \/ m' = delete k m ->
      store_spec store_set m (SDelete (Some k)) m' (XSAN_ERROR_IO, None)
  | spec_get k v : op_valid store_set (SGet (Some k)) = true -> m !! k = Some v ->
      store_spec store_set m (SGet (Some k)) m (XSAN_OK, Some v)
  | spec_get_missing k : op_valid store_set (SGet (Some k)) = true -> m !! k = None ->
      store_spec store_set m (SGet (Some k)) m (XSAN_ERROR_NOT_FOUND, None)
  | spec_get_no_memory k v : op_valid store_set (SGet (Some k)) = true -> m !! k = Some v ->
      store_spec store_set m (SGet (Some k)) m (XSAN_ERROR_NO_MEMORY, None)
  | spec_get_fails k : op_valid store_set (SGet (Some k)) = true ->
      store_spec store_set m (SGet (Some k)) m (XSAN_ERROR_IO, None).

(** A sequence of calls and its answers. *)
Inductive store_trace (store_set : bool) (m : gmap cstring cstring) :
    list store_op -> gmap cstring cstring -> list (xsan_error_t * option cstring) -> Prop :=
  | trace_nil : store_trace store_set m [] m []
  | trace_cons op ops m1 m2 a answers :
      store_spec store_set m op m1 a -> store_trace store_set m1 ops m2 answers ->
      store_trace store_set m (op :: ops) m2 (a :: answers).

Section History.
Context {Db : Type} `{!RocksDB Db}.
Variable alloc : Z -> bool.

Definition store_step (store : option Db) (op : store_op) :
    option Db * (xsan_error_t * option cstring) :=
  match op with
  | SPut k v => let '(s, e) := xsan_metadata_store_put store k v in (s, (e, None))
  | SGet k => (store, xsan_metadata_store_get alloc store k)
  | SDelete k => let '(s, e) := xsan_metadata_store_delete store k in (s, (e, None))
  end.

Definition store_view (store : option Db) : gmap cstring cstring := from_option db_view ∅ store.

Lemma empty_key_length (k : cstring) : (Zlen k =? 0) = match k with [] => true | _ :: _ => false end.
Proof. destruct k; [done|]. rewrite Zlen_cons. apply Z.eqb_neq. pose proof (Zlen_nonneg k). lia. Qed.

Lemma store_step_null op : (store_step None op) = (None, (XSAN_ERROR_INVALID_PARAM, None)).
Proof. now destruct op as [[] []|[]|[]]. Qed.

Lemma store_step_spec (store : option Db) op :
  is_Some (store_step store op).1 <-> is_Some store.
Proof.
  destruct store as [db|]; [|now rewrite store_step_null].
  destruct op as [[k|] [v|]|k|[k|]]; cbn; try done; destruct (_ =? 0); try done.
  - destruct (rocksdb_put db k v). cbn. split; intros; eauto.
  - destruct (rocksdb_delete db k). cbn. split; intros; eauto.
Qed.

Lemma store_step_open db op :
  store_spec true (db_view db) op (store_view (store_step (Some db) op).1)
    (store_step (Some db) op).2.
Proof.
  destruct op as [[k|] [v|]|[k|]|[k|]]; cbn; try (apply spec_invalid; reflexivity); rewrite empty_key_length;
    destruct k as [|c k]; try (apply spec_invalid; reflexivity).
  - destruct (rocksdb_put db (c :: k) v) as [db' []] eqn:Hp; cbn.
    + apply rocksdb_put_err in Hp. now constructor.
    + apply rocksdb_put_ok in Hp as ->. now constructor.
  - destruct (rocksdb_get db (c :: k)) as [r []] eqn:Hg; cbn; [now constructor|].
    apply rocksdb_get_ok in Hg. destruct r as [v|]; [|now constructor].
    destruct (alloc _); [now constructor|]. now apply (spec_get_no_memory _ _ _ v).
  - destruct (rocksdb_delete db (c :: k)) as [db' []] eqn:Hp; cbn.
    + apply rocksdb_delete_err in Hp. now constructor.
    + apply rocksdb_delete_ok in Hp as ->. now constructor.
Qed.

End History.

Lemma filter_keys_NoDup (P : cstring * cstring -> Prop) `{forall e, Decision (P e)} l :
  NoDup l.*1 -> NoDup (filter P l).*1.
Proof.
  induction l as [|e l IH]; simpl; [done|]. intros Hnd.
  apply NoDup_cons in Hnd as [Hin Hnd]. rewrite filter_cons.
  destruct (decide (P e)); simpl; [|auto]. constructor; [|auto].
  intros Hin'. apply Hin. apply list_elem_of_fmap in Hin' as (q & -> & Hq).
  apply list_elem_of_filter in Hq as [_ Hq]. now apply list_elem_of_fmap_2.
Qed.

(** A client that seeks a prefix and walks the iterator while keys have it
    visits exactly the entries of the database whose key has the prefix, each
    once. *)
Theorem prefix_scan_complete {Db} `{!RocksDB Db} (db : Db) p iter :
  xsan_metadata_iterator_create true true (Some db) = Some iter ->
  let visited := take_prefix p (it_rest (xsan_metadata_iterator_seek iter (Some p))) in
  NoDup visited.*1 /\
  forall k v, (k, v) ∈ visited <-> db_view db !! k = Some v /\ starts k p = true.
Proof.
  intros [= <-]. simpl. rewrite scan_prefix by apply rocksdb_snapshot_sorted.
  assert (Hnd : NoDup (rocksdb_snapshot db).*1).
  { pose proof (rocksdb_snapshot_sorted db) as Hs. induction Hs as [|e l _ IH He];
      [constructor|]. simpl. constructor; [|done]. rewrite list_elem_of_fmap.
    intros (q & Hq & Hin). rewrite Forall_forall in He. specialize (He q Hin).
    rewrite Hq in He. pose proof (key_lt_asym _ _ He). congruence. }
  split.
  - now apply filter_keys_NoDup.
  - intros k v. rewrite list_elem_of_filter. simpl.
    rewrite <- rocksdb_snapshot_view, <- elem_of_list_to_map by done. tauto.
Qed.

Lemma prefix_scan_complete_witness :
  let db := MemDb (<[ $"v:1" := $"one" ]> (<[ $"w" := $"x" ]> ∅)) false in
  exists iter, xsan_metadata_iterator_create true true (Some db) = Some iter /\
    ($"v:1", $"one") ∈
      take_prefix $"v:" (it_rest (xsan_metadata_iterator_seek iter (Some $"v:"))).
Proof.
  eexists. split; [reflexivity|].
  apply (prefix_scan_complete (MemDb (<[ $"v:1" := $"one" ]> (<[ $"w" := $"x" ]> ∅)) false)
           $"v:" _ eq_refl). split; vm_compute; reflexivity.
Defined.

