(* ===== verification/Json.v ===== *)
(** * JSON values and the json-c interface

    The sources build and read JSON documents through json-c, which is not part
    of them.  Documents are values of [json]; the class [JsonC] lists the calls
    that depend on the library's text format or conversions, with their
    documented behaviour: parsing the text of a document gives the document
    back, and each accessor returns the value of a node of its own type, integer
    accessors saturating at the bounds of their result type. *)

From stdpp Require Import prelude strings countable.
From Stdlib Require Import ZArith Lia Ascii.
From Stdlib Require String.
From S2P Require Import Prelude StringUtils.

#[warnings="-register-all"]
Inductive json :=
  | JNull
  | JBool (b : bool)
  | JInt (z : Z)
  | JString (s : cstring)
  | JArray (l : list json)
  | JObject (fields : list (string * json)).

Definition obj_fields (j : json) : list (string * json) :=
  match j with JObject fs => fs | _ => [] end.

Fixpoint assoc_get (fs : list (string * json)) (k : string) : option json :=
  match fs with
  | [] => None
  | (k', v) :: fs' => if String.eqb k' k then Some v else assoc_get fs' k
  end.

(** [json_object_object_get_ex]. *)
Definition json_get (j : json) (k : string) : option json := assoc_get (obj_fields j) k.

(** [json_object_object_add] on a new key appends the member; the sources never
    add a key twice. *)
Definition json_add (j : json) (k : string) (v : json) : json :=
  JObject (obj_fields j ++ [(k, v)]).

Definition json_is_string (j : json) : bool := match j with JString _ => true | _ => false end.
Definition json_is_object (j : json) : bool := match j with JObject _ => true | _ => false end.

(** [json_object_new_int] and [json_object_new_int64]: the argument is converted
    to a signed integer of the width. *)
Definition json_new_int (z : Z) : json := JInt (swrap 32 z).
Definition json_new_int64 (z : Z) : json := JInt (swrap 64 z).

(** Documents that the sources can build: integers of 64 bits, C strings. *)
Fixpoint json_ok (j : json) : bool :=
  match j with
  | JNull | JBool _ => true
  | JInt z => (- 2 ^ 63 <=? z) && (z <? 2 ^ 63)
  | JString s => forallb (fun c => negb (code c =? 0)) s
  | JArray l => forallb json_ok l
  | JObject fs => forallb (fun f => json_ok f.2) fs
  end.

Definition clamp (lo hi z : Z) : Z := Z.max lo (Z.min hi z).

Class JsonC := {
  json_to_string : json -> cstring;
  json_tokener_parse : cstring -> option json;
  json_get_int : json -> Z;
  json_get_int64 : json -> Z;
  json_get_boolean : json -> bool;
  json_get_string : json -> cstring;
  json_parse_print : forall j, json_ok j = true ->
    json_tokener_parse (json_to_string j) = Some j;
  json_get_int_int : forall z, json_get_int (JInt z) = clamp (- 2 ^ 31) (2 ^ 31 - 1) z;
  json_get_int64_int : forall z, json_get_int64 (JInt z) = clamp (- 2 ^ 63) (2 ^ 63 - 1) z;
  json_get_boolean_bool : forall b, json_get_boolean (JBool b) = b;
  json_get_string_string : forall s, json_get_string (JString s) = s
}.

(** * Lemmas *)

Lemma swrap_range w z : 0 < w -> - 2 ^ (w - 1) <= swrap w z < 2 ^ (w - 1).
Proof.
  intros Hw. unfold swrap. pose proof (wrap_range w z ltac:(lia)) as [H1 H2].
  assert (2 ^ w = 2 * 2 ^ (w - 1)).
  { rewrite <- Z.pow_succ_r by lia. f_equal. lia. }
  case_cmp; lia.
Qed.

Lemma wrap_swrap w z : 0 < w -> wrap w (swrap w z) = wrap w z.
Proof.
  intros Hw. unfold swrap. destruct (_ <? _).
  - apply wrap_wrap. lia.
  - unfold wrap. rewrite Zminus_mod, Z_mod_same_full, Z.sub_0_r, !Zmod_mod. done.
Qed.

Section Accessors.
Context {JC : JsonC}.

(** An unsigned field written through [int] or [int64_t] is read back unchanged
    after the conversion to its own type. *)
Lemma get_new_int w z : in_u w z -> 0 <= w <= 32 ->
  wrap w (json_get_int (json_new_int z)) = z.
Proof.
  intros Hz Hw. unfold json_new_int. rewrite json_get_int_int.
  pose proof (swrap_range 32 z ltac:(lia)) as Hr. change (32 - 1) with 31 in Hr.
  unfold clamp. rewrite Z.min_r, Z.max_r by lia.
  assert (Hz32 : in_u 32 z).
  { destruct Hz as [H1 H2]. split; [done|]. eapply Z.lt_le_trans; [exact H2|].
    apply Z.pow_le_mono_r; lia. }
  unfold swrap. rewrite (wrap_small 32 z) by done. destruct (_ <? _).
  - now apply wrap_small.
  - unfold wrap. replace (2 ^ 32) with (2 ^ (32 - w) * 2 ^ w)
      by (rewrite <- Z.pow_add_r; [f_equal; lia|lia|lia]).
    rewrite <- Z.add_opp_r, <- Z.mul_opp_l, Z_mod_plus_full. now apply wrap_small.
Qed.

Lemma get_new_int64 z : in_u 64 z -> wrap 64 (json_get_int64 (json_new_int64 z)) = z.
Proof.
  intros Hz. unfold json_new_int64. rewrite json_get_int64_int.
  pose proof (swrap_range 64 z ltac:(lia)) as Hr. change (64 - 1) with 63 in Hr.
  unfold clamp. rewrite Z.min_r, Z.max_r, wrap_swrap by lia. now apply wrap_small.
Qed.

(** A small enumeration value survives without conversion. *)
Lemma get_new_int_small z : 0 <= z < 2 ^ 31 -> json_get_int (json_new_int z) = z.
Proof.
  intros Hz. unfold json_new_int. rewrite json_get_int_int. unfold swrap.
  rewrite wrap_small by (split; [lia|]; pow2s; lia).
  rewrite (proj2 (Z.ltb_lt _ _)) by (change (32 - 1) with 31; lia).
  unfold clamp. lia.
Qed.
End Accessors.

Lemma json_ok_int z : json_ok (json_new_int z) = true.
Proof.
  pose proof (swrap_range 32 z ltac:(lia)) as Hr. simpl. pow2s.
  change (2 ^ (32 - 1)) with (2147483648) in Hr.
  apply andb_true_iff. rewrite Z.leb_le, Z.ltb_lt. lia.
Qed.

Lemma json_ok_int64 z : json_ok (json_new_int64 z) = true.
Proof.
  pose proof (swrap_range 64 z ltac:(lia)) as Hr. simpl. pow2s.
  change (2 ^ (64 - 1)) with (9223372036854775808) in Hr.
  apply andb_true_iff. rewrite Z.leb_le, Z.ltb_lt. lia.
Qed.

Lemma json_ok_string s : no_nul s -> json_ok (JString s) = true.
Proof.
  intros Hs. simpl. apply forallb_forall. intros c Hc.
  apply negb_true_iff, Z.eqb_neq. intros H0.
  unfold no_nul in Hs. rewrite List.Forall_forall in Hs. apply (Hs c Hc).
  apply code_inj. now rewrite H0.
Qed.

Lemma json_ok_bool b : json_ok (JBool b) = true.
Proof. reflexivity. Qed.

#[export] Hint Resolve json_ok_int json_ok_int64 json_ok_string json_ok_bool : xsan.

Lemma json_ok_object fs :
  Forall (fun f => json_ok f.2 = true) fs -> json_ok (JObject fs) = true.
Proof.
  intros H. cbn [json_ok]. apply forallb_forall. intros f Hf.
  rewrite List.Forall_forall in H. now apply H.
Qed.

Lemma json_ok_array {A} (f : A -> json) (P : A -> Prop) l :
  (forall x, P x -> json_ok (f x) = true) -> Forall P l -> json_ok (JArray (map f l)) = true.
Proof.
  intros H Hl. cbn [json_ok]. induction Hl as [|x l Hx _ IH]; simpl; [done|].
  now rewrite H, IH.
Qed.

(** An object is well-formed when its members are. *)
Ltac json_ok_members :=
  apply json_ok_object; repeat apply Forall_cons_2; cbn [snd]; auto with xsan;
  try apply Forall_nil_2.

(** ** A concrete library for the witnesses: documents are encoded as strings of
    binary digits. *)

Fixpoint json_to_tree (j : json) : gen_tree (cstring + (bool + (Z + string))) :=
  match j with
  | JNull => GenNode 0 []
  | JBool b => GenLeaf (inr (inl b))
  | JInt z => GenLeaf (inr (inr (inl z)))
  | JString s => GenLeaf (inl s)
  | JArray l => GenNode 1 (map json_to_tree l)
  | JObject fs =>
      GenNode 2 (map (fun f => GenNode 3 [GenLeaf (inr (inr (inr f.1))); json_to_tree f.2]) fs)
  end.

Fixpoint tree_to_json (t : gen_tree (cstring + (bool + (Z + string)))) : json :=
  match t with
  | GenLeaf (inr (inl b)) => JBool b
  | GenLeaf (inr (inr (inl z))) => JInt z
  | GenLeaf (inl s) => JString s
  | GenNode 1 l => JArray (map tree_to_json l)
  | GenNode 2 l =>
      JObject (map (fun t => match t with
                             | GenNode 3 [GenLeaf (inr (inr (inr k))); v] => (k, tree_to_json v)
                             | _ => (EmptyString, JNull)
                             end) l)
  | _ => JNull
  end.

Lemma tree_to_json_to_tree : forall j, tree_to_json (json_to_tree j) = j.
Proof.
  fix IH 1. intros [| | | |l|fs]; simpl; try reflexivity; f_equal.
  - rewrite List.map_map. induction l as [|j l IHl]; simpl; [reflexivity|].
    now rewrite IH, IHl.
  - rewrite List.map_map. induction fs as [|[k j] fs IHl]; simpl; [reflexivity|].
    now rewrite IH, IHl.
Qed.

(** Binary digits of a positive number as a string, and back. *)
Fixpoint pos_to_bits (p : positive) : cstring :=
  match p with
  | xH => []
  | xO p => "0"%char :: pos_to_bits p
  | xI p => "1"%char :: pos_to_bits p
  end.

Fixpoint bits_to_pos (s : cstring) : positive :=
  match s with
  | [] => xH
  | c :: s => if Ascii.eqb c "1"%char then xI (bits_to_pos s) else xO (bits_to_pos s)
  end.

Lemma bits_to_pos_to_bits p : bits_to_pos (pos_to_bits p) = p.
Proof. induction p; simpl; now f_equal. Qed.

Definition toy_int (lo hi : Z) (j : json) : Z :=
  match j with JInt z => clamp lo hi z | _ => 0 end.
Definition toy_bool (j : json) : bool := match j with JBool b => b | _ => false end.
Definition toy_string (j : json) : cstring := match j with JString s => s | _ => [] end.

#[export] Instance toy_json : JsonC.
Proof.
  refine {|
    json_to_string j := pos_to_bits (encode (json_to_tree j));
    json_tokener_parse s := tree_to_json <$> decode (bits_to_pos s);
    json_get_int := toy_int (- 2 ^ 31) (2 ^ 31 - 1);
    json_get_int64 := toy_int (- 2 ^ 63) (2 ^ 63 - 1);
    json_get_boolean := toy_bool;
    json_get_string := toy_string |}; try reflexivity.
  intros j _. rewrite bits_to_pos_to_bits, decode_encode. cbn [fmap option_fmap option_map].
  now rewrite tree_to_json_to_tree.
Defined.
