(* ===== verification/VolumeMeta.v ===== *)
(** * Storage structures and their persistent form

    The volume, replica and extent structures of
    [src/src/include/xsan_storage.h] and the four JSON converters of
    [src/src/storage/volume_manager.c].  Structures are records, fixed-size C
    arrays are lists of that length, an identifier is the number its 16 bytes
    denote (the null identifier is 0).  The text form of identifiers belongs to
    SPDK and is the class [SpdkUuid]; a failed parse leaves the zeroed field. *)

From stdpp Require Import prelude strings countable.
From Stdlib Require Import ZArith Lia Ascii.
From Stdlib Require String.
From S2P Require Import Prelude Errors StringUtils Json.

Abbreviation uuid := Z (only parsing).

Definition uuid_is_null (u : uuid) : bool := u =? 0.

(** The characters of the text form: lower-case hexadecimal digits and dashes. *)
Definition is_uuid_char (c : ascii) : bool :=
  isdigit c || ((97 <=? code c) && (code c <=? 102)) || (code c =? 45).

Class SpdkUuid := {
  uuid_fmt : uuid -> cstring;
  uuid_parse : cstring -> option uuid;
  uuid_parse_fmt : forall u, in_u 128 u -> uuid_parse (uuid_fmt u) = Some u;
  uuid_parse_range : forall s u, uuid_parse s = Some u -> in_u 128 u;
  uuid_fmt_no_nul : forall u, no_nul (uuid_fmt u);
  uuid_fmt_chars : forall u, Forall (fun c => is_uuid_char c = true) (uuid_fmt u)
}.

(** ** Structures *)

Definition XSAN_STORAGE_STATE_UNKNOWN := 0.
Definition XSAN_STORAGE_STATE_INITIALIZING := 1.
Definition XSAN_STORAGE_STATE_ONLINE := 2.
Definition XSAN_STORAGE_STATE_OFFLINE := 3.
Definition XSAN_STORAGE_STATE_DEGRADED := 4.
Definition XSAN_STORAGE_STATE_FAILED := 5.
Definition XSAN_STORAGE_STATE_MISSING := 6.
Definition XSAN_STORAGE_STATE_REBUILDING := 7.
Definition XSAN_STORAGE_STATE_MAINTENANCE := 8.

Definition XSAN_MAX_REPLICAS := 3.
Definition XSAN_MAX_NAME_LEN := 256.
Definition INET6_ADDRSTRLEN := 46.
Definition XSAN_MAX_EXTENTS_PER_VOLUME := 8.

Record xsan_replica_location := ReplicaLocation {
  r_node_id : uuid;
  r_ip : cstring;
  r_port : Z;
  r_state : Z;
  r_contact : Z
}.

Record xsan_volume := Volume {
  v_id : uuid;
  v_name : cstring;
  v_size_bytes : Z;
  v_block_size : Z;
  v_num_blocks : Z;
  v_state : Z;
  v_group : uuid;
  v_thin : bool;
  v_allocated : Z;
  v_FTT : Z;
  v_replica_count : Z;
  v_replicas : list xsan_replica_location
}.

Record xsan_volume_extent_mapping := Extent {
  e_disk : uuid;
  e_start : Z;
  e_blocks : Z;
  e_vol_lba : Z
}.

Record xsan_volume_allocation_meta := AllocMeta {
  am_volume : uuid;
  am_group : uuid;
  am_num_extents : Z;
  am_extents : list xsan_volume_extent_mapping;
  am_total_blocks : Z;
  am_block_size : Z
}.

Definition replica0 : xsan_replica_location := ReplicaLocation 0 [] 0 0 0.
Definition extent0 : xsan_volume_extent_mapping := Extent 0 0 0 0.

(** An array of [n] elements whose first ones are [l]. *)
Definition array {A} (n : nat) (zero : A) (l : list A) : list A :=
  take n (l ++ replicate n zero).

(** ** Converters *)

Section Codec.
Context {JC : JsonC} {SU : SpdkUuid} {SC : StorageCodes}.

Definition extent_to_json (e : xsan_volume_extent_mapping) : json :=
  JObject [("disk_id"%string, JString (uuid_fmt (e_disk e)));
           ("start_block_on_disk"%string, json_new_int64 (e_start e));
           ("num_blocks_on_disk"%string, json_new_int64 (e_blocks e));
           ("volume_start_lba"%string, json_new_int64 (e_vol_lba e))].

Definition alloc_meta_to_json (m : xsan_volume_allocation_meta) : json :=
  JObject [("volume_id"%string, JString (uuid_fmt (am_volume m)));
           ("disk_group_id"%string, JString (uuid_fmt (am_group m)));
           ("num_extents"%string, json_new_int (am_num_extents m));
           ("total_volume_blocks_logical"%string, json_new_int64 (am_total_blocks m));
           ("volume_logical_block_size"%string, json_new_int (am_block_size m));
           ("extents"%string,
            JArray (map extent_to_json (take (Z.to_nat (am_num_extents m)) (am_extents m))))].

(** [dup_ok] is the outcome of [xsan_strdup]. *)
Definition volume_allocation_meta_to_json_string (dup_ok : bool)
    (m : xsan_volume_allocation_meta) : xsan_error_t * option cstring :=
  if dup_ok then (XSAN_OK, Some (json_to_string (alloc_meta_to_json m)))
  else (XSAN_ERROR_OUT_OF_MEMORY, None).

(** Reading one member into a zeroed field. *)
Definition get_uint (w : Z) (j : json) (k : string) : Z :=
  match json_get j k with Some v => wrap w (json_get_int v) | None => 0 end.
Definition get_u64 (j : json) (k : string) : Z :=
  match json_get j k with Some v => wrap 64 (json_get_int64 v) | None => 0 end.
Definition get_enum (dflt : Z) (j : json) (k : string) : Z :=
  match json_get j k with Some v => json_get_int v | None => dflt end.
Definition get_bool (j : json) (k : string) : bool :=
  match json_get j k with Some v => json_get_boolean v | None => false end.
Definition get_str (size : Z) (j : json) (k : string) : cstring :=
  match json_get j k with
  | Some v => take (Z.to_nat (size - 1)) (json_get_string v)
  | None => []
  end.
Definition get_uuid (j : json) (k : string) : uuid :=
  match json_get j k with
  | Some v => default 0 (uuid_parse (json_get_string v))
  | None => 0
  end.
(** The reader of allocation metadata also insists on a string. *)
Definition get_uuid_string (j : json) (k : string) : uuid :=
  match json_get j k with
  | Some v => if json_is_string v then default 0 (uuid_parse (json_get_string v)) else 0
  | None => 0
  end.

Definition json_to_extent (j : json) : xsan_volume_extent_mapping :=
  if json_is_object j then
    Extent (get_uuid j "disk_id") (get_u64 j "start_block_on_disk")
      (get_u64 j "num_blocks_on_disk") (get_u64 j "volume_start_lba")
  else extent0.

Definition json_to_alloc_meta (j : json) : xsan_volume_allocation_meta :=
  let num_extents := get_uint 32 j "num_extents" in
  let '(num_extents, extents) :=
    match json_get j "extents" with
    | Some (JArray l) =>
        let n := wrap 32 (Zlen l) in
        let n := if XSAN_MAX_EXTENTS_PER_VOLUME <? n
                 then XSAN_MAX_EXTENTS_PER_VOLUME else n in
        (n, array 8 extent0 (map json_to_extent (take (Z.to_nat n) l)))
    | _ => (num_extents, replicate 8 extent0)
    end in
  AllocMeta (get_uuid_string j "volume_id") (get_uuid_string j "disk_group_id")
    num_extents extents (get_u64 j "total_volume_blocks_logical")
    (get_uint 32 j "volume_logical_block_size").

Definition json_string_to_volume_allocation_meta (alloc_ok : bool) (s : option cstring) :
    xsan_error_t * option xsan_volume_allocation_meta :=
  match s with
  | None => (XSAN_ERROR_INVALID_PARAM, None)
  | Some s =>
      match json_tokener_parse s with
      | None => (XSAN_ERROR_CONFIG_PARSE, None)
      | Some j =>
          if alloc_ok then (XSAN_OK, Some (json_to_alloc_meta j))
          else (XSAN_ERROR_OUT_OF_MEMORY, None)
      end
  end.

Definition replica_to_json (r : xsan_replica_location) : json :=
  JObject [("node_id"%string, JString (uuid_fmt (r_node_id r)));
           ("node_ip_addr"%string, JString (r_ip r));
           ("node_comm_port"%string, json_new_int (r_port r));
           ("state"%string, json_new_int (r_state r));
           ("last_successful_contact_time_us"%string, json_new_int64 (r_contact r))].

Definition volume_to_json (vol : xsan_volume) : json :=
  JObject [("id"%string, JString (uuid_fmt (v_id vol)));
           ("name"%string, JString (v_name vol));
           ("size_bytes"%string, json_new_int64 (v_size_bytes vol));
           ("block_size_bytes"%string, json_new_int (v_block_size vol));
           ("num_blocks"%string, json_new_int64 (v_num_blocks vol));
           ("state"%string, json_new_int (v_state vol));
           ("source_group_id"%string, JString (uuid_fmt (v_group vol)));
           ("thin_provisioned"%string, JBool (v_thin vol));
           ("allocated_bytes"%string, json_new_int64 (v_allocated vol));
           ("FTT"%string, json_new_int (v_FTT vol));
           ("actual_replica_count"%string, json_new_int (v_replica_count vol));
           ("replica_nodes"%string,
            JArray (map replica_to_json
              (take (Z.to_nat (Z.min (v_replica_count vol) XSAN_MAX_REPLICAS))
                 (v_replicas vol))))].

Definition volume_to_json_string (dup_ok : bool) (vol : xsan_volume) :
    xsan_error_t * option cstring :=
  if dup_ok then (XSAN_OK, Some (json_to_string (volume_to_json vol)))
  else (XSAN_ERROR_OUT_OF_MEMORY, None).

Definition json_to_replica (j : json) : xsan_replica_location :=
  if json_is_object j then
    ReplicaLocation (get_uuid j "node_id") (get_str INET6_ADDRSTRLEN j "node_ip_addr")
      (get_uint 16 j "node_comm_port") (get_enum XSAN_STORAGE_STATE_UNKNOWN j "state")
      (get_u64 j "last_successful_contact_time_us")
  else replica0.

Definition json_to_volume (j : json) : xsan_volume :=
  let '(count, replicas) :=
    match json_get j "replica_nodes" with
    | Some (JArray l) =>
        let n := if XSAN_MAX_REPLICAS <? wrap 32 (Zlen l) then XSAN_MAX_REPLICAS
                 else wrap 32 (Zlen l) in
        (n, array 3 replica0 (map json_to_replica (take (Z.to_nat n) l)))
    | _ => (get_uint 32 j "actual_replica_count", replicate 3 replica0)
    end in
  Volume (get_uuid j "id") (get_str XSAN_MAX_NAME_LEN j "name") (get_u64 j "size_bytes")
    (get_uint 32 j "block_size_bytes") (get_u64 j "num_blocks")
    (get_enum XSAN_STORAGE_STATE_OFFLINE j "state") (get_uuid j "source_group_id")
    (get_bool j "thin_provisioned") (get_u64 j "allocated_bytes") (get_uint 32 j "FTT")
    count replicas.

Definition json_string_to_volume (alloc_ok : bool) (s : option cstring) :
    xsan_error_t * option xsan_volume :=
  match s with
  | None => (XSAN_ERROR_INVALID_PARAM, None)
  | Some s =>
      match json_tokener_parse s with
      | None => (XSAN_ERROR_CONFIG_PARSE, None)
      | Some j =>
          if alloc_ok then (XSAN_OK, Some (json_to_volume j))
          else (XSAN_ERROR_OUT_OF_MEMORY, None)
      end
  end.

End Codec.

(** ** Well-formed structures: every field within its type, names and addresses
    terminated inside their buffers, unused array elements zero. *)

Definition replica_wf (r : xsan_replica_location) : Prop :=
  in_u 128 (r_node_id r) /\ no_nul (r_ip r) /\ Zlen (r_ip r) < INET6_ADDRSTRLEN /\
  in_u 16 (r_port r) /\ 0 <= r_state r < 2 ^ 31 /\ in_u 64 (r_contact r).

Record volume_wf (vol : xsan_volume) : Prop := {
  wf_id : in_u 128 (v_id vol);
  wf_name : no_nul (v_name vol) /\ Zlen (v_name vol) < XSAN_MAX_NAME_LEN;
  wf_size : in_u 64 (v_size_bytes vol);
  wf_block_size : in_u 32 (v_block_size vol);
  wf_num_blocks : in_u 64 (v_num_blocks vol);
  wf_state : 0 <= v_state vol < 2 ^ 31;
  wf_group : in_u 128 (v_group vol);
  wf_allocated : in_u 64 (v_allocated vol);
  wf_FTT : in_u 32 (v_FTT vol);
  wf_replicas : exists l, v_replica_count vol = Zlen l /\ Zlen l <= XSAN_MAX_REPLICAS /\
    v_replicas vol = array 3 replica0 l /\ Forall replica_wf l
}.

Definition extent_wf (e : xsan_volume_extent_mapping) : Prop :=
  in_u 128 (e_disk e) /\ in_u 64 (e_start e) /\ in_u 64 (e_blocks e) /\ in_u 64 (e_vol_lba e).

Record alloc_meta_wf (m : xsan_volume_allocation_meta) : Prop := {
  am_wf_volume : in_u 128 (am_volume m);
  am_wf_group : in_u 128 (am_group m);
  am_wf_total : in_u 64 (am_total_blocks m);
  am_wf_block_size : in_u 32 (am_block_size m);
  am_wf_extents : exists l, am_num_extents m = Zlen l /\
    Zlen l <= XSAN_MAX_EXTENTS_PER_VOLUME /\
    am_extents m = array 8 extent0 l /\ Forall extent_wf l
}.

(** * Theorems *)

Lemma array_length {A} n (zero : A) l : length (array n zero l) = n.
Proof. unfold array. rewrite length_take, length_app, length_replicate. lia. Qed.

Lemma take_array {A} n (zero : A) l :
  (length l <= n)%nat -> take (length l) (array n zero l) = l.
Proof.
  intros H. unfold array. rewrite take_take, Nat.min_l by lia. apply take_app_length.
Qed.

Lemma map_id_on {A B} (f : A -> B) (g : B -> A) (P : A -> Prop) l :
  (forall x, P x -> g (f x) = x) -> Forall P l -> map g (map f l) = l.
Proof.
  intros H Hl. rewrite List.map_map. induction Hl as [|x l Hx _ IH]; simpl; [done|].
  now rewrite H, IH.
Qed.

#[export] Hint Resolve uuid_fmt_no_nul : xsan.

Section Codec.
Context {JC : JsonC} {SU : SpdkUuid} {SC : StorageCodes}.

(** Every member reads back what was written under its key. *)
Lemma uuid_member u : in_u 128 u ->
  default 0 (uuid_parse (json_get_string (JString (uuid_fmt u)))) = u.
Proof. intros Hu. now rewrite json_get_string_string, uuid_parse_fmt. Qed.

Lemma str_member n s : Zlen s < n -> take (Z.to_nat (n - 1)) (json_get_string (JString s)) = s.
Proof.
  intros Hs. rewrite json_get_string_string. apply take_ge. unfold Zlen in Hs. lia.
Qed.

Ltac read_members :=
  unfold get_uuid, get_uuid_string, get_str, get_uint, get_u64, get_enum, get_bool;
  cbn [json_get obj_fields assoc_get String.eqb Ascii.eqb Bool.eqb
       json_is_object json_is_string];
  rewrite ?uuid_member, ?str_member, ?get_new_int, ?get_new_int64, ?get_new_int_small,
    ?json_get_boolean_bool by (done || lia).

Lemma json_to_extent_to_json e : extent_wf e -> json_to_extent (extent_to_json e) = e.
Proof.
  intros (H1 & H2 & H3 & H4). unfold json_to_extent, extent_to_json. read_members.
  now destruct e.
Qed.

Lemma extent_json_ok e : json_ok (extent_to_json e) = true.
Proof.
  unfold extent_to_json. json_ok_members.
Qed.

Lemma json_to_replica_to_json r : replica_wf r -> json_to_replica (replica_to_json r) = r.
Proof.
  intros (H1 & H2 & H3 & H4 & H5 & H6). unfold json_to_replica, replica_to_json.
  read_members. now destruct r.
Qed.

Lemma replica_json_ok r : replica_wf r -> json_ok (replica_to_json r) = true.
Proof.
  intros (H1 & H2 & H3 & H4 & H5 & H6).
  unfold replica_to_json. json_ok_members.
Qed.

Lemma alloc_meta_json_ok m : json_ok (alloc_meta_to_json m) = true.
Proof.
  unfold alloc_meta_to_json. json_ok_members.
  apply (json_ok_array _ (fun _ => True)); [intros; apply extent_json_ok|].
  now apply Forall_true.
Qed.

Lemma volume_json_ok vol : volume_wf vol -> json_ok (volume_to_json vol) = true.
Proof.
  intros Hwf. destruct (wf_name _ Hwf) as [Hn _].
  destruct (wf_replicas _ Hwf) as (l & _ & _ & Hl & Hall).
  unfold volume_to_json. json_ok_members.
  apply (json_ok_array _ replica_wf); [apply replica_json_ok|].
  rewrite Hl. apply Forall_take. unfold array. apply Forall_take, Forall_app. split; [done|].
  apply Forall_replicate. unfold replica_wf, replica0, INET6_ADDRSTRLEN, no_nul, in_u; simpl.
  pow2s. repeat split; try constructor; lia || done.
Qed.

Lemma json_to_alloc_meta_to_json m :
  alloc_meta_wf m -> json_to_alloc_meta (alloc_meta_to_json m) = m.
Proof.
  intros [H1 H2 H3 H4 (l & Hn & Hmax & Hl & Hall)].
  unfold json_to_alloc_meta, alloc_meta_to_json. read_members.
  unfold XSAN_MAX_EXTENTS_PER_VOLUME, Zlen in *. rewrite Hn, Hl, Nat2Z.id.
  rewrite take_array by lia. rewrite length_map.
  rewrite wrap_small by (unfold in_u; pow2s; lia).
  rewrite (proj2 (Z.ltb_ge 8 _)) by lia. rewrite Nat2Z.id, take_ge by now rewrite length_map.
  rewrite (map_id_on extent_to_json json_to_extent extent_wf)
    by (done || apply json_to_extent_to_json).
  destruct m; simpl in *; now subst.
Qed.

Lemma json_to_volume_to_json vol :
  volume_wf vol -> json_to_volume (volume_to_json vol) = vol.
Proof.
  intros [H1 [H2 H3] H4 H5 H6 H7 H8 H9 H10 (l & Hn & Hmax & Hl & Hall)].
  unfold json_to_volume, volume_to_json. read_members.
  unfold XSAN_MAX_REPLICAS, Zlen in *. rewrite Hn, Hl, Z.min_l, Nat2Z.id by lia.
  rewrite take_array by lia. rewrite length_map.
  rewrite wrap_small by (unfold in_u; pow2s; lia).
  rewrite (proj2 (Z.ltb_ge 3 _)) by lia. rewrite Nat2Z.id, take_ge by now rewrite length_map.
  rewrite (map_id_on replica_to_json json_to_replica replica_wf)
    by (done || apply json_to_replica_to_json).
  destruct vol; simpl in *; now subst.
Qed.
End Codec.

(** C16: volume records and allocation maps survive being written to the
    metadata store and read back: the text produced for a well-formed structure
    parses to exactly that structure, 64-bit sizes stored through signed JSON
    integers included. *)
Theorem metadata_round_trip {JC : JsonC} {SU : SpdkUuid} {SC : StorageCodes} vol meta :
  volume_wf vol -> alloc_meta_wf meta ->
  json_string_to_volume true (volume_to_json_string true vol).2 = (XSAN_OK, Some vol) /\
  json_string_to_volume_allocation_meta true
    (volume_allocation_meta_to_json_string true meta).2 = (XSAN_OK, Some meta).
Proof.
  intros Hvol Hmeta. unfold json_string_to_volume, json_string_to_volume_allocation_meta.
  simpl. rewrite !json_parse_print by (apply alloc_meta_json_ok || now apply volume_json_ok).
  now rewrite json_to_volume_to_json, json_to_alloc_meta_to_json.
Qed.

(** A document with an [extents] (or [replica_nodes]) array is read with a
    count that its fixed-size array can hold.  Without the array the stored
    count is taken as it is, however large. *)
Theorem loaded_counts {JC : JsonC} {SU : SpdkUuid} :
  (forall j l, json_get j "extents" = Some (JArray l) ->
     0 <= am_num_extents (json_to_alloc_meta j) <= XSAN_MAX_EXTENTS_PER_VOLUME) /\
  (forall j l, json_get j "replica_nodes" = Some (JArray l) ->
     0 <= v_replica_count (json_to_volume j) <= XSAN_MAX_REPLICAS) /\
  (forall n, 0 <= n < 2 ^ 31 ->
     am_num_extents (json_to_alloc_meta (JObject [("num_extents"%string, JInt n)])) = n /\
     v_replica_count
       (json_to_volume (JObject [("actual_replica_count"%string, JInt n)])) = n).
Proof.
  split_and!.
  - intros j l Hj. unfold json_to_alloc_meta. rewrite Hj. simpl.
    pose proof (wrap_range 32 (Zlen l) ltac:(lia)) as [? ?].
    unfold XSAN_MAX_EXTENTS_PER_VOLUME. case_cmp; lia.
  - intros j l Hj. unfold json_to_volume. rewrite Hj. simpl.
    pose proof (wrap_range 32 (Zlen l) ltac:(lia)) as [? ?].
    unfold XSAN_MAX_REPLICAS. case_cmp; lia.
  - intros n Hn. unfold json_to_alloc_meta, json_to_volume, get_uint. simpl.
    rewrite json_get_int_int. unfold clamp.
    rewrite Z.min_r, Z.max_r, wrap_small by (unfold in_u; pow2s; lia). done.
Qed.

(** ** An identifier format for the witnesses *)

Lemma pos_to_bits_no_nul p : no_nul (pos_to_bits p).
Proof. induction p; simpl; constructor; done. Qed.

#[export] Instance toy_uuid : SpdkUuid.
Proof.
  refine {|
    uuid_fmt u := pos_to_bits (encode u);
    uuid_parse s :=
      u ← decode (bits_to_pos s); if (0 <=? u) && (u <? 2 ^ 128) then Some u else None |}.
  - intros u [H1 H2]. rewrite bits_to_pos_to_bits, decode_encode. simpl.
    now rewrite (proj2 (Z.leb_le _ _) H1), (proj2 (Z.ltb_lt _ _) H2).
  - intros s u H. apply bind_Some in H as (u' & _ & H).
    destruct (Z.leb_spec 0 u'), (Z.ltb_spec u' (2 ^ 128)); simpl in H; try done.
    injection H as <-. done.
  - intros u. apply pos_to_bits_no_nul.
  - intros u. generalize (encode u). intros q. induction q; simpl; repeat constructor; done.
Defined.

Definition sample_volume : xsan_volume :=
  Volume 7 $"data" (2 ^ 63 + 4096) 4096 (2 ^ 51 + 1) XSAN_STORAGE_STATE_DEGRADED 9 false 0 1 1
    (array 3 replica0
       [ReplicaLocation 5 $"10.0.0.1" 8080 XSAN_STORAGE_STATE_ONLINE 1234]).

Definition sample_meta : xsan_volume_allocation_meta :=
  AllocMeta 7 9 1 (array 8 extent0 [Extent 3 0 (2 ^ 63) 0]) (2 ^ 51 + 1) 4096.

Lemma sample_volume_wf : volume_wf sample_volume.
Proof.
  constructor; try (split; vm_compute; congruence).
  - split; [repeat constructor; vm_compute; congruence|reflexivity].
  - exists [ReplicaLocation 5 $"10.0.0.1" 8080 XSAN_STORAGE_STATE_ONLINE 1234].
    split_and!; [reflexivity|vm_compute; congruence|reflexivity|].
    repeat constructor; vm_compute; congruence.
Qed.

Lemma sample_meta_wf : alloc_meta_wf sample_meta.
Proof.
  constructor; try (split; vm_compute; congruence).
  exists [Extent 3 0 (2 ^ 63) 0].
  split_and!; [reflexivity|vm_compute; congruence|reflexivity|].
  repeat constructor; vm_compute; congruence.
Qed.

Lemma metadata_round_trip_witness :
  json_string_to_volume true (volume_to_json_string true sample_volume).2 =
    (XSAN_OK, Some sample_volume).
Proof. apply (metadata_round_trip _ _ sample_volume_wf sample_meta_wf). Defined.
