(* ===== verification/Cluster.v ===== *)
(** * Cluster membership ([src/src/cluster/xsan_cluster.c])

    The module's static state is a record, the node configuration it reads is an
    argument, and every entry point is a function on the state.  The statements
    that copy the configured seed nodes (lines 81-111 of the source) stand after
    the closing brace of [xsan_cluster_init], outside any function; they are
    modelled as [load_seed_nodes] but are not part of [xsan_cluster_init]. *)

From stdpp Require Import prelude strings.
From Stdlib Require Import ZArith Lia Ascii.
From S2P Require Import Prelude Errors StringUtils VolumeMeta.

(** ** State and configuration *)

Record xsan_node := Node {
  n_id : uuid;
  n_storage_ip : cstring;
  n_storage_port : Z
}.

Record node_config := NodeConfig {
  nc_node_id : cstring;
  nc_bind_address : cstring;
  nc_port : Z
}.

Record cluster_config := ClusterConfig {
  cc_name : cstring;
  cc_seeds : list xsan_node
}.

Record cluster := Cluster {
  g_known_nodes : list xsan_node;
  g_cluster_initialized : bool
}.

Definition cluster0 : cluster := Cluster [] false.

Definition XSAN_MAX_SEED_NODES := 16.

Section Cluster.
Context {SU : SpdkUuid} {SC : StorageCodes}.

(** [loaded] tells whether the global configuration exists.  The result is the
    code and, when it was reached, the contents of the three outputs. *)
Definition xsan_get_local_node_info (loaded : bool) (cfg : node_config) (ip_buf_len : Z) :
    xsan_error_t * option (uuid * cstring * Z) :=
  if ip_buf_len =? 0 then (XSAN_ERROR_INVALID_PARAM, None) else
  if negb loaded || (Zlen (nc_node_id cfg) =? 0) then (XSAN_ERROR_NOT_INITIALIZED, None) else
  match uuid_parse (nc_node_id cfg) with
  | None => (XSAN_ERROR_CONFIG_PARSE, None)
  | Some id =>
      let ip := take (Z.to_nat (ip_buf_len - 1)) (nc_bind_address cfg) in
      if Zlen ip =? 0 then (XSAN_ERROR_CONFIG_INVALID, Some (id, ip, nc_port cfg))
      else (XSAN_OK, Some (id, ip, nc_port cfg))
  end.

Definition xsan_cluster_init (loaded : bool) (cfg : cluster_config) (c : cluster) :
    cluster * xsan_error_t :=
  if g_cluster_initialized c then (c, XSAN_OK) else
  if negb loaded || (Zlen (cc_name cfg) =? 0) then (c, XSAN_ERROR_NOT_INITIALIZED) else
  (Cluster (g_known_nodes c) true, XSAN_OK).

Definition seed_valid (n : xsan_node) : bool :=
  negb (uuid_is_null (n_id n)) &&
  negb ((Zlen (n_storage_ip n) =? 0) || (n_storage_port n =? 0)).

(** The orphaned copy loop. *)
Definition load_seed_nodes (cfg : cluster_config) : cluster * xsan_error_t :=
  (Cluster (filter (fun n => seed_valid n = true)
              (take (Z.to_nat XSAN_MAX_SEED_NODES) (cc_seeds cfg))) true, XSAN_OK).

Definition xsan_cluster_shutdown (c : cluster) : cluster :=
  if g_cluster_initialized c then Cluster [] false else c.

Definition xsan_cluster_get_all_known_nodes (alloc_ok : bool) (c : cluster) :
    xsan_error_t * list xsan_node :=
  if negb (g_cluster_initialized c) then (XSAN_ERROR_NOT_INITIALIZED, []) else
  match g_known_nodes c with
  | [] => (XSAN_OK, [])
  | nodes => if alloc_ok then (XSAN_OK, nodes) else (XSAN_ERROR_OUT_OF_MEMORY, [])
  end.

Definition xsan_cluster_get_node_by_id (c : cluster) (node_id : uuid) :
    xsan_error_t * option xsan_node :=
  if uuid_is_null node_id then (XSAN_ERROR_INVALID_PARAM, None) else
  if negb (g_cluster_initialized c) then (XSAN_ERROR_NOT_INITIALIZED, None) else
  match List.find (fun n => n_id n =? node_id) (g_known_nodes c) with
  | Some n => (XSAN_OK, Some n)
  | None => (XSAN_ERROR_NOT_FOUND, None)
  end.

Definition xsan_cluster_get_node := xsan_cluster_get_node_by_id.

Definition xsan_cluster_get_master (loaded : bool) (cfg : node_config) :
    xsan_error_t * option uuid :=
  let '(e, out) := xsan_get_local_node_info loaded cfg INET6_ADDRSTRLEN in
  (e, (fun o => o.1.1) <$> out).

(** The operations that are announced and not there: they change nothing, and return a
    constant. *)
Definition xsan_cluster_join_node (node_info : option xsan_node) (c : cluster) : cluster * xsan_error_t :=
  (c, XSAN_ERROR_NOT_IMPLEMENTED).
Definition xsan_cluster_remove_node (node_id : uuid) (force : bool) (c : cluster) : cluster * xsan_error_t :=
  (c, XSAN_ERROR_NOT_IMPLEMENTED).
Definition xsan_cluster_get_info : xsan_error_t := XSAN_ERROR_NOT_IMPLEMENTED.
Definition xsan_cluster_update_node_state (node_id : uuid) (new_state : Z) (c : cluster) :
    cluster * xsan_error_t := (c, XSAN_ERROR_NOT_IMPLEMENTED).
Definition xsan_cluster_health_check : xsan_error_t := XSAN_OK.
Definition xsan_cluster_start_heartbeat (interval_seconds : Z) : xsan_error_t := XSAN_OK.
Definition xsan_cluster_register_events : xsan_error_t := XSAN_OK.
Definition xsan_cluster_elect_master : xsan_error_t := XSAN_ERROR_NOT_IMPLEMENTED.
Definition xsan_cluster_is_master : bool := true.

(** ** The module as a machine *)

Inductive cluster_op :=
  | CInit (loaded : bool) (cfg : cluster_config)
  | CShutdown
  | CGetAll (alloc_ok : bool)
  | CGetNode (id : uuid).

Definition cluster_step (c : cluster) (op : cluster_op) : cluster * xsan_error_t :=
  match op with
  | CInit loaded cfg => xsan_cluster_init loaded cfg c
  | CShutdown => (xsan_cluster_shutdown c, XSAN_OK)
  | CGetAll ok => (c, (xsan_cluster_get_all_known_nodes ok c).1)
  | CGetNode id => (c, (xsan_cluster_get_node_by_id c id).1)
  end.

(** * Theorems *)

(** The local node's address is never empty when the call succeeds, and fits the
    caller's buffer. *)
Lemma local_node_info_ok loaded cfg len id ip port :
  0 <= len ->
  xsan_get_local_node_info loaded cfg len = (XSAN_OK, Some (id, ip, port)) ->
  loaded = true /\ uuid_parse (nc_node_id cfg) = Some id /\
  0 < Zlen ip < len /\ port = nc_port cfg.
Proof.
  intros Hl. unfold xsan_get_local_node_info.
  destruct (Z.eqb_spec len 0); [done|].
  destruct loaded; simpl; [|done]. destruct (_ =? 0); [done|].
  destruct (uuid_parse _) as [u|]; [|done].
  destruct (Z.eqb_spec (Zlen (take (Z.to_nat (len - 1)) (nc_bind_address cfg))) 0) as [|Hne];
    [done|]. intros [= <- <- <-]. pose proof (Zlen_nonneg (take (Z.to_nat (len - 1))
      (nc_bind_address cfg))). split_and!; try done; [lia|].
  unfold Zlen. rewrite length_take. lia.
Qed.

Lemma master_is_local cfg id :
  xsan_cluster_get_master true cfg = (XSAN_OK, Some id) -> uuid_parse (nc_node_id cfg) = Some id.
Proof.
  unfold xsan_cluster_get_master. destruct (xsan_get_local_node_info _ _ _) as [e [[[id' ip] port]|]] eqn:H;
    cbn; intros [= -> <-]. now apply local_node_info_ok in H as (_ & ? & _).
Qed.

(** Every configured node takes itself for the master: two nodes with different
    identifiers disagree. *)
Theorem two_masters cfg1 cfg2 id1 id2 :
  xsan_cluster_get_master true cfg1 = (XSAN_OK, Some id1) ->
  xsan_cluster_get_master true cfg2 = (XSAN_OK, Some id2) ->
  uuid_parse (nc_node_id cfg1) <> uuid_parse (nc_node_id cfg2) -> id1 <> id2.
Proof. intros H1%master_is_local H2%master_is_local Hne ->. congruence. Qed.

Lemma cluster_step_known c op :
  g_known_nodes c = [] -> g_known_nodes (cluster_step c op).1 = [].
Proof.
  intros Hc. destruct op as [loaded cfg| | |]; simpl; try done.
  - unfold xsan_cluster_init. destruct (g_cluster_initialized c); [done|].
    now destruct (_ || _).
  - unfold xsan_cluster_shutdown. now destruct (g_cluster_initialized c).
Qed.

Lemma known_nodes_empty ops : g_known_nodes (run cluster_step cluster0 ops).1 = [].
Proof. now apply run_invariant; [apply cluster_step_known|]. Qed.

(** No sequence of calls makes the cluster know a node: whatever seeds are
    configured, the node list is always empty and every lookup of a valid
    identifier in an initialised cluster answers that it is not found. *)
Theorem cluster_knows_no_node ops id :
  let c := (run cluster_step cluster0 ops).1 in
  (forall ok, (xsan_cluster_get_all_known_nodes ok c).2 = []) /\
  (g_cluster_initialized c = true -> id <> 0 ->
   xsan_cluster_get_node_by_id c id = (XSAN_ERROR_NOT_FOUND, None)).
Proof.
  intros c. assert (Hc : g_known_nodes c = []) by apply known_nodes_empty. split.
  - intros ok. unfold xsan_cluster_get_all_known_nodes. rewrite Hc.
    now destruct (g_cluster_initialized c).
  - intros Hi Hid. unfold xsan_cluster_get_node_by_id, uuid_is_null.
    rewrite (proj2 (Z.eqb_neq id 0) Hid), Hi, Hc. done.
Qed.

(** The orphaned loop, by contrast, would have kept exactly the valid seeds. *)
Lemma load_seed_nodes_keeps cfg n :
  Zlen (cc_seeds cfg) <= XSAN_MAX_SEED_NODES ->
  n ∈ g_known_nodes (load_seed_nodes cfg).1 <-> n ∈ cc_seeds cfg /\ seed_valid n = true.
Proof.
  intros Hlen. simpl. unfold Zlen in Hlen. rewrite take_ge by lia.
  rewrite list_elem_of_filter. tauto.
Qed.

End Cluster.
