(* ===== verification/Volume.v ===== *)
(** * Volume manager: life cycle of volumes
    ([src/src/storage/volume_manager.c])

    The manager's state: the managed volumes in list order, the metadata store
    (through the interface [MetaStore]), the disk manager, the manager's
    non-recursive lock and the log of the space calls made to the disk manager.
    The disk manager's functions are declared in
    [src/src/include/xsan_disk_manager.h] but defined nowhere in the sources;
    they are the class [DiskManager].  Taking the lock while it is held never
    returns: such a call is [None].  The keys are shorter than the buffers they
    are printed into. *)

From stdpp Require Import prelude strings gmap.
From Stdlib Require Import ZArith Lia Ascii.
From S2P Require Import Prelude Errors StringUtils Json VolumeMeta MetadataStore Cluster.

(** ** The disk manager *)

Record xsan_disk := Disk {
  d_id : uuid;
  d_bdev_name : cstring;
  d_block_size : Z;
  d_descriptor : bool      (* the bdev descriptor is not null *)
}.

Record xsan_disk_group := DiskGroup {
  dg_id : uuid;
  dg_state : Z;
  dg_disks : list uuid
}.

(** Extents are structures of the declared field types. *)
Class DiskManager (DM : Type) := {
  find_disk_group_by_id : DM -> uuid -> option xsan_disk_group;
  find_disk_by_id : DM -> uuid -> option xsan_disk;
  disk_group_allocate_extents : DM -> uuid -> Z -> Z ->
    DM * xsan_error_t * option (list xsan_volume_extent_mapping);
  disk_group_free_extents : DM -> uuid -> list xsan_volume_extent_mapping ->
    DM * xsan_error_t;
  allocated_extents_wf : forall dm g n bs dm' es,
    disk_group_allocate_extents dm g n bs = (dm', XSAN_OK, Some es) -> Forall extent_wf es
}.

Inductive dm_call :=
  | DmAllocate (g : uuid) (es : list xsan_volume_extent_mapping)
  | DmFree (g : uuid) (es : list xsan_volume_extent_mapping).

Section Manager.
Context {JC : JsonC} {SU : SpdkUuid} {SC : StorageCodes}.
Context {St : Type} {MS : MetaStore St} {DM : Type} {DK : DiskManager DM}.

Record xsan_volume_manager := Vm {
  vm_volumes : list xsan_volume;
  vm_dm : DM;
  vm_store : St;
  vm_locked : bool;
  vm_calls : list dm_call
}.

Definition set_volumes m l := Vm l (vm_dm m) (vm_store m) (vm_locked m) (vm_calls m).
Definition set_store m s := Vm (vm_volumes m) (vm_dm m) s (vm_locked m) (vm_calls m).
Definition set_locked m b := Vm (vm_volumes m) (vm_dm m) (vm_store m) b (vm_calls m).

Definition lock (m : xsan_volume_manager) : option xsan_volume_manager :=
  if vm_locked m then None else Some (set_locked m true).
Definition unlock (m : xsan_volume_manager) : xsan_volume_manager := set_locked m false.

(** Calls to the disk manager, recorded. *)
Definition dm_allocate (m : xsan_volume_manager) (g : uuid) (n bs : Z) :
    xsan_volume_manager * xsan_error_t * option (list xsan_volume_extent_mapping) :=
  let '(dm', e, out) := disk_group_allocate_extents (vm_dm m) g n bs in
  (Vm (vm_volumes m) dm' (vm_store m) (vm_locked m)
     (vm_calls m ++ if e =? XSAN_OK then [DmAllocate g (default [] out)] else []), e, out).

Definition dm_free (m : xsan_volume_manager) (g : uuid)
    (es : list xsan_volume_extent_mapping) : xsan_volume_manager :=
  let '(dm', _) := disk_group_free_extents (vm_dm m) g es in
  Vm (vm_volumes m) dm' (vm_store m) (vm_locked m) (vm_calls m ++ [DmFree g es]).

(** ** Persistence *)

Definition volume_key (id : uuid) : cstring := $"v:" ++ uuid_fmt id.
Definition alloc_key (id : uuid) : cstring := $"volalloc:" ++ uuid_fmt id.

Definition save_volume_meta (dup_ok : bool) (m : xsan_volume_manager) (vol : xsan_volume) :
    xsan_volume_manager * xsan_error_t :=
  match volume_to_json_string dup_ok vol with
  | (e, Some js) =>
      if e =? XSAN_OK then
        let '(s, e) := ms_put (vm_store m) (volume_key (v_id vol)) js in (set_store m s, e)
      else (m, e)
  | (e, None) => (m, e)
  end.

Definition delete_volume_meta (m : xsan_volume_manager) (id : uuid) :
    xsan_volume_manager * xsan_error_t :=
  if uuid_is_null id then (m, XSAN_ERROR_INVALID_PARAM) else
  let '(s, e) := ms_delete (vm_store m) (volume_key id) in
  (set_store m s,
   if negb (e =? XSAN_OK) && negb (e =? XSAN_ERROR_NOT_FOUND) then e
   else if e =? XSAN_ERROR_NOT_FOUND then XSAN_OK else e).

(** Deleting a key whose result the caller ignores. *)
Definition store_delete (m : xsan_volume_manager) (k : cstring) : xsan_volume_manager :=
  set_store m (ms_delete (vm_store m) k).1.

(** ** State of a volume *)

Definition replica_online (r : xsan_replica_location) : bool :=
  r_state r =? XSAN_STORAGE_STATE_ONLINE.

(** The replicas online among the first [actual_replica_count] of the array; a
    larger count, which would be read past the array, is excluded by the theorem. *)
Definition online_replicas (vol : xsan_volume) : Z :=
  Zlen (filter (fun r => replica_online r = true)
          (take (Z.to_nat (v_replica_count vol)) (v_replicas vol))).

Definition required_online (vol : xsan_volume) : Z :=
  let required := wrap 32 (v_FTT vol + 1) in
  if (v_replica_count vol <? required) && (0 <? v_replica_count vol)
  then v_replica_count vol else required.

Definition overall_state (vol : xsan_volume) : Z :=
  if required_online vol <=? online_replicas vol then XSAN_STORAGE_STATE_ONLINE
  else if 0 <? online_replicas vol then XSAN_STORAGE_STATE_DEGRADED
  else XSAN_STORAGE_STATE_OFFLINE.

Definition with_state (vol : xsan_volume) (st : Z) : xsan_volume :=
  Volume (v_id vol) (v_name vol) (v_size_bytes vol) (v_block_size vol) (v_num_blocks vol) st
    (v_group vol) (v_thin vol) (v_allocated vol) (v_FTT vol) (v_replica_count vol)
    (v_replicas vol).

(** The volume is the one at position [i] of the list. *)
Definition volume_update_overall_state (dup_ok : bool) (m : xsan_volume_manager) (i : nat) :
    option xsan_volume_manager :=
  match vm_volumes m !! i with
  | None => Some m
  | Some vol =>
      m ← lock m;
      let vol' := with_state vol (overall_state vol) in
      let m := unlock (set_volumes m (<[i := vol']> (vm_volumes m))) in
      if v_state vol' =? v_state vol then Some m
      else Some (save_volume_meta dup_ok m vol').1
  end.

(** ** Loading *)

(** The loop over the entries with the volume prefix; [tail k] is what follows
    the value of key [k] in memory up to the next NUL, the value itself not
    being terminated. *)
Fixpoint load_entries (alloc_ok append_ok dup_ok : cstring -> bool)
    (tail : cstring -> cstring) (m : xsan_volume_manager)
    (entries : list (cstring * cstring)) : option xsan_volume_manager :=
  match entries with
  | [] => Some m
  | (k, v) :: entries =>
      match json_string_to_volume (alloc_ok k) (Some (v ++ tail k)) with
      | (e, Some vol) =>
          if (e =? XSAN_OK) && append_ok k then
            let m := set_volumes m (vm_volumes m ++ [vol]) in
            m ← volume_update_overall_state (dup_ok k) m (length (vm_volumes m) - 1);
            load_entries alloc_ok append_ok dup_ok tail m entries
          else load_entries alloc_ok append_ok dup_ok tail m entries
      | (_, None) => load_entries alloc_ok append_ok dup_ok tail m entries
      end
  end.

Definition load_metadata (alloc_ok append_ok dup_ok : cstring -> bool)
    (tail : cstring -> cstring) (initialized : bool) (iter : option xsan_metadata_iterator)
    (m : xsan_volume_manager) : option (xsan_volume_manager * xsan_error_t) :=
  if negb initialized then Some (m, XSAN_ERROR_INVALID_PARAM) else
  m ← lock m;
  match iter with
  | None => Some (unlock m, XSAN_ERROR_STORAGE_GENERIC)
  | Some iter =>
      let entries := it_rest (xsan_metadata_iterator_seek iter (Some $"v:")) in
      m ← load_entries alloc_ok append_ok dup_ok tail m (take_prefix $"v:" entries);
      Some (unlock m, XSAN_OK)
  end.

(** ** Creation *)

(** The outcomes of the allocations of [xsan_volume_create], the fresh
    identifier, the clock, and the configuration and cluster state it reads. *)
Record create_env := CreateEnv {
  ce_new_volume : bool;
  ce_alloc_meta : bool;
  ce_alloc_json : bool;
  ce_volume_json : bool;
  ce_append : bool;
  ce_nodes_array : bool;
  ce_new_id : uuid;
  ce_now : Z;
  ce_config_loaded : bool;
  ce_node_config : node_config;
  ce_cluster : cluster
}.

(** The volume before replica placement. *)
Definition new_volume (env : create_env) (name : cstring) (size_bytes : Z) (group_id : uuid)
    (lbs : Z) (thin : bool) (ftt : Z) : xsan_volume :=
  let num_blocks := wrap 64 (wrap 64 (size_bytes + lbs) - 1) / lbs in
  let count := wrap 32 (ftt + 1) in
  let '(count, ftt) :=
    if XSAN_MAX_REPLICAS <? count then (XSAN_MAX_REPLICAS, XSAN_MAX_REPLICAS - 1)
    else (count, ftt) in
  Volume (ce_new_id env) (take (Z.to_nat (XSAN_MAX_NAME_LEN - 1)) name)
    (wrap 64 (num_blocks * lbs)) lbs num_blocks 0 group_id thin 0 ftt count
    (replicate 3 replica0).

(** The loop that gives remote nodes a replica; [assigned] are the replicas
    placed so far after the local one. *)
Fixpoint assign_remotes (nodes : list xsan_node) (local_id : uuid) (ftt : Z)
    (assigned : list xsan_replica_location) : list xsan_replica_location :=
  match nodes with
  | [] => assigned
  | n :: nodes =>
      if Zlen assigned <? ftt then
        if negb (n_id n =? local_id) && (Zlen assigned + 1 <? XSAN_MAX_REPLICAS) then
          assign_remotes nodes local_id ftt
            (assigned ++ [ReplicaLocation (n_id n)
               (take (Z.to_nat (INET6_ADDRSTRLEN - 1)) (n_storage_ip n)) (n_storage_port n)
               XSAN_STORAGE_STATE_INITIALIZING 0])
        else assign_remotes nodes local_id ftt assigned
      else assigned
  end.

Definition with_replicas (vol : xsan_volume) (ftt count : Z)
    (l : list xsan_replica_location) : xsan_volume :=
  Volume (v_id vol) (v_name vol) (v_size_bytes vol) (v_block_size vol) (v_num_blocks vol)
    (v_state vol) (v_group vol) (v_thin vol) (v_allocated vol) ftt count
    (array 3 replica0 l).

Definition place_replicas (env : create_env) (vol : xsan_volume) (local_id : uuid)
    (ip : cstring) (port : Z) : xsan_volume :=
  let r0 := ReplicaLocation local_id (take (Z.to_nat (INET6_ADDRSTRLEN - 1)) ip) port
              XSAN_STORAGE_STATE_ONLINE (ce_now env) in
  if 1 <? v_replica_count vol then
    let '(e, nodes) := xsan_cluster_get_all_known_nodes (ce_nodes_array env) (ce_cluster env) in
    if negb (e =? XSAN_OK) then with_replicas vol 0 1 [r0] else
    let remotes := assign_remotes nodes local_id (v_FTT vol) [] in
    if Zlen remotes <? v_FTT vol
    then with_replicas vol (Zlen remotes) (Zlen remotes + 1) (r0 :: remotes)
    else with_replicas vol (v_FTT vol) (v_replica_count vol) (r0 :: remotes)
  else with_replicas vol (v_FTT vol) (v_replica_count vol) [r0].

Definition initial_state (vol : xsan_volume) : Z :=
  let online :=
    if default 0 (r_state <$> v_replicas vol !! 0%nat) =? XSAN_STORAGE_STATE_ONLINE
    then 1 else 0 in
  if (v_replica_count vol =? 1) && (online =? 1) then XSAN_STORAGE_STATE_ONLINE
  else if wrap 32 (v_FTT vol + 1) <=? online then XSAN_STORAGE_STATE_ONLINE
  else if 0 <? online then XSAN_STORAGE_STATE_DEGRADED
  else XSAN_STORAGE_STATE_OFFLINE.

Definition with_allocated (vol : xsan_volume) (n : Z) : xsan_volume :=
  Volume (v_id vol) (v_name vol) (v_size_bytes vol) (v_block_size vol) (v_num_blocks vol)
    (v_state vol) (v_group vol) (v_thin vol) n (v_FTT vol) (v_replica_count vol)
    (v_replicas vol).

(** The label [cleanup_alloc_meta_extents_new_volume_unlock].  The source also
    jumps to a label that it does not define when the allocation metadata cannot
    be allocated; that path is given this label's code. *)
Definition cleanup_extents (m : xsan_volume_manager) (group_id : uuid)
    (meta : option xsan_volume_allocation_meta)
    (allocated : option (list xsan_volume_extent_mapping)) : xsan_volume_manager :=
  match meta with
  | Some am =>
      if 0 <? am_num_extents am
      then dm_free m group_id (take (Z.to_nat (am_num_extents am)) (am_extents am))
      else match allocated with
           | Some (e :: es) => dm_free m group_id (e :: es)
           | _ => m
           end
  | None =>
      match allocated with
      | Some (e :: es) => dm_free m group_id (e :: es)
      | _ => m
      end
  end.

Definition meta_of (vol : xsan_volume) (group_id : uuid)
    (es : list xsan_volume_extent_mapping) : xsan_volume_allocation_meta :=
  AllocMeta (v_id vol) group_id (Zlen es) (array 8 extent0 es) (v_num_blocks vol)
    (v_block_size vol).

(** From the allocation of the metadata structure on: persist, append, or undo. *)
Definition create_commit (env : create_env) (m : xsan_volume_manager) (vol : xsan_volume)
    (group_id : uuid) (allocated : option (list xsan_volume_extent_mapping)) :
    xsan_volume_manager * xsan_error_t :=
  if negb (ce_alloc_meta env)
  then (cleanup_extents m group_id None allocated, XSAN_ERROR_OUT_OF_MEMORY) else
  let es := default [] allocated in
  if XSAN_MAX_EXTENTS_PER_VOLUME <? Zlen es
  then (cleanup_extents m group_id (Some (meta_of vol group_id [])) allocated,
        XSAN_ERROR_TOO_MANY_EXTENTS) else
  let meta := meta_of vol group_id es in
  match volume_allocation_meta_to_json_string (ce_alloc_json env) meta with
  | (e, None) => (cleanup_extents m group_id (Some meta) allocated, e)
  | (_, Some js) =>
      let '(s, e) := ms_put (vm_store m) (alloc_key (v_id vol)) js in
      let m := set_store m s in
      if negb (e =? XSAN_OK) then (cleanup_extents m group_id (Some meta) allocated, e) else
      let vol := with_state vol (initial_state vol) in
      let '(m, e) := save_volume_meta (ce_volume_json env) m vol in
      if negb (e =? XSAN_OK)
      then (cleanup_extents (store_delete m (alloc_key (v_id vol))) group_id (Some meta)
              allocated, e) else
      if negb (ce_append env)
      then (cleanup_extents
              (delete_volume_meta (store_delete m (alloc_key (v_id vol))) (v_id vol)).1
              group_id (Some meta) allocated, XSAN_ERROR_OUT_OF_MEMORY) else
      (set_volumes m (vm_volumes m ++ [vol]), XSAN_OK)
  end.

(** The test for an existing volume of the same name. *)
Definition name_exists (vols : list xsan_volume) (name : cstring) : bool :=
  existsb (fun v => strncmp_eq (Z.to_nat XSAN_MAX_NAME_LEN) (v_name v) name) vols.

(** The body of [xsan_volume_create] between lock and unlock. *)
Definition create_locked (env : create_env) (m : xsan_volume_manager) (name : cstring)
    (size_bytes : Z) (group_id : uuid) (lbs : Z) (thin : bool) (ftt : Z) :
    xsan_volume_manager * xsan_error_t :=
  if name_exists (vm_volumes m) name then (m, XSAN_ERROR_ALREADY_EXISTS) else
  match find_disk_group_by_id (vm_dm m) group_id with
  | None => (m, XSAN_ERROR_NOT_FOUND)
  | Some dg =>
      if negb (dg_state dg =? XSAN_STORAGE_STATE_ONLINE)
      then (m, XSAN_ERROR_RESOURCE_UNAVAILABLE) else
      if negb (ce_new_volume env) then (m, XSAN_ERROR_OUT_OF_MEMORY) else
      let vol := new_volume env name size_bytes group_id lbs thin ftt in
      match xsan_get_local_node_info (ce_config_loaded env) (ce_node_config env)
              INET6_ADDRSTRLEN with
      | (e, Some (local_id, ip, port)) =>
          if negb (e =? XSAN_OK) then (m, e) else
          let vol := place_replicas env vol local_id ip port in
          if thin then create_commit env m vol group_id None else
          let '(m, e, out) :=
            dm_allocate m group_id (v_num_blocks vol) (v_block_size vol) in
          if negb (e =? XSAN_OK) then (m, e) else
          match out with
          | None | Some [] => (m, XSAN_ERROR_INTERNAL)
          | Some es =>
              create_commit env m (with_allocated vol (v_size_bytes vol)) group_id (Some es)
          end
      | (e, None) => (m, e)
      end
  end.

Definition xsan_volume_create (env : create_env) (initialized : bool)
    (m : xsan_volume_manager) (name : option cstring) (size_bytes : Z) (group_id : uuid)
    (lbs : Z) (thin : bool) (ftt : Z) :
    option (xsan_volume_manager * xsan_error_t * option uuid) :=
  match name with
  | None => Some (m, XSAN_ERROR_INVALID_PARAM, None)
  | Some name =>
      if negb initialized || (size_bytes =? 0) || uuid_is_null group_id ||
         (negb (lbs =? 512) && negb (lbs =? 4096)) || (XSAN_MAX_REPLICAS <=? ftt)
      then Some (m, XSAN_ERROR_INVALID_PARAM, None) else
      m ← lock m;
      let '(m, e) := create_locked env m name size_bytes group_id lbs thin ftt in
      Some (unlock m, e, if e =? XSAN_OK then Some (ce_new_id env) else None)
  end.

(** ** Deletion *)

(** The allocation map read for the volume, when it can be; [alloc_ok] is the
    outcome of allocating the structure. *)
Definition read_alloc_meta (alloc_ok : bool) (m : xsan_volume_manager) (id : uuid) :
    option xsan_volume_allocation_meta :=
  match ms_get (vm_store m) (alloc_key id) with
  | (e, Some js) =>
      if e =? XSAN_OK then (json_string_to_volume_allocation_meta alloc_ok (Some js)).2
      else None
  | (_, None) => None
  end.

(** The call that frees the extents gets the array and the stored count.  A count
    past the array is possible for a document without an extent array
    ([loaded_counts]); what the disk manager then reads is not modelled, and the
    theorem on deletion excludes it. *)
Definition delete_locked (alloc_ok : bool) (m : xsan_volume_manager) (id : uuid) :
    xsan_volume_manager * xsan_error_t :=
  match list_find (fun v => v_id v = id) (vm_volumes m) with
  | None => (m, XSAN_ERROR_NOT_FOUND)
  | Some (i, _) =>
      let m :=
        match read_alloc_meta alloc_ok m id with
        | Some am =>
            if 0 <? am_num_extents am
            then dm_free m (am_group am)
                   (take (Z.to_nat (am_num_extents am)) (am_extents am))
            else m
        | None => m
        end in
      let m := store_delete m (alloc_key id) in
      let m := (delete_volume_meta m id).1 in
      (set_volumes m (delete i (vm_volumes m)), XSAN_OK)
  end.

Definition xsan_volume_delete (alloc_ok initialized : bool) (m : xsan_volume_manager)
    (id : uuid) : option (xsan_volume_manager * xsan_error_t) :=
  if negb initialized || uuid_is_null id then Some (m, XSAN_ERROR_INVALID_PARAM) else
  m ← lock m;
  let '(m, e) := delete_locked alloc_ok m id in
  Some (unlock m, e).

End Manager.

Arguments xsan_volume_manager St DM : clear implicits.

(** * Theorems *)

Lemma delete_middle_snoc {A} (l : list A) x : delete (length l) (l ++ [x]) = l.
Proof. induction l as [|y l IH]; simpl; [done|]. now f_equal. Qed.

Section Theorems.
Context {JC : JsonC} {SU : SpdkUuid} {SC : StorageCodes}.
Context {St : Type} {MS : MetaStore St} {DM : Type} {DK : DiskManager DM}.

Implicit Types (m : xsan_volume_manager St DM) (vol : xsan_volume).

Definition view m : gmap cstring cstring := ms_view (vm_store m).

(** Conditions on the store that some results need: deletions succeed; a write that is
    reported as failed has not happened; reads of stored keys succeed. *)
Definition deletes_succeed : Prop :=
  forall (s : St) k, k <> [] -> (ms_delete s k).2 = XSAN_OK.
Definition failed_puts_undone : Prop := forall (s : St) k v s' e,
  ms_put s k v = (s', e) -> e <> XSAN_OK -> ms_view s' = ms_view s.
Definition gets_succeed : Prop := forall (s : St) k v,
  k <> [] -> ms_view s !! k = Some v -> ms_get s k = (XSAN_OK, Some v).

(** ** The state of a volume *)

Lemma online_replicas_bounds vol :
  0 <= v_replica_count vol -> 0 <= online_replicas vol <= v_replica_count vol.
Proof.
  intros Hc. unfold online_replicas, Zlen.
  match goal with |- context [filter ?P ?l] => pose proof (length_filter P l) end.
  rewrite length_take in *. lia.
Qed.

Lemma required_online_bounds vol :
  0 < v_replica_count vol -> 0 <= v_FTT vol < 2 ^ 32 - 1 ->
  1 <= required_online vol <= v_replica_count vol /\
  required_online vol = Z.min (v_FTT vol + 1) (v_replica_count vol).
Proof.
  intros Hc Hf. unfold required_online.
  rewrite wrap_small by (unfold in_u; pow2s; lia).
  destruct (Z.ltb_spec (v_replica_count vol) (v_FTT vol + 1)),
    (Z.ltb_spec 0 (v_replica_count vol)); simpl; lia.
Qed.

(** ** Undoing *)

Lemma cleanup_extents_spec m g am allocated vol :
  let es := default [] allocated in
  am = None \/ am = Some (meta_of vol g []) \/
    (am = Some (meta_of vol g es) /\ Zlen es <= XSAN_MAX_EXTENTS_PER_VOLUME) ->
  let m' := cleanup_extents m g am allocated in
  vm_volumes m' = vm_volumes m /\ vm_locked m' = vm_locked m /\
  vm_store m' = vm_store m /\
  vm_calls m' = vm_calls m ++ (if decide (es = []) then [] else [DmFree g es]).
Proof.
  intros es Ham m'.
  assert (Hfree : forall es', let mf := dm_free m g es' in
    vm_volumes mf = vm_volumes m /\ vm_locked mf = vm_locked m /\
    vm_store mf = vm_store m /\ vm_calls mf = vm_calls m ++ [DmFree g es']).
  { intros es'. unfold dm_free. now destruct (disk_group_free_extents _ _ _). }
  assert (Hnone : es = [] -> m' = m ->
    vm_volumes m' = vm_volumes m /\ vm_locked m' = vm_locked m /\
    vm_store m' = vm_store m /\
    vm_calls m' = vm_calls m ++ (if decide (es = []) then [] else [DmFree g es])).
  { intros He ->. rewrite decide_True, app_nil_r by done. done. }
  subst m'. unfold es in *. destruct Ham as [->|[->|[-> Hlen]]]; simpl in *.
  - destruct allocated as [[|e l]|]; [now apply Hnone| |now apply Hnone].
    rewrite decide_False by done. apply Hfree.
  - destruct allocated as [[|e l]|]; [now apply Hnone| |now apply Hnone].
    rewrite decide_False by done. apply Hfree.
  - destruct allocated as [[|e l]|]; [now apply Hnone| |now apply Hnone].
    cbn [default from_option id] in *. rewrite decide_False by done.
    assert (Hp : 0 < Zlen (e :: l)) by (rewrite Zlen_cons; pose proof (Zlen_nonneg l); lia).
    rewrite (proj2 (Z.ltb_lt _ _) Hp). unfold Zlen, XSAN_MAX_EXTENTS_PER_VOLUME in *.
    rewrite Nat2Z.id, take_array by lia. apply Hfree.
Qed.

Lemma volume_key_nonempty id : volume_key id <> [].
Proof. done. Qed.
Lemma alloc_key_nonempty id : alloc_key id <> [].
Proof. done. Qed.

Lemma key_neq id : alloc_key id <> volume_key id.
Proof. unfold alloc_key, volume_key. simpl. intros [=]. Qed.

(** Stores that differ only in the records of one volume. *)
Definition differ_at (id : uuid) (v v' : gmap cstring cstring) : Prop :=
  forall k, k <> volume_key id -> k <> alloc_key id -> v' !! k = v !! k.

Definition key_of (id : uuid) (k : cstring) : Prop := k = volume_key id \/ k = alloc_key id.

Lemma differ_at_refl id v : differ_at id v v.
Proof. done. Qed.

Lemma differ_at_insert id v v' k x : key_of id k -> differ_at id v v' -> differ_at id v (<[k := x]> v').
Proof. intros Hk Hd k' H1 H2. rewrite lookup_insert_ne; [now apply Hd|]. destruct Hk; congruence. Qed.

Lemma differ_at_delete id v v' k : key_of id k -> differ_at id v v' -> differ_at id v (delete k v').
Proof. intros Hk Hd k' H1 H2. rewrite lookup_delete_ne; [now apply Hd|]. destruct Hk; congruence. Qed.

Lemma put_differ id v (st st' : St) k x e :
  key_of id k -> ms_put st k x = (st', e) -> differ_at id v (ms_view st) -> differ_at id v (ms_view st').
Proof.
  intros Hk Hp Hd. destruct (decide (e = XSAN_OK)) as [->|He].
  - rewrite (ms_put_ok _ _ _ _ Hp). now apply differ_at_insert.
  - destruct (ms_put_err _ _ _ _ _ Hp He) as [-> | ->]; [done|now apply differ_at_insert].
Qed.

Lemma delete_differ id v (st : St) k :
  key_of id k -> differ_at id v (ms_view st) -> differ_at id v (ms_view (ms_delete st k).1).
Proof.
  intros Hk Hd. destruct (ms_delete st k) as [st' e] eqn:Hp. cbn. destruct (decide (e = XSAN_OK)) as [->|He].
  - rewrite (ms_delete_ok _ _ _ Hp). now apply differ_at_delete.
  - destruct (ms_delete_err _ _ _ _ Hp He) as [-> | ->]; [done|now apply differ_at_delete].
Qed.

(** A saved record: after a failure it may be in the store or not. *)
Lemma save_volume_meta_spec dup m vol :
  let '(m', e) := save_volume_meta dup m vol in
  let new := <[volume_key (v_id vol) := json_to_string (volume_to_json vol)]> (view m) in
  vm_volumes m' = vm_volumes m /\ vm_locked m' = vm_locked m /\
  vm_calls m' = vm_calls m /\ vm_dm m' = vm_dm m /\
  if e =? XSAN_OK then view m' = new
  else (view m' = view m \/ view m' = new) /\ (failed_puts_undone -> view m' = view m).
Proof.
  unfold save_volume_meta, volume_to_json_string. destruct dup.
  - rewrite Z.eqb_refl. destruct (ms_put _ _ _) as [s e] eqn:Hp. simpl.
    split_and!; try done. unfold view; simpl. case_cmp; subst.
    + now apply ms_put_ok.
    + split; [exact (ms_put_err _ _ _ _ _ Hp n)|]. intros Hu. exact (Hu _ _ _ _ _ Hp n).
  - split_and!; try done. case_cmp; [|split; [now left|done]].
    now destruct out_of_memory_fails.
Qed.

Lemma save_volume_meta_differ dup m vol v :
  differ_at (v_id vol) v (view m) -> differ_at (v_id vol) v (view (save_volume_meta dup m vol).1).
Proof.
  pose proof (save_volume_meta_spec dup m vol) as Hs. destruct (save_volume_meta dup m vol) as [m' e].
  destruct Hs as (_ & _ & _ & _ & Hs). intros Hd. cbn [fst].
  destruct (e =? XSAN_OK); [rewrite Hs|destruct Hs as [[-> | ->] _]]; try done;
    apply differ_at_insert; try done; now left.
Qed.

Lemma store_delete_view m k :
  deletes_succeed -> k <> [] -> view (store_delete m k) = delete k (view m).
Proof.
  intros Hd Hk. unfold view, store_delete; simpl. specialize (Hd (vm_store m) k Hk).
  destruct (ms_delete (vm_store m) k) as [s e] eqn:Hs; simpl in *. subst e.
  now apply ms_delete_ok.
Qed.

Lemma store_delete_differ m k id v :
  key_of id k -> differ_at id v (view m) -> differ_at id v (view (store_delete m k)).
Proof. intros Hk Hd. now apply delete_differ. Qed.

Lemma delete_volume_meta_spec m id :
  let m' := (delete_volume_meta m id).1 in
  vm_volumes m' = vm_volumes m /\ vm_locked m' = vm_locked m /\
  vm_calls m' = vm_calls m /\
  (forall v, differ_at id v (view m) -> differ_at id v (view m')) /\
  (deletes_succeed -> id <> 0 -> view m' = delete (volume_key id) (view m)).
Proof.
  unfold delete_volume_meta, uuid_is_null. destruct (Z.eqb_spec id 0); simpl.
  - split_and!; done.
  - pose proof (fun v => delete_differ id v (vm_store m) (volume_key id) (or_introl eq_refl)) as Hdiff.
    destruct (ms_delete _ _) as [s e] eqn:Hs; simpl. split_and!; try done.
    intros Hd _. specialize (Hd (vm_store m) (volume_key id) (volume_key_nonempty id)).
    rewrite Hs in Hd.
    simpl in Hd. subst e. unfold view; simpl. now apply ms_delete_ok.
Qed.

(** ** The last phase of creation *)

(** What a failed creation leaves: the volumes and the lock as they were, the extents it
    was given freed with the disk manager, and the store as it was up to records of the
    new volume; these are gone too when the store does as it is told and had none. *)
Definition undone m g es id m' : Prop :=
  vm_volumes m' = vm_volumes m /\ vm_locked m' = vm_locked m /\
  vm_calls m' = vm_calls m ++ (if decide (es = []) then [] else [DmFree g es]) /\
  differ_at id (view m) (view m') /\
  (deletes_succeed -> failed_puts_undone -> id <> 0 -> view m !! alloc_key id = None ->
   view m !! volume_key id = None -> view m' = view m).

Lemma cleanup_undone m m1 g am allocated vol id :
  let es := default [] allocated in
  am = None \/ am = Some (meta_of vol g []) \/
    (am = Some (meta_of vol g es) /\ Zlen es <= XSAN_MAX_EXTENTS_PER_VOLUME) ->
  vm_volumes m1 = vm_volumes m -> vm_locked m1 = vm_locked m -> vm_calls m1 = vm_calls m ->
  differ_at id (view m) (view m1) ->
  (deletes_succeed -> failed_puts_undone -> id <> 0 -> view m !! alloc_key id = None ->
   view m !! volume_key id = None -> view m1 = view m) ->
  undone m g es id (cleanup_extents m1 g am allocated).
Proof.
  intros es Ham Hv Hl Hc Hdiff Hs.
  destruct (cleanup_extents_spec m1 g am allocated vol Ham) as (H1 & H2 & H3 & H4).
  assert (Hview : view (cleanup_extents m1 g am allocated) = view m1) by (unfold view; now rewrite H3).
  unfold undone. rewrite H1, H2, H4, Hc, Hview. now split_and!.
Qed.

Lemma create_commit_spec env m vol g allocated :
  let '(m', e) := create_commit env m vol g allocated in
  let es := default [] allocated in
  let vol' := with_state vol (initial_state vol) in
  if e =? XSAN_OK then
    vm_volumes m' = vm_volumes m ++ [vol'] /\ vm_locked m' = vm_locked m /\
    vm_calls m' = vm_calls m /\ Zlen es <= XSAN_MAX_EXTENTS_PER_VOLUME /\
    view m' =
      <[volume_key (v_id vol) := json_to_string (volume_to_json vol')]>
        (<[alloc_key (v_id vol) := json_to_string (alloc_meta_to_json (meta_of vol g es))]>
           (view m))
  else undone m g es (v_id vol) m'.
Proof.
  unfold create_commit. destruct (ce_alloc_meta env); cbn [negb].
  2:{ rewrite (proj2 (Z.eqb_neq _ _) out_of_memory_fails).
      apply (cleanup_undone m m g None allocated vol); auto using differ_at_refl. }
  destruct (Z.ltb_spec XSAN_MAX_EXTENTS_PER_VOLUME (Zlen (default [] allocated))) as [Hm|Hm].
  { rewrite (proj2 (Z.eqb_neq _ _) too_many_extents_fails).
    apply (cleanup_undone m m g _ allocated vol); auto using differ_at_refl. }
  unfold volume_allocation_meta_to_json_string. destruct (ce_alloc_json env).
  2:{ rewrite (proj2 (Z.eqb_neq _ _) out_of_memory_fails).
      apply (cleanup_undone m m g _ allocated vol); auto using differ_at_refl. }
  destruct (ms_put _ _ _) as [s e] eqn:Hput.
  destruct (Z.eqb_spec e XSAN_OK) as [->|He]; cbn [negb].
  2:{ rewrite (proj2 (Z.eqb_neq _ _) He).
      apply (cleanup_undone m (set_store m s) g _ allocated vol); auto.
      { apply (put_differ _ _ _ _ _ _ _ (or_intror eq_refl) Hput), differ_at_refl. }
      intros _ Hu _ _ _. exact (Hu _ _ _ _ _ Hput He). }
  assert (Hd1 : differ_at (v_id vol) (view m) (view (set_store m s)))
    by (apply (put_differ _ _ _ _ _ _ _ (or_intror eq_refl) Hput), differ_at_refl).
  apply ms_put_ok in Hput.
  set (vol' := with_state vol (initial_state vol)).
  pose proof (save_volume_meta_spec (ce_volume_json env) (set_store m s) vol') as Hsave.
  pose proof (save_volume_meta_differ (ce_volume_json env) (set_store m s) vol' _ Hd1) as Hd2.
  destruct (save_volume_meta (ce_volume_json env) (set_store m s) vol') as [m2 e2].
  destruct Hsave as (Hv & Hl & Hc & _ & Hview). change (v_id vol') with (v_id vol) in *. cbn [fst] in Hd2.
  change (view (set_store m s)) with (ms_view s) in Hview. rewrite Hput in Hview.
  destruct (Z.eqb_spec e2 XSAN_OK) as [->|He2]; cbn [negb].
  2:{ rewrite (proj2 (Z.eqb_neq _ _) He2).
      apply (cleanup_undone m _ g _ allocated vol); auto.
      { apply store_delete_differ; [now right|done]. }
      intros Hd Hu _ Ha _. rewrite store_delete_view, (proj2 Hview Hu) by done.
      now apply delete_insert_id. }
  destruct (ce_append env); cbn [negb].
  - split_and!; auto. now rewrite Hv.
  - rewrite (proj2 (Z.eqb_neq _ _) out_of_memory_fails).
    pose proof (delete_volume_meta_spec (store_delete m2 (alloc_key (v_id vol)))
                  (v_id vol)) as (H1 & H2 & H3 & Hdm & H4).
    apply (cleanup_undone m _ g _ allocated vol); auto.
    + now rewrite H1.
    + now rewrite H2.
    + now rewrite H3.
    + apply Hdm, store_delete_differ; [now right|done].
    + intros Hd _ Hid Ha Hvk. rewrite H4, store_delete_view, Hview by done.
      rewrite delete_insert_ne by (intros He; now apply (key_neq (v_id vol))).
      rewrite (delete_insert_id (view m)) by done.
      now apply delete_insert_id.
Qed.

(** ** The volume that is created *)

Definition node_ok (n : xsan_node) : Prop :=
  in_u 128 (n_id n) /\ no_nul (n_storage_ip n) /\ in_u 16 (n_storage_port n).

(** The values the environment supplies have their C types, and the generated
    identifier is not null. *)
Record env_ok (env : create_env) : Prop := {
  eo_id : in_u 128 (ce_new_id env) /\ ce_new_id env <> 0;
  eo_now : in_u 64 (ce_now env);
  eo_bind : no_nul (nc_bind_address (ce_node_config env));
  eo_port : in_u 16 (nc_port (ce_node_config env));
  eo_nodes : Forall node_ok (g_known_nodes (ce_cluster env))
}.

(** The arguments of [xsan_volume_create] that pass its first test. *)
Record args_ok (size g lbs ftt : Z) (name : cstring) : Prop := {
  ao_size : in_u 64 size /\ size <> 0;
  ao_group : in_u 128 g /\ g <> 0;
  ao_lbs : lbs = 512 \/ lbs = 4096;
  ao_ftt : 0 <= ftt < XSAN_MAX_REPLICAS;
  ao_name : no_nul name
}.

Lemma replica_wf_local env id ip :
  env_ok env -> in_u 128 id -> no_nul ip ->
  replica_wf (ReplicaLocation id (take (Z.to_nat (INET6_ADDRSTRLEN - 1)) ip)
    (nc_port (ce_node_config env)) XSAN_STORAGE_STATE_ONLINE (ce_now env)).
Proof.
  intros [_ Hnow _ Hport _] Hid Hip. unfold replica_wf, INET6_ADDRSTRLEN, Zlen; simpl.
  split_and!; try done; [now apply no_nul_take|]. rewrite length_take. lia.
Qed.

Lemma assign_remotes_spec nodes local ftt assigned :
  Forall node_ok nodes -> Zlen assigned <= ftt -> ftt < XSAN_MAX_REPLICAS ->
  let l := assign_remotes nodes local ftt assigned in
  exists new, l = assigned ++ new /\ Zlen l <= ftt /\
    Forall replica_wf new /\
    Forall (fun r => r_node_id r <> local /\ r_state r = XSAN_STORAGE_STATE_INITIALIZING) new /\
    (r_node_id <$> new) `sublist_of` (n_id <$> nodes).
Proof.
  intros Hn. revert assigned. induction Hn as [|n nodes (Hid & Hip & Hport) _ IH];
    intros assigned Ha Hf l; subst l; cbn [assign_remotes].
  { exists []. rewrite app_nil_r. split_and!; done || constructor. }
  destruct (Z.ltb_spec (Zlen assigned) ftt) as [Hlt|Hge].
  2:{ exists []. rewrite app_nil_r. split_and!; [done..|constructor|constructor|].
      apply sublist_nil_l. }
  destruct (Z.eqb_spec (n_id n) local) as [He|Hne]; cbn [negb andb].
  { destruct (IH assigned Ha Hf) as (new & H1 & H2 & H3 & H4 & H5).
    exists new. split_and!; try done. now apply sublist_cons. }
  destruct (Z.ltb_spec (Zlen assigned + 1) XSAN_MAX_REPLICAS) as [_|]; [|lia].
  set (r := ReplicaLocation (n_id n) _ _ _ _).
  destruct (IH (assigned ++ [r])) as (new & H1 & H2 & H3 & H4 & H5);
    [rewrite Zlen_app; change (Zlen [r]) with 1; lia|done|].
  exists (r :: new). rewrite H1 in *. rewrite <- app_assoc in *. split_and!; try done.
  - constructor; [|done]. unfold replica_wf, r, INET6_ADDRSTRLEN, Zlen; simpl.
    split_and!; try done; [now apply no_nul_take|rewrite length_take; lia].
  - constructor; [|done]. done.
  - simpl. now apply sublist_skip.
Qed.

(** The replicas of a new volume: the local one first, then remote ones on
    other nodes. *)
Definition placed env vol id vol' : Prop :=
  exists ftt l r0, vol' = with_replicas vol ftt (ftt + 1) (r0 :: l) /\
    0 <= ftt <= v_FTT vol /\ Zlen l = ftt /\ Forall replica_wf (r0 :: l) /\
    r_node_id r0 = id /\ r_state r0 = XSAN_STORAGE_STATE_ONLINE /\
    Forall (fun r => r_node_id r <> id /\ r_state r = XSAN_STORAGE_STATE_INITIALIZING) l /\
    (r_node_id <$> l) `sublist_of` (n_id <$> g_known_nodes (ce_cluster env)).

Lemma placed_alone env vol id r0 :
  0 <= v_FTT vol -> replica_wf r0 -> r_node_id r0 = id ->
  r_state r0 = XSAN_STORAGE_STATE_ONLINE -> placed env vol id (with_replicas vol 0 1 [r0]).
Proof.
  intros Hf Hr Hid Hst. exists 0, [], r0.
  split_and!; try done; [now constructor|apply sublist_nil_l].
Qed.

Lemma placed_assign env vol id r0 :
  env_ok env -> 0 <= v_FTT vol < XSAN_MAX_REPLICAS -> v_replica_count vol = v_FTT vol + 1 ->
  replica_wf r0 -> r_node_id r0 = id -> r_state r0 = XSAN_STORAGE_STATE_ONLINE ->
  let remotes := assign_remotes (g_known_nodes (ce_cluster env)) id (v_FTT vol) [] in
  placed env vol id
    (if Zlen remotes <? v_FTT vol
     then with_replicas vol (Zlen remotes) (Zlen remotes + 1) (r0 :: remotes)
     else with_replicas vol (v_FTT vol) (v_replica_count vol) (r0 :: remotes)).
Proof.
  intros Hok Hftt Hcount Hr Hid Hst remotes.
  destruct (assign_remotes_spec (g_known_nodes (ce_cluster env)) id (v_FTT vol) [])
    as (new & H1 & H2 & H3 & H4 & H5); [apply Hok|rewrite Zlen_nil; lia|lia|].
  fold remotes in H1, H2. simpl in H1. rewrite H1 in *.
  pose proof (Zlen_nonneg new). exists (Zlen new), new, r0.
  destruct (Z.ltb_spec (Zlen new) (v_FTT vol)).
  - split_and!; try done; try lia. now constructor.
  - replace (v_FTT vol) with (Zlen new) in * by lia. rewrite Hcount.
    split_and!; try done; try lia. now constructor.
Qed.

Lemma place_replicas_spec env vol id ip :
  env_ok env -> in_u 128 id -> no_nul ip ->
  0 <= v_FTT vol < XSAN_MAX_REPLICAS -> v_replica_count vol = v_FTT vol + 1 ->
  placed env vol id (place_replicas env vol id ip (nc_port (ce_node_config env))).
Proof.
  intros Hok Hid Hip Hftt Hcount. unfold place_replicas.
  set (r0 := ReplicaLocation id _ _ _ _).
  assert (Hr0 : replica_wf r0) by now apply replica_wf_local.
  destruct (Z.ltb_spec 1 (v_replica_count vol)) as [Hgt|Hle].
  2:{ replace (v_FTT vol) with 0 by lia. replace (v_replica_count vol) with 1 by lia.
      apply placed_alone; done || lia. }
  pose proof (placed_assign env vol id r0 Hok Hftt Hcount Hr0 eq_refl eq_refl) as Hassign.
  pose proof (placed_alone env vol id r0 ltac:(lia) Hr0 eq_refl eq_refl) as Halone.
  unfold xsan_cluster_get_all_known_nodes.
  destruct (g_cluster_initialized (ce_cluster env)); cbn [negb]; [|exact Halone].
  destruct (g_known_nodes (ce_cluster env)) as [|n nodes]; [exact Hassign|].
  destruct (ce_nodes_array env); [exact Hassign|].
  rewrite (proj2 (Z.eqb_neq _ _) out_of_memory_fails). exact Halone.
Qed.

Lemma new_volume_replicas env name size g lbs thin ftt :
  args_ok size g lbs ftt name ->
  let vol := new_volume env name size g lbs thin ftt in
  v_FTT vol = ftt /\ v_replica_count vol = ftt + 1.
Proof.
  intros [_ _ _ Hf _]. unfold new_volume, XSAN_MAX_REPLICAS in *.
  rewrite wrap_small by (unfold in_u; pow2s; lia).
  now rewrite (proj2 (Z.ltb_ge 3 (ftt + 1))) by lia.
Qed.

Lemma num_blocks_range a lbs : lbs = 512 \/ lbs = 4096 -> in_u 64 (wrap 64 a / lbs).
Proof.
  intros Hl. pose proof (wrap_range 64 a ltac:(lia)) as [H1 H2]. split.
  - apply Z.div_pos; lia.
  - apply Z.div_lt_upper_bound; lia.
Qed.

Lemma created_wf env name size g lbs thin ftt id vol a st :
  env_ok env -> args_ok size g lbs ftt name ->
  placed env (new_volume env name size g lbs thin ftt) id vol ->
  in_u 64 a -> 0 <= st < 2 ^ 31 ->
  volume_wf (with_state (with_allocated vol a) st).
Proof.
  intros Hok Hargs (f & l & r0 & -> & Hf & Hl & Hall & _) Ha Hst.
  destruct (new_volume_replicas env name size g lbs thin ftt Hargs) as [Hftt _].
  rewrite Hftt in Hf. destruct Hargs as [Hs Hg Hb Hr Hn].
  unfold new_volume, XSAN_MAX_REPLICAS in *. destruct (3 <? _); constructor; simpl; try done.
  all: try apply Hok; try apply Hg; try (apply wrap_range; lia);
    try now apply num_blocks_range.
  all: try (split; [now apply no_nul_take|unfold XSAN_MAX_NAME_LEN, Zlen;
    rewrite length_take; lia]).
  all: try (unfold in_u; pow2s; lia).
  all: exists (r0 :: l); rewrite Zlen_cons; unfold XSAN_MAX_REPLICAS; split_and!; try done; lia.
Qed.

Lemma initial_state_range vol : 0 <= initial_state vol < 2 ^ 31.
Proof.
  unfold initial_state, XSAN_STORAGE_STATE_ONLINE, XSAN_STORAGE_STATE_DEGRADED,
    XSAN_STORAGE_STATE_OFFLINE.
  repeat match goal with |- context [if ?c then _ else _] => destruct c end; pow2s; lia.
Qed.

Lemma with_allocated_id vol : with_allocated vol (v_allocated vol) = vol.
Proof. now destruct vol. Qed.

Lemma dm_allocate_spec m g n bs :
  let '(m', e, out) := dm_allocate m g n bs in
  vm_volumes m' = vm_volumes m /\ vm_locked m' = vm_locked m /\ vm_store m' = vm_store m /\
  vm_calls m' = vm_calls m ++
    (if e =? XSAN_OK then [DmAllocate g (default [] out)] else []) /\
  (e = XSAN_OK -> Forall extent_wf (default [] out)).
Proof.
  unfold dm_allocate.
  destruct (disk_group_allocate_extents (vm_dm m) g n bs) as [[dm' e] out] eqn:Hal.
  split_and!; try done. intros ->. destruct out; simpl; [|constructor].
  exact (allocated_extents_wf _ _ _ _ _ _ Hal).
Qed.

(** ** Creation *)

(** The state after a successful creation. *)
Definition created env m name g lbs thin m' : Prop :=
  exists vol es, vm_volumes m' = vm_volumes m ++ [vol] /\ volume_wf vol /\
    v_id vol = ce_new_id env /\ v_group vol = g /\ v_block_size vol = lbs /\
    v_thin vol = thin /\ v_name vol = take (Z.to_nat (XSAN_MAX_NAME_LEN - 1)) name /\
    (thin = true <-> es = []) /\ Zlen es <= XSAN_MAX_EXTENTS_PER_VOLUME /\
    Forall extent_wf es /\
    vm_calls m' = vm_calls m ++ (if thin then [] else [DmAllocate g es]) /\
    view m' =
      <[volume_key (v_id vol) := json_to_string (volume_to_json vol)]>
        (<[alloc_key (v_id vol) := json_to_string (alloc_meta_to_json (meta_of vol g es))]>
           (view m)).

(** The state after a failed one: extents that were allocated are freed, and no record but
    those of the new volume is touched.  The store is as it was if it had no record of
    the new volume, its deletions succeed and its failed writes have not happened. *)
Definition rolled_back m g id m' : Prop :=
  vm_volumes m' = vm_volumes m /\
  (exists es, vm_calls m' = vm_calls m ++ es /\
     (es = [] \/ es = [DmAllocate g []] \/ exists l, es = [DmAllocate g l; DmFree g l])) /\
  differ_at id (view m) (view m') /\
  (deletes_succeed -> failed_puts_undone ->
   view m !! alloc_key id = None -> view m !! volume_key id = None -> view m' = view m).

Lemma rolled_back_refl m g id : rolled_back m g id m.
Proof.
  split_and!; try done. exists []. rewrite app_nil_r. auto.
Qed.

Lemma local_node_info_cases loaded cfg :
  no_nul (nc_bind_address cfg) ->
  match xsan_get_local_node_info loaded cfg INET6_ADDRSTRLEN with
  | (e, None) => e <> XSAN_OK
  | (_, Some (id, ip, port)) => in_u 128 id /\ no_nul ip /\ port = nc_port cfg
  end.
Proof.
  intros Hn. unfold xsan_get_local_node_info.
  destruct (INET6_ADDRSTRLEN =? 0); [done|]. destruct (_ || _); [done|].
  destruct (uuid_parse _) as [id|] eqn:Hp; [|done].
  apply uuid_parse_range in Hp.
  destruct (_ =? 0); split_and!; try done; now apply no_nul_take.
Qed.

(** The fields of a placed volume that placement does not touch. *)
Lemma placed_fields env name size g lbs thin ftt id vol :
  placed env (new_volume env name size g lbs thin ftt) id vol ->
  v_id vol = ce_new_id env /\ v_group vol = g /\ v_block_size vol = lbs /\
  v_thin vol = thin /\ v_allocated vol = 0 /\
  v_name vol = take (Z.to_nat (XSAN_MAX_NAME_LEN - 1)) name /\
  v_num_blocks vol = wrap 64 (wrap 64 (size + lbs) - 1) / lbs /\
  v_size_bytes vol = wrap 64 (v_num_blocks vol * lbs).
Proof.
  intros (f & l & r0 & -> & _). unfold new_volume. now destruct (_ <? _).
Qed.

(** The commit phase, started from a placed volume. *)
Lemma commit_placed env m m0 name size g lbs thin ftt id vol a allocated :
  env_ok env -> args_ok size g lbs ftt name ->
  placed env (new_volume env name size g lbs thin ftt) id vol -> in_u 64 a ->
  let es := default [] allocated in
  (thin = true <-> es = []) -> Forall extent_wf es ->
  vm_volumes m = vm_volumes m0 -> vm_locked m = vm_locked m0 -> vm_store m = vm_store m0 ->
  vm_calls m = vm_calls m0 ++ (if thin then [] else [DmAllocate g es]) ->
  let '(m', e) := create_commit env m (with_allocated vol a) g allocated in
  vm_locked m' = vm_locked m0 /\
  if e =? XSAN_OK then created env m0 name g lbs thin m'
  else rolled_back m0 g (ce_new_id env) m'.
Proof.
  intros Hok Hargs Hp Ha es Hthin Hes Hv Hl Hs Hc.
  destruct (placed_fields _ _ _ _ _ _ _ _ _ Hp) as (F1 & F2 & F3 & F4 & _ & F5 & _ & _).
  pose proof (create_commit_spec env m (with_allocated vol a) g allocated) as Hspec.
  destruct (create_commit env m (with_allocated vol a) g allocated) as [m' e].
  assert (Hview : view m = view m0) by (unfold view; now rewrite Hs).
  cbv zeta in Hspec. destruct (Z.eqb_spec e XSAN_OK) as [Heq|He].
  - destruct Hspec as (H1 & H2 & H3 & H4 & H5). split; [congruence|].
    exists (with_state (with_allocated vol a) (initial_state (with_allocated vol a))), es.
    rewrite H1, H3, Hv, Hc, H5, Hview. split_and!; try done; try apply Hthin.
    eapply created_wf; eauto using initial_state_range.
  - destruct Hspec as (H1 & H2 & H3 & Hdiff & H4). cbn [v_id with_allocated] in Hdiff.
    rewrite F1, Hview in Hdiff. split; [congruence|].
    split_and!; [congruence| |done|].
    + rewrite H3, Hc, <- app_assoc. eexists. split; [reflexivity|].
      destruct thin; simpl.
      * rewrite decide_True by now apply Hthin. auto.
      * rewrite decide_False by (intros Hnil; now apply Hthin in Hnil). eauto.
    + intros Hd Hu Hka Hkv. rewrite Hview in H4. cbn [v_id with_allocated] in H4.
      rewrite F1 in H4. apply H4; [done|done|apply Hok|done..].
Qed.

Lemma create_locked_spec env m name size g lbs thin ftt :
  env_ok env -> args_ok size g lbs ftt name ->
  let '(m', e) := create_locked env m name size g lbs thin ftt in
  vm_locked m' = vm_locked m /\
  if e =? XSAN_OK then created env m name g lbs thin m'
  else rolled_back m g (ce_new_id env) m'.
Proof.
  intros Hok Hargs.
  assert (Hfail : forall e, e <> XSAN_OK -> vm_locked m = vm_locked m /\
    if e =? XSAN_OK then created env m name g lbs thin m
    else rolled_back m g (ce_new_id env) m).
  { intros e He. rewrite (proj2 (Z.eqb_neq _ _) He). split; [done|apply rolled_back_refl]. }
  unfold create_locked. destruct (name_exists _ _); [now apply Hfail|].
  destruct (find_disk_group_by_id _ _) as [dg|]; [|now apply Hfail].
  destruct (dg_state dg =? _); cbn [negb]; [|apply Hfail; auto with xsan].
  destruct (ce_new_volume env); cbn [negb]; [|apply Hfail; auto with xsan].
  pose proof (local_node_info_cases (ce_config_loaded env) (ce_node_config env)
                (eo_bind _ Hok)) as Hinfo.
  destruct (xsan_get_local_node_info _ _ _) as [e [[[id ip] port]|]]; [|now apply Hfail].
  destruct Hinfo as (Hid & Hip & ->).
  destruct (Z.eqb_spec e XSAN_OK) as [->|He]; cbn [negb]; [|now apply Hfail].
  pose proof (new_volume_replicas env name size g lbs thin ftt Hargs) as [Hf Hcnt].
  assert (Hp : placed env (new_volume env name size g lbs thin ftt) id
    (place_replicas env (new_volume env name size g lbs thin ftt) id ip
       (nc_port (ce_node_config env)))).
  { apply place_replicas_spec; try done; [rewrite Hf; apply Hargs|congruence]. }
  set (vol := place_replicas _ _ _ _ _) in *.
  destruct (placed_fields _ _ _ _ _ _ _ _ _ Hp) as (_ & _ & _ & _ & F0 & _ & _ & Fs).
  destruct thin.
  - rewrite <- (with_allocated_id vol), F0.
    eapply commit_placed; eauto; try done. now rewrite app_nil_r.
  - pose proof (dm_allocate_spec m g (v_num_blocks vol) (v_block_size vol)) as Hal.
    destruct (dm_allocate _ _ _ _) as [[m1 e1] out]. destruct Hal as (H1 & H2 & H3 & H4 & H5).
    assert (Hfail1 : forall e, e <> XSAN_OK -> (e1 = XSAN_OK -> default [] out = []) ->
      vm_locked m1 = vm_locked m /\
      if e =? XSAN_OK then created env m name g lbs false m1
      else rolled_back m g (ce_new_id env) m1).
    { intros e' He' Hout. rewrite (proj2 (Z.eqb_neq _ _) He'). split; [done|].
      assert (Hview : view m1 = view m) by (unfold view; now rewrite H3).
      split_and!; [done| |rewrite Hview; apply differ_at_refl|done].
      eexists. split; [exact H4|]. destruct (Z.eqb_spec e1 XSAN_OK); [|now left].
      right. left. now rewrite Hout. }
    destruct (Z.eqb_spec e1 XSAN_OK) as [->|He1]; cbn [negb]; [|now apply Hfail1].
    destruct out as [[|x es]|]; [apply Hfail1; auto with xsan| |apply Hfail1; auto with xsan].
    eapply commit_placed; eauto; try done. rewrite Fs. apply wrap_range. lia.
Qed.

Lemma create_guards initialized size g lbs ftt name :
  args_ok size g lbs ftt name ->
  negb initialized || (size =? 0) || uuid_is_null g ||
    (negb (lbs =? 512) && negb (lbs =? 4096)) || (XSAN_MAX_REPLICAS <=? ftt) =
  negb initialized.
Proof.
  intros [[_ Hs] [_ Hg] Hl Hf _]. unfold uuid_is_null.
  rewrite (proj2 (Z.eqb_neq size 0) Hs), (proj2 (Z.eqb_neq g 0) Hg).
  rewrite (proj2 (Z.leb_gt _ _)) by lia.
  destruct initialized, Hl as [->| ->]; reflexivity.
Qed.

Lemma create_spec env m name size g lbs thin ftt :
  env_ok env -> args_ok size g lbs ftt name -> vm_locked m = false ->
  exists m' e out,
    xsan_volume_create env true m (Some name) size g lbs thin ftt = Some (m', e, out) /\
    vm_locked m' = false /\
    if e =? XSAN_OK
    then out = Some (ce_new_id env) /\ created env m name g lbs thin m'
    else out = None /\ rolled_back m g (ce_new_id env) m'.
Proof.
  intros Hok Hargs Hlock. unfold xsan_volume_create.
  rewrite (create_guards true _ _ _ _ _ Hargs). cbn [negb].
  unfold lock. rewrite Hlock. simpl.
  pose proof (create_locked_spec env (set_locked m true) name size g lbs thin ftt Hok Hargs)
    as Hspec.
  destruct (create_locked _ _ _ _ _ _ _ _) as [m' e]. destruct Hspec as [_ Hspec].
  eexists _, _, _. split; [reflexivity|]. split; [done|].
  destruct (e =? XSAN_OK); (split; [done|exact Hspec]).
Qed.

(** C3: creating a volume is all or nothing.  On success exactly one
    well-formed volume is appended, its record and its allocation map are in the
    metadata store, and a thick volume owns exactly the extents the disk manager
    handed out.  On every failure, rollbacks included, the volume list is what it was,
    the disk manager's free call is made for every extent that was allocated, no record
    but those of the new identifier is touched, and no identifier is returned.  The
    records of the new identifier are gone too if there were none, the deletions of the
    store succeed and its failed writes have not happened: the code ignores a deletion
    that fails during the rollback, which leaves a record behind.  The call always
    returns, with the lock released. *)
Theorem volume_create_correct env m name size g lbs thin ftt :
  env_ok env -> args_ok size g lbs ftt name -> vm_locked m = false ->
  exists m' e out,
    xsan_volume_create env true m (Some name) size g lbs thin ftt = Some (m', e, out) /\
    vm_locked m' = false /\
    if e =? XSAN_OK
    then out = Some (ce_new_id env) /\ created env m name g lbs thin m'
    else out = None /\ rolled_back m g (ce_new_id env) m'.
Proof. apply create_spec. Qed.

(** ** Deletion *)

(** The space calls of a deletion, given the allocation map that was read. *)
Definition frees_of (am : option xsan_volume_allocation_meta) : list dm_call :=
  match am with
  | Some am =>
      if 0 <? am_num_extents am
      then [DmFree (am_group am) (take (Z.to_nat (am_num_extents am)) (am_extents am))]
      else []
  | None => []
  end.

Lemma delete_locked_spec alloc_ok m id i vol :
  list_find (fun v => v_id v = id) (vm_volumes m) = Some (i, vol) ->
  let '(m', e) := delete_locked alloc_ok m id in
  e = XSAN_OK /\ vm_volumes m' = delete i (vm_volumes m) /\ vm_locked m' = vm_locked m /\
  vm_calls m' = vm_calls m ++ frees_of (read_alloc_meta alloc_ok m id) /\
  differ_at id (view m) (view m') /\
  (deletes_succeed -> id <> 0 ->
   view m' = delete (volume_key id) (delete (alloc_key id) (view m))).
Proof.
  intros Hf. unfold delete_locked. rewrite Hf.
  set (m1 := match read_alloc_meta alloc_ok m id with Some _ => _ | None => _ end).
  assert (H1 : vm_volumes m1 = vm_volumes m /\ vm_locked m1 = vm_locked m /\
    vm_store m1 = vm_store m /\
    vm_calls m1 = vm_calls m ++ frees_of (read_alloc_meta alloc_ok m id)).
  { unfold m1, frees_of. destruct (read_alloc_meta alloc_ok m id) as [am|];
      [|now rewrite app_nil_r].
    destruct (0 <? am_num_extents am); [|now rewrite app_nil_r].
    unfold dm_free. now destruct (disk_group_free_extents _ _ _). }
  destruct H1 as (Hv & Hl & Hs & Hc).
  pose proof (delete_volume_meta_spec (store_delete m1 (alloc_key id)) id)
    as (D1 & D2 & D3 & D5 & D4).
  cbn [vm_volumes vm_locked vm_calls set_volumes]. rewrite D1, D2, D3.
  assert (Hm1 : view m1 = view m) by (unfold view; now rewrite Hs).
  split_and!; try done; [cbn; congruence| |].
  { apply (D5 (view m)), store_delete_differ; [now right|]. rewrite Hm1. apply differ_at_refl. }
  intros Hd Hid. unfold view; cbn [vm_store set_volumes].
  fold (view (delete_volume_meta (store_delete m1 (alloc_key id)) id).1).
  rewrite D4, store_delete_view by done. unfold view. now rewrite Hs.
Qed.

Lemma delete_spec alloc_ok m id :
  id <> 0 -> vm_locked m = false ->
  exists m' e, xsan_volume_delete alloc_ok true m id = Some (m', e) /\
  vm_locked m' = false /\
  match list_find (fun v => v_id v = id) (vm_volumes m) with
  | None => e = XSAN_ERROR_NOT_FOUND /\ vm_volumes m' = vm_volumes m /\
      view m' = view m /\ vm_calls m' = vm_calls m
  | Some (i, _) => e = XSAN_OK /\ vm_volumes m' = delete i (vm_volumes m) /\
      vm_calls m' = vm_calls m ++ frees_of (read_alloc_meta alloc_ok m id) /\
      differ_at id (view m) (view m') /\
      (deletes_succeed ->
       view m' = delete (volume_key id) (delete (alloc_key id) (view m)))
  end.
Proof.
  intros Hid Hlock. unfold xsan_volume_delete, uuid_is_null.
  rewrite (proj2 (Z.eqb_neq id 0) Hid). cbn [negb orb].
  unfold lock. rewrite Hlock. simpl.
  destruct (list_find (fun v => v_id v = id) (vm_volumes m)) as [[i vol]|] eqn:Hf.
  - pose proof (delete_locked_spec alloc_ok (set_locked m true) id i vol Hf) as Hspec.
    destruct (delete_locked _ _ _) as [m' e]. destruct Hspec as (H1 & H2 & _ & H4 & H6 & H5).
    eexists _, _. split; [reflexivity|]. split_and!; try done. intros Hd. now apply H5.
  - unfold delete_locked. cbn [vm_volumes set_locked]. rewrite Hf.
    eexists _, _. split; [reflexivity|]. done.
Qed.

(** Deleting removes the first volume with the identifier from the list,
    gives back exactly the extents of its stored allocation map and removes both
    records from the store; an unknown identifier changes nothing.  The call
    always returns, with the lock released. *)
Theorem volume_delete_correct alloc_ok m id :
  id <> 0 -> vm_locked m = false ->
  (forall am, read_alloc_meta alloc_ok m id = Some am ->
     am_num_extents am <= XSAN_MAX_EXTENTS_PER_VOLUME) ->
  exists m' e, xsan_volume_delete alloc_ok true m id = Some (m', e) /\
  vm_locked m' = false /\
  match list_find (fun v => v_id v = id) (vm_volumes m) with
  | None => e = XSAN_ERROR_NOT_FOUND /\ vm_volumes m' = vm_volumes m /\
      view m' = view m /\ vm_calls m' = vm_calls m
  | Some (i, _) => e = XSAN_OK /\ vm_volumes m' = delete i (vm_volumes m) /\
      vm_calls m' = vm_calls m ++ frees_of (read_alloc_meta alloc_ok m id) /\
      differ_at id (view m) (view m') /\
      (deletes_succeed ->
       view m' = delete (volume_key id) (delete (alloc_key id) (view m)))
  end.
Proof. intros Hid Hlock _. now apply delete_spec. Qed.

(** ** Creation followed by deletion *)

Lemma meta_of_wf vol g es :
  volume_wf vol -> in_u 128 g -> Forall extent_wf es ->
  Zlen es <= XSAN_MAX_EXTENTS_PER_VOLUME -> alloc_meta_wf (meta_of vol g es).
Proof.
  intros Hwf Hg Hes Hlen. constructor; simpl; try apply Hwf; try done.
  now exists es.
Qed.

Lemma read_alloc_meta_stored m id meta :
  gets_succeed -> alloc_meta_wf meta ->
  view m !! alloc_key id = Some (json_to_string (alloc_meta_to_json meta)) ->
  read_alloc_meta true m id = Some meta.
Proof.
  intros Hg Hwf Hk. unfold read_alloc_meta. rewrite (Hg _ _ _ (alloc_key_nonempty id) Hk), Z.eqb_refl. simpl.
  rewrite json_parse_print by apply alloc_meta_json_ok. simpl.
  now rewrite json_to_alloc_meta_to_json.
Qed.

Lemma frees_of_meta vol g es :
  Zlen es <= XSAN_MAX_EXTENTS_PER_VOLUME ->
  frees_of (Some (meta_of vol g es)) = if decide (es = []) then [] else [DmFree g es].
Proof.
  intros Hlen. simpl. unfold XSAN_MAX_EXTENTS_PER_VOLUME, Zlen in *.
  destruct (decide (es = [])) as [->|Hne]; [done|].
  assert (length es <> 0%nat) by (destruct es; simpl; [done|lia]).
  rewrite (proj2 (Z.ltb_lt _ _)) by lia. now rewrite Nat2Z.id, take_array by lia.
Qed.

Lemma list_find_snoc (l : list xsan_volume) vol id :
  id ∉ (v_id <$> l) -> v_id vol = id ->
  list_find (fun v => v_id v = id) (l ++ [vol]) = Some (length l, vol).
Proof.
  intros Hnot Hid. induction l as [|v l IH]; simpl.
  - now rewrite decide_True.
  - rewrite fmap_cons in Hnot. apply not_elem_of_cons in Hnot as [Hne Hnot].
    rewrite decide_False by done. now rewrite IH.
Qed.

(** What a deletion reads of a stored map: all of it or nothing. *)
Lemma read_alloc_meta_cases alloc_ok m id meta :
  alloc_meta_wf meta ->
  view m !! alloc_key id = Some (json_to_string (alloc_meta_to_json meta)) ->
  read_alloc_meta alloc_ok m id = Some meta \/ read_alloc_meta alloc_ok m id = None.
Proof.
  intros Hwf Hk. unfold read_alloc_meta. destruct (ms_get _ _) as [e [js|]] eqn:Hg; [|now right].
  destruct (Z.eqb_spec e XSAN_OK) as [->|]; [|now right].
  apply ms_get_ok in Hg as [Hg _]. unfold view in Hk. rewrite Hk in Hg. injection Hg as ->. simpl.
  rewrite json_parse_print by apply alloc_meta_json_ok.
  destruct alloc_ok; [left|now right]. simpl. now rewrite json_to_alloc_meta_to_json.
Qed.

(** C9: a volume can be deleted right after it was created, whatever fails in the
    store or while reading its allocation map: the call returns success, the list of
    volumes is back to what it was, no record of another volume is touched, and the disk
    manager is asked to free exactly the extents that were allocated, in the group they
    came from, or nothing at all.  It is asked to free them when the map can be read, that
    is when the reads of the store and the allocation for the map succeed; and the whole
    content of the store is back to what it was when its deletions succeed and it had no
    records of the new identifier. *)
Theorem create_then_delete env m name size g lbs thin ftt m1 id alloc_ok :
  env_ok env -> args_ok size g lbs ftt name -> vm_locked m = false ->
  ce_new_id env ∉ (v_id <$> vm_volumes m) ->
  xsan_volume_create env true m (Some name) size g lbs thin ftt =
    Some (m1, XSAN_OK, Some id) ->
  exists m2 es frees, xsan_volume_delete alloc_ok true m1 id = Some (m2, XSAN_OK) /\
    vm_locked m2 = false /\ vm_volumes m2 = vm_volumes m /\ differ_at id (view m) (view m2) /\
    vm_calls m2 = vm_calls m ++ (if thin then [] else DmAllocate g es :: frees) /\
    (frees = [] \/ frees = [DmFree g es]) /\
    (gets_succeed -> alloc_ok = true -> frees = [DmFree g es]) /\
    (deletes_succeed -> view m !! alloc_key id = None -> view m !! volume_key id = None ->
     view m2 = view m).
Proof.
  intros Hok Hargs Hlock Hfresh Hcreate.
  destruct (create_spec env m name size g lbs thin ftt Hok Hargs Hlock)
    as (m1' & e & out & Hcreate' & Hl1 & Hspec).
  rewrite Hcreate in Hcreate'. injection Hcreate' as <- <- <-.
  rewrite Z.eqb_refl in Hspec. destruct Hspec as [[= ->] Hcreated].
  destruct Hcreated as (vol & es & Hv & Hwf & Hid & _ & _ & _ & _ & Hthin & Hlen & Hes & Hc & Hview).
  destruct (delete_spec alloc_ok m1 (ce_new_id env)) as (m2 & e2 & Hdel & Hl2 & Hspec);
    [apply Hok|done|].
  rewrite Hv, (list_find_snoc _ vol) in Hspec by done.
  destruct Hspec as (-> & Hv2 & Hc2 & Hdiff & Hview2).
  assert (Hmwf : alloc_meta_wf (meta_of vol g es)) by (apply meta_of_wf; try done; apply Hargs).
  assert (Hkey : view m1 !! alloc_key (ce_new_id env) =
    Some (json_to_string (alloc_meta_to_json (meta_of vol g es)))).
  { rewrite Hview, Hid, lookup_insert_ne, lookup_insert_eq; [done|].
    intros He. now apply (key_neq (ce_new_id env)). }
  exists m2, es, (if read_alloc_meta alloc_ok m1 (ce_new_id env) then [DmFree g es] else []).
  split_and!; try done.
  - rewrite Hv2. now rewrite delete_middle_snoc.
  - intros k H1 H2. rewrite Hdiff by done. rewrite Hview, Hid. now rewrite !lookup_insert_ne by done.
  - rewrite Hc2, Hc, <- app_assoc. f_equal.
    destruct (read_alloc_meta_cases alloc_ok m1 (ce_new_id env) _ Hmwf Hkey) as [-> | ->];
      [rewrite frees_of_meta by done|]; destruct thin; try done.
    + now rewrite decide_True by now apply Hthin.
    + now rewrite decide_False by (intros Hn; now apply Hthin in Hn).
  - destruct (read_alloc_meta alloc_ok m1 (ce_new_id env)); auto.
  - intros Hg ->. now rewrite (read_alloc_meta_stored m1 _ _ Hg Hmwf Hkey).
  - intros Hd Hka Hkv. rewrite Hview2, Hview, Hid by done.
    rewrite delete_insert_ne by (intros He; now apply (key_neq (ce_new_id env))).
    rewrite (delete_insert_id (view m)), delete_insert_id by done. done.
Qed.

(** ** Loading at start-up *)

(** The entry yields a volume that is appended to the list. *)
Definition loadable (alloc_ok append_ok : cstring -> bool) (tail : cstring -> cstring)
    (e : cstring * cstring) : Prop :=
  alloc_ok e.1 = true /\ append_ok e.1 = true /\
  is_Some (json_tokener_parse (e.2 ++ tail e.1)).

Lemma load_entries_locked alloc_ok append_ok dup_ok tail m entries :
  vm_locked m = true ->
  let r := load_entries alloc_ok append_ok dup_ok tail m entries in
  r = None /\ Exists (loadable alloc_ok append_ok tail) entries \/
  r = Some m /\ Forall (fun e => ~ loadable alloc_ok append_ok tail e) entries.
Proof.
  intros Hlock. induction entries as [|[k v] entries IH]; cbn [load_entries].
  { right. split; [done|constructor]. }
  assert (Hskip : ~ loadable alloc_ok append_ok tail (k, v) ->
    let r := load_entries alloc_ok append_ok dup_ok tail m entries in
    r = None /\ Exists (loadable alloc_ok append_ok tail) ((k, v) :: entries) \/
    r = Some m /\ Forall (fun e => ~ loadable alloc_ok append_ok tail e) ((k, v) :: entries)).
  { intros Hn. destruct IH as [[IH1 IH2]|[IH1 IH2]]; [left|right]; split; try done.
    - now apply Exists_cons_tl.
    - now constructor. }
  unfold json_string_to_volume.
  destruct (json_tokener_parse (v ++ tail k)) as [j|] eqn:Hj.
  2:{ apply Hskip. intros (_ & _ & [? Hs]). simpl in Hs. congruence. }
  destruct (alloc_ok k) eqn:Ha.
  2:{ apply Hskip. intros (H & _). simpl in H. congruence. }
  rewrite Z.eqb_refl. destruct (append_ok k) eqn:Hap; cbn [andb].
  2:{ apply Hskip. intros (_ & H & _). simpl in H. congruence. }
  left. split; [|apply Exists_cons_hd; split_and!; simpl; eauto].
  unfold volume_update_overall_state. cbn [vm_volumes set_volumes].
  rewrite length_app. cbn [length]. rewrite Nat.add_sub, lookup_app_r, Nat.sub_diag by lia.
  cbn [lookup list_lookup]. unfold lock. cbn [vm_locked set_volumes]. now rewrite Hlock.
Qed.

(** The start-up scan takes the manager's lock and, for every volume record
    it loads, calls a function that takes the same lock: it never returns as soon
    as one stored record is loadable, and it returns without loading anything
    otherwise. *)
Theorem load_metadata_deadlocks alloc_ok append_ok dup_ok tail iter m :
  vm_locked m = false ->
  let scanned :=
    take_prefix $"v:" (it_rest (xsan_metadata_iterator_seek iter (Some $"v:"))) in
  (load_metadata alloc_ok append_ok dup_ok tail true (Some iter) m = None <->
   Exists (loadable alloc_ok append_ok tail) scanned) /\
  (load_metadata alloc_ok append_ok dup_ok tail true (Some iter) m <> None ->
   load_metadata alloc_ok append_ok dup_ok tail true (Some iter) m = Some (m, XSAN_OK)).
Proof.
  intros Hlock scanned. unfold load_metadata, lock. rewrite Hlock.
  cbn [negb mbind option_bind]. fold scanned.
  destruct (load_entries_locked alloc_ok append_ok dup_ok tail (set_locked m true)
              scanned eq_refl) as [[HN Hex]|[HS Hall]].
  - now rewrite HN.
  - assert (Hm : unlock (set_locked m true) = m) by (destruct m; simpl in *; now subst).
    rewrite HS. cbn [mbind option_bind]. rewrite Hm. split; [|done]. split; [done|].
    intros He. apply Exists_exists in He as (e & Hin & He).
    rewrite Forall_forall in Hall. now destruct (Hall e Hin).
Qed.

Lemma take_prefix_seek_elem p l e :
  Sorted.StronglySorted (fun a b => key_lt a.1 b.1 = true) l -> e ∈ l ->
  starts e.1 p = true -> e ∈ take_prefix p (seek_from l p).
Proof. intros Hs Hin Hst. rewrite scan_prefix by done. now apply list_elem_of_filter. Qed.

(** ** Sizes *)

(** The size of a new volume is rounded up to whole blocks: the block count
    is the ceiling, and the size grows by less than a block.  Requests within a
    block of 2^64 overflow the rounding instead and give a volume without any
    block. *)
Theorem volume_size_rounding env name size g lbs thin ftt :
  args_ok size g lbs ftt name ->
  let vol := new_volume env name size g lbs thin ftt in
  (size <= 2 ^ 64 - lbs ->
   v_size_bytes vol = v_num_blocks vol * lbs /\
   size <= v_size_bytes vol < size + lbs) /\
  (2 ^ 64 - lbs < size -> v_num_blocks vol = 0 /\ v_size_bytes vol = 0).
Proof.
  intros [[[Hs1 Hs2] _] _ Hl _ _]. cbv zeta. unfold new_volume.
  destruct (XSAN_MAX_REPLICAS <? _); cbn [v_size_bytes v_num_blocks];
    (assert (Hpos : 0 < lbs <= 4096) by lia; split; intros Hsize).
  all: assert (Hsum : wrap 64 (wrap 64 (size + lbs) - 1) =
         if 2 ^ 64 <? size + lbs then size + lbs - 1 - 2 ^ 64 else size + lbs - 1)
    by (unfold wrap; rewrite Zminus_mod_idemp_l; pow2s; case_cmp;
        [symmetry; apply Z.mod_unique_pos with 1; lia|apply Z.mod_small; lia]).
  all: rewrite Hsum.
  all: pow2s.
  all: first [rewrite (proj2 (Z.ltb_ge 18446744073709551616 (size + lbs))) by lia
             |rewrite (proj2 (Z.ltb_lt 18446744073709551616 (size + lbs))) by lia].
  all: pose proof (Z.div_mod (size + lbs - 1) lbs ltac:(lia));
    pose proof (Z.mod_pos_bound (size + lbs - 1) lbs ltac:(lia)).
  all: try (rewrite Z.div_small by lia; unfold wrap; rewrite Z.mul_0_l; done).
  all: rewrite wrap_small by (unfold in_u; pow2s; split;
    [apply Z.mul_nonneg_nonneg; [apply Z.div_pos; lia|lia]|lia]); lia.
Qed.

(** ** Names *)

Lemma name_exists_spec vols (name : cstring) :
  let n := Z.to_nat XSAN_MAX_NAME_LEN in
  name_exists vols name = true <-> Exists (fun v => take n (v_name v) = take n name) vols.
Proof.
  cbv zeta. unfold name_exists. rewrite existsb_exists, List.Exists_exists. unfold strncmp_eq.
  split; intros (v & Hv & H); exists v; (split; [done|]);
    now apply bool_decide_eq_true in H || apply bool_decide_eq_true.
Qed.

(** The test for an existing name is exact for names that fit the field.  A
    longer name is never found, although it is stored truncated: creating it
    twice gives two volumes of the same stored name. *)
Theorem volume_name_check vols name :
  Forall volume_wf vols ->
  let clash := name_exists vols name in
  (Zlen name < XSAN_MAX_NAME_LEN -> clash = true <-> name ∈ (v_name <$> vols)) /\
  (XSAN_MAX_NAME_LEN <= Zlen name -> clash = false).
Proof.
  intros Hwf clash.
  assert (Hshort : forall v, v ∈ vols -> take (Z.to_nat XSAN_MAX_NAME_LEN) (v_name v) = v_name v /\
    Zlen (v_name v) < XSAN_MAX_NAME_LEN).
  { intros v Hv. rewrite Forall_forall in Hwf. destruct (wf_name _ (Hwf v Hv)) as [_ Hl].
    split; [|done]. apply take_ge. unfold Zlen in Hl. lia. }
  split.
  - intros Hlen. unfold clash. rewrite name_exists_spec.
    rewrite (take_ge name) by (unfold Zlen in Hlen; lia).
    rewrite Exists_exists, list_elem_of_fmap.
    split; intros (v & H1 & H2); exists v.
    + now rewrite (proj1 (Hshort v H1)) in H2.
    + split; [done|]. now rewrite (proj1 (Hshort v H2)).
  - intros Hlen. apply not_true_is_false. unfold clash. rewrite name_exists_spec, Exists_exists.
    intros (v & H1 & H2). destruct (Hshort v H1) as [Ht Hl]. rewrite Ht in H2.
    apply (f_equal Zlen) in H2. unfold Zlen in *. rewrite length_take in H2. lia.
Qed.

(** ** State updates *)

Lemma overall_state_cases vol :
  0 < v_replica_count vol -> 0 <= v_FTT vol < 2 ^ 32 - 1 ->
  let n := online_replicas vol in
  let need := Z.min (v_FTT vol + 1) (v_replica_count vol) in
  (overall_state vol = XSAN_STORAGE_STATE_ONLINE /\ need <= n) \/
  (overall_state vol = XSAN_STORAGE_STATE_DEGRADED /\ 0 < n < need) \/
  (overall_state vol = XSAN_STORAGE_STATE_OFFLINE /\ n = 0).
Proof.
  intros Hc Hf n need. destruct (required_online_bounds vol Hc Hf) as [Hr Hn].
  pose proof (online_replicas_bounds vol ltac:(lia)). unfold overall_state, n, need in *.
  rewrite <- Hn in *. destruct (Z.leb_spec (required_online vol) (online_replicas vol)).
  { now left. }
  destruct (Z.ltb_spec 0 (online_replicas vol)); [right; left|right; right]; split; done || lia.
Qed.

(** Updating the state of a volume in an unlocked manager terminates with
    the lock released; the volume becomes ONLINE, DEGRADED or OFFLINE according
    to whether the replicas online reach the number that tolerates its failures
    (at most all of them), are fewer, or are none, and the store holds the new
    record whenever the state changed and the write succeeded. *)
Theorem volume_state_update dup_ok m i vol :
  vm_locked m = false -> vm_volumes m !! i = Some vol ->
  0 < v_replica_count vol <= XSAN_MAX_REPLICAS -> 0 <= v_FTT vol < 2 ^ 32 - 1 ->
  let vol' := with_state vol (overall_state vol) in
  let need := Z.min (v_FTT vol + 1) (v_replica_count vol) in
  (v_state vol' = XSAN_STORAGE_STATE_ONLINE /\ need <= online_replicas vol \/
   v_state vol' = XSAN_STORAGE_STATE_DEGRADED /\ 0 < online_replicas vol < need \/
   v_state vol' = XSAN_STORAGE_STATE_OFFLINE /\ online_replicas vol = 0) /\
  exists m', volume_update_overall_state dup_ok m i = Some m' /\ vm_locked m' = false /\
    vm_volumes m' = <[i := vol']> (vm_volumes m) /\ vm_calls m' = vm_calls m /\
    (view m' = view m \/
     v_state vol' <> v_state vol /\
     view m' = <[volume_key (v_id vol) := json_to_string (volume_to_json vol')]> (view m)).
Proof.
  intros Hlock Hi Hc Hf vol' need. split; [apply overall_state_cases; tauto|].
  unfold volume_update_overall_state. rewrite Hi. unfold lock. rewrite Hlock.
  cbn [mbind option_bind]. fold vol'. cbn [vm_volumes set_locked].
  set (m1 := unlock _). destruct (Z.eqb_spec (v_state vol') (v_state vol)) as [He|He].
  - exists m1. split_and!; try done. now left.
  - pose proof (save_volume_meta_spec dup_ok m1 vol') as Hs.
    destruct (save_volume_meta dup_ok m1 vol') as [m2 e]. destruct Hs as (H1 & H2 & H3 & _ & H4).
    exists m2. rewrite H1, H2, H3. do 4 (split; [done|]).
    destruct (e =? XSAN_OK); [now right|]. destruct H4 as [[H4|H4] _]; [now left|now right].
Qed.

(** ** Replica placement *)

Lemma sublist_distinct env id (l : list xsan_replica_location) :
  NoDup (n_id <$> g_known_nodes (ce_cluster env)) ->
  (r_node_id <$> l) `sublist_of` (n_id <$> g_known_nodes (ce_cluster env)) ->
  Forall (fun r => r_node_id r <> id /\ r_state r = XSAN_STORAGE_STATE_INITIALIZING) l ->
  NoDup (id :: (r_node_id <$> l)).
Proof.
  intros Hnd Hsub Hall. apply NoDup_cons. split; [|exact (sublist_NoDup _ _ Hnd Hsub)].
  rewrite list_elem_of_fmap. intros (r & -> & Hr). rewrite Forall_forall in Hall.
  now destruct (Hall r Hr).
Qed.

(** The replicas of a new volume are its local one, online, and at most the
    requested number of remote ones, still initialising, all on different nodes
    when the known nodes have different identifiers.  With a cluster state that
    the cluster module can actually reach there is never a remote one: whatever
    number of failures is requested, the volume tolerates none. *)
Theorem replica_placement env name size g lbs thin ftt id ip :
  env_ok env -> args_ok size g lbs ftt name -> in_u 128 id -> no_nul ip ->
  NoDup (n_id <$> g_known_nodes (ce_cluster env)) ->
  let vol := place_replicas env (new_volume env name size g lbs thin ftt) id ip
               (nc_port (ce_node_config env)) in
  (exists r0 l, v_replicas vol = array 3 replica0 (r0 :: l) /\
     v_FTT vol = Zlen l /\ v_replica_count vol = Zlen l + 1 /\ Zlen l <= ftt /\
     r_state r0 = XSAN_STORAGE_STATE_ONLINE /\ r_node_id r0 = id /\
     Forall (fun r => r_state r = XSAN_STORAGE_STATE_INITIALIZING) l /\
     NoDup (id :: (r_node_id <$> l))) /\
  (forall ops, ce_cluster env = (run cluster_step cluster0 ops).1 ->
     v_FTT vol = 0 /\ v_replica_count vol = 1).
Proof.
  intros Hok Hargs Hid Hip Hnd vol.
  pose proof (new_volume_replicas env name size g lbs thin ftt Hargs) as [Hf Hcnt].
  destruct (place_replicas_spec env (new_volume env name size g lbs thin ftt) id ip)
    as (f & l & r0 & Hvol & Hfl & Hl & _ & Hr0 & Hst & Hall & Hsub);
    try done; [rewrite Hf; apply Hargs|congruence|].
  fold vol in Hvol. rewrite Hvol. simpl. rewrite Hf in Hfl. split.
  - exists r0, l. rewrite Hl. split_and!; try done; [lia| |now apply (sublist_distinct env)].
    eapply Forall_impl; [exact Hall|]. now intros r [_ ?].
  - intros ops Hc. rewrite Hc, known_nodes_empty in Hsub. simpl in Hsub.
    apply sublist_nil_r, fmap_nil_inv in Hsub. subst l. rewrite Zlen_nil in Hl. subst f. done.
Qed.
End Theorems.

(** ** A concrete setting for the witnesses

    An in-memory store whose allocations succeed, one disk group (9) with one
    disk (3), a disk manager that hands out consecutive blocks. *)

#[local] Instance toy_store : MetaStore mem_db := rocksdb_meta_store (fun _ => true).

#[export] Instance toy_dm : DiskManager Z.
Proof.
  refine {|
    find_disk_group_by_id _ g :=
      if g =? 9 then Some (DiskGroup 9 XSAN_STORAGE_STATE_ONLINE [3]) else None;
    find_disk_by_id _ d := if d =? 3 then Some (Disk 3 $"Nvme0n1" 512 true) else None;
    disk_group_allocate_extents next g n bs :=
      (next + n * (bs / 512), XSAN_OK, Some [Extent 3 (wrap 64 next) (wrap 64 (n * (bs / 512))) 0]);
    disk_group_free_extents next _ _ := (next, XSAN_OK) |}.
  intros dm g n bs dm' es [= <- <-]. repeat constructor; simpl; try apply wrap_range; done.
Defined.

Definition sample_env : create_env :=
  CreateEnv true true true true true true 7 1 true
    (NodeConfig (uuid_fmt 5) $"10.0.0.1" 8080) (Cluster [] true).

Definition sample_vm : xsan_volume_manager mem_db Z := Vm [] 0 (MemDb ∅ false) false [].

Lemma sample_env_ok : env_ok sample_env.
Proof.
  constructor.
  - split; [split|]; vm_compute; congruence.
  - split; vm_compute; congruence.
  - repeat constructor; vm_compute; congruence.
  - split; vm_compute; congruence.
  - constructor.
Qed.

Lemma sample_args_ok : args_ok 10000 9 512 1 $"data".
Proof.
  constructor.
  - split; [split|]; vm_compute; congruence.
  - split; [split|]; vm_compute; congruence.
  - now left.
  - split; vm_compute; congruence.
  - repeat constructor; vm_compute; congruence.
Qed.

Lemma toy_deletes_succeed : deletes_succeed (St := mem_db).
Proof. intros [m full] [|c k] Hk; [done|]. reflexivity. Qed.

Lemma toy_gets_succeed : gets_succeed (St := mem_db).
Proof.
  intros [m full] [|c k] v Hk; [done|]. cbn. intros Hv. unfold Zlen.
  cbn [length]. rewrite (proj2 (Z.eqb_neq _ _)) by lia. now rewrite Hv.
Qed.

Lemma volume_create_correct_witness :
  exists m' e out,
    xsan_volume_create sample_env true sample_vm (Some $"data") 10000 9 512 false 1 =
      Some (m', e, out) /\ vm_locked m' = false.
Proof.
  destruct (volume_create_correct sample_env sample_vm $"data" 10000 9 512 false 1
              sample_env_ok sample_args_ok eq_refl) as (m' & e & out & H & Hl & _).
  exists m', e, out. split; [exact H|exact Hl].
Defined.

Lemma volume_delete_correct_witness :
  exists m', xsan_volume_delete true true sample_vm 7 = Some (m', XSAN_ERROR_NOT_FOUND).
Proof.
  destruct (volume_delete_correct true sample_vm 7) as (m' & e & H & _ & He & _);
    [done|reflexivity|intros am Ham; vm_compute in Ham; discriminate|].
  exists m'. now rewrite H, He.
Defined.

Lemma create_then_delete_witness :
  exists m1 m2 id,
    xsan_volume_create sample_env true sample_vm (Some $"data") 10000 9 512 false 1 =
      Some (m1, XSAN_OK, Some id) /\
    xsan_volume_delete true true m1 id = Some (m2, XSAN_OK) /\
    vm_volumes m1 <> [] /\ vm_volumes m2 = [] /\ view m2 = view sample_vm.
Proof.
  assert (Hr : (fun r => (r.1.2, r.2, length (vm_volumes r.1.1))) <$>
    xsan_volume_create sample_env true sample_vm (Some $"data") 10000 9 512 false 1 =
    Some (XSAN_OK, Some 7, 1%nat)) by (vm_compute; reflexivity).
  destruct (xsan_volume_create sample_env true sample_vm (Some $"data") 10000 9 512 false 1)
    as [[[m1 e] out]|] eqn:Hc; [|discriminate Hr].
  injection Hr as He Ho Hl. assert (Hv : vm_volumes m1 <> []) by (intros Hn; now rewrite Hn in Hl).
  subst e out.
  destruct (create_then_delete sample_env sample_vm $"data" 10000 9 512 false 1 m1 7 true)
    as (m2 & es & frees & H & _ & H2 & _ & _ & _ & H3 & H4);
    [apply sample_env_ok|apply sample_args_ok|reflexivity|apply not_elem_of_nil|exact Hc|].
  exists m1, m2, 7. split; [reflexivity|]. split; [exact H|]. split; [exact Hv|]. split; [exact H2|].
  exact (H4 toy_deletes_succeed eq_refl eq_refl).
Defined.

(** A store with one volume record. *)
Definition sample_iter : xsan_metadata_iterator :=
  Iterator [($"v:x", json_to_string (volume_to_json sample_volume))] [].

Lemma load_metadata_deadlocks_witness :
  load_metadata (fun _ => true) (fun _ => true) (fun _ => true) (fun _ => [])
    true (Some sample_iter) sample_vm = None.
Proof.
  apply (load_metadata_deadlocks (fun _ => true) (fun _ => true) (fun _ => true)
           (fun _ => []) sample_iter sample_vm); [reflexivity|].
  apply Exists_cons_hd. split_and!; [reflexivity..|]. cbn [snd fst].
  rewrite app_nil_r, json_parse_print by apply volume_json_ok, sample_volume_wf. eauto.
Defined.

Lemma volume_size_rounding_witness :
  v_size_bytes (new_volume sample_env $"data" 10000 9 512 false 1) = 10240.
Proof.
  destruct (volume_size_rounding sample_env $"data" 10000 9 512 false 1 sample_args_ok)
    as [H _]. destruct H as [H _]; [vm_compute; congruence|]. rewrite H. reflexivity.
Defined.

Lemma volume_name_check_witness :
  name_exists [sample_volume] $"data" = true.
Proof.
  apply (volume_name_check [sample_volume] $"data");
    [constructor; [apply sample_volume_wf|constructor]|reflexivity|].
  simpl. left.
Defined.

Lemma volume_state_update_witness :
  exists m', volume_update_overall_state true
    (set_volumes sample_vm [sample_volume]) 0 = Some m' /\ vm_locked m' = false.
Proof.
  destruct (volume_state_update true (set_volumes sample_vm [sample_volume]) 0 sample_volume)
    as [_ (m' & H & Hl & _)];
    [reflexivity|reflexivity|vm_compute; split; congruence|vm_compute; split; congruence|].
  now exists m'.
Defined.

Lemma replica_placement_witness :
  v_replica_count (place_replicas sample_env
    (new_volume sample_env $"data" 10000 9 512 false 1) 5 $"10.0.0.1" 8080) = 1.
Proof.
  apply (replica_placement sample_env $"data" 10000 9 512 false 1 5 $"10.0.0.1")
    with (ops := [CInit true (ClusterConfig $"c" [])]);
    [apply sample_env_ok|apply sample_args_ok|vm_compute; split; congruence
    |repeat constructor; vm_compute; congruence|constructor|reflexivity].
Defined.
