(* ===== verification/Io.v ===== *)
(** * Block I/O requests ([src/src/io/xsan_io.c])

    A request carries its two buffers as optional byte lists ([None] is the null
    pointer).  SPDK is not part of the sources: what its calls return is the
    record [bdev_env], and the calls a function makes on the device, the
    allocator and the user's callback are its trace.  Destroying the request is
    the event [EvFreeReq]; a request that was destroyed must not be used again. *)

From stdpp Require Import prelude strings.
From Stdlib Require Import ZArith Lia.
From S2P Require Import Prelude Errors StringUtils.

Record xsan_io_request := IoRequest {
  rq_is_read : bool;
  rq_user_buffer : option (list Z);
  rq_offset_bytes : Z;
  rq_length_bytes : Z;
  rq_block_size : Z;
  rq_offset_blocks : Z;
  rq_num_blocks : Z;
  rq_user_cb : bool;
  rq_bdev_name : cstring;
  rq_dma_buffer : option (list Z);
  rq_dma_internal : bool;
  rq_desc : bool;
  rq_channel : bool;
  rq_own : bool;
  rq_status : xsan_error_t
}.

Inductive io_event :=
  | EvOpenDesc
  | EvCloseDesc
  | EvGetChannel
  | EvPutChannel
  | EvDmaAlloc (size : Z)
  | EvDmaFree
  | EvRead (offset_blocks num_blocks : Z)
  | EvWrite (offset_blocks num_blocks : Z) (data : list Z)
  | EvFreeBdevIo
  | EvUserCb (status : xsan_error_t)
  | EvFreeReq.

#[global] Instance io_event_eq_dec : EqDecision io_event.
Proof. solve_decision. Defined.

(** What SPDK answers: the calling thread, the device and its block size, the
    outcomes of open, channel, DMA allocation and submission. *)
Record bdev_env := BdevEnv {
  be_thread : bool;
  be_bdev : option Z;
  be_open_rc : Z;
  be_channel : bool;
  be_dma : bool;
  be_submit_rc : Z
}.

(** ** Creation and destruction *)

Definition xsan_io_request_create (alloc_ok : bool) (user_buffer : option (list Z))
    (offset_bytes length_bytes block_size : Z) (is_read user_cb : bool) :
    option xsan_io_request :=
  match user_buffer with
  | None => None
  | Some _ =>
      if (length_bytes =? 0) || (block_size =? 0) || negb user_cb then None else
      if negb (offset_bytes mod block_size =? 0) || negb (length_bytes mod block_size =? 0)
      then None else
      if negb alloc_ok then None else
      Some (IoRequest is_read user_buffer offset_bytes length_bytes block_size
              (offset_bytes / block_size) (wrap 32 (length_bytes / block_size)) user_cb
              [] None false false false false XSAN_OK)
  end.

Definition xsan_io_request_free (rq : xsan_io_request) : list io_event :=
  (if rq_dma_internal rq && bool_decide (is_Some (rq_dma_buffer rq))
   then [EvDmaFree] else []) ++ [EvFreeReq].

(** The fields the submitter fills in. *)
Definition rq_target (rq : xsan_io_request) (name : cstring) (desc : bool) : xsan_io_request :=
  IoRequest (rq_is_read rq) (rq_user_buffer rq) (rq_offset_bytes rq) (rq_length_bytes rq)
    (rq_block_size rq) (rq_offset_blocks rq) (rq_num_blocks rq) (rq_user_cb rq) name
    (rq_dma_buffer rq) (rq_dma_internal rq) desc false false (rq_status rq).

Definition rq_resources (rq : xsan_io_request) (desc channel own : bool) : xsan_io_request :=
  IoRequest (rq_is_read rq) (rq_user_buffer rq) (rq_offset_bytes rq) (rq_length_bytes rq)
    (rq_block_size rq) (rq_offset_blocks rq) (rq_num_blocks rq) (rq_user_cb rq)
    (rq_bdev_name rq) (rq_dma_buffer rq) (rq_dma_internal rq) desc channel own (rq_status rq).

Definition rq_with_dma (rq : xsan_io_request) (dma : option (list Z)) (internal : bool) :
    xsan_io_request :=
  IoRequest (rq_is_read rq) (rq_user_buffer rq) (rq_offset_bytes rq) (rq_length_bytes rq)
    (rq_block_size rq) (rq_offset_blocks rq) (rq_num_blocks rq) (rq_user_cb rq)
    (rq_bdev_name rq) dma internal (rq_desc rq) (rq_channel rq) (rq_own rq) (rq_status rq).

(** ** Completion *)

(** [memcpy(dst, src, n)]. *)
Definition copy_into (dst src : list Z) (n : Z) : list Z :=
  take (Z.to_nat n) src ++ drop (Z.to_nat n) dst.

(** The callback SPDK calls: the user buffer afterwards and the trace.  [dma] is
    the DMA buffer as the device left it. *)
Definition io_spdk_completion_cb (rq : xsan_io_request) (success : bool) :
    option (list Z) * list io_event :=
  let status := if success then XSAN_OK else XSAN_ERROR_IO in
  let '(user, status) :=
    match success && rq_is_read rq && rq_dma_internal rq, rq_dma_buffer rq with
    | true, Some dma =>
        match rq_user_buffer rq with
        | Some u => (Some (copy_into u dma (rq_length_bytes rq)), status)
        | None => (None, XSAN_ERROR_INVALID_PARAM)
        end
    | _, _ => (rq_user_buffer rq, status)
    end in
  (user,
   [EvFreeBdevIo] ++
   (if rq_own rq
    then (if rq_channel rq then [EvPutChannel] else []) ++
         (if rq_desc rq then [EvCloseDesc] else [])
    else []) ++
   (if rq_user_cb rq then [EvUserCb status] else []) ++
   xsan_io_request_free rq).

(** ** Submission *)

(** The resources a failing submission gives back when it owns them. *)
Definition release_owned (rq : xsan_io_request) : list io_event :=
  if rq_own rq
  then (if rq_channel rq then [EvPutChannel] else []) ++
       (if rq_desc rq then [EvCloseDesc] else [])
  else [].

(** Steps 3 to 5, with descriptor and channel in place: the request afterwards
    ([None] when it was destroyed), the code and the trace. *)
Definition submit_prepared (env : bdev_env) (rq : xsan_io_request) (bdev_bs : Z) :
    option xsan_io_request * xsan_error_t * list io_event :=
  let physical_io_size := wrap 64 (rq_num_blocks rq * bdev_bs) in
  if negb (rq_length_bytes rq =? physical_io_size)
  then (Some rq, XSAN_ERROR_INVALID_PARAM, release_owned rq) else
  let '(prepared, t) :=
    match rq_dma_buffer rq, rq_dma_internal rq with
    | Some d, false => (Some (rq, d), [])
    | _, _ =>
        if negb (be_dma env) then (None, []) else
        let dma := if rq_is_read rq then replicate (Z.to_nat physical_io_size) 0
                   else copy_into (replicate (Z.to_nat physical_io_size) 0)
                          (default [] (rq_user_buffer rq)) (rq_length_bytes rq) in
        (Some (rq_with_dma rq (Some dma) true, dma), [EvDmaAlloc physical_io_size])
    end in
  match prepared with
  | None => (Some (rq_with_dma rq None (rq_dma_internal rq)), XSAN_ERROR_NO_MEMORY,
             release_owned rq)
  | Some (rq, data) =>
      if negb (rq_is_read rq) && rq_dma_internal rq && negb (bool_decide (is_Some (rq_user_buffer rq)))
      then (Some (rq_with_dma rq None true), XSAN_ERROR_INVALID_PARAM,
            t ++ release_owned rq ++ [EvDmaFree]) else
      if be_submit_rc env =? 0 then
        (Some rq, XSAN_OK,
         t ++ [if rq_is_read rq then EvRead (rq_offset_blocks rq) (rq_num_blocks rq)
               else EvWrite (rq_offset_blocks rq) (rq_num_blocks rq) data])
      else
        let err := if be_submit_rc env =? - ENOMEM then XSAN_ERROR_NO_MEMORY
                   else XSAN_ERROR_IO in
        let freed := rq_dma_internal rq in
        let rq' := if freed then rq_with_dma rq None true else rq in
        (None, err,
         t ++ (if freed then [EvDmaFree] else []) ++ release_owned rq ++
         (if rq_user_cb rq then [EvUserCb err] else []) ++ xsan_io_request_free rq')
  end.

Definition xsan_io_submit_request_to_bdev (env : bdev_env) (rq : xsan_io_request) :
    option xsan_io_request * xsan_error_t * list io_event :=
  if negb (rq_user_cb rq) || bool_decide (rq_bdev_name rq = []) || (rq_num_blocks rq =? 0)
  then (Some rq, XSAN_ERROR_INVALID_PARAM, []) else
  if negb (be_thread env) then (Some rq, XSAN_ERROR_THREAD_CONTEXT, []) else
  match be_bdev env with
  | None => (Some rq, XSAN_ERROR_NOT_FOUND, [])
  | Some bdev_bs =>
      if negb (rq_desc rq) && negb (be_open_rc env =? 0)
      then (Some rq, xsan_error_from_errno (- be_open_rc env), []) else
      let '(rq, t1) :=
        if rq_desc rq then (rq, [])
        else (rq_resources rq true (rq_channel rq) true, [EvOpenDesc]) in
      if negb (rq_channel rq) && negb (be_channel env) then
        (if rq_own rq
         then (Some (rq_resources rq false (rq_channel rq) true), XSAN_ERROR_IO,
               t1 ++ [EvCloseDesc])
         else (Some rq, XSAN_ERROR_IO, t1)) else
      let '(rq, t2) :=
        if rq_channel rq then (rq, t1)
        else (rq_resources rq (rq_desc rq) true (rq_own rq), t1 ++ [EvGetChannel]) in
      let '(rq', e, t3) := submit_prepared env rq bdev_bs in
      (rq', e, t2 ++ t3)
  end.

(** * Theorems *)

(** Number of events of a kind in a trace. *)
Definition count (p : io_event -> bool) (t : list io_event) : Z := Zlen (List.filter p t).

Definition is_user_cb (e : io_event) : bool := match e with EvUserCb _ => true | _ => false end.
Definition is_free_req (e : io_event) : bool := match e with EvFreeReq => true | _ => false end.
Definition is_open (e : io_event) : bool := match e with EvOpenDesc => true | _ => false end.
Definition is_close (e : io_event) : bool := match e with EvCloseDesc => true | _ => false end.
Definition is_get (e : io_event) : bool := match e with EvGetChannel => true | _ => false end.
Definition is_put (e : io_event) : bool := match e with EvPutChannel => true | _ => false end.
Definition is_dma_alloc (e : io_event) : bool :=
  match e with EvDmaAlloc _ => true | _ => false end.
Definition is_dma_free (e : io_event) : bool := match e with EvDmaFree => true | _ => false end.

(** The events of a trace, counted. *)
Definition tally (t : list io_event) : list Z :=
  [count is_user_cb t; count is_free_req t; count is_dma_alloc t; count is_dma_free t;
   count is_open t; count is_close t; count is_get t; count is_put t].

(** A request as the volume manager or a direct caller submits it. *)
Definition submitted (buf : list Z) (off len bs : Z) (is_read desc : bool) (name : cstring) :
    xsan_io_request :=
  IoRequest is_read (Some buf) off len bs (off / bs) (wrap 32 (len / bs)) true name None
    false desc false false XSAN_OK.

Lemma create_submitted buf off len bs is_read name desc rq :
  xsan_io_request_create true (Some buf) off len bs is_read true = Some rq ->
  rq_target rq name desc = submitted buf off len bs is_read desc name /\
  len <> 0 /\ bs <> 0 /\ off mod bs = 0 /\ len mod bs = 0.
Proof.
  unfold xsan_io_request_create, submitted. simpl.
  destruct (Z.eqb_spec len 0), (Z.eqb_spec bs 0); simpl; try done.
  destruct (Z.eqb_spec (off mod bs) 0), (Z.eqb_spec (len mod bs) 0); simpl; try done.
  now intros [= <-].
Qed.

(** The prepared phase of a submission, for a request with a channel. *)
Lemma submit_prepared_tally env buf off len bs is_read name desc own bdev_bs :
  let rq := rq_resources (submitted buf off len bs is_read desc name) true true own in
  let o := if own then 1 else 0 in
  match submit_prepared env rq bdev_bs with
  | (None, e, t) => e <> XSAN_OK /\ tally t = [1; 1; 1; 1; 0; o; 0; o]
  | (Some rq', e, t) =>
      if e =? XSAN_OK
      then tally t = [0; 0; 1; 0; 0; 0; 0; 0] /\
           exists dma, rq' = rq_with_dma rq (Some dma) true
      else tally t = [0; 0; 0; 0; 0; o; 0; o]
  end.
Proof.
  intros rq o. unfold submit_prepared, o.
  destruct (negb _); [destruct own; reflexivity|]. cbn [rq_dma_buffer rq_dma_internal rq].
  destruct (be_dma env); cbn [negb]; [|destruct own; reflexivity].
  destruct is_read; cbn [negb rq_is_read rq_with_dma andb rq_dma_internal rq_user_buffer];
    (destruct (be_submit_rc env =? 0); cbn [rq_is_read];
     [split; [reflexivity|eexists; reflexivity]|]);
    (split; [now destruct (_ =? _)|]); destruct own; reflexivity.
Qed.

Lemma tally_app t1 t2 : tally (t1 ++ t2) = zip_with Z.add (tally t1) (tally t2).
Proof. unfold tally, count. simpl. rewrite !List.filter_app, !Zlen_app. reflexivity. Qed.

Lemma completion_tally buf off len bs is_read name desc own dma success :
  let rq := rq_with_dma (rq_resources (submitted buf off len bs is_read desc name) true true own)
              (Some dma) true in
  let o := if own then 1 else 0 in
  tally (io_spdk_completion_cb rq success).2 = [1; 1; 0; 1; 0; o; 0; o].
Proof. intros rq o. unfold o. destruct success, is_read, own; reflexivity. Qed.

(** The submission up to the channel: it fails without a trace of a callback, or
    reaches the prepared phase with descriptor and channel. *)
Lemma submit_cases env buf off len bs is_read name desc :
  name <> [] ->
  let rq := submitted buf off len bs is_read desc name in
  let own := negb desc in
  let o := if own then 1 else 0 in
  (exists rq' e t, xsan_io_submit_request_to_bdev env rq = (Some rq', e, t) /\
     e <> XSAN_OK /\ (tally t = [0; 0; 0; 0; 0; 0; 0; 0] \/ tally t = [0; 0; 0; 0; 1; 1; 0; 0])) \/
  (exists bdev_bs t, be_bdev env = Some bdev_bs /\
     tally t = [0; 0; 0; 0; o; 0; 1; 0] /\
     xsan_io_submit_request_to_bdev env rq =
       let '(rq', e, t') := submit_prepared env (rq_resources rq true true own) bdev_bs in
       (rq', e, t ++ t')).
Proof.
  intros Hname rq own o. unfold xsan_io_submit_request_to_bdev.
  cbn [rq_user_cb rq submitted negb orb rq_bdev_name].
  rewrite bool_decide_eq_false_2 by done. cbn [orb].
  destruct (_ =? 0); [left; eexists _, _, _; split; [reflexivity|]; split; [done|now left]|].
  destruct (be_thread env); cbn [negb];
    [|left; eexists _, _, _; split; [reflexivity|]; split; [done|now left]].
  destruct (be_bdev env) as [bdev_bs|];
    [|left; eexists _, _, _; split; [reflexivity|]; split; [done|now left]].
  cbn [rq_desc rq submitted]. destruct desc; cbn [negb andb].
  - destruct (be_channel env); cbn [negb andb rq_channel rq_own];
      [|left; eexists _, _, _; split; [reflexivity|]; split; [done|now left]].
    right. exists bdev_bs, [EvGetChannel]. split_and!; reflexivity.
  - destruct (Z.eqb_spec (be_open_rc env) 0) as [_|Hrc]; cbn [negb].
    2:{ left. eexists _, _, _. split; [reflexivity|]. split; [|now left].
        rewrite error_from_errno_ok. lia. }
    destruct (be_channel env); cbn [negb andb rq_channel rq_resources rq_own].
    + right. exists bdev_bs, [EvOpenDesc; EvGetChannel]. split_and!; reflexivity.
    + left. eexists _, _, _. split; [reflexivity|]. split; [done|now right].
Qed.

(** C28: every request that SPDK accepts ends, whatever the device answers, with
    exactly one call of the user's callback, one destruction of the request and
    one release of its DMA buffer; a submission that SPDK rejects has already
    done all three when it returns the error, while every earlier error has done
    none.  A descriptor the request opened itself is closed, and then so is its
    channel; for a request that came with a descriptor, as the volume manager's
    do, the channel that is acquired is never released. *)
Theorem io_request_lifecycle env buf off len bs is_read name (desc : bool) rq :
  name <> [] -> xsan_io_request_create true (Some buf) off len bs is_read true = Some rq ->
  let o := if desc then 0 else 1 in
  match xsan_io_submit_request_to_bdev env (rq_target rq name desc) with
  | (None, e, t) => e <> XSAN_OK /\ tally t = [1; 1; 1; 1; o; o; 1; o]
  | (Some rq', e, t) =>
      if e =? XSAN_OK
      then forall success data,
        tally (t ++ (io_spdk_completion_cb (rq_with_dma rq' (Some data) true) success).2) =
          [1; 1; 1; 1; o; o; 1; o]
      else count is_user_cb t = 0 /\ count is_free_req t = 0 /\
           count is_open t = count is_close t
  end.
Proof.
  intros Hname Hcr o. destruct (create_submitted _ _ _ _ _ name desc _ Hcr) as [-> _].
  destruct (submit_cases env buf off len bs is_read name desc Hname)
    as [(rq' & e & t & -> & He & Ht)|(bdev_bs & t & _ & Ht & ->)].
  - rewrite (proj2 (Z.eqb_neq _ _) He).
    destruct Ht as [Ht|Ht]; injection Ht; intros; repeat split; congruence.
  - pose proof (submit_prepared_tally env buf off len bs is_read name desc (negb desc) bdev_bs)
      as Hp; cbv zeta in Hp.
    destruct (submit_prepared _ _ _) as [[[rq'|] e] t']; unfold o.
    + destruct (Z.eqb_spec e XSAN_OK) as [He|He].
      * destruct Hp as [Hp [dma ->]]. intros success data.
        change (rq_with_dma (rq_with_dma ?r _ _) (Some data) true)
          with (rq_with_dma r (Some data) true).
        rewrite !tally_app, Ht, Hp, completion_tally. now destruct desc.
      * pose proof (tally_app t t') as Ha. rewrite Ht, Hp in Ha.
        destruct desc; cbn [negb zip_with] in Ha; injection Ha; intros; repeat split; lia.
    + destruct Hp as [He Hp]. split; [done|]. rewrite tally_app, Ht, Hp. now destruct desc.
Qed.

Definition good_env : bdev_env := BdevEnv true (Some 512) 0 true true 0.

Lemma io_request_lifecycle_witness :
  exists rq, xsan_io_request_create true (Some [1; 2]) 512 1024 512 false true = Some rq /\
  match xsan_io_submit_request_to_bdev good_env (rq_target rq $"Nvme0n1" true) with
  | (Some rq', e, t) => e = XSAN_OK /\
      tally (t ++ (io_spdk_completion_cb (rq_with_dma rq' (Some []) true) true).2) =
        [1; 1; 1; 1; 0; 0; 1; 0]
  | _ => False
  end.
Proof.
  eexists. split; [reflexivity|].
  pose proof (io_request_lifecycle good_env [1; 2] 512 1024 512 false $"Nvme0n1" true _
                ltac:(done) eq_refl) as H.
  split; [reflexivity|]. exact (H true []).
Defined.

(** ** Data *)

Lemma copy_into_exact dst src n :
  0 <= n -> Zlen dst = n -> n <= Zlen src -> copy_into dst src n = take (Z.to_nat n) src.
Proof.
  intros Hn Hd Hs. unfold copy_into, Zlen in *. rewrite (drop_ge dst) by lia.
  now rewrite app_nil_r.
Qed.

(** C29: what is written to the device is the caller's data, at the requested
    blocks, and a successful read fills exactly the requested bytes of the
    caller's buffer with what the device returned.  The lengths must agree with
    the device's own block size for either to be attempted. *)
Theorem io_data_transfer env buf off len bs (is_read : bool) name desc rq rq' t :
  name <> [] -> xsan_io_request_create true (Some buf) off len bs is_read true = Some rq ->
  0 <= len < 2 ^ 64 -> 0 < bs -> len <= Zlen buf ->
  xsan_io_submit_request_to_bdev env (rq_target rq name desc) = (Some rq', XSAN_OK, t) ->
  exists bdev_bs, be_bdev env = Some bdev_bs /\
    len = wrap 64 (wrap 32 (len / bs) * bdev_bs) /\
    (if is_read
     then EvRead (off / bs) (wrap 32 (len / bs)) ∈ t /\
          forall data, (io_spdk_completion_cb (rq_with_dma rq' (Some data) true) true).1 =
            Some (take (Z.to_nat len) data ++ drop (Z.to_nat len) buf)
     else EvWrite (off / bs) (wrap 32 (len / bs)) (take (Z.to_nat len) buf) ∈ t).
Proof.
  intros Hname Hcr Hlen Hbs Hbuf. destruct (create_submitted _ _ _ _ _ name desc _ Hcr) as [-> _].
  destruct (submit_cases env buf off len bs is_read name desc Hname)
    as [(rq1 & e & t1 & -> & He & _)|(bdev_bs & t1 & Hb & _ & ->)].
  { intros [= -> -> ->]. done. }
  unfold submit_prepared. cbn [rq_resources rq_num_blocks submitted rq_length_bytes
    rq_dma_buffer rq_dma_internal rq_is_read rq_user_buffer].
  destruct (Z.eqb_spec len (wrap 64 (wrap 32 (len / bs) * bdev_bs))) as [Hsz|]; cbn [negb];
    [|done].
  destruct (be_dma env); cbn [negb]; [|done].
  cbn [rq_with_dma rq_is_read rq_dma_internal rq_user_buffer].
  rewrite <- Hsz. destruct is_read; cbn [negb andb].
  - destruct (be_submit_rc env =? 0); [|done]. intros [= <- <-]. exists bdev_bs.
    split_and!; try done. rewrite !elem_of_app. do 2 right. left.
  - rewrite bool_decide_eq_true_2 by eauto. cbn [negb].
    destruct (be_submit_rc env =? 0); [|done]. intros [= <- <-]. exists bdev_bs.
    split_and!; try done. rewrite !elem_of_app. do 2 right.
    cbn [default from_option id]. rewrite copy_into_exact; [left|lia| |lia].
    unfold Zlen. rewrite length_replicate. lia.
Qed.

Lemma io_data_transfer_witness :
  exists rq rq' t, xsan_io_request_create true (Some (replicate 512 7)) 512 512 512 false true
    = Some rq /\
  xsan_io_submit_request_to_bdev good_env (rq_target rq $"Nvme0n1" true) =
    (Some rq', XSAN_OK, t) /\ EvWrite 1 1 (replicate 512 7) ∈ t.
Proof.
  eexists _, _, _. split; [reflexivity|]. split; [reflexivity|].
  destruct (io_data_transfer good_env (replicate 512 7) 512 512 512 false $"Nvme0n1" true
              _ _ _ ltac:(done) eq_refl ltac:(lia) ltac:(lia)
              ltac:(vm_compute; congruence) eq_refl) as (b & _ & _ & H).
  exact H.
Defined.
