(* ===== verification/VolumeIo.v ===== *)
(** * Volume manager: block addressing and local I/O
    ([src/src/storage/volume_manager.c], lines 691-917)

    The translation of a logical block to a disk block through the stored
    allocation map, and the submission of one local I/O.  [xsan_volume_get_by_id]
    is declared but has no definition in the sources; it is a parameter.

    Reads outside an object are explicit: [MapUndef] for an index past the extent
    array, [VUndefined] for a field past the end of a structure.  A trace stops at
    the first of them, since C gives no meaning to what follows. *)

From stdpp Require Import prelude strings gmap.
From Stdlib Require Import ZArith Lia.
From S2P Require Import Prelude Errors StringUtils Json VolumeMeta MetadataStore.
From S2P Require Import Cluster Volume Io.

(** ** Structure layouts *)

(** The fields of a C structure, in order, with size and alignment (LP64). *)
Definition layout := list (string * Z * Z).

Definition round_up (n a : Z) : Z := (n + a - 1) / a * a.

Fixpoint field_end (at_ : Z) (l : layout) (f : string) : option Z :=
  match l with
  | [] => None
  | (g, size, align) :: l =>
      let next := round_up at_ align + size in
      if bool_decide (f = g) then Some next else field_end next l f
  end.

Fixpoint layout_end (at_ : Z) (l : layout) : Z :=
  match l with
  | [] => at_
  | (_, size, align) :: l => layout_end (round_up at_ align + size) l
  end.

Definition sizeof (l : layout) : Z :=
  round_up (layout_end 0 l) (foldr Z.max 1 (map snd l)).

Definition io_request_layout : layout :=
  [("target_volume_id", 16, 1); ("target_disk_id", 16, 1);
   ("target_bdev_name", XSAN_MAX_NAME_LEN, 1); ("is_read_op", 1, 1);
   ("user_buffer", 8, 8); ("user_buffer_offset_bytes", 8, 8); ("offset_bytes", 8, 8);
   ("length_bytes", 8, 8); ("offset_blocks", 8, 8); ("num_blocks", 4, 4);
   ("block_size_bytes", 4, 4); ("user_cb", 8, 8); ("user_cb_arg", 8, 8);
   ("dma_buffer", 8, 8); ("dma_buffer_is_internal", 1, 1); ("dma_buffer_size", 8, 8);
   ("bdev_desc", 8, 8); ("io_channel", 8, 8); ("own_spdk_resources", 1, 1);
   ("status", 4, 4); ("next", 8, 8); ("prev", 8, 8)]%string.

Definition physical_io_ctx_layout : layout :=
  [("io_req", 8, 8); ("actual_upper_cb", 8, 8); ("actual_upper_cb_arg", 8, 8);
   ("original_user_buffer", 8, 8); ("is_read_op", 1, 1); ("length_bytes", 8, 8);
   ("volume_id_for_log", 16, 1)]%string.

(** ** Contexts and completion *)

(** [xsan_vm_physical_io_ctx_t], without the pointer back to the request and the
    identifier used in messages. *)
Record physical_io_ctx := PhysCtx {
  pc_upper_cb : bool;
  pc_user_buffer : option (list Z);
  pc_is_read : bool;
  pc_length : Z
}.

(** What the untyped argument of a completion callback points to. *)
Inductive cb_object :=
  | ObjRequest (rq : xsan_io_request) (arg : physical_io_ctx)
  | ObjPhysCtx (ctx : physical_io_ctx).

Definition cb_object_size (o : cb_object) : Z :=
  match o with
  | ObjRequest _ _ => sizeof io_request_layout
  | ObjPhysCtx _ => sizeof physical_io_ctx_layout
  end.

(** A field of [xsan_io_request_t] can be read through the pointer. *)
Definition request_field_readable (o : cb_object) (f : string) : bool :=
  match field_end 0 io_request_layout f with
  | Some e => e <=? cb_object_size o
  | None => false
  end.

Inductive vio_event :=
  | VIo (e : io_event)
  | VAllocCtx
  | VFreeCtx
  | VUpperCb (status : xsan_error_t)
  | VUndefined.

#[global] Instance vio_event_eq_dec : EqDecision vio_event.
Proof. solve_decision. Defined.

(** The callback casts its argument to a request and reads [user_cb_arg] of it:
    the user's buffer afterwards and the trace. *)
Definition physical_io_complete_cb (arg : cb_object) (status : xsan_error_t) :
    option (list Z) * list vio_event :=
  match request_field_readable arg "user_cb_arg", arg with
  | true, ObjRequest rq ctx =>
      let '(user, status) :=
        if pc_is_read ctx && (status =? XSAN_OK) then
          match rq_dma_buffer rq, pc_user_buffer ctx, rq_dma_internal rq with
          | Some dma, Some u, true => (Some (copy_into u dma (pc_length ctx)), status)
          | _, u, true => (u, XSAN_ERROR_INTERNAL)
          | _, u, false => (u, status)
          end
        else (pc_user_buffer ctx, status) in
      (user, (if pc_upper_cb ctx then [VUpperCb status] else []) ++ [VFreeCtx])
  | _, ObjRequest _ ctx | _, ObjPhysCtx ctx => (pc_user_buffer ctx, [VUndefined])
  end.

(** The events of the I/O layer, in which the user's callback is
    [physical_io_complete_cb] and its argument is [arg]. *)
Fixpoint run_io_events (arg : cb_object) (t : list io_event) : list vio_event :=
  match t with
  | [] => []
  | EvUserCb status :: t =>
      let evs := (physical_io_complete_cb arg status).2 in
      VIo (EvUserCb status) :: evs ++
        (if bool_decide (evs = [VUndefined]) then [] else run_io_events arg t)
  | e :: t => VIo e :: run_io_events arg t
  end.

Section VolumeIo.
Context {JC : JsonC} {SU : SpdkUuid} {SC : StorageCodes}.
Context {St : Type} {MS : MetaStore St} {DM : Type} {DK : DiskManager DM}.
Variable get_by_id : xsan_volume_manager St DM -> uuid -> option xsan_volume.

(** The completion of a pending local I/O: the I/O layer runs the callback on the
    [user_cb_arg] it was given at creation, which is the manager's context.  [dma]
    is the buffer as the device left it. *)
Definition complete_local_io (pending : xsan_io_request * physical_io_ctx) (success : bool)
    (dma : list Z) : list vio_event :=
  run_io_events (ObjPhysCtx pending.2)
    (io_spdk_completion_cb (rq_with_dma pending.1 (Some dma) true) success).2.

(** ** Address translation *)

(** Number of bytes, and of logical blocks of size [lbs], that an extent holds
    on a disk of block size [bs]. *)
Definition extent_bytes (e : xsan_volume_extent_mapping) (bs : Z) : Z :=
  wrap 64 (e_blocks e * bs).
Definition extent_volume_blocks (e : xsan_volume_extent_mapping) (bs lbs : Z) : Z :=
  extent_bytes e bs / lbs.

(** Result of a translation: disk, block on the disk and the disk's block size; an
    error; or a read past the extent array. *)
Inductive map_result :=
  | Mapped (disk : uuid) (block bs : Z)
  | MapError (e : xsan_error_t)
  | MapUndef.

(** The loop over the first [n] elements of the extent array. *)
Fixpoint map_extents (dm : DM) (lbs lba n : Z) (es : list xsan_volume_extent_mapping) :
    map_result :=
  if n <=? 0 then MapError XSAN_ERROR_UNMAPPED_LBA else
  match es with
  | [] => MapUndef
  | e :: es =>
      match find_disk_by_id dm (e_disk e) with
      | None => map_extents dm lbs lba (n - 1) es
      | Some disk =>
          let bs := d_block_size disk in
          if bs =? 0 then map_extents dm lbs lba (n - 1) es else
          let bytes := extent_bytes e bs in
          if (e_vol_lba e <=? lba) &&
             (lba <? wrap 64 (e_vol_lba e + extent_volume_blocks e bs lbs)) then
            let off := wrap 64 ((lba - e_vol_lba e) * lbs) in
            if (bytes <? wrap 64 (off + lbs)) && (off <? bytes)
            then MapError XSAN_ERROR_INTERNAL
            else Mapped (e_disk e) (wrap 64 (e_start e + off / bs)) bs
          else map_extents dm lbs lba (n - 1) es
      end
  end.

Definition xsan_volume_map_lba_to_physical (initialized alloc_ok : bool)
    (m : xsan_volume_manager St DM) (volume_id : uuid) (lba : Z) : map_result :=
  if negb initialized || uuid_is_null volume_id then MapError XSAN_ERROR_INVALID_PARAM else
  match get_by_id m volume_id with
  | None => MapError XSAN_ERROR_NOT_FOUND
  | Some vol =>
      if v_num_blocks vol <=? lba then MapError XSAN_ERROR_OUT_OF_BOUNDS else
      let '(e, js) := ms_get (vm_store m) (alloc_key volume_id) in
      if negb (e =? XSAN_OK)
      then MapError (if e =? XSAN_ERROR_NOT_FOUND then XSAN_ERROR_UNMAPPED_LBA else e) else
      match json_string_to_volume_allocation_meta alloc_ok js with
      | (e, Some am) =>
          if negb (e =? XSAN_OK) then MapError XSAN_ERROR_STORAGE_GENERIC else
          if am_block_size am =? 0 then MapError XSAN_ERROR_STORAGE_GENERIC else
          if am_num_extents am =? 0 then MapError XSAN_ERROR_UNMAPPED_LBA else
          map_extents (vm_dm m) (am_block_size am) lba (am_num_extents am) (am_extents am)
      | (_, None) => MapError XSAN_ERROR_STORAGE_GENERIC
      end
  end.

(** ** One local I/O *)

(** Outcomes of the two allocations of a submission. *)
Record attempt_env := AttemptEnv {
  ae_ctx : bool;
  ae_req : bool;
  ae_meta : bool;
  ae_bdev : bdev_env
}.

Definition io_bounds_bad (vol : xsan_volume) (off len : Z) : bool :=
  (v_block_size vol =? 0) || negb (off mod v_block_size vol =? 0) ||
  negb (len mod v_block_size vol =? 0) || (len =? 0) ||
  (v_size_bytes vol <? wrap 64 (off + len)).

(** The bytes of [target_bdev_name], cleared by the creation of the request, up to
    its terminator after the bounded copy. *)
Definition target_name (name : cstring) : cstring :=
  cstr_of (xsan_strcpy_safe (replicate (Z.to_nat XSAN_MAX_NAME_LEN) NUL) (Some name)
             XSAN_MAX_NAME_LEN).1.

(** The request and context that are pending in the device when the call
    succeeds, the code ([None] when the call has no defined result) and the
    trace. *)
Definition submit_single_io_attempt (env : attempt_env) (initialized : bool)
    (m : xsan_volume_manager St DM) (volume_id : uuid) (off len : Z) (buf : option (list Z))
    (is_read upper_cb : bool) :
    option (xsan_io_request * physical_io_ctx) * option xsan_error_t * list vio_event :=
  let fail (e : xsan_error_t) := (None, Some e, []) in
  if negb initialized then fail XSAN_ERROR_INVALID_PARAM else
  match get_by_id m volume_id with
  | None => fail XSAN_ERROR_NOT_FOUND
  | Some vol =>
      if io_bounds_bad vol off len then fail XSAN_ERROR_INVALID_PARAM_ALIGNMENT else
      match xsan_volume_map_lba_to_physical initialized (ae_meta env) m volume_id
              (off / v_block_size vol) with
      | MapError e => fail e
      | MapUndef => (None, None, [VUndefined])
      | Mapped disk_id block pbs =>
          if pbs =? 0 then fail XSAN_ERROR_STORAGE_GENERIC else
          if negb (len mod pbs =? 0) then fail XSAN_ERROR_INVALID_PARAM_ALIGNMENT else
          match find_disk_by_id (vm_dm m) disk_id with
          | None => fail XSAN_ERROR_STORAGE_GENERIC
          | Some disk =>
              if negb (d_descriptor disk) then fail XSAN_ERROR_RESOURCE_UNAVAILABLE else
              if negb (ae_ctx env) then fail XSAN_ERROR_OUT_OF_MEMORY else
              let ctx := PhysCtx upper_cb buf is_read len in
              match xsan_io_request_create (ae_req env) buf (wrap 64 (block * pbs)) len
                      pbs is_read true with
              | None => (None, Some XSAN_ERROR_OUT_OF_MEMORY, [VAllocCtx; VFreeCtx])
              | Some rq =>
                  let '(rq', e, t) :=
                    xsan_io_submit_request_to_bdev (ae_bdev env)
                      (rq_target rq (target_name (d_bdev_name disk)) true) in
                  let t := VAllocCtx :: run_io_events (ObjPhysCtx ctx) t in
                  if bool_decide (VUndefined ∈ t) then (None, None, t) else
                  if negb (e =? XSAN_OK) then (None, Some e, t ++ [VFreeCtx])
                  else ((fun rq => (rq, ctx)) <$> rq', Some XSAN_OK, t)
              end
          end
      end
  end.

(** * Theorems *)

(** ** Address translation *)

(** An extent whose disk is present and has blocks, and whose arithmetic stays within 64
    bits. *)
Record extent_fits (dm : DM) (lbs : Z) (e : xsan_volume_extent_mapping) (disk : xsan_disk) :
    Prop := {
  ef_disk : find_disk_by_id dm (e_disk e) = Some disk;
  ef_bs : 0 < d_block_size disk;
  ef_start : 0 <= e_start e;
  ef_blocks : 0 <= e_blocks e;
  ef_lba : 0 <= e_vol_lba e;
  ef_bytes : e_blocks e * d_block_size disk + lbs < 2 ^ 64;
  ef_end : e_start e + e_blocks e < 2 ^ 64;
  ef_lba_end : e_vol_lba e + e_blocks e * d_block_size disk / lbs < 2 ^ 64
}.

(** The logical block lies in the extent. *)
Definition in_extent (lbs lba : Z) (e : xsan_volume_extent_mapping) (bs : Z) : Prop :=
  e_vol_lba e <= lba < e_vol_lba e + e_blocks e * bs / lbs.

(** The byte of the disk at which a logical block of the extent starts. *)
Definition block_start (lbs lba : Z) (e : xsan_volume_extent_mapping) (bs : Z) : Z :=
  e_start e * bs + (lba - e_vol_lba e) * lbs.

(** The location of a logical block of the extent: the disk block in which it starts; the
    logical block lies inside the extent. *)
Definition located (lbs lba : Z) (e : xsan_volume_extent_mapping) (p bs : Z) : Prop :=
  p * bs <= block_start lbs lba e bs < p * bs + bs /\
  e_start e <= p /\ block_start lbs lba e bs + lbs <= (e_start e + e_blocks e) * bs.

(** Where the blocks of the disk divide those of the volume, it starts at its start. *)
Lemma located_exact lbs lba e p bs :
  0 < bs -> (bs | lbs) -> located lbs lba e p bs -> p * bs = block_start lbs lba e bs.
Proof.
  unfold located, block_start. intros Hbs [q ->] [H _].
  replace (e_start e * bs + (lba - e_vol_lba e) * (q * bs)) with ((e_start e + (lba - e_vol_lba e) * q) * bs) in * by ring.
  assert (p = e_start e + (lba - e_vol_lba e) * q) as -> by nia. done.
Qed.

Lemma extent_bytes_fits dm lbs e disk :
  0 < lbs -> extent_fits dm lbs e disk ->
  extent_bytes e (d_block_size disk) = e_blocks e * d_block_size disk.
Proof. intros Hl []. apply wrap_small. unfold in_u. nia. Qed.

Lemma extent_range_test dm lbs lba e disk :
  0 < lbs -> extent_fits dm lbs e disk ->
  let bs := d_block_size disk in
  (e_vol_lba e <=? lba) && (lba <? wrap 64 (e_vol_lba e + extent_volume_blocks e bs lbs)) = true
  <-> in_extent lbs lba e bs.
Proof.
  intros Hl Hf bs. unfold extent_volume_blocks, bs.
  rewrite (extent_bytes_fits dm lbs) by done. destruct Hf.
  assert (0 <= e_blocks e * d_block_size disk / lbs) by (apply Z.div_pos; nia).
  rewrite wrap_small by (unfold in_u; lia). unfold in_extent.
  rewrite andb_true_iff, Z.leb_le, Z.ltb_lt. lia.
Qed.

(** A block of the extent ends within the extent. *)
Lemma in_extent_bytes lbs lba e bs :
  0 < lbs -> in_extent lbs lba e bs -> (lba - e_vol_lba e) * lbs + lbs <= e_blocks e * bs.
Proof.
  intros Hl [H1 H2]. pose proof (Z.mul_div_le (e_blocks e * bs) lbs Hl). nia.
Qed.

(** What the body of the loop computes for a block of the extent. *)
Lemma extent_location dm lbs lba e disk :
  0 < lbs -> extent_fits dm lbs e disk -> in_extent lbs lba e (d_block_size disk) ->
  let bs := d_block_size disk in
  let off := wrap 64 ((lba - e_vol_lba e) * lbs) in
  (extent_bytes e bs <? wrap 64 (off + lbs)) = false /\
  located lbs lba e (wrap 64 (e_start e + off / bs)) bs.
Proof.
  intros Hl Hf Hin bs off. pose proof (in_extent_bytes _ _ _ _ Hl Hin) as Hend.
  unfold bs. rewrite (extent_bytes_fits dm lbs) by done. destruct Hin as [Hin _], Hf.
  assert (Hoff : off = (lba - e_vol_lba e) * lbs) by (apply wrap_small; unfold in_u; nia).
  rewrite Hoff. set (o := (lba - e_vol_lba e) * lbs) in *.
  assert (Hq : o / d_block_size disk * d_block_size disk <= o < o / d_block_size disk * d_block_size disk + d_block_size disk).
  { pose proof (Z.div_mod o (d_block_size disk)). pose proof (Z.mod_pos_bound o (d_block_size disk)). lia. }
  assert (0 <= o) by (unfold o; nia).
  assert (0 <= o / d_block_size disk < e_blocks e) by (split; [apply Z.div_pos; lia|nia]).
  rewrite !wrap_small by (unfold in_u; nia). split; [apply Z.ltb_ge; lia|].
  unfold located, block_start. fold o. split_and!; nia.
Qed.

Lemma map_extents_spec dm lbs lba es :
  0 < lbs -> Forall (fun e => exists disk, extent_fits dm lbs e disk) es ->
  match map_extents dm lbs lba (Zlen es) es with
  | Mapped d p bs => exists i e disk, es !! i = Some e /\ extent_fits dm lbs e disk /\
      d = e_disk e /\ bs = d_block_size disk /\ in_extent lbs lba e bs /\ located lbs lba e p bs
  | MapError err => err = XSAN_ERROR_UNMAPPED_LBA /\
      forall e disk, e ∈ es -> extent_fits dm lbs e disk -> ~ in_extent lbs lba e (d_block_size disk)
  | MapUndef => False
  end.
Proof.
  intros Hl. induction es as [|e es IH]; intros Hes; cbn [map_extents].
  { split; [done|]. intros e disk He. now apply not_elem_of_nil in He. }
  apply Forall_cons in Hes as [[disk Hf] Hes]. specialize (IH Hes).
  pose proof (Zlen_nonneg es). rewrite Zlen_cons.
  destruct (Z.leb_spec (1 + Zlen es) 0); [lia|].
  replace (1 + Zlen es - 1) with (Zlen es) by lia.
  rewrite (ef_disk _ _ _ _ Hf).
  destruct (Z.eqb_spec (d_block_size disk) 0) as [Hz|_]; [pose proof (ef_bs _ _ _ _ Hf); lia|].
  cbv zeta. pose proof (extent_range_test dm lbs lba e disk Hl Hf) as Ht; cbv zeta in Ht.
  destruct (_ && _) eqn:Hr in |- *.
  - rewrite Hr in Ht. assert (Hin := proj1 Ht eq_refl).
    destruct (extent_location dm lbs lba e disk Hl Hf Hin) as [-> Hloc]. cbn [andb].
    exists 0%nat, e, disk. done.
  - rewrite Hr in Ht. destruct (map_extents _ _ _ _ _) as [d p bs|err|]; [| |done].
    + destruct IH as (i & e' & disk' & IH). now exists (S i), e', disk'.
    + destruct IH as [-> IH]. split; [done|]. intros e' disk' [->|He']%elem_of_cons Hf'.
      * assert (disk' = disk) as -> by
          (pose proof (ef_disk _ _ _ _ Hf); pose proof (ef_disk _ _ _ _ Hf'); congruence).
        intros Hin. now apply Ht in Hin.
      * now apply IH.
Qed.

Lemma map_extents_app dm lbs lba es rest :
  map_extents dm lbs lba (Zlen es) (es ++ rest) = map_extents dm lbs lba (Zlen es) es.
Proof.
  induction es as [|e es IH]; simpl; [now destruct rest|].
  pose proof (Zlen_nonneg es). rewrite Zlen_cons.
  destruct (Z.leb_spec (1 + Zlen es) 0); [lia|].
  replace (1 + Zlen es - 1) with (Zlen es) by lia. now rewrite IH.
Qed.

(** The allocation map of the volume as the translation reads it back. *)
Record stored_map (alloc_ok : bool) (m : xsan_volume_manager St DM) (id : uuid)
    (am : xsan_volume_allocation_meta) (es : list xsan_volume_extent_mapping) : Prop := {
  sm_id : uuid_is_null id = false;
  sm_read : exists js, ms_get (vm_store m) (alloc_key id) = (XSAN_OK, js) /\
    json_string_to_volume_allocation_meta alloc_ok js = (XSAN_OK, Some am);
  sm_count : am_num_extents am = Zlen es;
  sm_some : es <> [];
  sm_array : exists rest, am_extents am = es ++ rest;
  sm_lbs : 0 < am_block_size am;
  sm_fits : Forall (fun e => exists disk, extent_fits (vm_dm m) (am_block_size am) e disk) es
}.

Lemma map_lba_stored alloc_ok m id vol am es lba :
  get_by_id m id = Some vol -> stored_map alloc_ok m id am es -> lba < v_num_blocks vol ->
  xsan_volume_map_lba_to_physical true alloc_ok m id lba =
    map_extents (vm_dm m) (am_block_size am) lba (Zlen es) es.
Proof.
  intros Hvol [Hid (js & Hget & Hjs) Hn Hes [rest Harr] Hl _] Hlba.
  unfold xsan_volume_map_lba_to_physical. rewrite Hid, Hvol, Hget. cbn [negb orb].
  destruct (Z.leb_spec (v_num_blocks vol) lba); [lia|]. rewrite Hjs, Hn. simpl.
  destruct (Z.eqb_spec (am_block_size am) 0); [lia|].
  destruct (Z.eqb_spec (Zlen es) 0) as [Hz|]; [destruct es; [done|discriminate]|].
  now rewrite Harr, map_extents_app.
Qed.

(** C26: for a volume whose stored extents lie on disks that the disk manager knows, with
    sizes that do not overflow 64 bits, a logical block within
    the volume is translated exactly when some extent holds it.  The result is the
    disk block in which the logical block starts, and the logical block stays inside
    the extent's disk blocks; it starts exactly there if the block size of the disk divides
    that of the volume, and otherwise the code rounds down.  A block that no extent holds
    is reported unmapped, and one past the volume is out of bounds. *)
Theorem lba_translation alloc_ok m id vol am es lba :
  get_by_id m id = Some vol -> stored_map alloc_ok m id am es ->
  let lbs := am_block_size am in
  if v_num_blocks vol <=? lba
  then xsan_volume_map_lba_to_physical true alloc_ok m id lba = MapError XSAN_ERROR_OUT_OF_BOUNDS
  else match xsan_volume_map_lba_to_physical true alloc_ok m id lba with
  | Mapped d p bs => exists i e disk, es !! i = Some e /\ extent_fits (vm_dm m) lbs e disk /\
      d = e_disk e /\ bs = d_block_size disk /\ in_extent lbs lba e bs /\ located lbs lba e p bs /\
      ((bs | lbs) -> p * bs = block_start lbs lba e bs)
  | MapError err => err = XSAN_ERROR_UNMAPPED_LBA /\ forall e disk, e ∈ es ->
      extent_fits (vm_dm m) lbs e disk -> ~ in_extent lbs lba e (d_block_size disk)
  | MapUndef => False
  end.
Proof.
  intros Hvol Hsm lbs. destruct (Z.leb_spec (v_num_blocks vol) lba) as [Hlba|Hlba].
  - unfold xsan_volume_map_lba_to_physical. rewrite (sm_id _ _ _ _ _ Hsm), Hvol. cbn [negb orb].
    destruct (Z.leb_spec (v_num_blocks vol) lba); [done|lia].
  - rewrite (map_lba_stored _ _ _ vol am es) by done.
    pose proof (map_extents_spec (vm_dm m) lbs lba es (sm_lbs _ _ _ _ _ Hsm) (sm_fits _ _ _ _ _ Hsm)) as Hspec.
    fold lbs. destruct (map_extents _ _ _ _ _) as [d p bs|err|]; [|done..].
    destruct Hspec as (i & e & disk & H1 & H2 & -> & -> & H5 & H6). exists i, e, disk. split_and!; try done.
    intros Hdiv. apply located_exact; [exact (ef_bs _ _ _ _ H2)|done|done].
Qed.

(** Extents at different indices do not share blocks of a disk. *)
Definition disk_disjoint (es : list xsan_volume_extent_mapping) : Prop :=
  forall i j e1 e2, i <> j -> es !! i = Some e1 -> es !! j = Some e2 -> e_disk e1 = e_disk e2 ->
    e_start e1 + e_blocks e1 <= e_start e2 \/ e_start e2 + e_blocks e2 <= e_start e1.

(** Two different logical blocks never share a byte of a disk, provided that
    the extents do not overlap on their disks and the blocks of the disk divide those of
    the volume. *)
Theorem lba_no_aliasing alloc_ok m id vol am es lba1 lba2 d p1 p2 bs1 bs2 :
  get_by_id m id = Some vol -> stored_map alloc_ok m id am es -> disk_disjoint es ->
  lba1 < v_num_blocks vol -> lba2 < v_num_blocks vol -> lba1 <> lba2 ->
  xsan_volume_map_lba_to_physical true alloc_ok m id lba1 = Mapped d p1 bs1 ->
  xsan_volume_map_lba_to_physical true alloc_ok m id lba2 = Mapped d p2 bs2 ->
  (bs1 | am_block_size am) ->
  bs1 = bs2 /\ (p1 * bs1 + am_block_size am <= p2 * bs2 \/
                p2 * bs2 + am_block_size am <= p1 * bs1).
Proof.
  intros Hvol Hsm Hdis H1 H2 Hne. rewrite !(map_lba_stored _ _ _ vol am es) by done.
  pose proof (sm_lbs _ _ _ _ _ Hsm) as Hl.
  pose proof (map_extents_spec (vm_dm m) _ lba1 es Hl (sm_fits _ _ _ _ _ Hsm)) as S1.
  pose proof (map_extents_spec (vm_dm m) _ lba2 es Hl (sm_fits _ _ _ _ _ Hsm)) as S2.
  intros E1 E2 Hdiv. rewrite E1 in S1. rewrite E2 in S2.
  destruct S1 as (i & e1 & k1 & Hi & F1 & Hd1 & -> & _ & L1).
  destruct S2 as (j & e2 & k2 & Hj & F2 & Hd2 & -> & _ & L2).
  assert (k2 = k1) as -> by
    (pose proof (ef_disk _ _ _ _ F1); pose proof (ef_disk _ _ _ _ F2); congruence).
  split; [done|]. pose proof (ef_bs _ _ _ _ F1).
  pose proof (located_exact _ _ _ _ _ (ef_bs _ _ _ _ F1) Hdiv L1) as P1.
  pose proof (located_exact _ _ _ _ _ (ef_bs _ _ _ _ F1) Hdiv L2) as P2.
  destruct L1 as (_ & Q1 & R1), L2 as (_ & Q2 & R2). unfold block_start in *.
  destruct (decide (i = j)) as [->|Hij].
  - assert (e2 = e1) as -> by congruence. nia.
  - destruct (Hdis i j e1 e2 Hij Hi Hj ltac:(congruence)); nia.
Qed.

(** ** Local I/O *)

Lemma submit_to_bdev_result env rq rq' e t :
  xsan_io_submit_request_to_bdev env rq = (rq', e, t) ->
  match rq' with
  | None => e <> XSAN_OK
  | Some r => rq_user_cb r = rq_user_cb rq /\ rq_offset_blocks r = rq_offset_blocks rq /\
              rq_num_blocks r = rq_num_blocks rq /\ (e = XSAN_OK -> rq_user_cb rq = true)
  end.
Proof.
  unfold xsan_io_submit_request_to_bdev, submit_prepared.
  destruct (rq_user_cb rq) eqn:Hcb; cbn [negb orb]; [|now intros [= <- <- <-]].
  repeat (case_match; simplify_eq/=); intros; simplify_eq/=; try done;
    repeat (case_match; simplify_eq/=); done.
Qed.

Lemma user_cb_arg_unreadable ctx : request_field_readable (ObjPhysCtx ctx) "user_cb_arg" = false.
Proof. reflexivity. Qed.

Lemma complete_cb_phys ctx st :
  (physical_io_complete_cb (ObjPhysCtx ctx) st).2 = [VUndefined].
Proof. reflexivity. Qed.

Lemma run_io_events_no_upper ctx t st : VUpperCb st ∉ run_io_events (ObjPhysCtx ctx) t.
Proof.
  induction t as [|[] t IH]; cbn [run_io_events]; try (rewrite not_elem_of_cons; done);
    [apply not_elem_of_nil|].
  rewrite complete_cb_phys, bool_decide_eq_true_2 by done.
  rewrite app_nil_r, !not_elem_of_cons. split_and!; try done. apply not_elem_of_nil.
Qed.

Lemma run_io_events_undefined ctx t st :
  EvUserCb st ∈ t -> VUndefined ∈ run_io_events (ObjPhysCtx ctx) t.
Proof.
  induction t as [|e t IH]; intros Hin; [now apply not_elem_of_nil in Hin|].
  apply elem_of_cons in Hin as [<-|Hin].
  - cbn [run_io_events]. rewrite complete_cb_phys. right. apply elem_of_app. left. left.
  - destruct e; cbn [run_io_events]; try (right; now apply IH).
    rewrite complete_cb_phys. right. apply elem_of_app. left. left.
Qed.

Lemma completion_calls_user rq success :
  rq_user_cb rq = true -> exists st, EvUserCb st ∈ (io_spdk_completion_cb rq success).2.
Proof.
  intros Hcb. unfold io_spdk_completion_cb. rewrite Hcb. case_match. eexists. simpl.
  right. rewrite !elem_of_app. right. left.
Qed.

Lemma map_extents_error dm lbs lba n es e :
  map_extents dm lbs lba n es = MapError e -> e <> XSAN_OK.
Proof.
  revert n. induction es as [|x es IH]; intros n; cbn [map_extents]; cbv zeta;
    repeat case_match; intros; simplify_eq; eauto with xsan.
Qed.

Lemma map_lba_error init alloc_ok m id lba e :
  xsan_volume_map_lba_to_physical init alloc_ok m id lba = MapError e -> e <> XSAN_OK.
Proof.
  unfold xsan_volume_map_lba_to_physical.
  repeat case_match; intros; simplify_eq; eauto using map_extents_error with xsan;
    try done; rewrite ?negb_true_iff, ?Z.eqb_neq in *; done.
Qed.

(** C27: no local volume I/O completes.  The completion callback is registered with
    the manager's context as its argument, but casts that argument to a request
    and reads [user_cb_arg], which lies past the end of the context.  So every
    accepted I/O reaches undefined behaviour when the device finishes it, without
    a call of the caller's callback, and so does a submission that the device
    rejects; every other submission fails with an error and no such read, unless
    the allocation map itself is read out of bounds. *)
Theorem local_io_never_completes env init m id off len buf is_read upper_cb :
  match submit_single_io_attempt env init m id off len buf is_read upper_cb with
  | (Some pending, r, _) => r = Some XSAN_OK /\ forall success dma,
      VUndefined ∈ complete_local_io pending success dma /\
      forall st, VUpperCb st ∉ complete_local_io pending success dma
  | (None, Some e, t) => e <> XSAN_OK /\ VUndefined ∉ t /\ forall st, VUpperCb st ∉ t
  | (None, None, t) => VUndefined ∈ t /\ forall st, VUpperCb st ∉ t
  end.
Proof.
  assert (Hnil : forall e : xsan_error_t, e <> XSAN_OK ->
    e <> XSAN_OK /\ VUndefined ∉ [] /\ forall st, VUpperCb st ∉ []).
  { intros e He. split_and!; [done|apply not_elem_of_nil|intros; apply not_elem_of_nil]. }
  unfold submit_single_io_attempt. destruct init; cbn [negb]; [|now apply Hnil].
  destruct (get_by_id m id) as [vol|]; [|now apply Hnil].
  destruct (io_bounds_bad vol off len); [apply Hnil; auto with xsan|].
  destruct (xsan_volume_map_lba_to_physical _ _ _ _ _) as [d p bs|e|] eqn:Hmap;
    [|apply Hnil; eauto using map_lba_error|set_solver].
  destruct (bs =? 0); [now apply Hnil|].
  destruct (negb _); [apply Hnil; auto with xsan|].
  destruct (find_disk_by_id _ d) as [disk|]; [|now apply Hnil].
  destruct (d_descriptor disk); cbn [negb]; [|apply Hnil; auto with xsan].
  destruct (ae_ctx env); cbn [negb]; [|apply Hnil; auto with xsan].
  destruct (xsan_io_request_create _ _ _ _ _ _ _) as [rq|] eqn:Hcr;
    [|split_and!; [auto with xsan|set_solver|set_solver]].
  destruct (xsan_io_submit_request_to_bdev _ _) as [[rq' e] t] eqn:Hsub.
  apply submit_to_bdev_result in Hsub.
  set (ctx := PhysCtx upper_cb buf is_read len).
  pose proof (run_io_events_no_upper ctx t) as Hup.
  destruct (bool_decide_reflect (VUndefined ∈ VAllocCtx :: run_io_events (ObjPhysCtx ctx) t))
    as [Hu|Hu]; [set_solver|].
  destruct (Z.eqb_spec e XSAN_OK) as [He|He]; cbn [negb]; [|set_solver].
  destruct rq' as [rq'|]; [|done]. cbn [fmap option_fmap option_map].
  split; [done|]. intros success dma. destruct Hsub as (Hcb & _ & _ & Hok).
  destruct (completion_calls_user (rq_with_dma rq' (Some dma) true) success) as [st Hst];
    [simpl; rewrite Hcb; auto|].
  unfold complete_local_io. split; [exact (run_io_events_undefined _ _ _ Hst)|].
  apply run_io_events_no_upper.
Qed.

(** An accepted local I/O is one contiguous range of one disk.  It starts at
    the location of its first logical block and is as long as the whole I/O;
    the locations of the other blocks are not consulted. *)
Theorem local_io_single_range env m id vol off len buf is_read upper_cb pending t :
  get_by_id m id = Some vol ->
  submit_single_io_attempt env true m id off len buf is_read upper_cb =
    (Some pending, Some XSAN_OK, t) ->
  exists d p bs,
    xsan_volume_map_lba_to_physical true (ae_meta env) m id (off / v_block_size vol) =
      Mapped d p bs /\
    rq_offset_blocks pending.1 = wrap 64 (p * bs) / bs /\
    rq_num_blocks pending.1 = wrap 32 (len / bs).
Proof.
  intros Hvol. unfold submit_single_io_attempt. rewrite Hvol. cbn [negb].
  destruct (io_bounds_bad vol off len); [done|].
  destruct (xsan_volume_map_lba_to_physical _ _ _ _ _) as [d p bs|e|] eqn:Hmap; try done.
  destruct (bs =? 0); [done|]. destruct (negb _); [done|].
  destruct (find_disk_by_id _ d) as [disk|]; [|done].
  destruct (negb _); [done|]. destruct (negb _); [done|].
  destruct (xsan_io_request_create _ _ _ _ _ _ _) as [rq|] eqn:Hcr; [|done].
  destruct (xsan_io_submit_request_to_bdev _ _) as [[rq' e] t'] eqn:Hsub.
  apply submit_to_bdev_result in Hsub.
  destruct (bool_decide _); [done|]. destruct (negb _); [done|].
  destruct rq' as [rq'|]; [|done]. intros [= <- _]. exists d, p, bs. split; [done|].
  destruct Hsub as (_ & Ho & Hn & _). simpl. rewrite Ho, Hn. revert Hcr.
  unfold xsan_io_request_create. repeat case_match; intros; simplify_eq; done.
Qed.

End VolumeIo.

(** ** Witnesses *)

#[local] Instance toy_store : MetaStore mem_db := rocksdb_meta_store (fun _ => true).

(** A volume of four blocks in two extents that are apart on disk 3. *)
Definition split_extents : list xsan_volume_extent_mapping := [Extent 3 0 2 0; Extent 3 10 2 2].
Definition split_meta : xsan_volume_allocation_meta :=
  AllocMeta 7 9 2 (array 8 extent0 split_extents) 4 512.
Definition split_volume : xsan_volume :=
  Volume 7 $"split" 2048 512 4 XSAN_STORAGE_STATE_ONLINE 9 false 4 0 1 (array 3 replica0 []).
Definition split_vm : xsan_volume_manager mem_db Z :=
  Vm [split_volume] 0
    (MemDb {[alloc_key 7 :=
       default [] (volume_allocation_meta_to_json_string true split_meta).2]} false) false [].
Definition by_id (m : xsan_volume_manager mem_db Z) (id : uuid) : option xsan_volume :=
  snd <$> list_find (fun v => v_id v = id) (vm_volumes m).
Definition ok_env : attempt_env := AttemptEnv true true true good_env.

Lemma split_fits : Forall (fun e => exists disk, extent_fits 0 512 e disk) split_extents.
Proof.
  repeat apply Forall_cons_2; try apply Forall_nil_2;
    exists (Disk 3 $"Nvme0n1" 512 true); (constructor; [reflexivity|reflexivity|vm_compute; congruence..]).
Defined.

Lemma split_read :
  (json_string_to_volume_allocation_meta true
     (ms_get (vm_store split_vm) (alloc_key 7)).2).2 = Some split_meta /\
  (ms_get (vm_store split_vm) (alloc_key 7)).1 = XSAN_OK.
Proof. split; vm_compute; reflexivity. Qed.

Lemma parsed_ok {JC : JsonC} {SU : SpdkUuid} alloc_ok js am :
  (json_string_to_volume_allocation_meta alloc_ok js).2 = Some am ->
  json_string_to_volume_allocation_meta alloc_ok js = (XSAN_OK, Some am).
Proof.
  unfold json_string_to_volume_allocation_meta.
  repeat case_match; simpl; intros; simplify_eq; done.
Qed.

Lemma split_stored : stored_map true split_vm 7 split_meta split_extents.
Proof.
  constructor; [reflexivity| |reflexivity|discriminate| |reflexivity|exact split_fits].
  - exists (ms_get (vm_store split_vm) (alloc_key 7)).2. split.
    + rewrite <- (proj2 split_read). apply surjective_pairing.
    + apply parsed_ok, split_read.
  - now exists (replicate 6 extent0).
Qed.

Lemma split_map lba :
  lba < 4 -> xsan_volume_map_lba_to_physical by_id true true split_vm 7 lba =
    map_extents 0 512 lba 2 split_extents.
Proof. exact (map_lba_stored by_id true split_vm 7 split_volume _ _ lba eq_refl split_stored). Qed.

Lemma split_disjoint : disk_disjoint split_extents.
Proof.
  intros [|[|i]] [|[|j]] e1 e2 Hij H1 H2 _; simplify_eq/=; try done; lia.
Defined.

(** Block 3 is the second block of the second extent; block 4 is past the volume. *)
Lemma lba_translation_witness :
  (exists e p, e ∈ split_extents /\ e_start e = 10 /\
     xsan_volume_map_lba_to_physical by_id true true split_vm 7 3 = Mapped 3 p 512 /\
     p * 512 = block_start 512 3 e 512) /\
  xsan_volume_map_lba_to_physical by_id true true split_vm 7 4 =
    MapError XSAN_ERROR_OUT_OF_BOUNDS.
Proof.
  split; [|exact (lba_translation by_id true split_vm 7 split_volume split_meta split_extents 4
                    eq_refl split_stored)].
  pose proof (lba_translation by_id true split_vm 7 split_volume split_meta split_extents 3
                eq_refl split_stored) as H.
  assert (Hm : xsan_volume_map_lba_to_physical by_id true true split_vm 7 3 = Mapped 3 11 512)
    by (rewrite split_map; reflexivity).
  change (v_num_blocks split_volume <=? 3) with false in H. cbv zeta iota in H. rewrite Hm in H.
  destruct H as (i & e & disk & Hi & _ & _ & _ & Hin & _ & Hp).
  exists e, 11. split; [eapply list_elem_of_lookup_2, Hi|].
  split; [|split; [exact Hm|apply Hp; exists 1; reflexivity]].
  revert Hi Hin. clear. intros Hi [_ Hin]. destruct i as [|[|i]]; [|injection Hi as <-; reflexivity|discriminate Hi].
  injection Hi as <-. discriminate Hin.
Defined.

Lemma lba_no_aliasing_witness :
  512 = 512 /\ (1 * 512 + 512 <= 10 * 512 \/ 10 * 512 + 512 <= 1 * 512).
Proof.
  apply (lba_no_aliasing by_id true split_vm 7 split_volume split_meta split_extents
           1 2 3 1 10 512 512 eq_refl split_stored split_disjoint);
    [reflexivity|reflexivity|discriminate|rewrite split_map; reflexivity..|exists 1; reflexivity].
Defined.

Lemma split_submit :
  exists pending t,
    submit_single_io_attempt by_id ok_env true split_vm 7 512 1024 (Some []) false true =
      (Some pending, Some XSAN_OK, t).
Proof.
  eexists _, _. unfold submit_single_io_attempt.
  change (by_id split_vm 7) with (Some split_volume). cbn [negb].
  change (io_bounds_bad split_volume 512 1024) with false. cbn iota.
  change (512 / v_block_size split_volume) with 1.
  change (ae_meta ok_env) with true. rewrite split_map by reflexivity.
  vm_compute. reflexivity.
Qed.

(** A write of blocks 1 and 2 goes to disk blocks 1 and 2, although block 2 of the
    volume is at disk block 10 and disk block 2 belongs to no extent. *)
Lemma local_io_single_range_witness :
  exists pending t,
    submit_single_io_attempt by_id ok_env true split_vm 7 512 1024 (Some []) false true =
      (Some pending, Some XSAN_OK, t) /\
    rq_offset_blocks pending.1 = 1 /\ rq_num_blocks pending.1 = 2 /\
    xsan_volume_map_lba_to_physical by_id true true split_vm 7 2 = Mapped 3 10 512.
Proof.
  destruct split_submit as (pending & t & Hs). exists pending, t. split; [exact Hs|].
  destruct (local_io_single_range by_id ok_env split_vm 7 split_volume 512 1024
    (Some []) false true pending t eq_refl Hs) as (d & p & bs & Hmap & -> & ->).
  change (512 / v_block_size split_volume) with 1 in Hmap.
  change (ae_meta ok_env) with true in Hmap. rewrite split_map in Hmap by reflexivity.
  rewrite split_map by reflexivity.
  injection Hmap as <- <- <-. split_and!; reflexivity.
Defined.
