(* ===== verification/Config.v ===== *)
(** * Configuration store ([src/src/utils/config.c])

    The items are the linked list of the source, newest first.  A string item
    whose copy could not be allocated keeps the type with a null value, which is
    [CString None].  Floating-point values are an abstract type with the parser and
    printer of the source as parameters.  [None] as the result of an operation
    means that it reads memory it must not read. *)

From stdpp Require Import prelude strings gmap.
From Stdlib Require Import ZArith Lia Ascii.
From S2P Require Import Prelude StringUtils.

Section Config.
Context {D : Type}.
Variable str_to_double : cstring -> option D.
Variable print_double : D -> cstring.

Inductive config_value :=
  | CString (s : option cstring)
  | CInt (n : Z)
  | CLong (n : Z)
  | CDouble (d : D)
  | CBool (b : bool).

Record xsan_config := Config {
  cf_items : list (cstring * config_value);
  cf_count : Z;
  cf_file : option cstring;
  cf_auto_reload : bool;
  cf_modified : Z
}.

Definition with_items (c : xsan_config) (l : list (cstring * config_value)) (n : Z) :=
  Config l n (cf_file c) (cf_auto_reload c) (cf_modified c).

(** Outcomes of the allocations of one call of [set_config_item], and of the copy
    that the boolean parser makes before it. *)
Record set_alloc := SetAlloc {
  sa_item : bool;
  sa_key : bool;
  sa_value : bool;
  sa_lower : bool
}.
Definition all_ok : set_alloc := SetAlloc true true true true.

(** ** Items *)

Fixpoint find_item (l : list (cstring * config_value)) (key : cstring) : option config_value :=
  match l with
  | [] => None
  | (k, v) :: l => if decide (k = key) then Some v else find_item l key
  end.

(** Overwriting the value of the first item with the key. *)
Fixpoint update_item (l : list (cstring * config_value)) (key : cstring) (v : config_value) :
    list (cstring * config_value) :=
  match l with
  | [] => []
  | (k, w) :: l => if decide (k = key) then (k, v) :: l else (k, w) :: update_item l key v
  end.

Fixpoint remove_item (l : list (cstring * config_value)) (key : cstring) :
    option (list (cstring * config_value)) :=
  match l with
  | [] => None
  | (k, w) :: l => if decide (k = key) then Some l else cons (k, w) <$> remove_item l key
  end.

(** The value as it is stored, and whether storing it succeeded. *)
Definition stored_value (a : set_alloc) (v : config_value) : config_value * bool :=
  match v with
  | CString (Some s) => if sa_value a then (v, true) else (CString None, false)
  | _ => (v, true)
  end.

(** Update of the item with the key, or a new item in front. *)
Definition put_item (a : set_alloc) (c : xsan_config) (key : cstring) (w : config_value)
    (ok : bool) : xsan_config * bool :=
  match find_item (cf_items c) key with
  | Some _ => (with_items c (update_item (cf_items c) key w) (cf_count c), ok)
  | None =>
      if negb (sa_item a && sa_key a) then (c, false) else
      (with_items c ((key, w) :: cf_items c) (wrap 64 (cf_count c + 1)), ok)
  end.

Definition set_config_item (a : set_alloc) (c : xsan_config) (key : option cstring)
    (v : config_value) : xsan_config * bool :=
  match key, v with
  | None, _ | _, CString None => (c, false)
  | Some key, _ => let '(w, ok) := stored_value a v in put_item a c key w ok
  end.

Definition xsan_config_set_string (a : set_alloc) (c : xsan_config) (key value : option cstring) :
    xsan_config * bool := set_config_item a c key (CString value).
Definition xsan_config_set_int (a : set_alloc) (c : xsan_config) (key : option cstring) (value : Z) :
    xsan_config * bool := set_config_item a c key (CInt value).
Definition xsan_config_set_long (a : set_alloc) (c : xsan_config) (key : option cstring) (value : Z) :
    xsan_config * bool := set_config_item a c key (CLong value).
Definition xsan_config_set_double (a : set_alloc) (c : xsan_config) (key : option cstring) (value : D) :
    xsan_config * bool := set_config_item a c key (CDouble value).
Definition xsan_config_set_bool (a : set_alloc) (c : xsan_config) (key : option cstring) (value : bool) :
    xsan_config * bool := set_config_item a c key (CBool value).

Definition xsan_config_create (alloc_ok : bool) : option xsan_config :=
  if alloc_ok then Some (Config [] 0 None false 0) else None.

Definition find_config_item (c : xsan_config) (key : option cstring) : option config_value :=
  key ≫= find_item (cf_items c).

Definition xsan_config_get_string (c : xsan_config) (key dflt : option cstring) :
    option cstring :=
  match find_config_item c key with Some (CString s) => s | _ => dflt end.
Definition xsan_config_get_int (c : xsan_config) (key : option cstring) (dflt : Z) : Z :=
  match find_config_item c key with Some (CInt n) => n | _ => dflt end.
Definition xsan_config_get_long (c : xsan_config) (key : option cstring) (dflt : Z) : Z :=
  match find_config_item c key with Some (CLong n) => n | _ => dflt end.
Definition xsan_config_get_double (c : xsan_config) (key : option cstring) (dflt : D) : D :=
  match find_config_item c key with Some (CDouble d) => d | _ => dflt end.
Definition xsan_config_get_bool (c : xsan_config) (key : option cstring) (dflt : bool) : bool :=
  match find_config_item c key with Some (CBool b) => b | _ => dflt end.

Definition xsan_config_has_key (c : xsan_config) (key : option cstring) : bool :=
  bool_decide (is_Some (find_config_item c key)).

Definition xsan_config_remove_key (c : xsan_config) (key : option cstring) :
    xsan_config * bool :=
  match key ≫= remove_item (cf_items c) with
  | Some l => (with_items c l (wrap 64 (cf_count c - 1)), true)
  | None => (c, false)
  end.

Definition xsan_config_clear (c : xsan_config) : xsan_config := with_items c [] 0.
Definition xsan_config_get_item_count (c : xsan_config) : Z := cf_count c.
Definition xsan_config_set_auto_reload (c : xsan_config) (b : bool) : xsan_config :=
  Config (cf_items c) (cf_count c) (cf_file c) b (cf_modified c).

(** [stat] is the modification time, [None] when it fails. *)
Definition xsan_config_is_modified (stat : option Z) (c : xsan_config) : bool :=
  match cf_file c, stat with Some _, Some t => cf_modified c <? t | _, _ => false end.

(** ** Loading *)

(** The type of a value is the first whose parser accepts the text. *)
Definition parse_value (a : set_alloc) (s : cstring) : config_value :=
  match xsan_str_to_int (Some s) with
  | Some n => CInt n
  | None =>
      match xsan_str_to_long (Some s) with
      | Some n => CLong n
      | None =>
          match str_to_double s with
          | Some d => CDouble d
          | None =>
              match xsan_str_to_bool (fun _ => sa_lower a) (Some s) with
              | Some b => CBool b
              | None => CString (Some s)
              end
          end
      end
  end.

(** Lines the parser accepts are stored, [al] giving the allocations of each. *)
Fixpoint load_lines (al : nat -> set_alloc) (i : nat) (lines : list cstring)
    (c : xsan_config) : xsan_config :=
  match lines with
  | [] => c
  | line :: lines =>
      let c :=
        match xsan_parse_config_line (Some line) [] [] 256 512 with
        | (true, k, v) => (set_config_item (al i) c (Some k) (parse_value (al i) v)).1
        | _ => c
        end in
      load_lines al (S i) lines c
  end.

(** [fgets] with a buffer of [room + 1] bytes: up to [room] characters, ending
    after a newline. *)
Fixpoint fgets (room : nat) (text : cstring) : cstring * cstring :=
  match room, text with
  | S room, c :: text =>
      if decide (c = "010"%char) then ([c], text)
      else let '(l, rest) := fgets room text in (c :: l, rest)
  | _, _ => ([], text)
  end.

(** Every call consumes a character, so the length of the text is enough fuel. *)
Fixpoint fgets_lines (fuel : nat) (text : cstring) : list cstring :=
  match fuel, text with
  | S fuel, _ :: _ =>
      let '(l, rest) := fgets 1023 text in cstr_of l :: fgets_lines fuel rest
  | _, _ => []
  end.

(** [file] is the content and modification time of the file ([None] when it cannot
    be opened or examined), [own_path] says that the path is the buffer
    [config->config_file], which is freed before it is copied. *)
Definition xsan_config_load_from_file (al : nat -> set_alloc) (dup_ok own_path : bool)
    (file : option cstring) (stat : option Z) (c : xsan_config) (path : option cstring) :
    option (xsan_config * bool) :=
  match path, file with
  | None, _ | _, None => Some (c, false)
  | Some path, Some text =>
      if own_path then None else
      let c := Config (cf_items c) (cf_count c) (if dup_ok then Some path else None)
                 (cf_auto_reload c) (default (cf_modified c) stat) in
      Some (load_lines al 0 (fgets_lines (length text) text) (xsan_config_clear c), true)
  end.

Definition xsan_config_reload (al : nat -> set_alloc) (dup_ok : bool) (file : option cstring)
    (stat : option Z) (c : xsan_config) : option (xsan_config * bool) :=
  match cf_file c with
  | None => Some (c, false)
  | Some path => xsan_config_load_from_file al dup_ok true file stat c (Some path)
  end.

(** The tokens of [strtok] with the newline as delimiter. *)
Fixpoint newline_tokens (fuel : nat) (s : cstring) : list cstring :=
  match fuel, strtok ["010"%char] s with
  | S fuel, Some (t, rest) => t :: newline_tokens fuel rest
  | _, _ => []
  end.

Definition xsan_config_load_from_string (al : nat -> set_alloc) (dup_ok : bool)
    (c : xsan_config) (s : option cstring) : xsan_config * bool :=
  match s with
  | None => (c, false)
  | Some s =>
      let c := xsan_config_clear c in
      if negb dup_ok then (c, false) else
      (load_lines al 0 (newline_tokens (S (length s)) s) c, true)
  end.

(** ** Saving *)

Definition print_value (v : config_value) : option cstring :=
  match v with
  | CString s => s
  | CInt n | CLong n => Some (print_signed n)
  | CDouble d => Some (print_double d)
  | CBool b => Some (if b then $"true" else $"false")
  end.

Definition item_line (kv : cstring * config_value) : option cstring :=
  p ← print_value kv.2; Some (kv.1 ++ $" = " ++ p ++ ["010"%char]).

(** The text written by [xsan_config_save_to_file]; [stamp] is the result of
    [ctime].  Printing a null string with [%s] is not defined. *)
Definition saved_text (stamp : cstring) (c : xsan_config) : option cstring :=
  lines ← mapM item_line (cf_items c);
  Some (($"# XSAN Configuration File" ++ ["010"%char]) ++
        ($"# Generated at " ++ stamp ++ ["010"%char]) ++ ["010"%char] ++ concat lines).

Definition xsan_config_save_to_file (open_ok : bool) (stamp : cstring) (c : xsan_config)
    (path : option cstring) : option (option cstring * bool) :=
  match path with
  | None => Some (None, false)
  | Some _ =>
      if negb open_ok then Some (None, false) else
      text ← saved_text stamp c; Some (Some text, true)
  end.

(** ** Validation *)

Definition xsan_config_validate (c : xsan_config) : bool :=
  let port := xsan_config_get_int c (Some $"node.port") 0 in
  let replicas := xsan_config_get_int c (Some $"storage.replication_factor") 0 in
  let quorum := xsan_config_get_int c (Some $"cluster.quorum_size") 0 in
  xsan_config_has_key c (Some $"node.id") && xsan_config_has_key c (Some $"node.name") &&
  negb ((port <? 1024) || (65535 <? port)) && negb ((replicas <? 1) || (10 <? replicas)) &&
  negb (quorum <? 1).

(** * Theorems *)

(** ** The store as a map *)

Inductive config_op :=
  | OpSet (a : set_alloc) (key : cstring) (v : config_value)
  | OpRemove (key : cstring)
  | OpClear
  | OpFind (key : cstring)
  | OpCount.

Inductive config_out :=
  | OutBool (b : bool)
  | OutValue (v : option config_value)
  | OutCount (n : Z)
  | OutNone.

Definition config_step (c : xsan_config) (op : config_op) : xsan_config * config_out :=
  match op with
  | OpSet a k v => let '(c, b) := set_config_item a c (Some k) v in (c, OutBool b)
  | OpRemove k => let '(c, b) := xsan_config_remove_key c (Some k) in (c, OutBool b)
  | OpClear => (xsan_config_clear c, OutNone)
  | OpFind k => (c, OutValue (find_config_item c (Some k)))
  | OpCount => (c, OutCount (xsan_config_get_item_count c))
  end.

(** The specification: a finite map.  Setting a key replaces its value; a new key
    is refused when its item or name cannot be allocated, and a string that cannot
    be copied leaves a null value behind. *)
Definition map_step (m : gmap cstring config_value) (op : config_op) :
    gmap cstring config_value * config_out :=
  match op with
  | OpSet a k v =>
      match v with
      | CString None => (m, OutBool false)
      | _ =>
          if bool_decide (m !! k = None) && negb (sa_item a && sa_key a)
          then (m, OutBool false)
          else (<[k := (stored_value a v).1]> m, OutBool (stored_value a v).2)
      end
  | OpRemove k => (delete k m, OutBool (bool_decide (is_Some (m !! k))))
  | OpClear => (∅, OutNone)
  | OpFind k => (m, OutValue (m !! k))
  | OpCount => (m, OutCount (wrap 64 (Z.of_nat (size m))))
  end.

(** The list represents the map: no key twice, and the stored count is its length. *)
Record config_rep (c : xsan_config) (m : gmap cstring config_value) : Prop := {
  rep_nodup : NoDup (cf_items c).*1;
  rep_map : m = list_to_map (cf_items c);
  rep_count : cf_count c = wrap 64 (Zlen (cf_items c))
}.

Lemma find_item_map l k : find_item l k = (list_to_map l : gmap cstring config_value) !! k.
Proof.
  induction l as [|[k' v] l IH]; simpl; [now rewrite lookup_empty|].
  destruct (decide (k' = k)) as [->|Hne]; [now rewrite lookup_insert_eq|].
  now rewrite lookup_insert_ne.
Qed.

Lemma update_item_keys l k v : (update_item l k v).*1 = l.*1.
Proof.
  induction l as [|[k' w] l IH]; simpl; [done|].
  destruct (decide (k' = k)); simpl; [done|]. f_equal. exact IH.
Qed.

Lemma update_item_len l k v : Zlen (update_item l k v) = Zlen l.
Proof.
  induction l as [|[k' w] l IH]; simpl; [done|].
  destruct (decide (k' = k)); rewrite !Zlen_cons; [done|]. now rewrite IH.
Qed.

Lemma update_item_map l k v :
  is_Some (find_item l k) ->
  list_to_map (update_item l k v) = <[k := v]> (list_to_map l : gmap cstring config_value).
Proof.
  induction l as [|[k' w] l IH]; simpl; [now intros [? ?]|].
  destruct (decide (k' = k)) as [->|Hne]; intros Hs; simpl.
  - now rewrite insert_insert_eq.
  - rewrite IH by done. now apply insert_insert_ne.
Qed.

Lemma remove_item_spec l k :
  NoDup l.*1 ->
  match remove_item l k with
  | None => find_item l k = None
  | Some l' => is_Some (find_item l k) /\ sublist l'.*1 l.*1 /\ Zlen l = 1 + Zlen l' /\
      list_to_map l' = delete k (list_to_map l : gmap cstring config_value)
  end.
Proof.
  induction l as [|[k' w] l IH]; simpl; [done|]. intros [Hk Hnd]%NoDup_cons.
  destruct (decide (k' = k)) as [->|Hne].
  - split_and!; [eauto|now apply sublist_cons|apply Zlen_cons|].
    rewrite delete_insert_id; [done|]. now apply not_elem_of_list_to_map_1.
  - specialize (IH Hnd). destruct (remove_item l k) as [l'|]; simpl; [|done].
    destruct IH as (Hf & Hs & Hl & ->). split_and!; [done|now apply sublist_skip| |].
    + rewrite !Zlen_cons. lia.
    + now rewrite delete_insert_ne.
Qed.

Lemma list_to_map_size (l : list (cstring * config_value)) :
  NoDup l.*1 -> Z.of_nat (size (list_to_map l : gmap cstring config_value)) = Zlen l.
Proof.
  induction l as [|[k v] l IH]; simpl; [done|]. intros [Hk Hnd]%NoDup_cons.
  rewrite map_size_insert_None by now apply not_elem_of_list_to_map_1.
  rewrite Zlen_cons, <- IH by done. lia.
Qed.

Lemma wrap_succ n : wrap 64 (wrap 64 n + 1) = wrap 64 (1 + n).
Proof. unfold wrap. rewrite Zplus_mod_idemp_l. f_equal. lia. Qed.

Lemma wrap_pred n : wrap 64 (wrap 64 (1 + n) - 1) = wrap 64 n.
Proof. unfold wrap. rewrite Zminus_mod_idemp_l. f_equal. lia. Qed.

Lemma put_item_refines a c m k w ok :
  config_rep c m ->
  let s := if bool_decide (m !! k = None) && negb (sa_item a && sa_key a)
    then (m, false) else (<[k := w]> m, ok) in
  config_rep (put_item a c k w ok).1 s.1 /\ (put_item a c k w ok).2 = s.2.
Proof.
  intros [Hnd -> Hc]. unfold put_item. cbv zeta. rewrite <- find_item_map.
  destruct (find_item (cf_items c) k) as [u|] eqn:Hf.
  - rewrite bool_decide_eq_false_2 by done. simpl. split; [|done]. constructor; simpl.
    + now rewrite update_item_keys.
    + rewrite update_item_map; eauto.
    + now rewrite Hc, update_item_len.
  - rewrite bool_decide_eq_true_2 by done. cbn [andb].
    destruct (sa_item a && sa_key a); simpl; [|now split].
    split; [|done]. constructor; simpl; [|done|].
    + apply NoDup_cons. split; [|done]. apply not_elem_of_list_to_map_2.
      now rewrite <- find_item_map.
    + now rewrite Hc, wrap_succ, Zlen_cons.
Qed.

#[local] Instance config_refines : Refines config_step map_step config_rep.
Proof.
  intros c m op Hrep. destruct op as [a k v|k| |k|]; simpl.
  - unfold set_config_item. destruct v as [[s|]|n|n|d|b]; [|now split|..];
      match goal with |- context [stored_value a ?v] =>
        destruct (stored_value a v) as [w ok] end;
      destruct (put_item_refines a c m k w ok Hrep) as [H1 H2];
      destruct (put_item a c k w ok) as [c' b']; destruct (_ && _); simpl in *; now subst.
  - pose proof (remove_item_spec (cf_items c) k (rep_nodup _ _ Hrep)) as H.
    destruct Hrep as [Hnd -> Hc]. unfold xsan_config_remove_key. simpl.
    destruct (remove_item (cf_items c) k) as [l|].
    + destruct H as (Hs & Hsub & Hl & Hm). rewrite <- find_item_map.
      rewrite bool_decide_eq_true_2 by done. split; [|done]. constructor; simpl; [|done|].
      * exact (sublist_NoDup _ _ Hnd Hsub).
      * now rewrite Hc, Hl, wrap_pred.
    + rewrite <- find_item_map, H, bool_decide_eq_false_2 by (now intros [? ?]).
      rewrite delete_id by now rewrite <- find_item_map. now split.
  - split; [|done]. now constructor; simpl; [apply NoDup_nil_2| |].
  - split; [done|]. destruct Hrep as [_ -> _]. now rewrite find_item_map.
  - split; [done|]. destruct Hrep as [Hnd -> Hc]. unfold xsan_config_get_item_count.
    now rewrite Hc, list_to_map_size.
Qed.

(** C18: a configuration behaves as a finite map from keys to typed values: every
    sequence of settings, removals, clearings, lookups and counts, with any outcome
    of the allocations, gives the answers of the map. *)
Theorem config_is_map ops :
  (run config_step (Config [] 0 None false 0) ops).2 = (run map_step ∅ ops).2.
Proof.
  apply (run_refines config_step map_step config_rep).
  constructor; simpl; [apply NoDup_nil_2|done|done].
Qed.

(** ** Saving and loading *)

Abbreviation nl := "010"%char.

(** Text that fits a line: no newline, no terminator. *)
Definition one_line (s : cstring) : Prop := nl ∉ s /\ NUL ∉ s.

Definition key_ok (k : cstring) : Prop :=
  trimmed k /\ Zlen k < 256 /\ ("="%char ∉ k) /\ head k <> Some "#"%char /\ one_line k.

Definition text_ok (p : cstring) : Prop := trimmed p /\ Zlen p < 512 /\ one_line p.

(** Values whose printed form is read back with the same type: long integers
    outside the range of [int], and strings that no other parser accepts. *)
Definition survives (v : config_value) : Prop :=
  match v with
  | CInt n => INT_MIN <= n <= INT_MAX
  | CLong n => LONG_MIN <= n <= LONG_MAX /\ ~ INT_MIN <= n <= INT_MAX
  | CBool _ => True
  | CDouble _ | CString None => False
  | CString (Some s) => text_ok s /\ parse_value all_ok s = CString (Some s)
  end.

(** The floating-point parser accepts neither boolean word. *)
Hypothesis double_words : str_to_double $"true" = None /\ str_to_double $"false" = None.

Lemma digits_text ds :
  ds <> [] -> Forall (fun c => isdigit c = true) ds ->
  forall c, c ∈ ds -> isspace c = false /\ c <> nl /\ c <> NUL.
Proof.
  intros _ Hd c Hc. rewrite Forall_forall in Hd. specialize (Hd c Hc).
  split; [now apply digit_not_special|]. now split; intros ->.
Qed.

Lemma text_ok_chars p :
  (forall c, c ∈ p -> isspace c = false /\ c <> nl /\ c <> NUL) -> Zlen p < 512 -> text_ok p.
Proof.
  intros H Hl. split_and!; [split|done|split].
  - intros c Hc. apply H. destruct p; simplify_eq/=. left.
  - intros c Hc. apply H. apply last_Some in Hc as [l ->]. apply elem_of_app. right. left.
  - intros Hin. now apply H in Hin as (_ & ? & _).
  - intros Hin. now apply H in Hin as (_ & _ & ?).
Qed.

Lemma print_signed_text n : LONG_MIN <= n <= LONG_MAX -> text_ok (print_signed n).
Proof.
  unfold LONG_MIN, LONG_MAX. intros Hn. pow2s. unfold print_signed.
  destruct (Z.ltb_spec n 0).
  - destruct (print_unsigned_spec (- n)) as (Hne & Hd & _); [lia|].
    pose proof (print_unsigned_length (- n) 20 ltac:(lia) ltac:(lia)). apply text_ok_chars.
    + intros c [->|Hc]%elem_of_cons; [done|]. now apply (digits_text (print_unsigned (- n))).
    + rewrite Zlen_cons. lia.
  - destruct (print_unsigned_spec n) as (Hne & Hd & _); [lia|].
    pose proof (print_unsigned_length n 20 ltac:(lia) ltac:(lia)). apply text_ok_chars; [|lia].
    now apply digits_text.
Qed.

Lemma word_text (b : bool) : text_ok (if b then $"true" else $"false").
Proof.
  apply text_ok_chars; [|now destruct b].
  intros c Hc. destruct b; repeat (apply elem_of_cons in Hc as [->|Hc]; [done|]);
    now apply not_elem_of_nil in Hc.
Qed.

(** A surviving value prints to text that is read back as the value. *)
Lemma survives_print v :
  survives v -> exists p, print_value v = Some p /\ text_ok p /\ parse_value all_ok p = v.
Proof.
  destruct v as [[s|]|n|n|d|b]; simpl; try done.
  - intros [Ht Hp]. eauto.
  - intros Hn. eexists. split; [done|]. assert (LONG_MIN <= n <= LONG_MAX)
      by (unfold INT_MIN, INT_MAX, LONG_MIN, LONG_MAX in *; pow2s; lia).
    split; [now apply print_signed_text|]. unfold parse_value, xsan_str_to_int.
    rewrite strtol_print by done. simpl.
    now rewrite (proj2 (Z.ltb_ge n _)), (proj2 (Z.ltb_ge _ n)) by lia.
  - intros [Hl Hn]. eexists. split; [done|]. split; [now apply print_signed_text|].
    unfold parse_value, xsan_str_to_int, xsan_str_to_long. rewrite strtol_print by done. simpl.
    destruct (Z.ltb_spec n INT_MIN), (Z.ltb_spec INT_MAX n); simpl; try done; lia.
  - intros _. eexists. split; [done|]. split; [apply word_text|]. destruct double_words as [H1 H2].
    destruct b.
    + change (parse_value all_ok $"true" = CBool true). unfold parse_value.
      change (xsan_str_to_int (Some $"true")) with (@None Z).
      change (xsan_str_to_long (Some $"true")) with (@None Z). now rewrite H1.
    + change (parse_value all_ok $"false" = CBool false). unfold parse_value.
      change (xsan_str_to_int (Some $"false")) with (@None Z).
      change (xsan_str_to_long (Some $"false")) with (@None Z). now rewrite H2.
Qed.

(** ** Lines of a file *)

Lemma cstr_of_id (s : cstring) : NUL ∉ s -> cstr_of s = s.
Proof.
  induction s as [|c s IH]; simpl; [done|]. intros [Hc Hs]%not_elem_of_cons.
  rewrite decide_False by congruence. now rewrite IH.
Qed.

Lemma fgets_line room l rest :
  nl ∉ l -> (length l < room)%nat -> fgets room (l ++ nl :: rest) = (l ++ [nl], rest).
Proof.
  revert room. induction l as [|c l IH]; intros [|room] Hl Hr; simpl in *; try lia.
  - reflexivity.
  - apply not_elem_of_cons in Hl as [Hc Hl]. rewrite decide_False by congruence.
    now rewrite IH by (done || lia).
Qed.

Definition full_line (l : cstring) : cstring := l ++ [nl].

Lemma fgets_lines_concat ls fuel :
  Forall (fun l => one_line l /\ Zlen l < 1023) ls ->
  (length (concat (map full_line ls)) <= fuel)%nat ->
  fgets_lines fuel (concat (map full_line ls)) = map full_line ls.
Proof.
  revert fuel. induction ls as [|l ls IH]; intros fuel Hls Hf; [now destruct fuel|].
  apply Forall_cons in Hls as [[[Hnl Hnul] Hlen] Hls]. simpl in *.
  rewrite length_app in Hf. unfold full_line in Hf at 1. rewrite length_app in Hf. simpl in Hf.
  destruct fuel as [|fuel]; [lia|].
  assert (E : full_line l ++ concat (map full_line ls) = l ++ nl :: concat (map full_line ls))
    by (unfold full_line; now rewrite <- app_assoc).
  rewrite E. cbn [fgets_lines]. rewrite fgets_line by (done || (unfold Zlen in Hlen; lia)).
  rewrite cstr_of_id.
  2:{ rewrite elem_of_app, list_elem_of_singleton. intros [?|?]; done. }
  rewrite IH by (done || lia). now destruct l.
Qed.

(** ** Reading the items back *)

Definition item_ok (kv : cstring * config_value) : Prop := key_ok kv.1 /\ survives kv.2.

Lemma load_lines_cons al i line lines c :
  load_lines al i (line :: lines) c =
  load_lines al (S i) lines
    match xsan_parse_config_line (Some line) [] [] 256 512 with
    | (true, k, v) => (set_config_item (al i) c (Some k) (parse_value (al i) v)).1
    | _ => c
    end.
Proof. reflexivity. Qed.

Lemma separator_one_line : one_line $" = ".
Proof. split; apply (bool_decide_unpack _); vm_compute; exact I. Qed.

Lemma item_line_ok kv :
  item_ok kv -> exists l, item_line kv = Some (full_line l) /\ one_line l /\ Zlen l < 1023 /\
    forall i lines c, load_lines (fun _ => all_ok) i (full_line l :: lines) c =
      load_lines (fun _ => all_ok) (S i) lines (set_config_item all_ok c (Some kv.1) kv.2).1.
Proof.
  destruct kv as [k v]. intros [(Hk & Hkl & Heq & Hh & Hk1 & Hk2) Hv]. cbn [fst snd] in *.
  destruct (survives_print v Hv) as (p & Hp & (Ht & Hpl & Hp1 & Hp2) & Hparse).
  exists (k ++ $" = " ++ p). unfold item_line, full_line. cbn [fst snd].
  rewrite Hp. cbn [mbind option_bind]. destruct separator_one_line. split_and!.
  - now rewrite <- !app_assoc.
  - split; rewrite !not_elem_of_app; tauto.
  - rewrite !Zlen_app. change (Zlen $" = ") with 3. lia.
  - intros i lines c. rewrite load_lines_cons.
    rewrite (parse_config_line_complete _ [] [] 256 512 k p); [now rewrite Hparse| |done|done].
    exists [], [" "%char], [" "%char], [nl]. split_and!; try done;
      [now rewrite <- !app_assoc|repeat constructor..].
Qed.

Lemma set_new c k v :
  cf_count c = wrap 64 (Zlen (cf_items c)) -> k ∉ (cf_items c).*1 -> survives v ->
  (set_config_item all_ok c (Some k) v).1 =
    with_items c ((k, v) :: cf_items c) (wrap 64 (Zlen ((k, v) :: cf_items c))).
Proof.
  intros Hc Hk Hv. assert (Hf : find_item (cf_items c) k = None)
    by (rewrite find_item_map; now apply not_elem_of_list_to_map_1).
  rewrite Zlen_cons, <- wrap_succ, <- Hc. unfold set_config_item, put_item.
  destruct v as [[s|]|n|n|d|b]; simpl in *; try done; now rewrite Hf.
Qed.

Lemma load_items l i c :
  Forall item_ok l -> NoDup (l.*1 ++ (cf_items c).*1) ->
  cf_count c = wrap 64 (Zlen (cf_items c)) ->
  exists ls, mapM item_line l = Some (map full_line ls) /\
    Forall (fun l => one_line l /\ Zlen l < 1023) ls /\
    load_lines (fun _ => all_ok) i (map full_line ls) c =
      with_items c (reverse l ++ cf_items c) (wrap 64 (Zlen (reverse l ++ cf_items c))).
Proof.
  revert i c. induction l as [|kv l IH]; intros i c Hl Hnd Hc.
  { exists []. split_and!; [done|constructor|]. simpl. rewrite <- Hc. now destruct c. }
  apply Forall_cons in Hl as [Hkv Hl]. destruct (item_line_ok kv Hkv) as (t & Ht & H1 & H2 & Hload).
  destruct kv as [k v], Hkv as [_ Hv]. simpl in Hnd. apply NoDup_cons in Hnd as [Hk Hnd].
  rewrite elem_of_app in Hk.
  pose proof (set_new c k v Hc ltac:(tauto) Hv) as Hset.
  destruct (IH (S i) (with_items c ((k, v) :: cf_items c) (wrap 64 (Zlen ((k, v) :: cf_items c)))))
    as (ls & Hm & Hf & Hr); [done| |done|].
  { simpl. apply NoDup_app in Hnd as (Ha & Hb & Hd). apply NoDup_app. split_and!; [done| |].
    - intros x Hx. rewrite not_elem_of_cons. split; [intros ->; tauto|now apply Hb].
    - apply NoDup_cons. tauto. }
  exists (t :: ls). split_and!; [|now constructor|].
  - simpl. rewrite Ht. simpl. now rewrite Hm.
  - cbn [map]. rewrite Hload. cbn [fst snd]. rewrite Hset, Hr. simpl.
    rewrite reverse_cons, <- app_assoc. done.
Qed.

(** Comments and empty lines are skipped. *)
Lemma load_lines_skip al i l lines c :
  (l = [] \/ exists t, l = "#"%char :: t) ->
  load_lines al i (full_line l :: lines) c = load_lines al (S i) lines c.
Proof. intros [->|[t ->]]; rewrite load_lines_cons; reflexivity. Qed.

Definition header_lines (s : cstring) : list cstring :=
  [$"# XSAN Configuration File"; $"# Generated at " ++ s; []; []].

Lemma header_lines_ok s :
  one_line s -> Zlen s < 1000 ->
  Forall (fun l => one_line l /\ Zlen l < 1023) (header_lines s).
Proof.
  intros [H1 H2] Hl. unfold header_lines.
  assert (Hh : forall t, bool_decide (nl ∉ t /\ NUL ∉ t) = true -> one_line t)
    by (intros t Ht; now apply bool_decide_eq_true in Ht).
  repeat apply Forall_cons_2; try apply Forall_nil_2; (split; [|done || idtac]).
  - now apply Hh.
  - destruct (Hh $"# Generated at " eq_refl).
    split; rewrite not_elem_of_app; tauto.
  - rewrite Zlen_app. change (Zlen $"# Generated at ") with 15. lia.
  - now apply Hh.
  - now apply Hh.
Qed.

(** C35: a configuration written to a file and loaded from it has the same value,
    of the same type, under every key, whatever the configuration held before.
    This is for keys and strings that fit their line and buffers, integers, long
    integers that are not also of type [int], booleans, and strings that do not
    read as another type; the other values do not survive. *)
Theorem config_round_trip c s path dup_ok stat c0 :
  NoDup (cf_items c).*1 -> Forall item_ok (cf_items c) -> one_line s -> Zlen s < 1000 ->
  exists text c',
    xsan_config_save_to_file true (s ++ [nl]) c (Some path) = Some (Some text, true) /\
    xsan_config_load_from_file (fun _ => all_ok) dup_ok false (Some text) stat c0 (Some path) =
      Some (c', true) /\
    (forall k, find_config_item c' (Some k) = find_config_item c (Some k)) /\
    xsan_config_get_item_count c' = wrap 64 (Zlen (cf_items c)).
Proof.
  intros Hnd Hok Hs Hsl.
  set (c1 := xsan_config_clear (Config (cf_items c0) (cf_count c0)
    (if dup_ok then Some path else None) (cf_auto_reload c0) (default (cf_modified c0) stat))).
  destruct (load_items (cf_items c) 4 c1 Hok) as (ls & Hm & Hls & Hload);
    [simpl; now rewrite app_nil_r|done|].
  exists (concat (map full_line (header_lines s ++ ls))).
  eexists. split; [|split].
  - unfold xsan_config_save_to_file, saved_text. rewrite Hm. cbn [negb mbind option_bind].
    rewrite map_app, concat_app. do 3 f_equal. unfold header_lines, full_line. simpl.
    now rewrite <- !app_assoc.
  - unfold xsan_config_load_from_file. fold c1. rewrite fgets_lines_concat; [|
      apply Forall_app; split; [now apply header_lines_ok|done]|done].
    rewrite map_app. unfold header_lines. cbn [map app].
    rewrite !load_lines_skip by (eauto || (right; eexists; reflexivity)).
    rewrite Hload. reflexivity.
  - simpl. rewrite !app_nil_r. split.
    + intros k. unfold find_config_item. simpl. rewrite !find_item_map. f_equal.
      apply list_to_map_proper; [|apply reverse_Permutation].
      now rewrite fmap_reverse, reverse_Permutation.
    + unfold Zlen. now rewrite length_reverse.
Qed.

(** Reloading copies the path from the buffer it has just freed. *)
Lemma reload_undefined al dup_ok text stat c path :
  cf_file c = Some path -> xsan_config_reload al dup_ok (Some text) stat c = None.
Proof. intros Hf. unfold xsan_config_reload. now rewrite Hf. Qed.

End Config.

(** ** Witness *)

(** A floating-point type with no literals. *)
Definition no_double (s : cstring) : option Empty_set := None.
Definition no_print (d : Empty_set) : cstring := match d with end.

Definition sample_config : xsan_config (D := Empty_set) :=
  Config [($"node.port", CInt 8080); ($"node.name", CString (Some $"alpha"));
          ($"storage.max", CLong (2 ^ 40)); ($"debug", CBool true)] 4 None false 0.

Lemma sample_items_ok : Forall (item_ok no_double) (cf_items sample_config).
Proof.
  assert (Ht : text_ok $"alpha").
  { split_and!; [split; intros ? [= <-]; reflexivity|reflexivity|].
    split; apply (bool_decide_unpack _); vm_compute; exact I. }
  repeat apply Forall_cons_2; try apply Forall_nil_2; (split; [split_and!|]);
    try (apply (bool_decide_unpack _); vm_compute; exact I);
    try (split; intros ? [= <-]; reflexivity); try done.
Qed.

Lemma config_round_trip_witness :
  exists text c',
    xsan_config_save_to_file no_print true ($"Mon Nov 16" ++ ["010"%char]) sample_config
      (Some $"x.conf") = Some (Some text, true) /\
    xsan_config_load_from_file no_double (fun _ => all_ok) true false (Some text) None
      (Config [] 0 None false 0) (Some $"x.conf") = Some (c', true) /\
    find_config_item c' (Some $"node.name") = Some (CString (Some $"alpha")).
Proof.
  destruct (config_round_trip no_double no_print (conj eq_refl eq_refl) sample_config
              $"Mon Nov 16" $"x.conf" true None (Config [] 0 None false 0))
    as (text & c' & Hs & Hl & Hf & _).
  - apply (bool_decide_unpack _). vm_compute. exact I.
  - exact sample_items_ok.
  - split; apply (bool_decide_unpack _); vm_compute; exact I.
  - reflexivity.
  - exists text, c'. split_and!; [exact Hs|exact Hl|]. now rewrite Hf.
Defined.
