(* ===== verification/ConfigMem.v ===== *)
(** * The memory of the configuration store ([src/src/utils/config.c])

    What the operations of [Config.v] allocate and free.  An item consists of a
    structure, its key and, for a string, its value; the store adds its own structure
    and the path of its file.  A block is named by what it holds, so that a trace of
    allocations and frees can be followed. *)

From stdpp Require Import prelude strings gmap.
From Stdlib Require Import ZArith Lia Ascii.
From S2P Require Import Prelude StringUtils Config.

Inductive config_block :=
  | BConfig
  | BFile
  | BCopy                         (* the copy of a text that is being read *)
  | BItem (k : cstring)
  | BKey (k : cstring)
  | BValue (k : cstring).

#[export] Instance config_block_eq : EqDecision config_block.
Proof. solve_decision. Defined.

#[export] Instance config_block_countable : Countable config_block.
Proof.
  refine (inj_countable'
    (fun b => match b with
       | BConfig => inl 0%nat | BFile => inl 1%nat | BCopy => inl 2%nat
       | BItem k => inr (0%nat, k) | BKey k => inr (1%nat, k) | BValue k => inr (2%nat, k) end)
    (fun s => match s with
       | inl 0%nat => BConfig | inl 1%nat => BFile | inl _ => BCopy
       | inr (0%nat, k) => BItem k | inr (1%nat, k) => BKey k | inr (_, k) => BValue k end) _).
  now intros [].
Defined.

Inductive block_event := BAlloc (b : config_block) | BFree (b : config_block).

Section ConfigMemory.
Context {D : Type}.
Variable str_to_double : cstring -> option D.
Implicit Types c : xsan_config (D := D).

Definition value_blocks (k : cstring) (v : config_value (D := D)) : list config_block :=
  match v with CString (Some _) => [BValue k] | _ => [] end.

Definition free_config_item (kv : cstring * config_value (D := D)) : list block_event :=
  BFree (BKey kv.1) :: map BFree (value_blocks kv.1 kv.2) ++ [BFree (BItem kv.1)].

Definition config_clear_mem c : list block_event := concat (map free_config_item (cf_items c)).

Definition config_create_mem (alloc_ok : bool) : list block_event :=
  if alloc_ok then [BAlloc BConfig] else [].

Definition file_blocks c : list config_block := match cf_file c with Some _ => [BFile] | None => [] end.

(** [xsan_config_destroy]. *)
Definition xsan_config_destroy (c : option (xsan_config (D := D))) : list block_event :=
  match c with
  | None => []
  | Some c => config_clear_mem c ++ map BFree (file_blocks c) ++ [BFree BConfig]
  end.

Definition put_item_mem (a : set_alloc) c (k : cstring) (w : config_value (D := D)) : list block_event :=
  match find_item (cf_items c) k with
  | Some old => map BFree (value_blocks k old) ++ map BAlloc (value_blocks k w)
  | None =>
      if negb (sa_item a) then [] else
      if negb (sa_key a) then [BAlloc (BItem k); BFree (BItem k)] else
      [BAlloc (BItem k); BAlloc (BKey k)] ++ map BAlloc (value_blocks k w)
  end.

Definition set_item_mem (a : set_alloc) c (key : option cstring) (v : config_value (D := D)) :
    list block_event :=
  match key, v with
  | None, _ | _, CString None => []
  | Some k, _ => put_item_mem a c k (stored_value a v).1
  end.

Definition remove_key_mem c (key : option cstring) : list block_event :=
  match key ≫= fun k => v ← find_item (cf_items c) k; Some (k, v) with
  | Some kv => free_config_item kv
  | None => []
  end.

Fixpoint load_lines_mem (al : nat -> set_alloc) (i : nat) (lines : list cstring) c : list block_event :=
  match lines with
  | [] => []
  | line :: lines =>
      match xsan_parse_config_line (Some line) [] [] 256 512 with
      | (true, k, v) =>
          let w := parse_value str_to_double (al i) v in
          set_item_mem (al i) c (Some k) w ++ load_lines_mem al (S i) lines (set_config_item (al i) c (Some k) w).1
      | _ => load_lines_mem al (S i) lines c
      end
  end.

Definition load_from_string_mem (al : nat -> set_alloc) (dup_ok : bool) c (s : option cstring) :
    list block_event :=
  match s with
  | None => []
  | Some s =>
      config_clear_mem c ++
      if negb dup_ok then [] else
      [BAlloc BCopy] ++
      load_lines_mem al 0 (newline_tokens (S (length s)) s) (xsan_config_clear c) ++ [BFree BCopy]
  end.

(** A load from a path other than the one kept in the store. *)
Definition load_from_file_mem (al : nat -> set_alloc) (dup_ok : bool) (file : option cstring) (stat : option Z)
    c (path : option cstring) : list block_event :=
  match path, file with
  | None, _ | _, None => []
  | Some path, Some text =>
      map BFree (file_blocks c) ++ (if dup_ok then [BAlloc BFile] else []) ++ config_clear_mem c ++
      load_lines_mem al 0 (fgets_lines (length text) text)
        (xsan_config_clear (Config (cf_items c) (cf_count c) (if dup_ok then Some path else None)
           (cf_auto_reload c) (default (cf_modified c) stat)))
  end.

(** * Theorems *)

(** A block is allocated once and freed once. *)
Definition block_step (live : option (gset config_block)) (e : block_event) : option (gset config_block) :=
  match live, e with
  | None, _ => None
  | Some live, BAlloc b => if decide (b ∈ live) then None else Some ({[b]} ∪ live)
  | Some live, BFree b => if decide (b ∈ live) then Some (live ∖ {[b]}) else None
  end.

Definition block_run (t : list block_event) (live : gset config_block) : option (gset config_block) :=
  foldl block_step (Some live) t.

(** The blocks that a store consists of; [copy]: a text is being read. *)
Definition owns (copy : bool) c (b : config_block) : Prop :=
  match b with
  | BConfig => True
  | BFile => is_Some (cf_file c)
  | BCopy => copy = true
  | BItem k | BKey k => is_Some (find_item (cf_items c) k)
  | BValue k => exists s, find_item (cf_items c) k = Some (CString (Some s))
  end.

Definition owned (copy : bool) c (live : gset config_block) : Prop :=
  NoDup (cf_items c).*1 /\ forall b, b ∈ live <-> owns copy c b.

Lemma block_run_app t1 t2 live live' :
  block_run t1 live = Some live' -> block_run (t1 ++ t2) live = block_run t2 live'.
Proof. intros H. unfold block_run in *. now rewrite foldl_app, H. Qed.

Lemma block_run_alloc b t live :
  b ∉ live -> block_run (BAlloc b :: t) live = block_run t ({[b]} ∪ live).
Proof. intros H. unfold block_run. cbn. now rewrite decide_False. Qed.

Lemma block_run_free b t live :
  b ∈ live -> block_run (BFree b :: t) live = block_run t (live ∖ {[b]}).
Proof. intros H. unfold block_run. cbn. now rewrite decide_True. Qed.

(** A trace that leads from the blocks of one store to those of another. *)
Definition leads_to (copy : bool) c (t : list block_event) (copy' : bool) (c' : xsan_config (D := D)) : Prop :=
  forall live, owned copy c live -> exists live', block_run t live = Some live' /\ owned copy' c' live'.

Lemma leads_nil copy c : leads_to copy c [] copy c.
Proof. intros live H. exists live. done. Qed.

Lemma leads_app copy c t copy' c' t' copy'' c'' :
  leads_to copy c t copy' c' -> leads_to copy' c' t' copy'' c'' -> leads_to copy c (t ++ t') copy'' c''.
Proof.
  intros H1 H2 live Hl. destruct (H1 live Hl) as (l1 & E1 & O1). destruct (H2 l1 O1) as (l2 & E2 & O2).
  exists l2. split; [|done]. now rewrite (block_run_app _ _ _ _ E1).
Qed.

(** Replacing the value of a key that is there. *)
Lemma find_update l k (w : config_value (D := D)) k' :
  is_Some (find_item l k) ->
  find_item (update_item l k w) k' = if decide (k = k') then Some w else find_item l k'.
Proof.
  intros H. rewrite !find_item_map, update_item_map by done.
  destruct (decide (k = k')) as [->|]; [now rewrite lookup_insert_eq|now rewrite lookup_insert_ne].
Qed.

Lemma elem_value_blocks b k (v : config_value (D := D)) :
  b ∈ value_blocks k v <-> b = BValue k /\ exists s, v = CString (Some s).
Proof. destruct v as [[s|]|?|?|?|?]; cbn; rewrite ?list_elem_of_singleton, ?elem_of_nil; naive_solver. Qed.

Lemma value_blocks_nodup k (v : config_value (D := D)) : NoDup (value_blocks k v).
Proof. destruct v as [[s|]|?|?|?|?]; cbn; try apply NoDup_nil_2. apply NoDup_singleton. Qed.

Lemma run_frees l live :
  NoDup l -> (forall b, b ∈ l -> b ∈ live) -> block_run (map BFree l) live = Some (live ∖ list_to_set l).
Proof.
  revert live. induction l as [|b l IH]; intros live Hnd Hin.
  - unfold block_run. cbn. f_equal. set_solver.
  - apply NoDup_cons in Hnd as [Hb Hnd]. cbn [map]. rewrite block_run_free by (apply Hin; constructor).
    rewrite IH; [|done|]. { f_equal. set_solver. }
    intros b' Hb'. apply elem_of_difference. split; [apply Hin; now constructor|].
    rewrite elem_of_singleton. now intros ->.
Qed.

Lemma run_allocs l live :
  NoDup l -> (forall b, b ∈ l -> b ∉ live) -> block_run (map BAlloc l) live = Some (list_to_set l ∪ live).
Proof.
  revert live. induction l as [|b l IH]; intros live Hnd Hin.
  - unfold block_run. cbn. f_equal. set_solver.
  - apply NoDup_cons in Hnd as [Hb Hnd]. cbn [map]. rewrite block_run_alloc by (apply Hin; constructor).
    rewrite IH; [|done|]. { f_equal. set_solver. }
    intros b' Hb'. rewrite elem_of_union, elem_of_singleton. intros [->|H]; [done|].
    apply (Hin b'); [now constructor|done].
Qed.

Lemma put_existing copy c k old w n :
  find_item (cf_items c) k = Some old ->
  leads_to copy c (map BFree (value_blocks k old) ++ map BAlloc (value_blocks k w))
    copy (with_items c (update_item (cf_items c) k w) n).
Proof.
  intros Hf live [Hnd Ho].
  assert (H1 : block_run (map BFree (value_blocks k old)) live = Some (live ∖ list_to_set (value_blocks k old))).
  { apply run_frees; [apply value_blocks_nodup|]. intros b [-> [s ->]]%elem_value_blocks. apply Ho. cbn. eauto. }
  eexists. split.
  { rewrite (block_run_app _ _ _ _ H1). apply run_allocs; [apply value_blocks_nodup|].
    intros b [-> [s ->]]%elem_value_blocks. rewrite elem_of_difference, elem_of_list_to_set, elem_value_blocks, Ho.
    cbn. rewrite Hf. naive_solver. }
  split; [cbn; now rewrite update_item_keys|]. intros b.
  rewrite elem_of_union, elem_of_difference, !elem_of_list_to_set, !elem_value_blocks, Ho.
  assert (Hk : is_Some (find_item (cf_items c) k)) by eauto.
  destruct b as [| | |k'|k'|k']; cbn [owns with_items cf_items cf_file]; rewrite ?find_update by done.
  1-3: naive_solver.
  all: destruct (decide (k = k')) as [<-|]; rewrite ?Hf; naive_solver.
Qed.

(** Adding a key that is not there. *)
Lemma put_new copy c k w n :
  find_item (cf_items c) k = None ->
  leads_to copy c ([BAlloc (BItem k); BAlloc (BKey k)] ++ map BAlloc (value_blocks k w))
    copy (with_items c ((k, w) :: cf_items c) n).
Proof.
  intros Hf live [Hnd Ho]. change ([BAlloc (BItem k); BAlloc (BKey k)] ++ map BAlloc (value_blocks k w))
    with (map BAlloc ([BItem k; BKey k] ++ value_blocks k w)).
  eexists. split.
  { apply run_allocs.
    - apply NoDup_app. split_and!; [|intros b Hb|apply value_blocks_nodup].
      + apply NoDup_cons. split; [|apply NoDup_singleton]. rewrite list_elem_of_singleton. done.
      + rewrite elem_value_blocks. rewrite !elem_of_cons, elem_of_nil in Hb. naive_solver.
    - intros b. rewrite elem_of_app, !elem_of_cons, elem_of_nil, elem_value_blocks, Ho.
      intros [[->|[->|[]]]|[-> _]]; cbn; rewrite Hf; [now intros [? ?]|now intros [? ?]|now intros [? ?]]. }
  split.
  { cbn. apply NoDup_cons. split; [|done]. apply (not_elem_of_list_to_map_2 (M := gmap cstring)).
    now rewrite <- find_item_map. }
  intros b. rewrite elem_of_union, !elem_of_list_to_set, elem_of_app, !elem_of_cons, elem_of_nil, elem_value_blocks, Ho.
  destruct b as [| | |k'|k'|k']; cbn [owns with_items cf_items cf_file find_item].
  1-3: naive_solver.
  all: destruct (decide (k = k')) as [<-|]; rewrite ?Hf; naive_solver.
Qed.

(** Taking a key away. *)
Lemma free_item_blocks k (v : config_value (D := D)) :
  free_config_item (k, v) = map BFree (BKey k :: value_blocks k v ++ [BItem k]).
Proof. unfold free_config_item. cbn. now rewrite map_app. Qed.

Lemma item_blocks_nodup k (v : config_value (D := D)) : NoDup (BKey k :: value_blocks k v ++ [BItem k]).
Proof.
  apply NoDup_cons. rewrite NoDup_app. setoid_rewrite elem_of_app. setoid_rewrite elem_value_blocks.
  setoid_rewrite list_elem_of_singleton. split; [naive_solver|].
  split_and!; [apply value_blocks_nodup|naive_solver|apply NoDup_singleton].
Qed.

Lemma drop_item copy c c' k v :
  find_item (cf_items c) k = Some v -> cf_file c' = cf_file c -> NoDup (cf_items c').*1 ->
  (forall k', find_item (cf_items c') k' = if decide (k = k') then None else find_item (cf_items c) k') ->
  leads_to copy c (free_config_item (k, v)) copy c'.
Proof.
  intros Hf Hfile Hnd' Hfind live [Hnd Ho]. rewrite free_item_blocks. eexists. split.
  { apply run_frees; [apply item_blocks_nodup|].
    intros b. rewrite elem_of_cons, elem_of_app, elem_value_blocks, list_elem_of_singleton, Ho.
    intros [->|[[-> [s ->]]| ->]]; cbn; eauto. }
  split; [done|]. intros b.
  rewrite elem_of_difference, elem_of_list_to_set, elem_of_cons, elem_of_app, elem_value_blocks,
    list_elem_of_singleton, Ho.
  destruct b as [| | |k'|k'|k']; cbn [owns]; rewrite ?Hfile, ?Hfind.
  1-3: naive_solver.
  all: destruct (decide (k = k')) as [<-|]; rewrite ?Hf; naive_solver.
Qed.

Lemma put_item_leads copy a c k w ok :
  leads_to copy c (put_item_mem a c k w) copy (put_item a c k w ok).1.
Proof.
  unfold put_item_mem, put_item. destruct (find_item (cf_items c) k) as [old|] eqn:Hf; [now apply put_existing|].
  destruct (sa_item a); cbn [negb andb]; [|apply leads_nil].
  destruct (sa_key a); cbn [negb]; [now apply put_new|].
  intros live [Hnd Ho]. exists live. split; [|done].
  assert (Hk : BItem k ∉ live) by (rewrite Ho; cbn; rewrite Hf; now intros [? ?]).
  rewrite block_run_alloc, block_run_free by set_solver. unfold block_run. cbn. f_equal. set_solver.
Qed.

Lemma set_item_leads copy a c key v :
  leads_to copy c (set_item_mem a c key v) copy (set_config_item a c key v).1.
Proof.
  unfold set_item_mem, set_config_item. destruct key as [k|]; [|apply leads_nil].
  destruct v as [[s|]|?|?|?|?]; try apply leads_nil; try apply put_item_leads.
  destruct (stored_value a (CString (Some s))) as [w ok]. apply put_item_leads.
Qed.

Lemma remove_key_leads copy c key :
  leads_to copy c (remove_key_mem c key) copy (xsan_config_remove_key c key).1.
Proof.
  unfold remove_key_mem, xsan_config_remove_key. destruct key as [k|]; [|apply leads_nil]. cbn [mbind option_bind].
  intros live Hl. assert (Hs := remove_item_spec (cf_items c) k (proj1 Hl)).
  destruct (remove_item (cf_items c) k) as [l|].
  - destruct Hs as ([v Hv] & Hsub & _ & Hm). rewrite Hv. cbn [mbind option_bind fst].
    apply (drop_item copy c); [done|done|exact (sublist_NoDup _ _ (proj1 Hl) Hsub)| |done].
    intros k'. cbn [cf_items with_items]. rewrite !find_item_map, Hm.
    destruct (decide (k = k')) as [->|]; [now rewrite lookup_delete_eq|now rewrite lookup_delete_ne].
  - rewrite Hs. now apply leads_nil.
Qed.

Lemma clear_leads copy c : leads_to copy c (config_clear_mem c) copy (xsan_config_clear c).
Proof.
  unfold config_clear_mem, xsan_config_clear. generalize 0 as n. destruct c as [l cnt f ar md]. cbn [cf_items].
  revert cnt. induction l as [|[k v] l IH]; intros cnt n.
  - intros live Hl. exists live. done.
  - cbn [map concat]. intros live Hl. assert (Hnd := proj1 Hl). cbn in Hnd. apply NoDup_cons in Hnd as [Hk Hnd].
    revert live Hl. eapply leads_app; [|exact (IH cnt n)].
    eapply drop_item; cbn [cf_items cf_file find_item]; [now rewrite decide_True|done|done|].
    intros k'. destruct (decide (k = k')) as [<-|]; [|done].
    rewrite find_item_map. now apply not_elem_of_list_to_map_1.
Qed.

Lemma load_lines_leads copy al lines i c :
  leads_to copy c (load_lines_mem al i lines c) copy (load_lines str_to_double al i lines c).
Proof.
  revert i c. induction lines as [|line lines IH]; intros i c; cbn [load_lines_mem load_lines]; [apply leads_nil|].
  destruct (xsan_parse_config_line (Some line) [] [] 256 512) as [[[] k] v]; [|apply IH].
  eapply leads_app; [apply set_item_leads|apply IH].
Qed.

Lemma load_from_string_leads al dup_ok c s :
  leads_to false c (load_from_string_mem al dup_ok c s) false (xsan_config_load_from_string str_to_double al dup_ok c s).1.
Proof.
  unfold load_from_string_mem, xsan_config_load_from_string. destruct s as [s|]; [|apply leads_nil].
  eapply leads_app; [apply clear_leads|]. destruct dup_ok; cbn [negb fst]; [|apply leads_nil].
  eapply (leads_app _ _ _ true); [|eapply leads_app; [apply load_lines_leads|]].
  - intros live [Hnd Ho]. rewrite block_run_alloc by (rewrite Ho; done). eexists. split; [reflexivity|].
    split; [done|]. intros b. rewrite elem_of_union, elem_of_singleton, Ho. destruct b; naive_solver.
  - intros live [Hnd Ho]. rewrite block_run_free by (rewrite Ho; done). eexists. split; [reflexivity|].
    split; [done|]. intros b. rewrite elem_of_difference, elem_of_singleton, Ho. destruct b; naive_solver.
Qed.

(** Another path for the file of the store. *)
Lemma set_file_leads copy c (f : option cstring) ar md :
  leads_to copy c (map BFree (file_blocks c) ++ (if f then [BAlloc BFile] else []))
    copy (Config (cf_items c) (cf_count c) f ar md).
Proof.
  intros live [Hnd Ho].
  assert (H1 : block_run (map BFree (file_blocks c)) live = Some (live ∖ {[BFile]})).
  { unfold file_blocks. destruct (cf_file c) eqn:Hf; cbn [map].
    - rewrite block_run_free by (rewrite Ho; cbn; rewrite Hf; eauto). done.
    - unfold block_run. cbn. f_equal. symmetry. apply difference_disjoint_L.
      assert (BFile ∉ live) by (rewrite Ho; cbn; rewrite Hf; now intros [? ?]). set_solver. }
  exists (if f then {[BFile]} ∪ live ∖ {[BFile]} else live ∖ {[BFile]}). split.
  { rewrite (block_run_app _ _ _ _ H1). destruct f; [|done]. rewrite block_run_alloc by set_solver. done. }
  split; [done|]. intros b. destruct f as [f|]; rewrite ?elem_of_union, elem_of_difference, !elem_of_singleton, Ho;
    destruct b; cbn; naive_solver.
Qed.

Lemma load_from_file_leads al dup_ok file stat c path c' b :
  xsan_config_load_from_file str_to_double al dup_ok false file stat c path = Some (c', b) ->
  leads_to false c (load_from_file_mem al dup_ok file stat c path) false c'.
Proof.
  unfold xsan_config_load_from_file, load_from_file_mem.
  destruct path as [path|]; [|intros [= <- _]; apply leads_nil].
  destruct file as [text|]; intros [= <- _]; [|apply leads_nil].
  set (c1 := Config _ _ _ _ _). rewrite app_assoc. eapply leads_app.
  { unfold c1. replace (if dup_ok then [BAlloc BFile] else [])
      with (if (if dup_ok then Some path else None) then [BAlloc BFile] else []) by now destruct dup_ok.
    apply set_file_leads. }
  eapply leads_app; [exact (clear_leads false c1)|apply load_lines_leads].
Qed.

(** ** Histories *)

Inductive store_op :=
  | StoreSet (a : set_alloc) (key : option cstring) (v : config_value (D := D))
  | StoreRemove (key : option cstring)
  | StoreClear
  | StoreLoadString (al : nat -> set_alloc) (dup_ok : bool) (s : option cstring)
  | StoreLoadFile (al : nat -> set_alloc) (dup_ok : bool) (file : option cstring) (stat : option Z)
      (path : option cstring).

Definition store_step c (op : store_op) : xsan_config (D := D) * list block_event :=
  match op with
  | StoreSet a key v => ((set_config_item a c key v).1, set_item_mem a c key v)
  | StoreRemove key => ((xsan_config_remove_key c key).1, remove_key_mem c key)
  | StoreClear => (xsan_config_clear c, config_clear_mem c)
  | StoreLoadString al dup_ok s =>
      ((xsan_config_load_from_string str_to_double al dup_ok c s).1, load_from_string_mem al dup_ok c s)
  | StoreLoadFile al dup_ok file stat path =>
      (from_option fst c (xsan_config_load_from_file str_to_double al dup_ok false file stat c path),
       load_from_file_mem al dup_ok file stat c path)
  end.

Fixpoint store_run c (ops : list store_op) : xsan_config (D := D) * list block_event :=
  match ops with
  | [] => (c, [])
  | op :: ops =>
      let '(c, t) := store_step c op in
      let '(c, t') := store_run c ops in (c, t ++ t')
  end.

Lemma store_step_leads c op : leads_to false c (store_step c op).2 false (store_step c op).1.
Proof.
  destruct op as [a key v|key| |al dup_ok s|al dup_ok file stat path]; cbn [store_step fst snd].
  - apply set_item_leads.
  - apply remove_key_leads.
  - apply clear_leads.
  - apply load_from_string_leads.
  - destruct (xsan_config_load_from_file str_to_double al dup_ok false file stat c path) as [[c' b]|] eqn:H;
      [now apply load_from_file_leads in H|].
    unfold xsan_config_load_from_file in H. now destruct path, file.
Qed.

Lemma store_run_leads ops c : leads_to false c (store_run c ops).2 false (store_run c ops).1.
Proof.
  revert c. induction ops as [|op ops IH]; intros c; cbn [store_run]; [apply leads_nil|].
  assert (H := store_step_leads c op). destruct (store_step c op) as [c1 t1]. specialize (IH c1).
  destruct (store_run c1 ops) as [c2 t2]. cbn [fst snd] in *. eapply leads_app; eauto.
Qed.

Lemma destroy_all c live :
  owned false c live -> block_run (xsan_config_destroy (Some c)) live = Some ∅.
Proof.
  intros Hl. cbn [xsan_config_destroy].
  assert (H : leads_to false c (config_clear_mem c ++ map BFree (file_blocks c) ++ []) false
    (Config [] 0 None (cf_auto_reload c) (cf_modified c))).
  { eapply leads_app; [apply clear_leads|]. exact (set_file_leads false (xsan_config_clear c) None _ _). }
  destruct (H live Hl) as (live' & Hr & _ & Ho). rewrite app_nil_r in Hr. rewrite app_assoc.
  rewrite (block_run_app _ _ _ _ Hr), block_run_free by (rewrite Ho; done). unfold block_run. cbn. f_equal.
  apply set_eq. intros b. rewrite elem_of_difference, elem_of_singleton, elem_of_empty, Ho.
  destruct b; cbn; naive_solver eauto.
Qed.

(** C40: The store neither leaks nor frees twice: after any sequence of settings, removals,
    clearings and loads, with any outcome of the allocations, exactly the blocks of the
    items are allocated, and destroying the store frees each of them once. *)
Theorem config_memory c ops :
  xsan_config_create true = Some c ->
  let '(c', t) := store_run c ops in
  exists live, block_run (config_create_mem true ++ t) ∅ = Some live /\ owned false c' live /\
    block_run (xsan_config_destroy (Some c')) live = Some ∅.
Proof.
  intros [= <-]. assert (H := store_run_leads ops (Config [] 0 None false 0)).
  destruct (store_run _ ops) as [c' t]. cbn [fst snd] in H.
  assert (H0 : owned false (Config [] 0 None false 0) ({[BConfig]} : gset config_block)).
  { split; [apply NoDup_nil_2|]. intros b. rewrite elem_of_singleton. destruct b; cbn; naive_solver. }
  destruct (H _ H0) as (live & Hr & Hl). exists live. split_and!; [|done|now apply destroy_all].
  cbn [config_create_mem app]. rewrite block_run_alloc by set_solver. now rewrite union_empty_r_L.
Qed.

End ConfigMemory.

(** A string that is overwritten by a number and a text whose second value cannot be
    copied. *)
Definition memory_ops : list (store_op (D := Empty_set)) :=
  [StoreSet all_ok (Some $"a") (CString (Some $"x")); StoreSet all_ok (Some $"a") (CInt 3);
   StoreLoadString (fun i => SetAlloc true true (Nat.eqb i 0) true) true
     (Some ($"k = v" ++ ["010"%char] ++ $"l = w"))].

Lemma config_memory_witness :
  let '(c', t) := store_run no_double (Config [] 0 None false 0) memory_ops in
  cf_items c' = [($"l", CString None); ($"k", CString (Some $"v"))] /\
  exists live, block_run (config_create_mem true ++ t) ∅ = Some live /\ owned false c' live /\
    block_run (xsan_config_destroy (Some c')) live = Some ∅.
Proof.
  assert (H := config_memory no_double (Config [] 0 None false 0) memory_ops eq_refl).
  assert (Hi : cf_items (store_run no_double (Config [] 0 None false 0) memory_ops).1 =
    [($"l", CString None); ($"k", CString (Some $"v"))]) by (vm_compute; reflexivity).
  destruct (store_run no_double (Config [] 0 None false 0) memory_ops) as [c' t]. split; [exact Hi|exact H].
Defined.
