(* ===== verification/ConfigLoad.v ===== *)
(** * Typed configuration sections ([src/src/utils/config.c], lines 547-747)

    The node, storage and cluster structures filled from a configuration, with the
    parser of the seed list.  A fixed-size character array is the string it holds;
    it starts cleared and is filled by the bounded copy of [StringUtils.v].  The
    source defines no [xsan_node_t]; a seed is the record of [Cluster.v], the host
    name and management address being copies of its other fields. *)

From stdpp Require Import prelude strings gmap.
From Stdlib Require Import ZArith Lia Ascii.
From S2P Require Import Prelude Errors StringUtils VolumeMeta Cluster Config.

Definition DEFAULT_PORT := 8080.
Definition DEFAULT_MAX_CONNECTIONS := 1000.
Definition DEFAULT_HEARTBEAT_INTERVAL := 30.
Definition DEFAULT_ELECTION_TIMEOUT := 150.
Definition DEFAULT_BLOCK_SIZE := 4 * 1024.
Definition DEFAULT_MAX_FILE_SIZE := 1024 * 1024 * 1024.
Definition DEFAULT_CACHE_SIZE := 100 * 1024 * 1024.
Definition DEFAULT_IO_THREADS := 4.
Definition DEFAULT_SYNC_INTERVAL := 60.
Definition DEFAULT_REPLICATION_FACTOR := 3.
Definition DEFAULT_MIN_NODES := 3.
Definition DEFAULT_MAX_NODES := 64.
Definition DEFAULT_QUORUM_SIZE := 2.
Definition DEFAULT_NETWORK_TIMEOUT := 30.
Definition DEFAULT_RECONNECT_INTERVAL := 5.
Definition DEFAULT_FAILOVER_TIMEOUT := 300.
Definition INET_ADDRSTRLEN := 16.

Record xsan_node_config := NodeSection {
  xn_node_id : cstring;
  xn_node_name : cstring;
  xn_bind_address : cstring;
  xn_port : Z;
  xn_data_dir : cstring;
  xn_log_file : cstring;
  xn_log_level : cstring;
  xn_max_connections : Z;
  xn_heartbeat_interval : Z;
  xn_election_timeout : Z;
  xn_enable_ssl : bool;
  xn_ssl_cert_file : cstring;
  xn_ssl_key_file : cstring;
  xn_nvmf_target_nqn : cstring;
  xn_nvmf_listen_port : cstring
}.

Record xsan_storage_config := StorageSection {
  xs_storage_dir : cstring;
  xs_block_size : Z;
  xs_max_file_size : Z;
  xs_cache_size : Z;
  xs_io_threads : Z;
  xs_sync_interval : Z;
  xs_enable_compression : bool;
  xs_compression_algorithm : cstring;
  xs_replication_factor : Z;
  xs_enable_checksums : bool
}.

Record xsan_cluster_config := ClusterSection {
  xc_cluster_name : cstring;
  xc_seed_nodes : list xsan_node;
  xc_min_nodes : Z;
  xc_max_nodes : Z;
  xc_quorum_size : Z;
  xc_network_timeout : Z;
  xc_reconnect_interval : Z;
  xc_enable_auto_failover : bool;
  xc_failover_timeout : Z
}.

(** What a cleared array of [size] bytes holds after the bounded copy. *)
Definition copied (size : Z) (src : option cstring) : cstring :=
  cstr_of (xsan_strcpy_safe (replicate (Z.to_nat size) NUL) src size).1.

Section Sections.
Context {D : Type} {SU : SpdkUuid}.
Implicit Types c : xsan_config (D := D).

Definition get_copied (size : Z) c (key dflt : cstring) : cstring :=
  copied size (xsan_config_get_string c (Some key) (Some dflt)).

(** An [int] assigned to a [size_t]. *)
Definition get_size c (key : cstring) (dflt : Z) : Z :=
  wrap 64 (xsan_config_get_int c (Some key) dflt).

Definition xsan_config_load_node_config c : xsan_node_config :=
  NodeSection (get_copied 64 c $"node.id" []) (get_copied 128 c $"node.name" [])
    (get_copied 64 c $"node.bind_address" $"0.0.0.0")
    (wrap 16 (xsan_config_get_int c (Some $"node.port") DEFAULT_PORT))
    (get_copied 256 c $"node.data_dir" $"/var/lib/xsan")
    (get_copied 256 c $"node.log_file" $"/var/log/xsan/xsan.log")
    (get_copied 16 c $"node.log_level" $"INFO")
    (get_size c $"node.max_connections" DEFAULT_MAX_CONNECTIONS)
    (get_size c $"node.heartbeat_interval" DEFAULT_HEARTBEAT_INTERVAL)
    (get_size c $"node.election_timeout" DEFAULT_ELECTION_TIMEOUT)
    (xsan_config_get_bool c (Some $"node.enable_ssl") false)
    (get_copied 256 c $"node.ssl_cert_file" []) (get_copied 256 c $"node.ssl_key_file" [])
    (get_copied XSAN_MAX_NAME_LEN c $"nvmf.target_nqn" [])
    (get_copied 16 c $"nvmf.listen_port" $"4420").

Definition xsan_config_load_storage_config c : xsan_storage_config :=
  StorageSection (get_copied 256 c $"storage.dir" $"/var/lib/xsan/storage")
    (get_size c $"storage.block_size" DEFAULT_BLOCK_SIZE)
    (wrap 64 (xsan_config_get_long c (Some $"storage.max_file_size") DEFAULT_MAX_FILE_SIZE))
    (wrap 64 (xsan_config_get_long c (Some $"storage.cache_size") DEFAULT_CACHE_SIZE))
    (get_size c $"storage.io_threads" DEFAULT_IO_THREADS)
    (get_size c $"storage.sync_interval" DEFAULT_SYNC_INTERVAL)
    (xsan_config_get_bool c (Some $"storage.enable_compression") false)
    (get_copied 32 c $"storage.compression_algorithm" $"lz4")
    (get_size c $"storage.replication_factor" DEFAULT_REPLICATION_FACTOR)
    (xsan_config_get_bool c (Some $"storage.enable_checksums") true).

(** ** The seed list *)

(** One token [uuid@ip:port]. *)
Definition parse_seed (token : cstring) : option xsan_node :=
  '(uuid_part, address) ← split_first "@"%char token;
  '(ip_part, port_str) ← split_last ":"%char address;
  port ← xsan_str_to_long (Some port_str);
  if (0 <? port) && (port <=? 65535) then
    id ← uuid_parse uuid_part;
    Some (Node id (copied INET_ADDRSTRLEN (Some ip_part)) (wrap 16 port))
  else None.

Definition seed_delim : cstring := [","; " "; "009"; "010"]%char.

(** The token loop; [room] is what is left of the array.  Every token is shorter
    than the text, so the length of the text is enough fuel. *)
Fixpoint parse_seeds (fuel : nat) (s : cstring) (room : nat) : list xsan_node :=
  match fuel, room, strtok seed_delim s with
  | S fuel, S room', Some (token, rest) =>
      match parse_seed token with
      | Some n => n :: parse_seeds fuel rest room'
      | None => parse_seeds fuel rest room
      end
  | _, _, _ => []
  end.

(** [None]: the length of a null string is taken.  [dup_ok] is the outcome of the
    copy of the seed list; when it fails the later fields stay cleared. *)
Definition xsan_config_load_cluster_config (dup_ok : bool) c :
    option (xsan_cluster_config * bool) :=
  let name := get_copied 128 c $"cluster.name" $"xsan-cluster" in
  s ← xsan_config_get_string c (Some $"cluster.seed_nodes") (Some []);
  if (0 <? Zlen s) && negb dup_ok
  then Some (ClusterSection name [] 0 0 0 0 0 false 0, false) else
  Some (ClusterSection name
    (parse_seeds (S (length s)) s (Z.to_nat XSAN_MAX_SEED_NODES))
    (get_size c $"cluster.min_nodes" DEFAULT_MIN_NODES)
    (get_size c $"cluster.max_nodes" DEFAULT_MAX_NODES)
    (get_size c $"cluster.quorum_size" DEFAULT_QUORUM_SIZE)
    (get_size c $"cluster.network_timeout" DEFAULT_NETWORK_TIMEOUT)
    (get_size c $"cluster.reconnect_interval" DEFAULT_RECONNECT_INTERVAL)
    (xsan_config_get_bool c (Some $"cluster.enable_auto_failover") true)
    (get_size c $"cluster.failover_timeout" DEFAULT_FAILOVER_TIMEOUT), true).

(** * Theorems *)

(** ** Types of loaded values *)

Variable str_to_double : cstring -> option D.

(** A value as the loader stores it: a long integer is not of type [int], and a
    string is not a decimal number. *)
Definition loaded_value (v : config_value (D := D)) : Prop :=
  match v with
  | CLong n => ~ INT_MIN <= n <= INT_MAX
  | CString (Some s) => xsan_str_to_long (Some s) = None
  | _ => True
  end.

Lemma int_of_long s n :
  xsan_str_to_long (Some s) = Some n -> xsan_str_to_int (Some s) = None ->
  ~ INT_MIN <= n <= INT_MAX.
Proof.
  unfold xsan_str_to_long, xsan_str_to_int. destruct (_ || _); [done|]. intros [= <-].
  destruct (Z.ltb_spec (st_value (strtol s)) INT_MIN), (Z.ltb_spec INT_MAX (st_value (strtol s)));
    simpl; intros; try done; lia.
Qed.

Lemma parse_value_loaded a s : loaded_value (parse_value str_to_double a s).
Proof.
  unfold parse_value. destruct (xsan_str_to_int (Some s)) eqn:Hi; [done|].
  destruct (xsan_str_to_long (Some s)) eqn:Hl; [now apply (int_of_long s)|].
  destruct (str_to_double s); [done|]. now destruct (xsan_str_to_bool _ _).
Qed.

Lemma put_item_Forall (P : config_value -> Prop) a c k w ok :
  P w -> Forall (fun kv => P kv.2) (cf_items c) ->
  Forall (fun kv => P kv.2) (cf_items (put_item a c k w ok).1).
Proof.
  intros Hw Hc. unfold put_item. destruct (find_item _ _); simpl.
  - induction Hc as [|[k' v] l Hv Hl IH]; simpl; [constructor|].
    destruct (decide _); now constructor.
  - destruct (negb _); simpl; [done|]. now constructor.
Qed.

Lemma load_lines_loaded al i lines c :
  Forall (fun kv => loaded_value kv.2) (cf_items c) ->
  Forall (fun kv => loaded_value kv.2) (cf_items (load_lines str_to_double al i lines c)).
Proof.
  revert i c. induction lines as [|l lines IH]; intros i c Hc; [done|].
  rewrite load_lines_cons. apply IH.
  destruct (xsan_parse_config_line _ _ _ _ _) as [[[] k] v]; [|done].
  pose proof (parse_value_loaded (al i) v) as Hv. unfold set_config_item.
  destruct (parse_value _ _ v) as [[s|]|n|n|d|b]; simpl stored_value; try done;
    [destruct (sa_value (al i))|..]; now apply put_item_Forall.
Qed.

Lemma find_item_Forall (P : config_value (D := D) -> Prop) l k v :
  Forall (fun kv => P kv.2) l -> find_item l k = Some v -> P v.
Proof.
  induction 1 as [|[k' w] l Hw Hl IH]; simpl; [done|].
  destruct (decide _); [now intros [= <-]|done].
Qed.

(** The type of a loaded value is fixed by its text, so that a key is lost to
    every getter of another type: after loading a file, no key yields a long
    integer in the range of [int] or a string that reads as a decimal number, other
    than the caller's default.  In particular a maximal file size below 2^31, or an
    NVMe-oF port given as a number, is ignored. *)
Theorem loaded_config_types al dup_ok text stat c0 path c :
  xsan_config_load_from_file str_to_double al dup_ok false (Some text) stat c0 (Some path) =
    Some (c, true) ->
  (forall key d, xsan_config_get_long c key d = d \/
     ~ INT_MIN <= xsan_config_get_long c key d <= INT_MAX) /\
  (forall key d s, xsan_config_get_string c key d = Some s ->
     d = Some s \/ xsan_str_to_long (Some s) = None) /\
  (let size := xs_max_file_size (xsan_config_load_storage_config c) in
   size = DEFAULT_MAX_FILE_SIZE \/ exists n, ~ INT_MIN <= n <= INT_MAX /\ size = wrap 64 n) /\
  (let port := xn_nvmf_listen_port (xsan_config_load_node_config c) in
   port = $"4420" \/ port = [] \/
   exists s, xsan_str_to_long (Some s) = None /\ port = copied 16 (Some s)).
Proof.
  unfold xsan_config_load_from_file. intros [= <-].
  set (c1 := load_lines _ _ _ _ _).
  assert (Hl : Forall (fun kv => loaded_value kv.2) (cf_items c1))
    by (apply load_lines_loaded; constructor).
  assert (Hlong : forall key d, xsan_config_get_long c1 key d = d \/
    ~ INT_MIN <= xsan_config_get_long c1 key d <= INT_MAX).
  { intros [k|] d; [|now left]. unfold xsan_config_get_long, find_config_item. simpl.
    destruct (find_item (cf_items c1) k) as [[]|] eqn:Hf; try now left. right.
    exact (find_item_Forall _ _ _ _ Hl Hf). }
  assert (Hstr : forall key d s, xsan_config_get_string c1 key d = Some s ->
    d = Some s \/ xsan_str_to_long (Some s) = None).
  { intros [k|] d s; [|now left]. unfold xsan_config_get_string, find_config_item. simpl.
    destruct (find_item (cf_items c1) k) as [[]|] eqn:Hf; try now left. intros ->. right.
    exact (find_item_Forall _ _ _ _ Hl Hf). }
  split_and!; [exact Hlong|exact Hstr| |].
  - destruct (Hlong (Some $"storage.max_file_size") DEFAULT_MAX_FILE_SIZE) as [H|H];
      [left|right; eexists; split; [exact H|reflexivity]].
    cbn [xs_max_file_size xsan_config_load_storage_config]. now rewrite H.
  - cbn [xn_nvmf_listen_port xsan_config_load_node_config]. unfold get_copied.
    destruct (xsan_config_get_string _ _ _) as [s|] eqn:Hs; [|right; left; reflexivity].
    apply Hstr in Hs as [[= <-]|Hs]; [left; reflexivity|]. right. right. now exists s.
Qed.

(** ** The seed list *)

(** The text of a seed, and a seed whose text can be read back. *)
Definition seed_text (n : xsan_node) : cstring :=
  uuid_fmt (n_id n) ++ "@"%char :: n_storage_ip n ++ ":"%char :: print_signed (n_storage_port n).

Record seed_ok (n : xsan_node) : Prop := {
  sd_id : in_u 128 (n_id n);
  sd_port : 0 < n_storage_port n <= 65535;
  sd_ip : no_nul (n_storage_ip n);
  sd_delim : Forall (not_sep seed_delim) (n_storage_ip n)
}.

(** The address is kept up to 15 characters. *)
Definition stored_seed (n : xsan_node) : xsan_node :=
  Node (n_id n) (take 15 (n_storage_ip n)) (n_storage_port n).

Lemma copied_spec size s :
  0 < size -> no_nul s -> copied size (Some s) = take (Z.to_nat (size - 1)) s.
Proof.
  intros Hs Hn. unfold copied.
  pose proof (strcpy_safe_spec (replicate (Z.to_nat size) NUL) s size) as H.
  destruct (xsan_strcpy_safe _ _ _) as [d n]. apply H; [|done].
  unfold Zlen. rewrite length_replicate. lia.
Qed.

Lemma uuid_chars_not u x : is_uuid_char x = false -> x ∉ uuid_fmt u.
Proof.
  intros Hx Hin. pose proof (uuid_fmt_chars u) as H. rewrite Forall_forall in H.
  specialize (H _ Hin). congruence.
Qed.

(** Digits of a printed port. *)
Lemma port_digits p : 0 < p <= 65535 ->
  Forall (fun x => isdigit x = true) (print_signed p).
Proof.
  intros Hp. unfold print_signed. destruct (Z.ltb_spec p 0); [lia|].
  apply print_unsigned_spec. lia.
Qed.

Lemma parse_seed_text n : seed_ok n -> parse_seed (seed_text n) = Some (stored_seed n).
Proof.
  intros [Hid Hp Hip _]. unfold parse_seed, seed_text.
  rewrite split_first_app by now apply uuid_chars_not. cbn [mbind option_bind].
  rewrite split_last_app.
  2:{ intros Hin. pose proof (port_digits _ Hp) as Hd. rewrite Forall_forall in Hd.
      now specialize (Hd _ Hin). }
  cbn [mbind option_bind]. unfold xsan_str_to_long.
  rewrite strtol_print by (unfold LONG_MIN, LONG_MAX; pow2s; lia). simpl.
  rewrite (proj2 (Z.ltb_lt _ _)), (proj2 (Z.leb_le _ _)) by lia. simpl.
  rewrite uuid_parse_fmt by done. simpl. unfold stored_seed.
  rewrite copied_spec by (done || (unfold INET_ADDRSTRLEN; lia)).
  now rewrite wrap_small by (unfold in_u; pow2s; lia).
Qed.

Lemma strtok_token delim t d rest :
  t <> [] -> Forall (not_sep delim) t -> in_delim delim d = true ->
  strtok delim (t ++ d :: rest) = Some (t, rest).
Proof.
  intros Hne Ht Hd. unfold strtok. destruct t as [|x t]; [done|].
  assert (Hx : in_delim delim x = false) by now apply Forall_inv in Ht.
  simpl skip_while. rewrite Hx. change (x :: t ++ d :: rest) with ((x :: t) ++ d :: rest).
  rewrite span_while_app; [done| |intros ? [= <-]; now rewrite Hd].
  eapply Forall_impl; [exact Ht|]. intros y Hy. unfold not_sep in Hy. now rewrite Hy.
Qed.

Lemma strtok_last delim t :
  t <> [] -> Forall (not_sep delim) t -> strtok delim t = Some (t, []).
Proof.
  intros Hne Ht. unfold strtok. destruct t as [|x t]; [done|].
  assert (Hx : in_delim delim x = false) by now apply Forall_inv in Ht.
  simpl skip_while. rewrite Hx.
  pose proof (span_while_app (fun y => negb (in_delim delim y)) (x :: t) []) as H.
  rewrite app_nil_r in H. rewrite H; [done| |done].
  eapply Forall_impl; [exact Ht|]. intros y Hy. unfold not_sep in Hy. now rewrite Hy.
Qed.

Lemma seed_char_ok x : is_uuid_char x = true -> not_sep seed_delim x.
Proof.
  unfold not_sep, in_delim. intros Hx. cbn [existsb seed_delim].
  repeat (match goal with |- context [(x =? ?d)%char] =>
    destruct (Ascii.eqb_spec x d) as [->|_]; [discriminate Hx|] end). reflexivity.
Qed.

Lemma seed_text_token n : seed_ok n -> seed_text n <> [] /\ Forall (not_sep seed_delim) (seed_text n).
Proof.
  intros [_ Hp _ Hd]. unfold seed_text. split; [now destruct (uuid_fmt _)|].
  apply Forall_app. split; [eapply Forall_impl; [apply uuid_fmt_chars|exact seed_char_ok]|].
  apply Forall_cons_2; [reflexivity|]. apply Forall_app. split; [done|].
  apply Forall_cons_2; [reflexivity|]. eapply Forall_impl; [now apply port_digits|].
  intros x Hx. apply seed_char_ok. unfold is_uuid_char. now rewrite Hx.
Qed.

Lemma parse_seeds_join nodes fuel room :
  Forall seed_ok nodes -> (length nodes <= room)%nat ->
  (length nodes < fuel)%nat ->
  parse_seeds fuel (join $"," (map seed_text nodes)) room = map stored_seed nodes.
Proof.
  revert fuel room. induction nodes as [|n nodes IH]; intros fuel room Hok Hr Hf.
  { destruct fuel, room; reflexivity. }
  apply Forall_cons in Hok as [Hn Hok]. destruct (seed_text_token n Hn) as [Hne Ht].
  simpl in Hr, Hf. destruct fuel as [|fuel]; [lia|]. destruct room as [|room]; [lia|].
  cbn [map]. destruct nodes as [|n2 nodes].
  - cbn [map join parse_seeds]. rewrite strtok_last by done. rewrite parse_seed_text by done.
    f_equal. destruct fuel, room; reflexivity.
  - rewrite join_cons by done. cbn [parse_seeds].
    change ($"," ++ ?r) with (","%char :: r).
    rewrite strtok_token by done. rewrite parse_seed_text by done. f_equal.
    apply IH; [done|simpl in *; lia..].
Qed.

Lemma join_seed_length nodes :
  Forall seed_ok nodes -> (length nodes <= length (join $"," (map seed_text nodes)))%nat.
Proof.
  induction 1 as [|n nodes Hn Hok IH]; [simpl; lia|].
  destruct (seed_text_token n Hn) as [Hne _].
  assert (1 <= length (seed_text n))%nat by (destruct (seed_text n); simpl; [done|lia]).
  destruct nodes as [|n2 nodes]; [simpl; lia|].
  change (map seed_text (n :: n2 :: nodes)) with (seed_text n :: map seed_text (n2 :: nodes)).
  rewrite join_cons, !length_app by done. cbn [length] in *. lia.
Qed.

(** A seed list written as [uuid@address:port] entries with commas is read back
    in order, each address cut to 15 characters, which loses long IPv6 addresses. *)
Theorem seed_list_round_trip c nodes :
  Forall seed_ok nodes -> Zlen nodes <= XSAN_MAX_SEED_NODES ->
  find_config_item c (Some $"cluster.seed_nodes") =
    Some (CString (Some (join $"," (map seed_text nodes)))) ->
  exists cc, xsan_config_load_cluster_config true c = Some (cc, true) /\
    xc_seed_nodes cc = map stored_seed nodes.
Proof.
  intros Hok Hn Hf. unfold xsan_config_load_cluster_config.
  unfold xsan_config_get_string at 1. rewrite Hf. cbn [mbind option_bind].
  rewrite andb_false_r. eexists. split; [reflexivity|]. cbn [xc_seed_nodes].
  apply parse_seeds_join; [done|unfold Zlen, XSAN_MAX_SEED_NODES in *; lia|].
  pose proof (join_seed_length nodes Hok). lia.
Qed.

End Sections.

(** ** Witnesses *)

(** A file that sets a maximal file size of 4096. *)
Definition size_text : cstring := $"storage.max_file_size = 4096" ++ ["010"%char].

Definition size_config : xsan_config (D := Empty_set) :=
  load_lines no_double (fun _ => all_ok) 0 (fgets_lines (length size_text) size_text)
    (Config [] 0 (Some $"x.conf") false 0).

Lemma loaded_config_types_witness :
  xsan_config_get_int size_config (Some $"storage.max_file_size") 0 = 4096 /\
  xsan_config_get_long size_config (Some $"storage.max_file_size") 7 = 7.
Proof.
  split; [vm_compute; reflexivity|].
  destruct (loaded_config_types no_double (fun _ => all_ok) true size_text None
              (Config [] 0 None false 0) $"x.conf" size_config eq_refl) as (H & _).
  destruct (H (Some $"storage.max_file_size") 7) as [H1|H1]; [exact H1|].
  exfalso. apply H1. vm_compute. split; congruence.
Defined.

Definition sample_seeds : list xsan_node :=
  [Node 5 $"10.0.0.1" 8080; Node 6 $"fe80::1234:5678:9abc:def0" 9090].

Lemma sample_seeds_ok : Forall seed_ok sample_seeds.
Proof.
  repeat apply Forall_cons_2; try apply Forall_nil_2; constructor;
    try (split; vm_compute; congruence); repeat constructor; discriminate.
Qed.

Lemma seed_list_round_trip_witness :
  exists cc,
    xsan_config_load_cluster_config (D := Empty_set) true
      (Config [($"cluster.seed_nodes",
                CString (Some (join $"," (map seed_text sample_seeds))))] 1 None false 0) =
      Some (cc, true) /\
    map n_storage_ip (xc_seed_nodes cc) = [$"10.0.0.1"; $"fe80::1234:5678"].
Proof.
  destruct (seed_list_round_trip (D := Empty_set)
    (Config [($"cluster.seed_nodes",
              CString (Some (join $"," (map seed_text sample_seeds))))] 1 None false 0)
    sample_seeds sample_seeds_ok) as (cc & H & Hs); [vm_compute; congruence|reflexivity|].
  exists cc. split; [exact H|]. rewrite Hs. reflexivity.
Defined.
