(* ===== verification/Memory.v ===== *)
(** * Memory manager ([src/src/utils/memory.c], lines 19-362 and 541-612)

    The global state of the tracking allocator and its operations.  The calls of
    the C library are explicit: [a] is the address that [malloc] or [realloc]
    returns ([None] is the null pointer), and [mm_raw] holds the blocks it handed
    out without a header.  A call has one of three outcomes: it returns, it locks
    the mutex that it already holds, or it reads or frees memory that it must not.

    The headers of debug mode form a doubly linked list; it is the list of its
    elements.  The list can only be reset while it is empty ([init_blocks_empty]),
    so a header outside the list is never live. *)

From stdpp Require Import prelude gmap strings.
From Stdlib Require Import ZArith Lia Ascii.
From S2P Require Import Prelude Errors StringUtils.

(** ** Outcomes *)

Inductive outcome (A : Type) :=
  | Ret (a : A)
  | Deadlock
  | Undefined.
Arguments Ret {A} a.
Arguments Deadlock {A}.
Arguments Undefined {A}.

Definition obind {A B} (x : outcome A) (f : A -> outcome B) : outcome B :=
  match x with Ret a => f a | Deadlock => Deadlock | Undefined => Undefined end.

Notation "x <~ e ; k" := (obind e (fun x => k))
  (at level 100, e at level 90, k at level 200, right associativity) : xsan_scope.
Notation "' p <~ e ; k" := (obind e (fun p => k))
  (at level 100, p pattern, e at level 90, k at level 200, right associativity) : xsan_scope.

(** ** State *)

Record xsan_memory_stats := MemStats {
  ms_total_allocated : Z;
  ms_total_freed : Z;
  ms_current_allocated : Z;
  ms_peak_allocated : Z;
  ms_allocation_count : Z;
  ms_free_count : Z
}.

Definition stats0 : xsan_memory_stats := MemStats 0 0 0 0 0 0.

(** A tracked block: address of the data, size asked for, bytes the header and the
    data have together. *)
Record tracked := Tracked { tr_ptr : ptr; tr_size : Z; tr_room : Z }.

Record memory_mgr := MemMgr {
  mm_initialized : bool;
  mm_debug : bool;
  mm_stats : xsan_memory_stats;
  mm_blocks : list tracked;
  mm_raw : gmap Z Z;
  mm_oom_callback : bool;
  mm_oom_calls : list Z;
  mm_locked : bool
}.

Definition memory0 : memory_mgr := MemMgr false false stats0 [] ∅ false [] false.

Definition HEADER_SIZE : Z := 48.

Implicit Types m : memory_mgr.

Definition with_lock m (b : bool) : memory_mgr :=
  MemMgr (mm_initialized m) (mm_debug m) (mm_stats m) (mm_blocks m) (mm_raw m)
    (mm_oom_callback m) (mm_oom_calls m) b.
Definition with_stats m (s : xsan_memory_stats) : memory_mgr :=
  MemMgr (mm_initialized m) (mm_debug m) s (mm_blocks m) (mm_raw m)
    (mm_oom_callback m) (mm_oom_calls m) (mm_locked m).
Definition with_blocks m (l : list tracked) : memory_mgr :=
  MemMgr (mm_initialized m) (mm_debug m) (mm_stats m) l (mm_raw m)
    (mm_oom_callback m) (mm_oom_calls m) (mm_locked m).
Definition with_raw m (r : gmap Z Z) : memory_mgr :=
  MemMgr (mm_initialized m) (mm_debug m) (mm_stats m) (mm_blocks m) r
    (mm_oom_callback m) (mm_oom_calls m) (mm_locked m).

Definition mutex_lock m : outcome memory_mgr :=
  if mm_locked m then Deadlock else Ret (with_lock m true).
Definition mutex_unlock m : memory_mgr := with_lock m false.

(** The callback is called with the mutex held. *)
Definition run_oom m (size : Z) : memory_mgr :=
  MemMgr (mm_initialized m) (mm_debug m) (mm_stats m) (mm_blocks m) (mm_raw m)
    (mm_oom_callback m)
    (if mm_oom_callback m then mm_oom_calls m ++ [size] else mm_oom_calls m) (mm_locked m).

(** ** Life cycle *)

Definition xsan_memory_init (enable_debug : bool) m : outcome (memory_mgr * xsan_error_t) :=
  m <~ mutex_lock m;
  if mm_initialized m then Ret (mutex_unlock m, XSAN_OK) else
  Ret (mutex_unlock (MemMgr true enable_debug stats0 [] (mm_raw m) (mm_oom_callback m)
                       (mm_oom_calls m) (mm_locked m)), XSAN_OK).

Definition xsan_memory_check_leaks m : outcome (memory_mgr * bool) :=
  if negb (mm_debug m) then Ret (m, false) else
  m <~ mutex_lock m;
  Ret (mutex_unlock m, negb (bool_decide (mm_blocks m = []))).

Definition xsan_memory_cleanup m : outcome memory_mgr :=
  m <~ mutex_lock m;
  if negb (mm_initialized m) then Ret (mutex_unlock m) else
  m <~ (if mm_debug m && negb (bool_decide (mm_blocks m = []))
        then '(m, _) <~ xsan_memory_check_leaks m; Ret m else Ret m);
  Ret (mutex_unlock (MemMgr false (mm_debug m) (mm_stats m) (mm_blocks m) (mm_raw m)
                       (mm_oom_callback m) (mm_oom_calls m) (mm_locked m))).

(** ** Allocation *)

Definition count_alloc (s : xsan_memory_stats) (size : Z) : xsan_memory_stats :=
  let current := wrap 64 (ms_current_allocated s + size) in
  MemStats (wrap 64 (ms_total_allocated s + size)) (ms_total_freed s) current
    (if ms_peak_allocated s <? current then current else ms_peak_allocated s)
    (wrap 64 (ms_allocation_count s + 1)) (ms_free_count s).

Definition xsan_malloc (a : option ptr) (size : Z) m : outcome (memory_mgr * option ptr) :=
  if size =? 0 then Ret (m, None) else
  m <~ mutex_lock m;
  if negb (mm_initialized m) then
    let m := mutex_unlock m in
    Ret (match a with
         | Some p => with_raw m (<[p := size]> (mm_raw m))
         | None => m
         end, a)
  else if mm_debug m then
    match a with
    | None => Ret (mutex_unlock (run_oom m size), None)
    | Some h =>
        let p := h + HEADER_SIZE in
        let b := Tracked p size (wrap 64 (HEADER_SIZE + size)) in
        let m := with_blocks m (b :: mm_blocks m) in
        Ret (mutex_unlock (with_stats m (count_alloc (mm_stats m) size)), Some p)
    end
  else
    match a with
    | None => Ret (mutex_unlock (run_oom m size), None)
    | Some p =>
        let m := with_raw m (<[p := size]> (mm_raw m)) in
        Ret (mutex_unlock (with_stats m (count_alloc (mm_stats m) size)), Some p)
    end.

Definition xsan_calloc (a : option ptr) (nmemb size : Z) m :
    outcome (memory_mgr * option ptr) :=
  let total_size := wrap 64 (nmemb * size) in
  if negb (nmemb =? 0) && negb (total_size / nmemb =? size) then Ret (m, None) else
  xsan_malloc a total_size m.

(** ** Release *)

Definition find_block (p : ptr) (l : list tracked) : option tracked :=
  List.find (fun b => tr_ptr b =? p) l.

Fixpoint unlink (p : ptr) (l : list tracked) : list tracked :=
  match l with
  | [] => []
  | b :: l => if tr_ptr b =? p then l else b :: unlink p l
  end.

(** [free] of a block of the C library. *)
Definition raw_free (p : ptr) m : outcome memory_mgr :=
  match mm_raw m !! p with
  | Some _ => Ret (with_raw m (delete p (mm_raw m)))
  | None => Undefined
  end.

(** In debug mode the header in front of the block is read: it must be one. *)
Definition xsan_free (p : option ptr) m : outcome memory_mgr :=
  match p with
  | None => Ret m
  | Some p =>
      m <~ mutex_lock m;
      if negb (mm_initialized m) then raw_free p (mutex_unlock m)
      else if mm_debug m then
        match find_block p (mm_blocks m) with
        | None => Undefined
        | Some b =>
            let m := with_blocks m (unlink p (mm_blocks m)) in
            let s := mm_stats m in
            Ret (mutex_unlock (with_stats m
              (MemStats (ms_total_allocated s) (wrap 64 (ms_total_freed s + tr_size b))
                 (wrap 64 (ms_current_allocated s - tr_size b)) (ms_peak_allocated s)
                 (ms_allocation_count s) (wrap 64 (ms_free_count s + 1)))))
        end
      else
        m <~ raw_free p m;
        let s := mm_stats m in
        Ret (mutex_unlock (with_stats m
          (MemStats (ms_total_allocated s) (ms_total_freed s) (ms_current_allocated s)
             (ms_peak_allocated s) (ms_allocation_count s) (wrap 64 (ms_free_count s + 1)))))
  end.

(** [realloc] of a block of the C library; the block stays when it fails. *)
Definition raw_realloc (a : option ptr) (p : ptr) (size : Z) m :
    outcome (memory_mgr * option ptr) :=
  match mm_raw m !! p, a with
  | None, _ => Undefined
  | Some _, None => Ret (m, None)
  | Some _, Some q => Ret (with_raw m (<[q := size]> (delete p (mm_raw m))), Some q)
  end.

Definition count_realloc m : memory_mgr :=
  let s := mm_stats m in
  with_stats m (MemStats (ms_total_allocated s) (ms_total_freed s) (ms_current_allocated s)
    (ms_peak_allocated s) (wrap 64 (ms_allocation_count s + 1)) (ms_free_count s)).

Definition xsan_realloc (a : option ptr) (p : option ptr) (size : Z) m :
    outcome (memory_mgr * option ptr) :=
  match p with
  | None => xsan_malloc a size m
  | Some p =>
      if size =? 0 then m <~ xsan_free (Some p) m; Ret (m, None) else
      m <~ mutex_lock m;
      if negb (mm_initialized m) then raw_realloc a p size (mutex_unlock m)
      else if mm_debug m then
        match find_block p (mm_blocks m) with
        | None => Undefined
        | Some _ =>
            '(m, q) <~ xsan_malloc a size m;
            m <~ (match q with Some _ => xsan_free (Some p) m | None => Ret m end);
            Ret (mutex_unlock m, q)
        end
      else
        '(m, q) <~ raw_realloc a p size m;
        Ret (mutex_unlock (match q with Some _ => count_realloc m | None => m end), q)
  end.

(** ** Strings *)

(** The copy and its contents. *)
Definition xsan_strdup (a : option ptr) (str : option cstring) m :
    outcome (memory_mgr * option (ptr * cstring)) :=
  match str with
  | None => Ret (m, None)
  | Some s =>
      '(m, p) <~ xsan_malloc a (Zlen s + 1) m;
      Ret (m, (fun p => (p, s)) <$> p)
  end.

Definition xsan_strndup (a : option ptr) (str : option cstring) (n : Z) m :
    outcome (memory_mgr * option (ptr * cstring)) :=
  match str with
  | None => Ret (m, None)
  | Some s =>
      let copy := take (Z.to_nat n) s in
      '(m, p) <~ xsan_malloc a (Zlen copy + 1) m;
      Ret (m, (fun p => (p, copy)) <$> p)
  end.

(** [*ptr] afterwards. *)
Definition xsan_safe_free (p : option ptr) m : outcome (memory_mgr * option ptr) :=
  m <~ xsan_free p m; Ret (m, None).

(** ** Statistics *)

Definition xsan_memory_get_stats m : outcome (memory_mgr * xsan_memory_stats) :=
  m <~ mutex_lock m; Ret (mutex_unlock m, mm_stats m).

Definition xsan_memory_set_oom_callback (set : bool) m : outcome memory_mgr :=
  m <~ mutex_lock m;
  Ret (mutex_unlock (MemMgr (mm_initialized m) (mm_debug m) (mm_stats m) (mm_blocks m)
                       (mm_raw m) set (mm_oom_calls m) (mm_locked m))).

(** ** The manager as a machine *)

Inductive mem_op :=
  | MInit (debug : bool)
  | MCleanup
  | MMalloc (a : option ptr) (size : Z)
  | MCalloc (a : option ptr) (nmemb size : Z)
  | MRealloc (a p : option ptr) (size : Z)
  | MFree (p : option ptr)
  | MStrdup (a : option ptr) (s : option cstring)
  | MStrndup (a : option ptr) (s : option cstring) (n : Z)
  | MSetOom (set : bool)
  | MGetStats
  | MCheckLeaks.

Definition drop_result {A} (x : outcome (memory_mgr * A)) : outcome memory_mgr :=
  '(m, _) <~ x; Ret m.

Definition mem_exec (op : mem_op) m : outcome memory_mgr :=
  match op with
  | MInit d => drop_result (xsan_memory_init d m)
  | MCleanup => xsan_memory_cleanup m
  | MMalloc a n => drop_result (xsan_malloc a n m)
  | MCalloc a k n => drop_result (xsan_calloc a k n m)
  | MRealloc a p n => drop_result (xsan_realloc a p n m)
  | MFree p => xsan_free p m
  | MStrdup a s => drop_result (xsan_strdup a s m)
  | MStrndup a s n => drop_result (xsan_strndup a s n m)
  | MSetOom b => xsan_memory_set_oom_callback b m
  | MGetStats => drop_result (xsan_memory_get_stats m)
  | MCheckLeaks => drop_result (xsan_memory_check_leaks m)
  end.

(** The address the C library hands out to an operation. *)
Definition op_address (op : mem_op) : option ptr :=
  match op with
  | MMalloc a _ | MCalloc a _ _ | MRealloc a _ _ | MStrdup a _ | MStrndup a _ _ => a
  | _ => None
  end.

(** [malloc] returns memory that no live tracked block occupies. *)
Definition fresh m (op : mem_op) : Prop :=
  forall h, op_address op = Some h -> h + HEADER_SIZE ∉ map tr_ptr (mm_blocks m).

Inductive mem_step : memory_mgr -> memory_mgr -> Prop :=
  | MemStep op m m' : fresh m op -> mem_exec op m = Ret m' -> mem_step m m'.

(** The states of a program that starts with the static initial state. *)
Definition reachable m : Prop := rtc mem_step memory0 m.

(** * Theorems *)

Definition sum_sizes (l : list tracked) : Z := foldr (fun b n => tr_size b + n) 0 l.

(** The statistics of debug mode are those of the live blocks. *)
Record stats_exact (s : xsan_memory_stats) (l : list tracked) : Prop := {
  se_current : ms_current_allocated s = wrap 64 (sum_sizes l);
  se_total : ms_total_allocated s = wrap 64 (ms_total_freed s + sum_sizes l);
  se_count : ms_allocation_count s = wrap 64 (ms_free_count s + Zlen l)
}.

Record mem_inv m : Prop := {
  mi_unlocked : mm_locked m = false;
  mi_off : mm_initialized m = false -> mm_blocks m = [];
  mi_plain : mm_debug m = false -> mm_blocks m = [];
  mi_nodup : NoDup (map tr_ptr (mm_blocks m));
  mi_stats : mm_initialized m = true -> mm_debug m = true ->
    stats_exact (mm_stats m) (mm_blocks m)
}.

Lemma wrap_add_wrap a b : wrap 64 (wrap 64 a + b) = wrap 64 (a + b).
Proof. unfold wrap. apply Zplus_mod_idemp_l. Qed.
Lemma wrap_sub_wrap a b : wrap 64 (wrap 64 a - b) = wrap 64 (a - b).
Proof. unfold wrap. apply Zminus_mod_idemp_l. Qed.

Lemma count_alloc_exact s l p size room :
  stats_exact s l -> stats_exact (count_alloc s size) (Tracked p size room :: l).
Proof.
  intros [H1 H2 H3]. constructor; simpl.
  - rewrite H1, wrap_add_wrap. f_equal. lia.
  - rewrite H2, wrap_add_wrap. f_equal. lia.
  - rewrite H3, wrap_add_wrap, Zlen_cons. f_equal. lia.
Qed.

Lemma find_block_Some p l b : find_block p l = Some b -> b ∈ l /\ tr_ptr b = p.
Proof.
  intros H. apply List.find_some in H as [H1 H2]. split; [now apply list_elem_of_In|].
  now apply Z.eqb_eq.
Qed.

Lemma unlink_spec p l b :
  find_block p l = Some b ->
  sum_sizes l = tr_size b + sum_sizes (unlink p l) /\ Zlen l = 1 + Zlen (unlink p l) /\
  sublist (map tr_ptr (unlink p l)) (map tr_ptr l).
Proof.
  unfold find_block. induction l as [|x l IH]; simpl; [done|].
  destruct (tr_ptr x =? p).
  - intros [= <-]. rewrite Zlen_cons. split_and!; [lia|lia|]. now apply sublist_cons.
  - intros H. destruct (IH H) as (H1 & H2 & H3). simpl. rewrite !Zlen_cons.
    split_and!; [lia|lia|]. now apply sublist_skip.
Qed.

Lemma inv_init_state : mem_inv memory0.
Proof. constructor; simpl; [done..|constructor|done]. Qed.

(** Changes that leave flags, blocks and statistics alone. *)
Lemma inv_same m m' :
  mem_inv m -> mm_locked m' = false -> mm_initialized m' = mm_initialized m ->
  mm_debug m' = mm_debug m -> mm_blocks m' = mm_blocks m -> mm_stats m' = mm_stats m ->
  mem_inv m'.
Proof. intros [] ? Hi Hd Hb Hs. constructor; rewrite ?Hi, ?Hd, ?Hb, ?Hs; auto. Qed.

(** Changes outside debug mode. *)
Lemma inv_plain m m' :
  mem_inv m -> mm_locked m' = false -> mm_initialized m' = mm_initialized m ->
  mm_debug m = false -> mm_debug m' = false -> mm_blocks m' = mm_blocks m -> mem_inv m'.
Proof.
  intros [] ? Hi Hd Hd' Hb. constructor; rewrite ?Hi, ?Hd', ?Hb; auto. done.
Qed.

Definition good (x : outcome memory_mgr) : Prop :=
  match x with Ret m => mem_inv m | Deadlock => False | Undefined => True end.

Lemma good_drop {A} (x : outcome (memory_mgr * A)) :
  good (drop_result x) <->
  match x with Ret (m, _) => mem_inv m | Deadlock => False | Undefined => True end.
Proof. now destruct x as [[]| |]. Qed.

Lemma malloc_spec a size m :
  mem_inv m -> (forall h, a = Some h -> h + HEADER_SIZE ∉ map tr_ptr (mm_blocks m)) ->
  exists m' r, xsan_malloc a size m = Ret (m', r) /\ mem_inv m'.
Proof.
  intros Hm Hfresh. unfold xsan_malloc, mutex_lock. destruct (size =? 0); [eauto|].
  rewrite (mi_unlocked m Hm). simpl. destruct (mm_initialized m) eqn:Hi; simpl.
  2:{ eexists _, _. split; [reflexivity|].
      destruct a; now apply (inv_same m). }
  destruct (mm_debug m) eqn:Hd.
  - destruct a as [h|]; eexists _, _; (split; [reflexivity|]);
      [|now apply (inv_same m)].
    pose proof (Hfresh h eq_refl) as Hh. destruct Hm as [_ _ _ Hnd Hst].
    constructor; simpl; try congruence.
    + now apply NoDup_cons.
    + intros _ _. apply count_alloc_exact, Hst; done.
  - destruct a as [h|]; eexists _, _; (split; [reflexivity|]); now apply (inv_plain m).
Qed.

Lemma free_spec p m : mem_inv m -> good (xsan_free p m).
Proof.
  intros Hm. unfold xsan_free, mutex_lock. destruct p as [p|]; [|done].
  rewrite (mi_unlocked m Hm). simpl. destruct (mm_initialized m) eqn:Hi; simpl.
  2:{ unfold raw_free. simpl. destruct (mm_raw m !! p); simpl; [|done]. now apply (inv_same m). }
  destruct (mm_debug m) eqn:Hd; simpl.
  - destruct (find_block p (mm_blocks m)) as [b|] eqn:Hf; [|done].
    destruct (unlink_spec p _ b Hf) as (H1 & H2 & H3). destruct Hm as [_ _ _ Hnd Hst].
    constructor; simpl; try congruence; [exact (sublist_NoDup _ _ Hnd H3)|].
    intros _ _. destruct (Hst Hi Hd) as [S1 S2 S3]. constructor; simpl.
    + rewrite S1, wrap_sub_wrap. f_equal. lia.
    + rewrite S2, wrap_add_wrap. f_equal. lia.
    + rewrite S3, wrap_add_wrap. f_equal. lia.
  - unfold raw_free. simpl. destruct (mm_raw m !! p); simpl; [|done]. now apply (inv_plain m).
Qed.

(** The operations that lock the mutex twice. *)
Definition deadlocks (op : mem_op) m : Prop :=
  mm_initialized m = true /\ mm_debug m = true /\
  match op with
  | MRealloc _ (Some p) size => size <> 0 /\ is_Some (find_block p (mm_blocks m))
  | MCleanup => mm_blocks m <> []
  | _ => False
  end.

Lemma realloc_spec a p size m :
  mem_inv m -> fresh m (MRealloc a p size) ->
  deadlocks (MRealloc a p size) m /\ xsan_realloc a p size m = Deadlock \/
  ~ deadlocks (MRealloc a p size) m /\ good (drop_result (xsan_realloc a p size m)).
Proof.
  intros Hm Hf. unfold xsan_realloc, deadlocks. destruct p as [p|].
  2:{ right. split; [tauto|]. destruct (malloc_spec a size m Hm) as (m' & r & -> & H); [|done].
      intros h ->. now apply Hf. }
  destruct (Z.eqb_spec size 0) as [->|Hs].
  { right. split; [tauto|]. pose proof (free_spec (Some p) m Hm). now destruct (xsan_free _ m). }
  assert (Hml : mutex_lock m = Ret (with_lock m true))
    by (unfold mutex_lock; now rewrite (mi_unlocked m Hm)).
  rewrite !Hml. cbn [obind mm_initialized with_lock].
  destruct (mm_initialized m) eqn:Hi; cbn [negb].
  2:{ right. split; [naive_solver|]. unfold raw_realloc. simpl.
      destruct (mm_raw m !! p), a; simpl; try done; now apply (inv_same m). }
  cbn [mm_debug with_lock mm_blocks]. destruct (mm_debug m) eqn:Hd.
  - destruct (find_block p (mm_blocks m)) as [b|]; [left|right; split; [naive_solver|done]].
    split; [eauto|]. unfold xsan_malloc. rewrite (proj2 (Z.eqb_neq _ _) Hs). reflexivity.
  - right. split; [naive_solver|]. unfold raw_realloc. simpl.
    destruct (mm_raw m !! p), a; simpl; try done; [|now apply (inv_same m)].
    now apply (inv_plain m).
Qed.

Lemma exec_spec op m :
  mem_inv m -> fresh m op ->
  deadlocks op m /\ mem_exec op m = Deadlock \/ ~ deadlocks op m /\ good (mem_exec op m).
Proof.
  intros Hm Hf. pose proof (mi_unlocked m Hm) as Hl.
  assert (Hmal : forall size, exists m' r,
    xsan_malloc (op_address op) size m = Ret (m', r) /\ mem_inv m')
    by (intros size; now apply malloc_spec).
  destruct op as [d| |a n|a k n|a p n|p|a s|a s n|b| |]; simpl in *.
  - right. split; [unfold deadlocks; tauto|]. unfold xsan_memory_init, mutex_lock. rewrite Hl. simpl.
    destruct (mm_initialized m) eqn:Hi; simpl; [now apply (inv_same m)|].
    constructor; simpl; [done..|constructor|]. intros _ _. now constructor.
  - unfold deadlocks, xsan_memory_cleanup, mutex_lock. rewrite Hl. simpl.
    destruct (mm_initialized m) eqn:Hi; simpl; [|right; split; [naive_solver|now apply (inv_same m)]].
    destruct (mm_debug m) eqn:Hd; simpl.
    + case_bool_decide as Hb; simpl.
      * right. split; [naive_solver|]. rewrite Hb. constructor; simpl; [done..|constructor|done].
      * left. split; [done|]. unfold xsan_memory_check_leaks. simpl. now rewrite Hd.
    + right. split; [naive_solver|]. pose proof (mi_plain m Hm Hd) as Hb. rewrite Hb.
      constructor; simpl; [done..|constructor|done].
  - right. split; [unfold deadlocks; tauto|]. now destruct (Hmal n) as (m' & r & -> & H).
  - right. split; [unfold deadlocks; tauto|]. unfold xsan_calloc. destruct (_ && _); [done|].
    now destruct (Hmal (wrap 64 (k * n))) as (m' & r & -> & H).
  - destruct (realloc_spec a p n m Hm Hf) as [[H1 H2]|H]; [left; now rewrite H2|now right].
  - right. split; [unfold deadlocks; tauto|]. now apply free_spec.
  - right. split; [unfold deadlocks; tauto|]. unfold xsan_strdup. destruct s as [s|]; [|done].
    now destruct (Hmal (Zlen s + 1)) as (m' & r & -> & H).
  - right. split; [unfold deadlocks; tauto|]. unfold xsan_strndup. destruct s as [s|]; [|done].
    now destruct (Hmal (Zlen (take (Z.to_nat n) s) + 1)) as (m' & r & -> & H).
  - right. split; [unfold deadlocks; tauto|]. unfold xsan_memory_set_oom_callback, mutex_lock.
    rewrite Hl. now apply (inv_same m).
  - right. split; [unfold deadlocks; tauto|]. unfold xsan_memory_get_stats, mutex_lock. rewrite Hl.
    now apply (inv_same m).
  - right. split; [unfold deadlocks; tauto|]. unfold xsan_memory_check_leaks, mutex_lock.
    destruct (mm_debug m); simpl; [|done]. rewrite Hl. now apply (inv_same m).
Qed.

Lemma reachable_inv m : reachable m -> mem_inv m.
Proof.
  unfold reachable. intros H. pattern m. revert m H. apply rtc_ind_r; [exact inv_init_state|].
  intros m1 m2 _ [op m m' Hf He] IH.
  destruct (exec_spec op m IH Hf) as [[_ H]|[_ H]]; rewrite He in H; [done|exact H].
Qed.

(** Initialisation never drops a live header. *)
Lemma init_blocks_empty m : reachable m -> mm_initialized m = false -> mm_blocks m = [].
Proof. intros Hr. apply mi_off. now apply reachable_inv. Qed.

(** C34: in every reachable state of debug mode the statistics that are reported
    are those of the blocks that are live: the bytes in use are the sum of their
    sizes, the bytes ever allocated exceed the bytes freed by it, and the number of
    allocations exceeds the number of releases by their number (all modulo 2^64);
    the leak check answers whether there is one.  Outside debug mode a release
    leaves the bytes in use as they were. *)
Theorem allocator_stats m :
  reachable m ->
  (mm_initialized m = true -> mm_debug m = true ->
   exists s, xsan_memory_get_stats m = Ret (m, s) /\
     ms_current_allocated s = wrap 64 (sum_sizes (mm_blocks m)) /\
     ms_total_allocated s = wrap 64 (ms_total_freed s + sum_sizes (mm_blocks m)) /\
     ms_allocation_count s = wrap 64 (ms_free_count s + Zlen (mm_blocks m)) /\
     exists leak, xsan_memory_check_leaks m = Ret (m, leak) /\
       (leak = true <-> mm_blocks m <> [])) /\
  (mm_debug m = false -> forall p m', xsan_free p m = Ret m' ->
   ms_current_allocated (mm_stats m') = ms_current_allocated (mm_stats m)).
Proof.
  intros Hr. pose proof (reachable_inv m Hr) as [Hl _ _ _ Hst].
  assert (Hml : mutex_lock m = Ret (with_lock m true)) by (unfold mutex_lock; now rewrite Hl).
  assert (Hu : mutex_unlock (with_lock m true) = m) by (destruct m; simpl in *; now subst).
  split.
  - intros Hi Hd. destruct (Hst Hi Hd) as [H1 H2 H3]. exists (mm_stats m).
    unfold xsan_memory_get_stats, xsan_memory_check_leaks. rewrite Hd, Hml. cbn [obind negb].
    rewrite Hu. split_and!; try done. eexists. split; [reflexivity|].
    simpl. rewrite negb_true_iff, bool_decide_eq_false. done.
  - intros Hd p m'. unfold xsan_free, raw_free. destruct p as [p|]; [|now intros [= <-]].
    rewrite Hml. cbn [obind]. simpl. rewrite Hd.
    destruct (mm_initialized m); simpl; destruct (mm_raw m !! p); simpl; try done;
      now intros [= <-].
Qed.

(** C36: an operation blocks for ever exactly when it resizes a live block, or shuts
    the manager down while a block is live, in debug mode: both lock the mutex a
    second time. *)
Theorem memory_deadlocks_exactly m op :
  reachable m -> fresh m op -> (mem_exec op m = Deadlock <-> deadlocks op m).
Proof.
  intros Hr Hf. destruct (exec_spec op m (reachable_inv m Hr) Hf) as [[H1 H2]|[H1 H2]].
  - now rewrite H2.
  - split; [|done]. intros H. now rewrite H in H2.
Qed.

(** An array allocation whose size does not fit 64 bits fails without asking
    for memory, and any other asks for the exact product.  A debug block has room
    for its header and data unless its size is within 48 bytes of 2^64, when the
    sum wraps and the block is smaller than its recorded size. *)
Theorem allocation_bounds a nmemb size m :
  in_u 64 nmemb -> in_u 64 size ->
  xsan_calloc a nmemb size m =
    (if nmemb * size <? 2 ^ 64 then xsan_malloc a (nmemb * size) m else Ret (m, None)) /\
  (mm_initialized m = true -> mm_debug m = true -> forall h m' p,
   xsan_malloc (Some h) size m = Ret (m', Some p) ->
   exists b, head (mm_blocks m') = Some b /\ tr_ptr b = p /\ tr_size b = size /\
     tr_room b = (if size + HEADER_SIZE <? 2 ^ 64 then size + HEADER_SIZE
                  else size + HEADER_SIZE - 2 ^ 64)).
Proof.
  unfold in_u. intros Hn Hs. split.
  - unfold xsan_calloc. destruct (Z.ltb_spec (nmemb * size) (2 ^ 64)) as [Hlt|Hge].
    + rewrite wrap_small by (unfold in_u; nia).
      destruct (Z.eqb_spec nmemb 0) as [->|Hne]; [done|]. simpl.
      rewrite Z.mul_comm, Z.div_mul by done. now rewrite Z.eqb_refl.
    + pose proof (wrap_range 64 (nmemb * size) ltac:(lia)) as [Hw1 Hw2].
      destruct (Z.eqb_spec nmemb 0) as [->|Hne]; [simpl in Hge; lia|]. simpl.
      destruct (Z.eqb_spec (wrap 64 (nmemb * size) / nmemb) size) as [He|]; [|done].
      pose proof (Z.mul_div_le (wrap 64 (nmemb * size)) nmemb ltac:(lia)). rewrite He in *. lia.
  - intros Hi Hd h m' p. unfold xsan_malloc, mutex_lock. destruct (size =? 0); [done|].
    destruct (mm_locked m); [done|]. simpl. rewrite Hi, Hd. simpl. intros [= <- <-].
    eexists. split; [reflexivity|]. simpl. split_and!; [done..|]. unfold HEADER_SIZE.
    destruct (Z.ltb_spec (size + 48) (2 ^ 64)).
    + rewrite wrap_small; [lia|]. unfold in_u. lia.
    + unfold wrap. rewrite <- (Z.mod_small (size + 48 - 2 ^ 64) (2 ^ 64)) by lia.
      rewrite <- (Z_mod_plus_full (size + 48 - 2 ^ 64) 1). f_equal. lia.
Qed.

(** ** Witnesses *)

(** A manager in debug mode with one block of 100 bytes. *)
Definition sample_mgr : memory_mgr :=
  MemMgr true true (count_alloc stats0 100) [Tracked 1048 100 148] ∅ false [] false.

Lemma sample_mgr_reachable : reachable sample_mgr.
Proof.
  apply (rtc_l _ _ (MemMgr true true stats0 [] ∅ false [] false)).
  { apply (MemStep (MInit true)); [done|reflexivity]. }
  apply rtc_once. apply (MemStep (MMalloc (Some 1000) 100)); [|reflexivity].
  intros h _. apply not_elem_of_nil.
Qed.

Lemma allocator_stats_witness :
  exists s, xsan_memory_get_stats sample_mgr = Ret (sample_mgr, s) /\
    ms_current_allocated s = 100.
Proof.
  destruct (proj1 (allocator_stats sample_mgr sample_mgr_reachable) eq_refl eq_refl)
    as (s & H & Hc & _).
  exists s. split; [exact H|]. rewrite Hc. reflexivity.
Defined.

Lemma memory_deadlocks_exactly_witness :
  mem_exec (MRealloc (Some 2000) (Some 1048) 200) sample_mgr = Deadlock /\
  mem_exec MCleanup sample_mgr = Deadlock.
Proof.
  split; apply (memory_deadlocks_exactly sample_mgr); try exact sample_mgr_reachable.
  - intros h [= <-]. apply (bool_decide_unpack _). vm_compute. exact I.
  - split_and!; [done..|]. now eexists.
  - done.
  - split_and!; [done..|]. discriminate.
Defined.

Lemma allocation_bounds_witness :
  xsan_calloc (Some 1000) (2 ^ 33) (2 ^ 33) sample_mgr = Ret (sample_mgr, None).
Proof.
  destruct (allocation_bounds (Some 1000) (2 ^ 33) (2 ^ 33) sample_mgr) as [H _];
    [split; vm_compute; congruence..|]. exact H.
Defined.
