(* ===== verification/MemoryPool.v ===== *)
(** * Memory pools ([src/src/utils/memory.c], lines 29-42 and 367-536)

    Blocks live in a heap of nodes with one [next] field, which both lists of the
    pool use.  The allocator hands out increasing addresses: a block structure at
    [pl_brk] and its data next to it; whether it succeeds is an argument.  Walking
    a list can meet a dead address or never end; both are results of their own, and
    the refinement theorem shows that neither happens. *)

From stdpp Require Import prelude gmap.
From Stdlib Require Import ZArith Lia.
From S2P Require Import Prelude.

(** ** State *)

Record memory_pool_block := PoolBlock {
  pb_data : ptr;
  pb_in_use : bool;
  pb_next : ptr
}.

Record xsan_memory_pool_config := PoolConfig {
  pc_block_size : Z;
  pc_initial_blocks : Z;
  pc_max_blocks : Z;
  pc_thread_safe : bool
}.

Record xsan_memory_pool := Pool {
  pl_config : xsan_memory_pool_config;
  pl_heap : gmap Z memory_pool_block;
  pl_free : ptr;
  pl_all : ptr;
  pl_current : Z;
  pl_brk : Z;
  pl_hits : Z;
  pl_misses : Z
}.

Implicit Types st : xsan_memory_pool.

(** ** Creation *)

(** One round of the loop.  The block is first linked in front of the free list,
    then its only link is overwritten with the list of all blocks. *)
Definition add_initial_block st : xsan_memory_pool :=
  let b := pl_brk st in
  let h := <[b := PoolBlock (b + 1) false (pl_free st)]> (pl_heap st) in
  let h := <[b := PoolBlock (b + 1) false (pl_all st)]> h in
  Pool (pl_config st) h b b (wrap 64 (pl_current st + 1)) (b + 2) (pl_hits st) (pl_misses st).

Fixpoint add_initial_blocks (al : nat -> bool) (i n : nat) st : xsan_memory_pool :=
  match n with
  | O => st
  | S n => if al i then add_initial_blocks al (S i) n (add_initial_block st) else st
  end.

(** [al i]: both allocations for block [i] succeed. *)
Definition xsan_memory_pool_create (pool_ok mutex_ok : bool) (al : nat -> bool)
    (config : option xsan_memory_pool_config) : option xsan_memory_pool :=
  match config with
  | None => None
  | Some cfg =>
      if pc_block_size cfg =? 0 then None else
      if negb pool_ok then None else
      if pc_thread_safe cfg && negb mutex_ok then None else
      Some (add_initial_blocks al 0 (Z.to_nat (pc_initial_blocks cfg))
              (Pool cfg ∅ NULL NULL 0 1 0 0))
  end.

(** ** Allocation *)

Definition set_hits st (h : gmap Z memory_pool_block) (free all current brk : Z) :=
  Pool (pl_config st) h free all current brk (wrap 64 (pl_hits st + 1)) (pl_misses st).
Definition miss st : xsan_memory_pool :=
  Pool (pl_config st) (pl_heap st) (pl_free st) (pl_all st) (pl_current st) (pl_brk st)
    (pl_hits st) (wrap 64 (pl_misses st + 1)).

Inductive pool_out :=
  | OutPtr (p : option ptr)
  | OutDone
  | OutDangling
  | OutEndless.

Definition xsan_memory_pool_alloc (ok : bool) st : xsan_memory_pool * pool_out :=
  if negb (pl_free st =? NULL) then
    match pl_heap st !! pl_free st with
    | None => (st, OutDangling)
    | Some blk =>
        (set_hits st (<[pl_free st := PoolBlock (pb_data blk) true (pb_next blk)]> (pl_heap st))
           (pb_next blk) (pl_all st) (pl_current st) (pl_brk st), OutPtr (Some (pb_data blk)))
    end
  else if (pl_current st <? pc_max_blocks (pl_config st)) && ok then
    let b := pl_brk st in
    (set_hits st (<[b := PoolBlock (b + 1) true (pl_all st)]> (pl_heap st)) (pl_free st) b
       (wrap 64 (pl_current st + 1)) (b + 2), OutPtr (Some (b + 1)))
  else (miss st, OutPtr None).

(** ** Release *)

Inductive walk := WFound (b : ptr) (blk : memory_pool_block) | WNone | WDangling | WEndless.

(** The search for the block with the data pointer.  A walk of more steps than
    there are blocks repeats one, and then never ends. *)
Fixpoint find_data (fuel : nat) (h : gmap Z memory_pool_block) (b data : ptr) : walk :=
  if b =? NULL then WNone else
  match fuel, h !! b with
  | O, _ => WEndless
  | _, None => WDangling
  | S fuel, Some blk =>
      if pb_data blk =? data then WFound b blk else find_data fuel h (pb_next blk) data
  end.

Definition xsan_memory_pool_free (p : option ptr) st : xsan_memory_pool * pool_out :=
  match p with
  | None => (st, OutDone)
  | Some data =>
      match find_data (size (pl_heap st)) (pl_heap st) (pl_all st) data with
      | WFound b blk =>
          if pb_in_use blk then
            (Pool (pl_config st)
               (<[b := PoolBlock (pb_data blk) false (pl_free st)]> (pl_heap st)) b
               (pl_all st) (pl_current st) (pl_brk st) (pl_hits st) (pl_misses st), OutDone)
          else (st, OutDone)
      | WNone => (st, OutDone)
      | WDangling => (st, OutDangling)
      | WEndless => (st, OutEndless)
      end
  end.

(** ** Destruction *)

(** The data and block structures that are freed, in order; [None] when the walk
    meets a dead address or does not end. *)
Fixpoint free_chain (fuel : nat) (h : gmap Z memory_pool_block) (b : ptr) : option (list ptr) :=
  if b =? NULL then Some [] else
  match fuel, h !! b with
  | S fuel, Some blk =>
      rest ← free_chain fuel (delete b h) (pb_next blk); Some (pb_data blk :: b :: rest)
  | _, _ => None
  end.

Definition xsan_memory_pool_destroy st : option (list ptr) :=
  free_chain (size (pl_heap st)) (pl_heap st) (pl_all st).

(** ** The pool as a machine *)

Inductive pool_op := PAlloc (ok : bool) | PFree (p : option ptr).

Definition pool_step st (op : pool_op) : xsan_memory_pool * pool_out :=
  match op with
  | PAlloc ok => xsan_memory_pool_alloc ok st
  | PFree p => xsan_memory_pool_free p st
  end.

(** * Theorems *)

(** ** What a pool does

    The blocks the pool can reach are those in use followed by the free ones.
    Releasing a block that is in use makes it the head of the free blocks, and the
    blocks in use behind it are forgotten: they stay counted, but can neither be
    returned nor freed. *)
Record pool_spec := PoolSpec {
  ps_config : xsan_memory_pool_config;
  ps_used : list ptr;
  ps_free : list ptr;
  ps_lost : list ptr;
  ps_brk : Z
}.

Definition ps_count (s : pool_spec) : Z := Zlen (ps_used s) + Zlen (ps_free s) + Zlen (ps_lost s).

(** The blocks before and after the one whose data is at [p]. *)
Fixpoint split_at (p : ptr) (l : list ptr) : option (list ptr * ptr * list ptr) :=
  match l with
  | [] => None
  | b :: l =>
      if b + 1 =? p then Some ([], b, l)
      else '(pre, x, post) ← split_at p l; Some (b :: pre, x, post)
  end.

Definition spec_step (s : pool_spec) (op : pool_op) : pool_spec * pool_out :=
  match op with
  | PAlloc ok =>
      match ps_free s with
      | b :: free =>
          (PoolSpec (ps_config s) (ps_used s ++ [b]) free (ps_lost s) (ps_brk s),
           OutPtr (Some (b + 1)))
      | [] =>
          if (wrap 64 (ps_count s) <? pc_max_blocks (ps_config s)) && ok
          then (PoolSpec (ps_config s) (ps_brk s :: ps_used s) [] (ps_lost s) (ps_brk s + 2),
                OutPtr (Some (ps_brk s + 1)))
          else (s, OutPtr None)
      end
  | PFree None => (s, OutDone)
  | PFree (Some p) =>
      match split_at p (ps_used s) with
      | Some (pre, b, post) =>
          (PoolSpec (ps_config s) pre (b :: ps_free s) (post ++ ps_lost s) (ps_brk s), OutDone)
      | None => (s, OutDone)
      end
  end.

(** The list from [p] through the [next] fields. *)
Fixpoint chain (h : gmap Z memory_pool_block) (p : ptr) (l : list ptr) : Prop :=
  match l with
  | [] => p = NULL
  | b :: l => p = b /\ exists blk, h !! b = Some blk /\ chain h (pb_next blk) l
  end.

Definition blocks_are (h : gmap Z memory_pool_block) (used : bool) (l : list ptr) : Prop :=
  Forall (fun b => exists next, h !! b = Some (PoolBlock (b + 1) used next)) l.

Record pool_rep st (s : pool_spec) : Prop := {
  pr_config : pl_config st = ps_config s;
  pr_all : chain (pl_heap st) (pl_all st) (ps_used s ++ ps_free s);
  pr_free : chain (pl_heap st) (pl_free st) (ps_free s);
  pr_used_blocks : blocks_are (pl_heap st) true (ps_used s);
  pr_free_blocks : blocks_are (pl_heap st) false (ps_free s);
  pr_nodup : NoDup (ps_used s ++ ps_free s ++ ps_lost s);
  pr_range : Forall (fun b => 0 < b < ps_brk s) (ps_used s ++ ps_free s ++ ps_lost s);
  pr_brk : pl_brk st = ps_brk s /\ 0 < ps_brk s;
  pr_current : pl_current st = wrap 64 (ps_count s)
}.

(** ** Chains *)

Lemma chain_insert h p l b x : b ∉ l -> chain h p l -> chain (<[b := x]> h) p l.
Proof.
  revert p. induction l as [|c l IH]; intros p Hb Hc; simpl in *; [done|].
  apply not_elem_of_cons in Hb as [Hne Hb]. destruct Hc as [-> (blk & Hh & Hc)].
  split; [done|]. exists blk. rewrite lookup_insert_ne by congruence. auto.
Qed.

(** Overwriting the link of [b] with the start of another chain. *)
Lemma chain_relink h p pre b post q l d u :
  chain h p (pre ++ b :: post) -> chain h q l -> b ∉ pre -> b ∉ l ->
  chain (<[b := PoolBlock d u q]> h) p (pre ++ b :: l).
Proof.
  revert p. induction pre as [|c pre IH]; intros p Hc Hq Hpre Hl; simpl in *.
  - destruct Hc as [-> _]. split; [done|]. exists (PoolBlock d u q).
    rewrite lookup_insert_eq. split; [done|]. now apply chain_insert.
  - apply not_elem_of_cons in Hpre as [Hne Hpre]. destruct Hc as [-> (blk & Hh & Hc)].
    split; [done|]. exists blk. rewrite lookup_insert_ne by congruence. auto.
Qed.

Lemma chain_skip h p l b blk u :
  chain h p l -> h !! b = Some blk ->
  chain (<[b := PoolBlock (pb_data blk) u (pb_next blk)]> h) p l.
Proof.
  revert p. induction l as [|c l IH]; intros p Hc Hb; simpl in *; [done|].
  destruct Hc as [-> (x & Hh & Hc)]. split; [done|]. destruct (decide (c = b)) as [->|Hne].
  - eexists. rewrite lookup_insert_eq. split; [done|]. simpl.
    assert (x = blk) as -> by congruence. auto.
  - exists x. rewrite lookup_insert_ne by congruence. auto.
Qed.

Lemma chain_nonnull h p b l : chain h p (b :: l) -> 0 < b -> (p =? NULL) = false.
Proof. intros [-> _] Hb. apply Z.eqb_neq. unfold NULL. lia. Qed.

Lemma blocks_are_insert h used l b x : b ∉ l -> blocks_are h used l -> blocks_are (<[b := x]> h) used l.
Proof.
  unfold blocks_are. rewrite !Forall_forall. intros Hb H c Hc.
  rewrite lookup_insert_ne by (intros ->; done). now apply H.
Qed.

Lemma chain_length h p l : chain h p l -> NoDup l -> (length l <= size h)%nat.
Proof.
  intros Hc Hnd. assert (Hsub : list_to_set l ⊆ dom h).
  { clear Hnd. revert p Hc. induction l as [|b l IH]; intros p Hc; simpl; [set_solver|].
    destruct Hc as [_ (blk & Hb & Hc)]. apply union_subseteq. split; [|eauto].
    apply singleton_subseteq_l, elem_of_dom. eauto. }
  apply subseteq_size in Hsub. rewrite size_dom in Hsub.
  rewrite size_list_to_set in Hsub by done. lia.
Qed.

Lemma split_at_Some p l pre b post :
  split_at p l = Some (pre, b, post) -> l = pre ++ b :: post /\ b + 1 = p.
Proof.
  revert pre. induction l as [|c l IH]; intros pre; simpl; [done|].
  destruct (Z.eqb_spec (c + 1) p) as [He|_]; [now intros [= <- <- <-]|].
  destruct (split_at p l) as [[[pre' x] post']|]; simpl; [|done]. intros [= <- <- <-].
  destruct (IH pre' eq_refl) as [-> ?]. done.
Qed.

Lemma split_at_app p l1 l2 :
  split_at p (l1 ++ l2) =
  match split_at p l1 with
  | Some (pre, b, post) => Some (pre, b, post ++ l2)
  | None => '(pre, b, post) ← split_at p l2; Some (l1 ++ pre, b, post)
  end.
Proof.
  induction l1 as [|c l1 IH]; simpl; [now destruct (split_at p l2) as [[[]]|]|].
  destruct (c + 1 =? p); [done|]. rewrite IH.
  destruct (split_at p l1) as [[[]]|]; simpl; [done|].
  now destruct (split_at p l2) as [[[]]|].
Qed.

Lemma find_data_spec fuel h p l data :
  chain h p l -> Forall (fun b => 0 < b) l ->
  (forall b blk, b ∈ l -> h !! b = Some blk -> pb_data blk = b + 1) -> (length l <= fuel)%nat ->
  match split_at data l with
  | Some (_, b, _) => exists blk, h !! b = Some blk /\ find_data fuel h p data = WFound b blk
  | None => find_data fuel h p data = WNone
  end.
Proof.
  revert fuel p. induction l as [|b l IH]; intros fuel p Hc Hpos Hd Hf; simpl in *.
  - subst p. now destruct fuel.
  - destruct Hc as [-> (blk & Hb & Hc)]. apply Forall_cons in Hpos as [Hb0 Hpos].
    destruct fuel as [|fuel]; [lia|]. simpl.
    rewrite (proj2 (Z.eqb_neq b NULL)) by (unfold NULL; lia). rewrite Hb.
    rewrite (Hd b blk) by (done || left). destruct (b + 1 =? data); [eauto|].
    specialize (IH fuel (pb_next blk) Hc Hpos).
    assert (Hd' : forall b blk, b ∈ l -> h !! b = Some blk -> pb_data blk = b + 1)
      by (intros; apply Hd; [now right|done]).
    specialize (IH Hd' ltac:(lia)). now destruct (split_at data l) as [[[]]|].
Qed.

(** ** Refinement *)

Lemma alloc_free_block st s ok b free :
  pool_rep st s -> ps_free s = b :: free ->
  pool_rep (pool_step st (PAlloc ok)).1 (spec_step s (PAlloc ok)).1 /\
  (pool_step st (PAlloc ok)).2 = (spec_step s (PAlloc ok)).2.
Proof.
  intros [Hcfg Hall Hfree Hu Hf Hnd Hr Hbrk Hcur] Hs. simpl. unfold xsan_memory_pool_alloc.
  rewrite Hs in *. assert (Hb0 : 0 < b).
  { apply Forall_app in Hr as [_ Hr]. now apply Forall_cons in Hr as [[? _] _]. }
  rewrite (chain_nonnull _ _ _ _ Hfree Hb0). cbn [negb].
  destruct Hfree as [-> (blk & Hb & Hfree)]. rewrite Hb.
  apply Forall_cons in Hf as [[next Hb'] Hf]. assert (blk = PoolBlock (b + 1) false next) as ->
    by congruence. simpl. split; [|done].
  assert (Hnb : b ∉ ps_used s /\ b ∉ free /\ b ∉ ps_lost s).
  { apply NoDup_app in Hnd as (_ & Hd & Hnd). simpl in Hnd. apply NoDup_cons in Hnd as [Hn _].
    rewrite elem_of_app in Hn. split; [|tauto]. intros Hin. apply (Hd b Hin). left. }
  destruct Hnb as (N1 & N2 & N3). constructor; simpl.
  - done.
  - rewrite <- app_assoc. exact (chain_skip _ _ _ _ _ true Hall Hb).
  - now apply chain_insert.
  - apply Forall_app. split; [now apply blocks_are_insert|]. apply Forall_singleton.
    exists next. apply lookup_insert_eq.
  - now apply blocks_are_insert.
  - now rewrite <- app_assoc.
  - now rewrite <- app_assoc.
  - done.
  - rewrite Hcur. unfold ps_count. simpl. rewrite Hs, Zlen_app, !Zlen_cons, Zlen_nil. f_equal. lia.
Qed.

Lemma alloc_grow st s ok :
  pool_rep st s -> ps_free s = [] ->
  pool_rep (pool_step st (PAlloc ok)).1 (spec_step s (PAlloc ok)).1 /\
  (pool_step st (PAlloc ok)).2 = (spec_step s (PAlloc ok)).2.
Proof.
  intros Hrep Hs. destruct Hrep as [Hcfg Hall Hfree Hu Hf Hnd Hr [Hbrk Hb0] Hcur].
  simpl. unfold xsan_memory_pool_alloc. rewrite Hs in *. simpl in Hfree. rewrite Hfree. cbn.
  rewrite Hcur, Hcfg, Hbrk. destruct (_ && _); simpl.
  2:{ split; [|done]. constructor; simpl; rewrite ?Hs; done. }
  split; [|done].
  assert (Hn : ps_brk s ∉ ps_used s ++ ps_lost s).
  { intros Hin. rewrite Forall_forall in Hr. specialize (Hr _ Hin). lia. }
  apply not_elem_of_app in Hn as [N1 N2]. rewrite app_nil_r in Hall.
  constructor; simpl; rewrite ?app_nil_r.
  - done.
  - split; [done|]. eexists. rewrite lookup_insert_eq. split; [done|]. simpl.
    now apply chain_insert.
  - done.
  - apply Forall_cons_2; [eexists; apply lookup_insert_eq|]. now apply blocks_are_insert.
  - constructor.
  - apply NoDup_cons. rewrite elem_of_app. simpl in Hnd. tauto.
  - apply Forall_cons_2; [lia|]. eapply Forall_impl; [exact Hr|]. simpl. lia.
  - split; [done|lia].
  - unfold ps_count. simpl. rewrite Hs, Zlen_nil, Zlen_cons. unfold wrap.
    rewrite Zplus_mod_idemp_l. f_equal. lia.
Qed.


(** The search of a release, in terms of the two lists. *)
Lemma find_data_rep st s p :
  pool_rep st s ->
  match split_at p (ps_used s ++ ps_free s) with
  | Some (_, b, _) => exists blk, pl_heap st !! b = Some blk /\
      find_data (size (pl_heap st)) (pl_heap st) (pl_all st) p = WFound b blk
  | None => find_data (size (pl_heap st)) (pl_heap st) (pl_all st) p = WNone
  end.
Proof.
  intros [_ Hall _ Hu Hf Hnd Hr _ _]. rewrite app_assoc in Hnd, Hr.
  apply Forall_app in Hr as [Hr _]. apply NoDup_app in Hnd as [Hnd _].
  apply find_data_spec; [done| | |now apply (chain_length _ (pl_all st))].
  - eapply Forall_impl; [exact Hr|]. simpl. lia.
  - unfold blocks_are in *. rewrite Forall_forall in Hu, Hf.
    intros b blk [Hb|Hb]%elem_of_app Hh;
      [destruct (Hu b Hb) as [n Hn]|destruct (Hf b Hb) as [n Hn]]; rewrite Hh in Hn;
      now injection Hn as ->.
Qed.

Lemma free_used st s p pre b post :
  pool_rep st s -> split_at p (ps_used s) = Some (pre, b, post) ->
  pool_rep (pool_step st (PFree (Some p))).1 (spec_step s (PFree (Some p))).1 /\
  (pool_step st (PFree (Some p))).2 = (spec_step s (PFree (Some p))).2.
Proof.
  intros Hrep Hs. pose proof (find_data_rep st s p Hrep) as Hfd. rewrite split_at_app, Hs in Hfd.
  destruct Hfd as (blk & Hb & Hfd). apply split_at_Some in Hs as Hs'. destruct Hs' as [HU Hp].
  simpl. unfold xsan_memory_pool_free. rewrite Hfd, Hs.
  destruct Hrep as [Hcfg Hall Hfree Hu Hf Hnd Hr Hbrk Hcur]. rewrite HU in *.
  pose proof Hu as Hu0. unfold blocks_are in Hu0. rewrite Forall_app, Forall_cons in Hu0.
  destruct Hu0 as (Hpre & [next Hn] & Hpost).
  assert (blk = PoolBlock (b + 1) true next) as -> by congruence. simpl. split; [|done].
  assert (Hperm : (pre ++ b :: post) ++ ps_free s ++ ps_lost s ≡ₚ
                  pre ++ (b :: ps_free s) ++ post ++ ps_lost s).
  { rewrite <- app_assoc. apply Permutation_app_head. simpl. apply perm_skip.
    rewrite !app_assoc. apply Permutation_app_tail, Permutation_app_comm. }
  assert (Hnd' : NoDup (pre ++ (b :: ps_free s) ++ post ++ ps_lost s)) by now rewrite <- Hperm.
  apply NoDup_app in Hnd' as Hx. destruct Hx as (_ & Hd & Hx). simpl in Hx.
  apply NoDup_cons in Hx as [Hx _]. rewrite !elem_of_app in Hx.
  assert (Hbpre : b ∉ pre) by (intros Hin; apply (Hd b Hin); left).
  constructor; simpl.
  - done.
  - rewrite <- app_assoc in Hall. apply (chain_relink _ _ _ _ _ _ _ _ _ Hall Hfree); tauto.
  - split; [done|]. eexists. rewrite lookup_insert_eq. split; [done|]. simpl.
    apply chain_insert; [tauto|done].
  - now apply blocks_are_insert.
  - apply Forall_cons_2; [eexists; apply lookup_insert_eq|]. apply blocks_are_insert; [tauto|done].
  - done.
  - now rewrite <- Hperm.
  - done.
  - rewrite Hcur. unfold ps_count. simpl. rewrite HU, !Zlen_app, !Zlen_cons. f_equal. lia.
Qed.

Lemma free_other st s p :
  pool_rep st s -> split_at p (ps_used s) = None ->
  pool_step st (PFree (Some p)) = (st, OutDone).
Proof.
  intros Hrep Hs. pose proof (find_data_rep st s p Hrep) as Hfd. rewrite split_at_app, Hs in Hfd.
  simpl. unfold xsan_memory_pool_free.
  destruct (split_at p (ps_free s)) as [[[pre b] post]|] eqn:Hs2; simpl in Hfd; [|now rewrite Hfd].
  destruct Hfd as (blk & Hb & ->). apply split_at_Some in Hs2 as [HF _].
  pose proof (pr_free_blocks st s Hrep) as Hf. unfold blocks_are in Hf.
  rewrite HF, Forall_app, Forall_cons in Hf. destruct Hf as (_ & [next Hn] & _).
  now assert (blk = PoolBlock (b + 1) false next) as -> by congruence.
Qed.

#[export] Instance pool_refines_spec : Refines pool_step spec_step pool_rep.
Proof.
  intros st s op Hrep. destruct op as [ok|[p|]].
  - destruct (ps_free s) as [|b free] eqn:Hs; [now apply alloc_grow|].
    now apply (alloc_free_block st s ok b free).
  - destruct (split_at p (ps_used s)) as [[[pre b] post]|] eqn:Hs.
    + exact (free_used st s p pre b post Hrep Hs).
    + rewrite (free_other st s p Hrep Hs). simpl. now rewrite Hs.
  - now split.
Qed.

(** ** Creation and destruction *)

(** The specification state of a pool with [n] initial blocks. *)
Fixpoint initial_list (n : nat) : list ptr :=
  match n with O => [] | S n => (1 + 2 * Z.of_nat n) :: initial_list n end.

Definition spec_init (cfg : xsan_memory_pool_config) (n : nat) : pool_spec :=
  PoolSpec cfg [] (initial_list n) [] (1 + 2 * Z.of_nat n).

Lemma add_initial_block_rep st cfg n :
  pool_rep st (spec_init cfg n) -> pl_free st = pl_all st ->
  pool_rep (add_initial_block st) (spec_init cfg (S n)) /\
  pl_free (add_initial_block st) = pl_all (add_initial_block st).
Proof.
  intros [Hcfg Hall Hfree Hu Hf Hnd Hr [Hbrk Hb0] Hcur] Heq. split; [|done]. simpl in *.
  rewrite app_nil_r in *. set (b := 1 + 2 * Z.of_nat n) in *.
  assert (Hb : b ∉ initial_list n).
  { intros Hin. rewrite Forall_forall in Hr. specialize (Hr b Hin). lia. }
  unfold add_initial_block. rewrite Hbrk, insert_insert_eq.
  assert (Hc : chain (<[b := PoolBlock (b + 1) false (pl_all st)]> (pl_heap st)) b
                 (b :: initial_list n)).
  { split; [done|]. eexists. rewrite lookup_insert_eq. split; [done|]. now apply chain_insert. }
  constructor; simpl; rewrite ?app_nil_r; try done.
  - constructor.
  - apply Forall_cons_2; [eexists; apply lookup_insert_eq|]. now apply blocks_are_insert.
  - now apply NoDup_cons.
  - apply Forall_cons_2; [lia|]. eapply Forall_impl; [exact Hr|]. simpl. lia.
  - lia.
  - rewrite Hcur. unfold ps_count, wrap. simpl. rewrite Zplus_mod_idemp_l, Zlen_cons. f_equal. lia.
Qed.

Lemma add_initial_blocks_rep al i n st cfg k :
  pool_rep st (spec_init cfg k) -> pl_free st = pl_all st ->
  exists j, (j <= n)%nat /\ ((forall i, al i = true) -> j = n) /\
    pool_rep (add_initial_blocks al i n st) (spec_init cfg (k + j)).
Proof.
  revert i st k. induction n as [|n IH]; intros i st k Hrep Heq; simpl.
  - exists 0%nat. rewrite Nat.add_0_r. auto.
  - destruct (al i) eqn:Hal.
    + destruct (add_initial_block_rep st cfg k Hrep Heq) as [Hrep' Heq'].
      destruct (IH (S i) _ (S k) Hrep' Heq') as (j & Hj & Hall & Hr).
      exists (S j). split_and!; [lia|intros Ha; now rewrite (Hall Ha)|].
      now rewrite Nat.add_succ_r.
    + exists 0%nat. rewrite Nat.add_0_r. split_and!; [lia| |done]. intros Ha. congruence.
Qed.

Lemma create_rep pool_ok mutex_ok al cfg st :
  xsan_memory_pool_create pool_ok mutex_ok al (Some cfg) = Some st ->
  exists n, (n <= Z.to_nat (pc_initial_blocks cfg))%nat /\
    ((forall i, al i = true) -> n = Z.to_nat (pc_initial_blocks cfg)) /\
    pool_rep st (spec_init cfg n).
Proof.
  unfold xsan_memory_pool_create. destruct (_ =? 0); [done|].
  destruct (negb _); [done|]. destruct (_ && _); [done|]. intros [= <-].
  apply (add_initial_blocks_rep al 0 _ _ cfg 0); [|done].
  constructor; simpl; try done; constructor.
Qed.

Lemma chain_delete h p l b : b ∉ l -> chain h p l -> chain (delete b h) p l.
Proof.
  revert p. induction l as [|c l IH]; intros p Hb Hc; simpl in *; [done|].
  apply not_elem_of_cons in Hb as [Hne Hb]. destruct Hc as [-> (blk & Hh & Hc)].
  split; [done|]. exists blk. rewrite lookup_delete_ne by congruence. auto.
Qed.

(** The pointers freed for a list of blocks. *)
Definition freed (l : list ptr) : list ptr := concat (map (fun b => [b + 1; b]) l).

Lemma free_chain_spec fuel h p l :
  chain h p l -> NoDup l -> Forall (fun b => 0 < b) l ->
  (forall b blk, b ∈ l -> h !! b = Some blk -> pb_data blk = b + 1) -> (length l <= fuel)%nat ->
  free_chain fuel h p = Some (freed l).
Proof.
  revert fuel h p. induction l as [|b l IH]; intros fuel h p Hc Hnd Hpos Hd Hf; simpl in *.
  - subst p. now destruct fuel.
  - destruct Hc as [-> (blk & Hb & Hc)]. apply Forall_cons in Hpos as [Hb0 Hpos].
    apply NoDup_cons in Hnd as [Hbl Hnd]. destruct fuel as [|fuel]; [lia|]. simpl.
    rewrite (proj2 (Z.eqb_neq b NULL)) by (unfold NULL; lia). rewrite Hb.
    rewrite (Hd b blk) by (done || left).
    rewrite IH; [done|now apply chain_delete|done|done| |lia].
    intros c x Hin. rewrite lookup_delete_ne by (intros ->; done). apply Hd. now right.
Qed.

Lemma destroy_rep st s :
  pool_rep st s -> xsan_memory_pool_destroy st = Some (freed (ps_used s ++ ps_free s)).
Proof.
  intros [_ Hall _ Hu Hf Hnd Hr _ _]. rewrite app_assoc in Hnd, Hr.
  apply Forall_app in Hr as [Hr _]. apply NoDup_app in Hnd as [Hnd _].
  apply free_chain_spec; [done|done| | |now apply (chain_length _ (pl_all st))].
  - eapply Forall_impl; [exact Hr|]. simpl. lia.
  - unfold blocks_are in *. rewrite Forall_forall in Hu, Hf.
    intros b blk [Hb|Hb]%elem_of_app Hh;
      [destruct (Hu b Hb) as [n Hn]|destruct (Hf b Hb) as [n Hn]]; rewrite Hh in Hn;
      now injection Hn as ->.
Qed.

(** C17: a pool behaves as two lists, the blocks in use and the free ones: it starts
    with its initial blocks free, allocation takes the first free block, or a new
    one while the count allows it, and every walk over its links ends.  Releasing a
    block forgets the blocks in use that are behind it, and destruction frees each
    remaining block once, and not the forgotten ones. *)
Theorem pool_refines pool_ok mutex_ok al cfg st :
  xsan_memory_pool_create pool_ok mutex_ok al (Some cfg) = Some st ->
  exists n, (n <= Z.to_nat (pc_initial_blocks cfg))%nat /\
    ((forall i, al i = true) -> n = Z.to_nat (pc_initial_blocks cfg)) /\
    forall ops,
      let s := (run spec_step (spec_init cfg n) ops).1 in
      (run pool_step st ops).2 = (run spec_step (spec_init cfg n) ops).2 /\
      xsan_memory_pool_destroy (run pool_step st ops).1 = Some (freed (ps_used s ++ ps_free s)).
Proof.
  intros Hc. destruct (create_rep _ _ _ _ _ Hc) as (n & Hn & Hall & Hrep).
  exists n. split_and!; [done|done|]. intros ops s.
  destruct (run_refines pool_step spec_step pool_rep ops st _ Hrep) as [Hr Ho].
  split; [done|]. exact (destroy_rep _ _ Hr).
Qed.

(** An allocation never returns a block that is in use or was forgotten while
    in use, whatever was allocated and released before. *)
Theorem pool_never_reissues pool_ok mutex_ok al cfg st ops ok p :
  xsan_memory_pool_create pool_ok mutex_ok al (Some cfg) = Some st ->
  (pool_step (run pool_step st ops).1 (PAlloc ok)).2 = OutPtr (Some p) ->
  exists n, let s := (run spec_step (spec_init cfg n) ops).1 in
    (run pool_step st ops).2 = (run spec_step (spec_init cfg n) ops).2 /\
    p - 1 ∉ ps_used s ++ ps_lost s.
Proof.
  intros Hc Hp. destruct (create_rep _ _ _ _ _ Hc) as (n & _ & _ & Hrep). exists n. intros s.
  destruct (run_refines pool_step spec_step pool_rep ops st _ Hrep) as [Hr Ho].
  split; [done|]. fold s in Hr. destruct (refines_step _ _ (PAlloc ok) Hr) as [_ Hout].
  rewrite Hp in Hout. simpl in Hout. pose proof (pr_nodup _ _ Hr) as Hnd.
  destruct (ps_free s) as [|b free] eqn:Hf.
  - destruct (_ && _); [|done]. simpl in Hout. injection Hout as ->.
    intros Hin. pose proof (pr_range _ _ Hr) as Hrg. rewrite Hf, Forall_forall in Hrg.
    specialize (Hrg _ Hin). lia.
  - simpl in Hout. injection Hout as ->. replace (b + 1 - 1) with b by lia.
    apply NoDup_app in Hnd as (_ & Hd & Hnd). simpl in Hnd. apply NoDup_cons in Hnd as [Hn _].
    rewrite elem_of_app in *. intros [Hin|Hin]; [|tauto]. apply (Hd b Hin). left.
Qed.

(** The two blocks that the pool hands out first. *)
Definition first_ptr (n : Z) : ptr := 2 * n.
Definition second_ptr (n : Z) : ptr := 2 * n - 2.

Lemma initial_list_length k : Zlen (initial_list k) = Z.of_nat k.
Proof. induction k as [|k IH]; [done|]. cbn [initial_list]. rewrite Zlen_cons, IH. lia. Qed.

Lemma freed_length l : Zlen (freed l) = 2 * Zlen l.
Proof.
  unfold freed. induction l as [|b l IH]; [done|]. simpl. rewrite !Zlen_cons, IH. lia.
Qed.

Lemma freed_not k p : 2 * Z.of_nat k < p -> p ∉ freed (initial_list k).
Proof.
  unfold freed. induction k as [|k IH]; simpl; intros Hp; [apply not_elem_of_nil|].
  rewrite !not_elem_of_cons. split_and!; [lia|lia|]. apply IH. lia.
Qed.

(** The specification after two allocations and both releases. *)
Lemma lost_run cfg k :
  let n := Z.of_nat k + 2 in
  run spec_step (spec_init cfg (S (S k)))
    [PAlloc true; PAlloc true; PFree (Some (first_ptr n)); PFree (Some (second_ptr n))] =
  (PoolSpec cfg [] (first_ptr n - 1 :: initial_list k) [second_ptr n - 1] (1 + 2 * n),
   [OutPtr (Some (first_ptr n)); OutPtr (Some (second_ptr n)); OutDone; OutDone]).
Proof.
  intros n. unfold first_ptr, second_ptr, spec_init. cbn [initial_list].
  replace (1 + 2 * Z.of_nat (S k)) with (2 * n - 1) by lia.
  replace (1 + 2 * Z.of_nat k) with (2 * n - 2 - 1) by lia.
  replace (1 + 2 * Z.of_nat (S (S k))) with (1 + 2 * n) by lia.
  cbn [run spec_step ps_free ps_used ps_config ps_lost ps_brk app split_at].
  replace (2 * n - 1 + 1) with (2 * n) by lia. rewrite Z.eqb_refl.
  cbn [spec_step ps_free ps_used ps_config ps_lost ps_brk app split_at].
  now replace (2 * n - 2 - 1 + 1) with (2 * n - 2) by lia.
Qed.

(** Two allocations released in the order in which they were made cost the pool
    a block: the second release has no effect, the block stays counted, and it is
    not among the blocks that destruction frees although nothing is in use. *)
Theorem pool_loses_block al cfg st n :
  2 <= n -> pc_initial_blocks cfg = n -> (forall i, al i = true) ->
  xsan_memory_pool_create true true al (Some cfg) = Some st ->
  let ops := [PAlloc true; PAlloc true; PFree (Some (first_ptr n)); PFree (Some (second_ptr n))] in
  (run pool_step st ops).2 =
    [OutPtr (Some (first_ptr n)); OutPtr (Some (second_ptr n)); OutDone; OutDone] /\
  pl_current (run pool_step st ops).1 = wrap 64 n /\
  exists l, xsan_memory_pool_destroy (run pool_step st ops).1 = Some l /\
    second_ptr n ∉ l /\ Zlen l = 2 * (n - 1).
Proof.
  intros Hn Hi Hal Hc ops. destruct (create_rep _ _ _ _ _ Hc) as (n' & _ & Hn' & Hrep).
  specialize (Hn' Hal). rewrite Hi in Hn'.
  destruct n' as [|[|k]]; [lia|lia|]. assert (Hk : n = Z.of_nat k + 2) by lia.
  pose proof (lost_run cfg k) as Hrun. cbv zeta in Hrun. rewrite <- Hk in Hrun. fold ops in Hrun.
  destruct (run_refines pool_step spec_step pool_rep ops st _ Hrep) as [Hr Ho].
  rewrite Hrun in Hr, Ho. cbn [fst snd] in Hr, Ho. split; [done|]. split.
  - rewrite (pr_current _ _ Hr). unfold ps_count. simpl.
    rewrite !Zlen_cons, !Zlen_nil, initial_list_length. f_equal. lia.
  - eexists. split; [exact (destroy_rep _ _ Hr)|]. cbn [ps_used ps_free app].
    change (freed (?b :: ?l)) with (b + 1 :: b :: freed l). split.
    + rewrite !not_elem_of_cons. unfold first_ptr, second_ptr. split_and!; [lia|lia|]. apply freed_not; lia.
    + rewrite !Zlen_cons, freed_length, initial_list_length. lia.
Qed.

(** ** Witnesses *)

Definition sample_pool_config : xsan_memory_pool_config := PoolConfig 64 3 3 false.

Lemma sample_pool_created : exists st,
  xsan_memory_pool_create true true (fun _ => true) (Some sample_pool_config) = Some st.
Proof. eexists. reflexivity. Qed.

Lemma pool_refines_witness :
  exists st n, xsan_memory_pool_create true true (fun _ => true) (Some sample_pool_config) = Some st /\
    n = 3%nat /\
    (run pool_step st [PAlloc true]).2 =
      (run spec_step (spec_init sample_pool_config n) [PAlloc true]).2.
Proof.
  destruct sample_pool_created as [st Hc].
  destruct (pool_refines true true (fun _ => true) sample_pool_config st Hc) as (n & _ & Hn & H).
  exists st, n. split_and!; [exact Hc|exact (Hn (fun _ => eq_refl))|]. apply H.
Defined.

Lemma pool_never_reissues_witness :
  exists st n, xsan_memory_pool_create true true (fun _ => true) (Some sample_pool_config) = Some st /\
    (run pool_step st [PAlloc true]).2 =
      (run spec_step (spec_init sample_pool_config n) [PAlloc true]).2.
Proof.
  eexists. edestruct (pool_never_reissues true true (fun _ => true) sample_pool_config _
    [PAlloc true] true 4 eq_refl eq_refl) as (n & H & _).
  exists n. split; [reflexivity|]. exact H.
Defined.

Lemma pool_loses_block_witness :
  exists st, xsan_memory_pool_create true true (fun _ => true) (Some sample_pool_config) = Some st /\
    pl_current (run pool_step st
      [PAlloc true; PAlloc true; PFree (Some 6); PFree (Some 4)]).1 = 3.
Proof.
  eexists. split; [reflexivity|].
  destruct (pool_loses_block (fun _ => true) sample_pool_config _ 3 ltac:(lia) eq_refl
              (fun _ => eq_refl) eq_refl) as (_ & H & _). exact H.
Defined.
