(* ===== verification/Replication.v ===== *)
(** * Replicated writes
    ([src/src/replication/xsan_replication.c], [xsan_replication_common.c] and the write
    path of [src/src/storage/volume_manager.c])

    The life of one replicated write: its context, the submission to every replica
    and the callbacks that count the answers.  The state of a write is its context
    ([None] once freed), the volume that [xsan_volume_get_by_id] finds for it, and
    what will still answer.  Reading the context after it is freed is undefined.
    The transaction counter, clock and allocation outcomes are arguments; the locks
    are taken and released around single assignments and left out.

    [_xsan_check_replicated_write_completion] is declared and called but defined
    nowhere.  By its uses and the comments of [xsan_replication.h] it completes the
    write when all targeted replicas are done: it calls the user's callback, removes
    the context from the table of pending writes and frees it.  It is the class
    [WriteCompletion]. *)

From stdpp Require Import prelude strings gmap.
From Stdlib Require Import ZArith Lia Ascii.
From S2P Require Import Prelude Errors Protocol NodeComm StringUtils Json VolumeMeta MetadataStore.
From S2P Require Import Cluster Volume Io VolumeIo.

(** ** Contexts *)

Record xsan_replicated_io_ctx := RepCtx {
  rc_volume_id : uuid;
  rc_buffer : option (list Z);
  rc_offset : Z;
  rc_length : Z;
  rc_targeted : Z;
  rc_successful : Z;
  rc_failed : Z;
  rc_final_status : xsan_error_t;
  rc_tid : Z
}.

(** The two definitions of [xsan_replicated_io_ctx_create] that the library
    [xsan_replication] links: the one of [xsan_replication.c] … *)
Definition xsan_replicated_io_ctx_create (alloc_ok cb : bool) (vol : option xsan_volume)
    (buf : option (list Z)) (off len tid : Z) : option xsan_replicated_io_ctx :=
  match vol with
  | None => None
  | Some vol =>
      if negb cb || negb alloc_ok then None else
      let targeted := v_replica_count vol in
      if (targeted =? 0) || (XSAN_MAX_REPLICAS <? targeted) then None else
      Some (RepCtx (v_id vol) buf off len targeted 0 0 XSAN_OK tid)
  end.

(** … and the one of [xsan_replication_common.c]. *)
Definition common_io_ctx_create (alloc_ok cb : bool) (vol : option xsan_volume)
    (buf : option (list Z)) (off len tid : Z) : option xsan_replicated_io_ctx :=
  match vol with
  | None => None
  | Some vol =>
      if negb cb || bool_decide (buf = None) && (0 <? len) || (len =? 0) then None else
      if (v_replica_count vol =? 0) && (0 <? v_FTT vol) then None else
      if negb alloc_ok then None else
      let targeted := wrap 32 (v_FTT vol + 1) in
      let targeted := if v_replica_count vol <? targeted then v_replica_count vol else targeted in
      let targeted := if XSAN_MAX_REPLICAS <? targeted then XSAN_MAX_REPLICAS else targeted in
      if (targeted =? 0) && (0 <? len) then None else
      Some (RepCtx (v_id vol) buf off len targeted 0 0 XSAN_OK tid)
  end.

(** The state of a sub-operation on a remote replica. *)
Record xsan_per_replica_op_ctx := ReplicaOp {
  op_node : uuid;
  op_msg : option xsan_message
}.

Class WriteCompletion := {
  write_done : xsan_replicated_io_ctx -> bool;
  write_status : xsan_replicated_io_ctx -> xsan_error_t;
  write_done_spec : forall c,
    write_done c = true <-> rc_targeted c <= rc_successful c + rc_failed c
}.

(** ** Request payloads

    The packed structures of [xsan_protocol.h]; a node or volume identifier is 16
    bytes. *)

Definition write_req_payload (id : uuid) (lba num_blocks : Z) : list Z :=
  le_bytes 16 id ++ le_bytes 8 lba ++ le_bytes 4 num_blocks.
Definition XSAN_REPLICA_WRITE_REQ_PAYLOAD_SIZE : Z := 28.

(** ** State of a write *)

(** What will still answer: the local I/O, the response of a node, or nothing, for
    an operation whose callback is stored where no code reads it. *)
Inductive pending := PLocal | PResponse (node : uuid) | PNever (node : uuid).

Record wstate := WState {
  ws_ctx : option xsan_replicated_io_ctx;
  ws_vol : option xsan_volume;
  ws_pending : list pending
}.

Inductive wevent :=
  | WUserCb (status : xsan_error_t)
  | WSent (node : uuid) (m : xsan_message).

Section Writes.
Context {JC : JsonC} {SU : SpdkUuid} {SC : StorageCodes} {WC : WriteCompletion}.
Context {St : Type} {MS : MetaStore St} {DM : Type} {DK : DiskManager DM}.
Variable get_by_id : xsan_volume_manager St DM -> uuid -> option xsan_volume.

Definition deref (s : wstate) : traced wevent xsan_replicated_io_ctx :=
  match ws_ctx s with Some c => tret c | None => tundef end.
Definition set_ctx (s : wstate) (c : xsan_replicated_io_ctx) : wstate :=
  WState (Some c) (ws_vol s) (ws_pending s).
Definition await (s : wstate) (p : pending) : wstate :=
  WState (ws_ctx s) (ws_vol s) (p :: ws_pending s).

Definition check_completion (s : wstate) : traced wevent wstate :=
  let* c := deref s in
  if write_done c
  then ([WUserCb (write_status c)], Some (WState None (ws_vol s) (ws_pending s)))
  else tret s.

Definition count_success (c : xsan_replicated_io_ctx) : xsan_replicated_io_ctx :=
  RepCtx (rc_volume_id c) (rc_buffer c) (rc_offset c) (rc_length c) (rc_targeted c)
    (wrap 32 (rc_successful c + 1)) (rc_failed c) (rc_final_status c) (rc_tid c).

Definition count_failure (c : xsan_replicated_io_ctx) (e : xsan_error_t) :
    xsan_replicated_io_ctx :=
  RepCtx (rc_volume_id c) (rc_buffer c) (rc_offset c) (rc_length c) (rc_targeted c)
    (rc_successful c) (wrap 32 (rc_failed c + 1))
    (if rc_final_status c =? XSAN_OK then e else rc_final_status c) (rc_tid c).

Definition count_result (c : xsan_replicated_io_ctx) (e : xsan_error_t) :
    xsan_replicated_io_ctx :=
  if e =? XSAN_OK then count_success c else count_failure c e.

(** Counting a failure and checking, on the error paths of the submission. *)
Definition fail_replica (s : wstate) (e : xsan_error_t) : traced wevent wstate :=
  let* c := deref s in check_completion (set_ctx s (count_failure c e)).

(** ** Replica states *)

Definition set_replica_state (st : Z) (contact : option Z) (r : xsan_replica_location) :
    xsan_replica_location :=
  ReplicaLocation (r_node_id r) (r_ip r) (r_port r) st (default (r_contact r) contact).

Definition update_replica (i : nat) (st : Z) (contact : option Z) (vol : xsan_volume) :
    xsan_volume :=
  Volume (v_id vol) (v_name vol) (v_size_bytes vol) (v_block_size vol) (v_num_blocks vol)
    (v_state vol) (v_group vol) (v_thin vol) (v_allocated vol) (v_FTT vol)
    (v_replica_count vol) (alter (set_replica_state st contact) i (v_replicas vol)).

(** The first remote replica, from index 1, on the node. *)
Definition find_replica (vol : xsan_volume) (node : uuid) : option nat :=
  fst <$> list_find (fun ir => (1 <= ir.1)%nat /\ r_node_id ir.2 = node)
            (imap pair (take (Z.to_nat (v_replica_count vol)) (v_replicas vol))).

Definition mark_replica (s : wstate) (node : uuid) (st : Z) (contact : option Z) : wstate :=
  WState (ws_ctx s)
    ((fun vol => match find_replica vol node with
                 | Some i => update_replica i st contact vol
                 | None => vol
                 end) <$> ws_vol s) (ws_pending s).

(** ** Callbacks *)

Definition local_replica_write_complete_cb (now : Z) (s : wstate) (status : xsan_error_t) :
    traced wevent wstate :=
  let* c := deref s in
  let ok := status =? XSAN_OK in
  let vol := (fun vol =>
    if 0 <? v_replica_count vol
    then update_replica 0 (if ok then XSAN_STORAGE_STATE_ONLINE else XSAN_STORAGE_STATE_FAILED)
           (if ok then Some now else None) vol
    else vol) <$> ws_vol s in
  check_completion (WState (Some (count_result c status)) vol (ws_pending s)).

(** [_xsan_remote_replica_request_send_actual_cb]; the operation is freed. *)
Definition request_send_actual_cb (s : wstate) (comm_status : Z)
    (op : xsan_per_replica_op_ctx) : traced wevent wstate :=
  let* c := deref s in
  if negb (comm_status =? 0) then
    let s := mark_replica s (op_node op) XSAN_STORAGE_STATE_OFFLINE None in
    check_completion (set_ctx s (count_failure c (xsan_error_from_errno (- comm_status))))
  else tret (await s (PResponse (op_node op))).

(** Outcome of a send on an established connection. *)
Record send_env := SendEnv {
  se_initialized : bool;
  se_thread : bool;
  se_ctx_valid : bool;
  se_busy : bool;
  se_written : Z + Z
}.

(** [_xsan_remote_replica_connect_then_send_cb]: the send reports its result through
    the callback, which frees the operation, or through its return code; the second
    use of the operation after the callback is undefined. *)
Definition connect_then_send_cb (se : send_env) (s : wstate) (sock : bool) (status : Z)
    (op : xsan_per_replica_op_ctx) : traced wevent wstate :=
  match op_msg op with
  | None => tret s
  | Some m =>
      let* c := deref s in
      if (status =? 0) && sock then
        let '(e, cbs, _) := xsan_node_comm_send_msg (se_initialized se) true (se_thread se)
              (se_ctx_valid se) (se_busy se) (Some m) true (se_written se) in
        match cbs with
        | SendCallback st :: _ =>
            let* _ := (if st =? 0 then temit (WSent (op_node op) m) else tret tt) in
            let* s := request_send_actual_cb s st op in
            if negb (e =? XSAN_OK) then tundef else tret s
        | [] =>
            if negb (e =? XSAN_OK) then request_send_actual_cb s e op
            else tret (await s (PNever (op_node op)))
        end
      else
        let s := mark_replica s (op_node op) XSAN_STORAGE_STATE_OFFLINE None in
        check_completion (set_ctx s (count_failure c (xsan_error_from_errno (- status))))
  end.

(** A response finds the context in the table while it is live. *)
Definition process_replica_write_response (now : Z) (s : wstate) (tid : Z) (node : uuid)
    (status : xsan_error_t) : traced wevent wstate :=
  match ws_ctx s with
  | Some c =>
      if negb (rc_tid c =? tid) then tret s else
      let ok := status =? XSAN_OK in
      let s := mark_replica s node
                 (if ok then XSAN_STORAGE_STATE_ONLINE else XSAN_STORAGE_STATE_DEGRADED)
                 (if ok then Some now else None) in
      check_completion (set_ctx s (count_result c status))
  | None => tret s
  end.

(** ** Submission *)

Record connect_env := ConnectEnv {
  ce_initialized : bool;
  ce_thread : bool;
  ce_alloc : bool;
  ce_sock : option Z
}.

(** For one replica: allocations of the operation and its message, the active
    connection to its node, if any, and the outcome of connecting. *)
Record replica_env := ReplicaEnv {
  re_op : bool;
  re_malloc : Z -> bool;
  re_block : list Z;
  re_fresh : list Z;
  re_active : option send_env;
  re_connect : connect_env
}.

Record write_env := WriteEnv {
  we_common : bool;        (* the linker took the definition of xsan_replication_common.c *)
  we_ctx : bool;
  we_put : xsan_error_t;   (* result of xsan_hashtable_put *)
  we_local : attempt_env;
  we_replica : nat -> replica_env;
  we_tid : Z
}.

Definition writable (r : xsan_replica_location) : bool :=
  (r_state r =? XSAN_STORAGE_STATE_ONLINE) || (r_state r =? XSAN_STORAGE_STATE_DEGRADED).

(** A replica that is not writable is reported as failed.  The failed local callback
    does not read the clock. *)
Definition skip_replica (env : write_env) (i : nat) (r : xsan_replica_location) (s : wstate) :
    traced wevent wstate :=
  match i with
  | O => local_replica_write_complete_cb 0 s XSAN_ERROR_RESOURCE_UNAVAILABLE
  | _ =>
      if re_op (we_replica env i)
      then request_send_actual_cb s XSAN_ERROR_RESOURCE_UNAVAILABLE (ReplicaOp (r_node_id r) None)
      else fail_replica s XSAN_ERROR_RESOURCE_UNAVAILABLE
  end.

Definition write_request (re : replica_env) (tid : Z) (id : uuid) (bs off len : Z)
    (buf : list Z) : option xsan_message :=
  xsan_protocol_message_create_with_data (re_malloc re)
    (msg_type_code REPLICA_WRITE_BLOCK_REQ) tid
    (Some (write_req_payload id (off / bs) (wrap 32 (len / bs))))
    XSAN_REPLICA_WRITE_REQ_PAYLOAD_SIZE (Some buf) len (re_block re) (re_fresh re).

Definition attempt_remote (re : replica_env) (r : xsan_replica_location)
    (msg : option xsan_message) (s : wstate) : traced wevent wstate :=
  if negb (re_op re) then fail_replica s XSAN_ERROR_OUT_OF_MEMORY else
  match msg with
  | None => fail_replica s XSAN_ERROR_OUT_OF_MEMORY
  | Some m =>
      let op := ReplicaOp (r_node_id r) (Some m) in
      match re_active re with
      | Some se => connect_then_send_cb se s true 0 op
      | None =>
          let ce := re_connect re in
          match (xsan_node_comm_connect (ce_initialized ce) (ce_thread ce) (ce_alloc ce) true
                   (r_port r) true (ce_sock ce)).2 with
          | ConnectCallback sock status :: _ =>
              connect_then_send_cb (SendEnv true true true false (inl 0)) s sock status op
          | [] => tret (await s (PNever (r_node_id r)))
          end
      end
  end.

Definition attempt_local (local : option xsan_error_t) (s : wstate) : traced wevent wstate :=
  match local with
  | None => tundef
  | Some e =>
      if negb (e =? XSAN_OK) then local_replica_write_complete_cb 0 s e
      else tret (await s PLocal)
  end.

(** The loop over the copied replica locations from index [i]; [local] is the result
    of the local submission and [request] builds a request message. *)
Fixpoint write_loop (env : write_env) (local : option xsan_error_t)
    (request : replica_env -> option xsan_message) (i : nat)
    (rs : list xsan_replica_location) (s : wstate) : traced wevent wstate :=
  match rs with
  | [] => tret s
  | r :: rs =>
      let* s :=
        (if negb (writable r) then skip_replica env i r s
         else match i with
              | O => attempt_local local s
              | _ => attempt_remote (we_replica env i) r (request (we_replica env i)) s
              end) in
      write_loop env local request (S i) rs s
  end.

(** No replica was writable: every targeted replica is counted as failed. *)
Definition fail_all (s : wstate) : traced wevent wstate :=
  let* c := deref s in
  let c := RepCtx (rc_volume_id c) (rc_buffer c) (rc_offset c) (rc_length c) (rc_targeted c)
             (rc_successful c) (wrap 32 (rc_failed c + rc_targeted c))
             XSAN_ERROR_REPLICATION_UNAVAILABLE (rc_tid c) in
  check_completion (set_ctx s c).

(** The part of [xsan_volume_write_async] behind its parameter checks. *)
Definition start_write (env : write_env) (m : xsan_volume_manager St DM) (vol : xsan_volume)
    (id : uuid) (off len : Z) (buf : list Z) : traced wevent (option wstate * xsan_error_t) :=
  let create := if we_common env then common_io_ctx_create else xsan_replicated_io_ctx_create in
  match create (we_ctx env) true (Some vol) (Some buf) off len (we_tid env) with
  | None => tret (None, XSAN_ERROR_OUT_OF_MEMORY)
  | Some c =>
      if negb (we_put env =? XSAN_OK) then tret (None, XSAN_ERROR_OUT_OF_MEMORY) else
      if XSAN_MAX_REPLICAS <? v_replica_count vol then tundef else
      let rs := take (Z.to_nat (v_replica_count vol)) (v_replicas vol) in
      let local := (submit_single_io_attempt get_by_id (we_local env) true m id off len
                      (Some buf) false true).1.2 in
      let request re := write_request re (we_tid env) id (v_block_size vol) off len buf in
      let* s := write_loop env local request 0 rs (WState (Some c) (Some vol) []) in
      if negb (existsb writable rs)
      then let* s := fail_all s in tret (Some s, XSAN_ERROR_REPLICATION_UNAVAILABLE)
      else tret (Some s, XSAN_OK)
  end.

Definition xsan_volume_write_async (env : write_env) (initialized : bool)
    (m : xsan_volume_manager St DM) (id : uuid) (off len : Z) (buf : option (list Z))
    (user_cb : bool) : traced wevent (option wstate * xsan_error_t) :=
  let fail (e : xsan_error_t) := tret (None, e) in
  match buf with
  | None => fail XSAN_ERROR_INVALID_PARAM
  | Some data =>
      if negb initialized || (len =? 0) || negb user_cb || uuid_is_null id
      then fail XSAN_ERROR_INVALID_PARAM else
      match get_by_id m id with
      | None => fail XSAN_ERROR_NOT_FOUND
      | Some vol =>
          if (v_state vol =? XSAN_STORAGE_STATE_OFFLINE) ||
             (v_state vol =? XSAN_STORAGE_STATE_FAILED)
          then fail XSAN_ERROR_RESOURCE_UNAVAILABLE else
          if (v_block_size vol =? 0) || negb (off mod v_block_size vol =? 0) ||
             negb (len mod v_block_size vol =? 0) || (v_size_bytes vol <? wrap 64 (off + len))
          then fail XSAN_ERROR_INVALID_PARAM_ALIGNMENT else
          if v_replica_count vol =? 0 then fail XSAN_ERROR_REPLICATION_UNAVAILABLE else
          start_write env m vol id off len data
      end
  end.

(** ** Answers *)

#[local] Instance pending_eq_dec : EqDecision pending.
Proof. solve_decision. Defined.

Fixpoint remove_pending (p : pending) (l : list pending) : list pending :=
  match l with
  | [] => []
  | q :: l => if decide (p = q) then l else q :: remove_pending p l
  end.

(** The answer of something that the write waits for. *)
Definition answer (now tid : Z) (s : wstate) (p : pending) (status : xsan_error_t) :
    traced wevent wstate :=
  let s := WState (ws_ctx s) (ws_vol s) (remove_pending p (ws_pending s)) in
  match p with
  | PLocal => local_replica_write_complete_cb now s status
  | PResponse node => process_replica_write_response now s tid node status
  | PNever _ => tret s
  end.

Fixpoint answers (now tid : Z) (l : list (pending * xsan_error_t)) (s : wstate) :
    traced wevent wstate :=
  match l with
  | [] => tret s
  | (p, status) :: l => let* s := answer now tid s p status in answers now tid l s
  end.

(** Responses from the network, whether they are expected or not. *)
Fixpoint responses (now tid : Z) (l : list (uuid * xsan_error_t)) (s : wstate) :
    traced wevent wstate :=
  match l with
  | [] => tret s
  | (node, status) :: l =>
      let* s := process_replica_write_response now s tid node status in responses now tid l s
  end.

(** * Theorems *)

(** Statuses that the user's callback was called with. *)
Definition users (t : list wevent) : list xsan_error_t :=
  omap (fun e => match e with WUserCb st => Some st | _ => None end) t.

Lemma users_app t1 t2 : users (t1 ++ t2) = users t1 ++ users t2.
Proof. apply omap_app. Qed.

(** A context that has counted [oks] successes out of [n] targeted replicas. *)
Record ctx_ok (c : xsan_replicated_io_ctx) (n oks tid : Z) : Prop := {
  co_targeted : rc_targeted c = n;
  co_max : n <= XSAN_MAX_REPLICAS;
  co_successful : rc_successful c = oks;
  co_nonneg : 0 <= oks /\ 0 <= rc_failed c;
  co_status : rc_final_status c = XSAN_OK <-> rc_failed c = 0;
  co_tid : rc_tid c = tid
}.

(** Of [n] replicas, [i] have been submitted and [oks] have succeeded.  While the
    context is live each submitted replica is counted or pending, some replica is
    not counted, and the user has not been called.  When it is freed every replica
    has been counted, nothing is pending and the user has been called once, with the
    status of the full counts. *)
Definition accounted (n i oks tid : Z) (s : wstate) (us : list xsan_error_t) : Prop :=
  match ws_ctx s with
  | Some c => us = [] /\ ctx_ok c n oks tid /\ oks + rc_failed c < n /\
      oks + rc_failed c + Zlen (ws_pending s) = i
  | None => i = n /\ ws_pending s = [] /\
      exists c, us = [write_status c] /\ ctx_ok c n oks tid /\ oks + rc_failed c = n
  end.

Lemma check_accounted c vol ps n i oks tid :
  ctx_ok c n oks tid -> oks + rc_failed c + Zlen ps = i -> i <= n ->
  exists t s, check_completion (WState (Some c) vol ps) = (t, Some s) /\
    accounted n i oks tid s (users t) /\ ws_pending s = ps.
Proof.
  intros Hc Hi Hn. pose proof (Zlen_nonneg ps). unfold check_completion, deref. cbn [ws_ctx].
  rewrite tbind_ret. destruct (write_done c) eqn:Hd.
  - apply write_done_spec in Hd. rewrite (co_targeted _ _ _ _ Hc), (co_successful _ _ _ _ Hc) in Hd.
    assert (ps = []) as -> by (destruct ps; [done|rewrite Zlen_cons in *; pose proof (Zlen_nonneg ps); lia]).
    rewrite Zlen_nil in *. eexists _, _. split; [reflexivity|]. split; [|done].
    unfold accounted. simpl. split_and!; [lia|done|]. exists c. split_and!; [done..|lia].
  - assert (~ n <= oks + rc_failed c).
    { intros H'. apply not_true_iff_false in Hd. apply Hd, write_done_spec.
      now rewrite (co_targeted _ _ _ _ Hc), (co_successful _ _ _ _ Hc). }
    eexists _, _. split; [reflexivity|]. split; [|done].
    unfold accounted. simpl. split_and!; [done|done|lia|done].
Qed.

Lemma wrap32_count z : 0 <= z <= XSAN_MAX_REPLICAS -> wrap 32 (z + 1) = z + 1.
Proof. unfold XSAN_MAX_REPLICAS. intros. apply wrap_small. unfold in_u. pow2s. lia. Qed.

Lemma count_failure_ok c n oks tid e :
  ctx_ok c n oks tid -> oks + rc_failed c < n -> e <> XSAN_OK ->
  ctx_ok (count_failure c e) n oks tid /\ rc_failed (count_failure c e) = rc_failed c + 1.
Proof.
  intros [H1 H2 H3 [H4 H5] H6 H7] Hlt He. simpl. rewrite wrap32_count by lia. split; [|done].
  constructor; simpl; rewrite ?wrap32_count by lia; [done..|lia| |done].
  destruct (Z.eqb_spec (rc_final_status c) XSAN_OK); split; intros; (done || lia).
Qed.

Lemma count_success_ok c n oks tid :
  ctx_ok c n oks tid -> oks + rc_failed c < n ->
  ctx_ok (count_success c) n (oks + 1) tid /\ rc_failed (count_success c) = rc_failed c.
Proof.
  intros [H1 H2 H3 [H4 H5] H6 H7] Hlt. split; [|done].
  constructor; simpl; rewrite ?H3, ?wrap32_count by lia; (done || lia).
Qed.

(** Number of successes that a status adds. *)
Definition ok_count (st : xsan_error_t) : Z := if st =? XSAN_OK then 1 else 0.

Lemma count_result_ok c n oks tid st :
  ctx_ok c n oks tid -> oks + rc_failed c < n ->
  ctx_ok (count_result c st) n (oks + ok_count st) tid /\
  oks + ok_count st + rc_failed (count_result c st) = oks + rc_failed c + 1.
Proof.
  intros Hc Hlt. unfold count_result, ok_count. destruct (Z.eqb_spec st XSAN_OK).
  - destruct (count_success_ok c n oks tid Hc Hlt) as [H1 H2]. rewrite H2. split; [done|lia].
  - destruct (count_failure_ok c n oks tid st Hc Hlt ltac:(done)) as [H1 H2].
    rewrite H2, Z.add_0_r. split; [done|lia].
Qed.

(** ** Submission *)

(** What one iteration of the loop does in a live state: it counts one failure, or
    adds one pending operation. *)
Definition counts_failure (x : traced wevent wstate) (s : wstate)
    (c : xsan_replicated_io_ctx) : Prop :=
  exists e vol, e <> XSAN_OK /\
    x = check_completion (WState (Some (count_failure c e)) vol (ws_pending s)).

Definition one_replica (x : traced wevent wstate) (s : wstate) (c : xsan_replicated_io_ctx) :
    Prop :=
  counts_failure x s c \/ exists t p, users t = [] /\ x = (t, Some (await s p)).

Lemma from_errno_fails e : e <> 0 -> xsan_error_from_errno e <> XSAN_OK.
Proof. intros He H. exact (He (proj1 (error_from_errno_ok e) H)). Qed.

Lemma fail_replica_counts s c e :
  ws_ctx s = Some c -> e <> XSAN_OK -> counts_failure (fail_replica s e) s c.
Proof.
  intros Hc He. exists e, (ws_vol s). split; [done|].
  unfold fail_replica, deref. now rewrite Hc, tbind_ret.
Qed.

Lemma local_fail_counts now s c e :
  ws_ctx s = Some c -> e <> XSAN_OK ->
  counts_failure (local_replica_write_complete_cb now s e) s c.
Proof.
  intros Hc He. exists e. eexists. split; [done|].
  unfold local_replica_write_complete_cb, deref, count_result. rewrite Hc, tbind_ret.
  destruct (Z.eqb_spec e XSAN_OK); [done|reflexivity].
Qed.

Lemma send_fail_counts s c st op :
  ws_ctx s = Some c -> st <> 0 -> counts_failure (request_send_actual_cb s st op) s c.
Proof.
  intros Hc He. exists (xsan_error_from_errno (- st)). eexists.
  split; [apply from_errno_fails; lia|].
  unfold request_send_actual_cb, deref. rewrite Hc, tbind_ret.
  destruct (Z.eqb_spec st 0); [done|reflexivity].
Qed.

Lemma skip_counts env i r s c :
  ws_ctx s = Some c -> counts_failure (skip_replica env i r s) s c.
Proof.
  intros Hc. unfold skip_replica. destruct i; [apply local_fail_counts; auto with xsan|].
  case_match; [apply send_fail_counts|apply fail_replica_counts]; auto with xsan.
Qed.

(** The send on the connection fails in the socket: the callback reports the failure and
    frees the operation, and the return code then reports it a second time. *)
Definition send_breaks (se : send_env) : bool :=
  se_initialized se && se_thread se && se_ctx_valid se && negb (se_busy se) &&
  match se_written se with inr err => negb (err =? 0) | inl _ => false end.

Lemma connect_then_send_one se s c sock status op m :
  ws_ctx s = Some c -> op_msg op = Some m -> send_breaks se = false ->
  ((status =? 0) && sock = false -> status <> 0) ->
  one_replica (connect_then_send_cb se s sock status op) s c.
Proof.
  intros Hc Hm Hn Hst. unfold connect_then_send_cb. rewrite Hm. unfold deref.
  rewrite Hc, tbind_ret. destruct ((status =? 0) && sock) eqn:Hok.
  - unfold xsan_node_comm_send_msg. cbn [negb]. unfold send_breaks in Hn.
    destruct (se_initialized se); cbn [negb];
      [|left; now apply send_fail_counts].
    destruct (se_thread se); cbn [negb]; [|left; now apply send_fail_counts].
    destruct (se_ctx_valid se); cbn [negb]; [|left; now apply send_fail_counts].
    destruct (se_busy se); [left; now apply send_fail_counts|].
    cbn [negb andb] in Hn. destruct (se_written se) as [n|err]; [destruct (_ <? _)|].
    + right. exists [], (PNever (op_node op)). now split.
    + right. exists [WSent (op_node op) m], (PResponse (op_node op)). split; [done|].
      unfold request_send_actual_cb, deref. rewrite Hc. reflexivity.
    + apply negb_false_iff, Z.eqb_eq in Hn. rewrite Hn.
      right. exists [WSent (op_node op) m], (PResponse (op_node op)). split; [done|].
      unfold request_send_actual_cb, deref. rewrite Hc. reflexivity.
  - left. exists (xsan_error_from_errno (- status)). eexists.
    split; [apply from_errno_fails; specialize (Hst eq_refl); lia|]. reflexivity.
Qed.

(** The user's callback is called at most once before the call becomes undefined. *)
Definition ends_undefined (x : traced wevent wstate) : Prop :=
  exists t, x = (t, None) /\ (length (users t) <= 1)%nat.

Lemma connect_then_send_breaks se s c op m :
  ws_ctx s = Some c -> op_msg op = Some m -> send_breaks se = true ->
  ends_undefined (connect_then_send_cb se s true 0 op).
Proof.
  intros Hc Hm Hb. unfold connect_then_send_cb. rewrite Hm. unfold deref.
  rewrite Hc, tbind_ret. unfold send_breaks in Hb. unfold xsan_node_comm_send_msg.
  destruct (se_initialized se), (se_thread se), (se_ctx_valid se), (se_busy se); try done.
  destruct (se_written se) as [n|err]; [done|]. cbn [negb andb] in Hb |- *.
  destruct (Z.eqb_spec err 0) as [|He]; [done|].
  destruct (Z.eqb_spec (- err) 0); [lia|].
  destruct (Z.eqb_spec (xsan_error_from_errno err) XSAN_OK) as [Hx|];
    [now destruct (from_errno_fails err He)|].
  cbn [negb]. rewrite tbind_ret.
  destruct (send_fail_counts s c (- err) op Hc ltac:(lia)) as (e & vol & _ & ->).
  unfold check_completion, deref. cbn [ws_ctx]. rewrite tbind_ret.
  destruct (write_done _); (eexists; split; [reflexivity|simpl; lia]).
Qed.

(** Whether the submission to a writable replica runs into undefined behaviour: in the
    local submission, or by a send that fails in the socket. *)
Definition breaks (env : write_env) (local : option xsan_error_t)
    (request : replica_env -> option xsan_message) (i : nat) (r : xsan_replica_location) : bool :=
  let re := we_replica env i in
  writable r &&
  match i with
  | O => match local with None => true | Some _ => false end
  | _ => re_op re && match request re with Some _ => true | None => false end &&
         match re_active re with Some se => send_breaks se | None => false end
  end.

(** A connect that fails sets errno. *)
Definition connects_report (env : write_env) : Prop :=
  forall i e, ce_sock (re_connect (we_replica env i)) = Some e -> e <> 0.

Definition iteration (env : write_env) local request i r s : traced wevent wstate :=
  if negb (writable r) then skip_replica env i r s
  else match i with
       | O => attempt_local local s
       | _ => attempt_remote (we_replica env i) r (request (we_replica env i)) s
       end.

Lemma attempt_remote_one re r msg s c :
  ws_ctx s = Some c ->
  (re_op re && match msg with Some _ => true | None => false end &&
     match re_active re with Some se => send_breaks se | None => false end) = false ->
  (forall e, ce_sock (re_connect re) = Some e -> e <> 0) ->
  one_replica (attempt_remote re r msg s) s c.
Proof.
  intros Hc Hs He. unfold attempt_remote.
  destruct (re_op re); cbn [negb]; [|left; apply fail_replica_counts; auto with xsan].
  destruct msg as [m|]; [|left; apply fail_replica_counts; auto with xsan].
  cbn [andb] in Hs.
  destruct (re_active re) as [se|] eqn:Ha.
  - now eapply connect_then_send_one.
  - destruct (xsan_node_comm_connect _ _ _ _ _ _ _) as [e [|[sock status] cbs]] eqn:Hcn;
      simpl.
    + right. now exists [], (PNever (r_node_id r)).
    + eapply connect_then_send_one; [done|done|done|].
      intros _ ->. unfold xsan_node_comm_connect in Hcn.
      repeat case_match; simplify_eq. specialize (He _ eq_refl). lia.
Qed.

Lemma iteration_one env local request i r s c :
  connects_report env -> breaks env local request i r = false -> ws_ctx s = Some c ->
  one_replica (iteration env local request i r s) s c.
Proof.
  intros Hq Hb Hc. unfold iteration. unfold breaks in Hb. destruct (writable r); cbn [negb];
    [|left; now apply skip_counts].
  cbn [andb] in Hb. destruct i as [|i]; [|now apply attempt_remote_one; [| |apply Hq]].
  unfold attempt_local. destruct local as [e|]; [|done].
  destruct (Z.eqb_spec e XSAN_OK) as [->|He]; cbn [negb].
  - right. now exists [], PLocal.
  - left. now apply local_fail_counts.
Qed.

Lemma iteration_breaks env local request i r s c :
  breaks env local request i r = true -> ws_ctx s = Some c ->
  ends_undefined (iteration env local request i r s).
Proof.
  unfold breaks, iteration. intros [Hw Hb]%andb_true_iff Hc. rewrite Hw. cbn [negb].
  destruct i as [|i].
  - destruct local; [done|]. exists []. split; [done|simpl; lia].
  - apply andb_true_iff in Hb as [[Ho Hr]%andb_true_iff Hb]. unfold attempt_remote. rewrite Ho.
    cbn [negb]. destruct (request _) as [m|]; [|done].
    destruct (re_active _) as [se|]; [|done].
    now apply (connect_then_send_breaks se s c (ReplicaOp (r_node_id r) (Some m)) m).
Qed.

Lemma one_replica_accounted x s c n tid :
  one_replica x s c -> ctx_ok c n 0 tid -> rc_failed c < n -> ws_ctx s = Some c ->
  rc_failed c + Zlen (ws_pending s) < n ->
  exists t s', x = (t, Some s') /\
    accounted n (rc_failed c + Zlen (ws_pending s) + 1) 0 tid s' (users t) /\
    forall p, p ∈ ws_pending s -> p ∈ ws_pending s'.
Proof.
  intros [(e & vol & He & ->)|(t & p & Ht & ->)] Hc Hf Hs Hlt.
  - destruct (count_failure_ok c n 0 tid e Hc Hf He) as [Hc' Hf'].
    destruct (check_accounted (count_failure c e) vol (ws_pending s) n
      (rc_failed c + Zlen (ws_pending s) + 1) 0 tid Hc') as (t & s' & -> & Ha & Hp);
      [rewrite Hf'; lia|lia|]. exists t, s'. now rewrite Hp.
  - exists t, (await s p). split; [done|]. split; [|intros q Hq; now right].
    unfold accounted. simpl. rewrite Hs, Ht, Zlen_cons. split_and!; [done|done|lia|lia].
Qed.

Lemma write_loop_accounted env local request n tid rs i s us :
  connects_report env ->
  (forall k r, rs !! k = Some r -> breaks env local request (i + k) r = false) ->
  0 < n -> (rs <> [] -> ws_ctx s <> None) ->
  accounted n (Z.of_nat i) 0 tid s us -> Z.of_nat i + Zlen rs = n ->
  exists t s', write_loop env local request i rs s = (t, Some s') /\
    accounted n n 0 tid s' (us ++ users t) /\
    (forall p, p ∈ ws_pending s -> p ∈ ws_pending s') /\
    (forall k r p, rs !! k = Some r ->
       (forall s, iteration env local request (i + k) r s = ([], Some (await s p))) ->
       p ∈ ws_pending s').
Proof.
  intros Hq. revert i s us. induction rs as [|r rs IH]; intros i s us Hl Hn Hlive Ha Hi.
  - rewrite Zlen_nil, Z.add_0_r in Hi. exists [], s. split; [done|].
    rewrite app_nil_r. rewrite Hi in Ha. split_and!; [done|done|]. intros k r p Hk. done.
  - rewrite Zlen_cons in Hi. pose proof (Zlen_nonneg rs).
    destruct (ws_ctx s) as [c|] eqn:Hs; [|now destruct Hlive].
    pose proof Ha as Ha'. unfold accounted in Ha'. rewrite Hs in Ha'.
    destruct Ha' as (-> & Hc & Hf & Hp).
    destruct (one_replica_accounted (iteration env local request i r s) s c n tid)
      as (t & s' & Hit & Ha' & Hmono); [apply iteration_one; [done|by rewrite <- (Nat.add_0_r i); apply Hl|done]|done|lia|done|lia|].
    destruct (IH (S i) s' (users t)) as (t2 & s2 & Hloop & Ha2 & Hmono2 & Hnew).
    + intros k r' Hk. rewrite <- (Hl (S k) r' Hk). f_equal. lia.
    + done.
    + intros Hne Hnone. unfold accounted in Ha'. rewrite Hnone in Ha'.
      destruct rs; [done|]. rewrite Zlen_cons in *. pose proof (Zlen_nonneg rs). lia.
    + replace (Z.of_nat (S i)) with (rc_failed c + Zlen (ws_pending s) + 1) by lia. done.
    + lia.
    + exists (t ++ t2), s2. rewrite users_app. split_and!; [|done|auto|].
      * cbn [write_loop]. fold (iteration env local request i r s). rewrite Hit.
        cbn [tbind]. now rewrite Hloop.
      * intros [|k] r' p Hk Hr'; [|eapply (Hnew k); [done|]; intros s3;
          rewrite <- (Hr' s3); f_equal; lia].
        simpl in Hk. injection Hk as ->. rewrite Nat.add_0_r in Hr'. specialize (Hr' s).
        rewrite Hit in Hr'. injection Hr' as -> ->. apply Hmono2. left.
Qed.

(** A replica that breaks ends the loop. *)
Lemma write_loop_breaks env local request n tid rs i s k r :
  connects_report env -> rs !! k = Some r -> breaks env local request (i + k) r = true ->
  ws_ctx s <> None -> accounted n (Z.of_nat i) 0 tid s [] -> Z.of_nat i + Zlen rs = n ->
  ends_undefined (write_loop env local request i rs s).
Proof.
  intros Hq. revert i s k. induction rs as [|r0 rs IH]; intros i s k Hk Hb Hlive Ha Hi; [done|].
  rewrite Zlen_cons in Hi. pose proof (Zlen_nonneg rs).
  destruct (ws_ctx s) as [c|] eqn:Hs; [|done].
  cbn [write_loop]. fold (iteration env local request i r0 s).
  destruct (breaks env local request i r0) eqn:Hb0.
  { destruct (iteration_breaks _ _ _ _ _ s c Hb0 Hs) as (t & -> & Ht). by exists t. }
  destruct k as [|k]; [simpl in Hk; injection Hk as ->; rewrite Nat.add_0_r in Hb; congruence|].
  pose proof Ha as Ha'. unfold accounted in Ha'. rewrite Hs in Ha'. destruct Ha' as (_ & Hc & Hf & Hp).
  destruct (one_replica_accounted (iteration env local request i r0 s) s c n tid)
    as (t & s' & -> & Ha' & _); [by apply iteration_one|done|lia|done|lia|].
  assert (Hrs : 0 < Zlen rs) by (apply lookup_lt_Some in Hk; unfold Zlen; simpl in Hk; lia).
  assert (Hlive' : ws_ctx s' <> None /\ users t = []).
  { unfold accounted in Ha'. destruct (ws_ctx s'); [by destruct Ha'|]. destruct Ha' as [? _]. lia. }
  destruct Hlive' as [Hlive' Hu]. rewrite Hu in Ha'.
  destruct (IH (S i) s' k) as (t2 & He & Hu2); [done| |done| |lia|].
  - rewrite <- Hb. f_equal. lia.
  - by replace (Z.of_nat (S i)) with (rc_failed c + Zlen (ws_pending s) + 1) by lia.
  - exists (t ++ t2). cbn [tbind]. rewrite He, users_app, Hu. done.
Qed.

(** When no replica is writable the loop completes the write. *)
Lemma write_loop_none env local request n tid rs i s :
  existsb writable rs = false -> ws_pending s = [] -> ws_ctx s <> None ->
  0 < n -> accounted n (Z.of_nat i) 0 tid s [] -> Z.of_nat i + Zlen rs = n ->
  exists t s' c, write_loop env local request i rs s = (t, Some s') /\ ws_ctx s' = None /\
    users t = [write_status c] /\ ctx_ok c n 0 tid /\ rc_failed c = n.
Proof.
  revert i s. induction rs as [|r rs IH]; intros i s Hw Hp Hlive Hn Ha Hi.
  - rewrite Zlen_nil, Z.add_0_r in Hi. unfold accounted in Ha.
    destruct (ws_ctx s); [|done]. destruct Ha as (_ & _ & ? & Ha).
    rewrite Hp in Ha. pose proof (@Zlen_nil pending). lia.
  - rewrite Zlen_cons in Hi. pose proof (Zlen_nonneg rs).
    simpl in Hw. apply orb_false_iff in Hw as [Hr Hw].
    destruct (ws_ctx s) as [c|] eqn:Hs; [|done].
    pose proof Ha as Ha'. unfold accounted in Ha'. rewrite Hs, Hp in Ha'.
    pose proof (@Zlen_nil pending).
    destruct Ha' as (_ & Hc & Hf & Hfi).
    destruct (skip_counts env i r s c Hs) as (e & vol & He & Hx).
    destruct (count_failure_ok c n 0 tid e Hc Hf He) as [Hc' Hf']. rewrite Hp in Hx.
    destruct (check_accounted (count_failure c e) vol [] n (Z.of_nat (S i)) 0 tid Hc')
      as (t & s' & Hchk & Ha' & Hp'); [rewrite Hf'; lia|lia|].
    rewrite Hchk in Hx. cbn [write_loop]. rewrite Hr. cbn [negb]. rewrite Hx. cbn [tbind].
    destruct rs as [|r2 rs].
    + rewrite Zlen_nil in Hi. unfold accounted in Ha'. destruct (ws_ctx s') eqn:Hs';
        [destruct Ha' as (_ & _ & ? & Ha'); rewrite Hp' in Ha'; lia|].
      destruct Ha' as (_ & _ & c' & Hus & Hc2 & ?). exists t, s', c'. simpl.
      rewrite app_nil_r. split_and!; [done..|lia].
    + assert (Hlive' : ws_ctx s' <> None).
      { intros Hnone. unfold accounted in Ha'. rewrite Hnone in Ha'.
        rewrite Zlen_cons in *. pose proof (Zlen_nonneg rs). lia. }
      assert (Ht : users t = []).
      { unfold accounted in Ha'. destruct (ws_ctx s'); [tauto|done]. }
      rewrite Ht in Ha'.
      destruct (IH (S i) s' Hw Hp' Hlive' Hn Ha' ltac:(lia)) as (t2 & s2 & c2 & -> & ? & ? & ?).
      exists (t ++ t2), s2, c2. rewrite users_app, Ht. now split_and!.
Qed.

(** The parameter checks of a write pass. *)
Record admissible (vol : xsan_volume) (id : uuid) (off len : Z) : Prop := {
  ad_id : uuid_is_null id = false;
  ad_len : len <> 0;
  ad_state : v_state vol <> XSAN_STORAGE_STATE_OFFLINE /\ v_state vol <> XSAN_STORAGE_STATE_FAILED;
  ad_block : v_block_size vol <> 0;
  ad_off : off mod v_block_size vol = 0;
  ad_len_mod : len mod v_block_size vol = 0;
  ad_bound : wrap 64 (off + len) <= v_size_bytes vol;
  ad_count : 1 <= v_replica_count vol <= XSAN_MAX_REPLICAS;
  ad_array : Zlen (v_replicas vol) = XSAN_MAX_REPLICAS
}.

(** The context can be set up, and whichever definition is linked targets every
    replica. *)
Definition context_ok (env : write_env) (vol : xsan_volume) : Prop :=
  we_ctx env = true /\ we_put env = XSAN_OK /\
  (we_common env = true -> v_replica_count vol <= v_FTT vol + 1 < 2 ^ 32).

Definition replicas_of (vol : xsan_volume) : list xsan_replica_location :=
  take (Z.to_nat (v_replica_count vol)) (v_replicas vol).

Definition local_result (env : write_env) m id off len buf : option xsan_error_t :=
  (submit_single_io_attempt get_by_id (we_local env) true m id off len (Some buf) false true).1.2.

(** Some replica breaks the submission. *)
Definition broken (env : write_env) m (vol : xsan_volume) id off len buf : bool :=
  existsb (fun ir => breaks env (local_result env m id off len buf)
      (fun re => write_request re (we_tid env) id (v_block_size vol) off len buf) ir.1 ir.2)
    (imap pair (replicas_of vol)).

Lemma broken_true env m vol id off len buf :
  broken env m vol id off len buf = true ->
  exists k r, replicas_of vol !! k = Some r /\
    breaks env (local_result env m id off len buf)
      (fun re => write_request re (we_tid env) id (v_block_size vol) off len buf) (0 + k) r = true.
Proof.
  intros ([k r] & Hin & Hb)%existsb_exists. apply list_elem_of_In in Hin.
  apply elem_of_lookup_imap in Hin as (k' & r' & [= -> ->] & Hk). by exists k', r'.
Qed.

Lemma broken_false env m vol id off len buf :
  broken env m vol id off len buf = false ->
  forall k r, replicas_of vol !! k = Some r ->
    breaks env (local_result env m id off len buf)
      (fun re => write_request re (we_tid env) id (v_block_size vol) off len buf) (0 + k) r = false.
Proof.
  intros Hb k r Hk. apply not_true_iff_false. intros Ht. apply not_true_iff_false in Hb.
  apply Hb, existsb_exists. exists (k, r). split; [|done].
  apply list_elem_of_In, elem_of_lookup_imap. by exists k, r.
Qed.

Lemma replicas_of_length vol id off len :
  admissible vol id off len -> Zlen (replicas_of vol) = v_replica_count vol.
Proof.
  intros []. unfold replicas_of, Zlen in *. rewrite length_take. lia.
Qed.

(** The checks and the creation of the context lead to the loop. *)
Lemma write_async_start env m vol id off len buf :
  get_by_id m id = Some vol -> admissible vol id off len -> context_ok env vol ->
  exists c, ctx_ok c (v_replica_count vol) 0 (we_tid env) /\ rc_failed c = 0 /\
    xsan_volume_write_async env true m id off len (Some buf) true =
      tbind (write_loop env (local_result env m id off len buf)
               (fun re => write_request re (we_tid env) id (v_block_size vol) off len buf)
               0 (replicas_of vol) (WState (Some c) (Some vol) []))
        (fun s => if negb (existsb writable (replicas_of vol))
                  then tbind (fail_all s)
                         (fun s => tret (Some s, XSAN_ERROR_REPLICATION_UNAVAILABLE))
                  else tret (Some s, XSAN_OK)).
Proof.
  intros Hg [] (Hctx & Hput & Hcommon). unfold xsan_volume_write_async. rewrite Hg.
  rewrite ad_id0. destruct (Z.eqb_spec len 0); [done|]. cbn [negb orb].
  destruct (Z.eqb_spec (v_state vol) XSAN_STORAGE_STATE_OFFLINE); [tauto|].
  destruct (Z.eqb_spec (v_state vol) XSAN_STORAGE_STATE_FAILED); [tauto|]. cbn [orb].
  destruct (Z.eqb_spec (v_block_size vol) 0); [done|].
  rewrite ad_off0, ad_len_mod0, !Z.eqb_refl. cbn [negb orb].
  destruct (Z.ltb_spec (v_size_bytes vol) (wrap 64 (off + len))); [lia|].
  destruct (Z.eqb_spec (v_replica_count vol) 0); [lia|].
  exists (RepCtx (v_id vol) (Some buf) off len (v_replica_count vol) 0 0 XSAN_OK (we_tid env)).
  split; [constructor; simpl; (done || lia)|]. split; [done|].
  unfold start_write.
  assert (Hc : (if we_common env then common_io_ctx_create else xsan_replicated_io_ctx_create)
      (we_ctx env) true (Some vol) (Some buf) off len (we_tid env) =
      Some (RepCtx (v_id vol) (Some buf) off len (v_replica_count vol) 0 0 XSAN_OK (we_tid env))).
  { rewrite Hctx. assert (Hmax : XSAN_MAX_REPLICAS <? v_replica_count vol = false)
      by (apply Z.ltb_ge; lia).
    assert (Hnz : v_replica_count vol =? 0 = false) by (apply Z.eqb_neq; lia).
    destruct (we_common env).
    - specialize (Hcommon eq_refl). unfold common_io_ctx_create. cbn [negb orb].
      rewrite bool_decide_eq_false_2 by done. destruct (Z.eqb_spec len 0); [done|].
      rewrite Hnz. cbn [andb orb]. rewrite wrap_small by (unfold in_u; lia).
      assert ((if v_replica_count vol <? v_FTT vol + 1 then v_replica_count vol else v_FTT vol + 1)
        = v_replica_count vol) as -> by (case_cmp; lia).
      now rewrite Hmax, Hnz.
    - unfold xsan_replicated_io_ctx_create. cbn [negb orb]. now rewrite Hmax, Hnz. }
  rewrite Hc, Hput. cbn [negb]. rewrite Z.eqb_refl. cbn [negb].
  destruct (Z.ltb_spec XSAN_MAX_REPLICAS (v_replica_count vol)); [lia|]. reflexivity.
Qed.

(** C7: a replicated write that passes its checks and has its context accounts for every
    replica exactly once, unless it runs into one of the two defects that are named
    here.  If for some writable replica the local submission is undefined, or the send
    fails in the socket, the call is undefined: a failed send is reported by its callback,
    which frees the operation, and again by its return code.  If no replica is writable the
    write is completed inside the loop, and the code behind the loop then uses the freed
    context.  Otherwise the call returns success, and each replica is either counted as
    failed or pending; the context lives until the last one is counted, and the user's
    callback has been called exactly if all failed.  A connect that fails sets errno. *)
Theorem write_submission env m vol id off len buf :
  get_by_id m id = Some vol -> admissible vol id off len -> context_ok env vol ->
  connects_report env ->
  if broken env m vol id off len buf
  then exists t,
    xsan_volume_write_async env true m id off len (Some buf) true = (t, None) /\
    (length (users t) <= 1)%nat
  else if existsb writable (replicas_of vol)
  then exists t s,
    xsan_volume_write_async env true m id off len (Some buf) true =
      (t, Some (Some s, XSAN_OK)) /\
    accounted (v_replica_count vol) (v_replica_count vol) 0 (we_tid env) s (users t)
  else exists t st,
    xsan_volume_write_async env true m id off len (Some buf) true = (t, None) /\
    users t = [st].
Proof.
  intros Hg Had Hctx Hq. pose proof (replicas_of_length _ _ _ _ Had) as Hlen.
  destruct (write_async_start env m vol id off len buf Hg Had Hctx) as (c & Hc & Hf & ->).
  set (s0 := WState (Some c) (Some vol) []). destruct Had.
  assert (Ha : accounted (v_replica_count vol) (Z.of_nat 0) 0 (we_tid env) s0 []).
  { unfold accounted. simpl. rewrite Hf. now split_and!; try lia. }
  destruct (broken env m vol id off len buf) eqn:Hb.
  { apply broken_true in Hb as (k & r & Hk & Hb).
    destruct (write_loop_breaks _ _ _ _ _ _ 0 s0 k r Hq Hk Hb ltac:(done) Ha) as (t & -> & Ht);
      [lia|]. by exists t. }
  destruct (existsb writable (replicas_of vol)) eqn:Hw; cbn [negb].
  - destruct (write_loop_accounted env (local_result env m id off len buf)
      (fun re => write_request re (we_tid env) id (v_block_size vol) off len buf)
      (v_replica_count vol) (we_tid env) (replicas_of vol) 0 s0 []) as (t & s & -> & Hacc & _);
      [done|by apply broken_false|lia|done|done|lia|].
    exists t, s. cbn [tbind tret fst snd]. now rewrite app_nil_r.
  - destruct (write_loop_none env (local_result env m id off len buf)
      (fun re => write_request re (we_tid env) id (v_block_size vol) off len buf)
      (v_replica_count vol) (we_tid env) (replicas_of vol) 0 s0) as (t & s & c' & -> & Hn & Hus & _);
      [done|done|done|lia|done|lia|].
    exists t, (write_status c'). split; [|done]. unfold fail_all, deref. cbn [tbind].
    rewrite Hn. simpl. now rewrite app_nil_r.
Qed.

(** ** Answers *)

Definition answerable (p : pending) : Prop := forall node, p <> PNever node.

Lemma remove_pending_perm p l : p ∈ l -> l ≡ₚ p :: remove_pending p l.
Proof.
  induction l as [|q l IH]; intros Hp; [now apply elem_of_nil in Hp|]. simpl.
  destruct (decide (p = q)) as [->|Hne]; [done|].
  apply elem_of_cons in Hp as [|Hp]; [done|]. rewrite (IH Hp) at 1. apply Permutation_swap.
Qed.

(** Counting the answer of a live write, whichever callback brings it. *)
Lemma count_accounted c vol ps n oks tid st :
  ctx_ok c n oks tid -> oks + rc_failed c < n -> oks + rc_failed c + Zlen ps + 1 = n ->
  exists t s, check_completion (WState (Some (count_result c st)) vol ps) = (t, Some s) /\
    accounted n n (oks + ok_count st) tid s (users t) /\ ws_pending s = ps.
Proof.
  intros Hc Hlt Hn. destruct (count_result_ok c n oks tid st Hc Hlt) as [Hc' Hf].
  apply (check_accounted _ _ _ n n _ tid Hc'); lia.
Qed.

Lemma answer_accounted now s us n oks tid p st :
  accounted n n oks tid s us -> p ∈ ws_pending s -> answerable p ->
  exists t s', answer now tid s p st = (t, Some s') /\
    accounted n n (oks + ok_count st) tid s' (us ++ users t) /\
    ws_pending s' = remove_pending p (ws_pending s).
Proof.
  intros Ha Hp Hans. unfold accounted in Ha. destruct (ws_ctx s) as [c|] eqn:Hs.
  2:{ destruct Ha as (_ & Hnil & _). rewrite Hnil in Hp. now apply elem_of_nil in Hp. }
  destruct Ha as (-> & Hc & Hlt & Hn).
  assert (Hlen : Zlen (ws_pending s) = Zlen (remove_pending p (ws_pending s)) + 1).
  { unfold Zlen. rewrite (remove_pending_perm p (ws_pending s) Hp) at 1. simpl. lia. }
  unfold answer. rewrite Hs. destruct p as [|node|node]; [| |now destruct (Hans node)].
  - unfold local_replica_write_complete_cb, deref. cbn [ws_ctx]. rewrite tbind_ret.
    apply (count_accounted c _ _ n oks tid st Hc Hlt). simpl. lia.
  - unfold process_replica_write_response. cbn [ws_ctx].
    rewrite (co_tid _ _ _ _ Hc), Z.eqb_refl. cbn [negb].
    apply (count_accounted c _ _ n oks tid st Hc Hlt). simpl. lia.
Qed.

Definition ok_total (l : list (pending * xsan_error_t)) : Z :=
  foldr (fun a k => ok_count a.2 + k) 0 l.

Lemma answers_accounted now l s us n oks tid rest :
  accounted n n oks tid s us -> ws_pending s ≡ₚ l.*1 ++ rest ->
  Forall (fun a => answerable a.1) l ->
  exists t s', answers now tid l s = (t, Some s') /\
    accounted n n (oks + ok_total l) tid s' (us ++ users t) /\ ws_pending s' ≡ₚ rest.
Proof.
  revert s us oks. induction l as [|[p st] l IH]; intros s us oks Ha Hp Hans.
  - exists [], s. simpl. now rewrite Z.add_0_r, app_nil_r.
  - apply Forall_cons in Hans as [Hp1 Hans]. simpl in Hp.
    assert (Hin : p ∈ ws_pending s) by (rewrite Hp; left).
    destruct (answer_accounted now s us n oks tid p st Ha Hin Hp1) as (t & s' & He & Ha' & Hr).
    destruct (IH s' (us ++ users t) (oks + ok_count st) Ha') as (t2 & s2 & He2 & Ha2 & Hr2);
      [|done|].
    + rewrite Hr. apply (Permutation_cons_inv (a := p)). rewrite <- Hp. symmetry.
      now apply remove_pending_perm.
    + exists (t ++ t2), s2. cbn [answers]. rewrite He. cbn [tbind]. rewrite He2.
      split_and!; [done| |done]. rewrite users_app, app_assoc. simpl.
      now rewrite Z.add_assoc.
Qed.

(** C5: a replicated write completes exactly once.  Starting from any accounted
    state, the answers of any part of what is pending, in any order, are counted
    without undefined behaviour.  While something is left the user is not called;
    after the last answer the user has been called exactly once, with the status of
    a context that counts every replica, and whose own status is success exactly
    when every replica succeeded. *)
Theorem write_completes_once now l s us n oks tid rest :
  accounted n n oks tid s us -> ws_pending s ≡ₚ l.*1 ++ rest ->
  Forall (fun a => answerable a.1) l ->
  exists t s', answers now tid l s = (t, Some s') /\ ws_pending s' ≡ₚ rest /\
    (rest <> [] -> us ++ users t = [] /\ ws_ctx s' <> None) /\
    (rest = [] -> ws_ctx s' = None /\ exists c,
       us ++ users t = [write_status c] /\ rc_targeted c = n /\
       rc_successful c = oks + ok_total l /\ rc_failed c = n - (oks + ok_total l) /\
       (rc_final_status c = XSAN_OK <-> oks + ok_total l = n)).
Proof.
  intros Ha Hp Hans.
  destruct (answers_accounted now l s us n oks tid rest Ha Hp Hans) as (t & s' & He & Ha' & Hr).
  exists t, s'. split_and!; [done..| |]; unfold accounted in Ha'.
  - intros Hne. destruct (ws_ctx s') as [c|]; [now destruct Ha' as (? & _)|].
    destruct Ha' as (_ & Hnil & _). rewrite Hnil in Hr. apply Permutation_nil_l in Hr. congruence.
  - intros ->. apply Permutation_nil_r in Hr. destruct (ws_ctx s') as [c|].
    + destruct Ha' as (_ & _ & ? & Ha'). rewrite Hr in Ha'. pose proof (@Zlen_nil pending). lia.
    + split; [done|]. destruct Ha' as (_ & _ & c & Hus & [] & Hn). exists c.
      split_and!; [done|done|done|lia|]. rewrite co_status0. lia.
Qed.

Lemma responses_complete now n tid nodes s c oks :
  ws_ctx s = Some c -> ctx_ok c n oks tid -> oks + rc_failed c + Zlen nodes = n -> nodes <> [] ->
  exists t s' c',
    responses now tid (map (fun node => (node, XSAN_OK)) nodes) s = (t, Some s') /\
    users t = [write_status c'] /\ rc_successful c' = oks + Zlen nodes /\
    ws_pending s' = ws_pending s /\ ws_ctx s' = None.
Proof.
  revert s c oks. induction nodes as [|node nodes IH]; intros s c oks Hs Hc Hn Hne; [done|].
  rewrite Zlen_cons in *. pose proof (Zlen_nonneg nodes).
  destruct (count_success_ok c n oks tid Hc ltac:(lia)) as [Hc' Hf].
  set (s1 := set_ctx (mark_replica s node XSAN_STORAGE_STATE_ONLINE (Some now)) (count_success c)).
  assert (Hchk : process_replica_write_response now s tid node XSAN_OK =
    if write_done (count_success c)
    then ([WUserCb (write_status (count_success c))], Some (WState None (ws_vol s1) (ws_pending s)))
    else ([], Some s1)).
  { unfold process_replica_write_response. rewrite Hs, (co_tid _ _ _ _ Hc), Z.eqb_refl.
    cbn [negb]. unfold check_completion, deref. simpl. now destruct (write_done _). }
  pose proof (write_done_spec (count_success c)) as Hd.
  rewrite (co_targeted _ _ _ _ Hc'), (co_successful _ _ _ _ Hc'), Hf in Hd.
  cbn [map responses]. rewrite Hchk. destruct (write_done (count_success c)).
  - destruct Hd as [Hd _]. specialize (Hd eq_refl).
    destruct nodes as [|node2 nodes]; [|rewrite Zlen_cons in *; pose proof (Zlen_nonneg nodes); lia].
    eexists _, _, (count_success c). split; [reflexivity|]. split_and!; [done| |done|done].
    now rewrite (co_successful _ _ _ _ Hc').
  - cbn [tbind]. destruct nodes as [|node2 nodes].
    { pose proof (@Zlen_nil uuid). assert (false = true) as [=]. apply Hd. lia. }
    destruct (IH s1 (count_success c) (oks + 1) eq_refl Hc') as (t & s' & c' & He & Hu & Hk & Hp & Hx);
      [lia|done|].
    rewrite He. exists t, s', c'. split_and!; [done|done|lia|done|done].
Qed.

(** Responses are counted without regard to who sends them.  As many successful
    responses with the write's transaction number as operations are pending, from any
    nodes at all and with repetitions, complete the write while its own operations
    are still pending; a local write that completes afterwards uses the freed
    context. *)
Theorem stray_responses_complete now s n oks tid nodes st :
  accounted n n oks tid s [] -> Zlen nodes = Zlen (ws_pending s) -> nodes <> [] ->
  exists t s' c,
    responses now tid (map (fun node => (node, XSAN_OK)) nodes) s = (t, Some s') /\
    users t = [write_status c] /\ rc_successful c = oks + Zlen nodes /\
    ws_pending s' = ws_pending s /\
    local_replica_write_complete_cb now s' st = ([], None).
Proof.
  intros Ha Hlen Hne. unfold accounted in Ha. destruct (ws_ctx s) as [c|] eqn:Hs;
    [|now destruct Ha as (_ & _ & c & ? & _)].
  destruct Ha as (_ & Hc & Hlt & Hn).
  destruct (responses_complete now n tid nodes s c oks Hs Hc) as (t & s' & c' & He & Hu & Hk & Hp & Hx);
    [lia|done|].
  exists t, s', c'. split_and!; [done..|].
  unfold local_replica_write_complete_cb, deref. now rewrite Hx.
Qed.

Lemma unconnected_awaits re r msg s :
  re_op re = true -> msg <> None -> re_active re = None -> ce_sock (re_connect re) = None ->
  attempt_remote re r msg s = ([], Some (await s (PNever (r_node_id r)))).
Proof.
  intros Ho Hm Ha Hc. unfold attempt_remote. rewrite Ho. cbn [negb]. destruct msg; [|done].
  rewrite Ha, Hc. unfold xsan_node_comm_connect. repeat case_match; simplify_eq; done.
Qed.

(** A write to a volume with a writable remote replica to which there is no
    connection yet never completes: connecting succeeds, but nothing ever calls the
    callback that would send the request, and whatever else answers, the user's
    callback is not called. *)
Theorem unconnected_replica_hangs env m vol id off len buf i r :
  get_by_id m id = Some vol -> admissible vol id off len -> context_ok env vol ->
  connects_report env -> broken env m vol id off len buf = false ->
  (1 <= i)%nat -> replicas_of vol !! i = Some r -> writable r = true ->
  re_op (we_replica env i) = true ->
  write_request (we_replica env i) (we_tid env) id (v_block_size vol) off len buf <> None ->
  re_active (we_replica env i) = None -> ce_sock (re_connect (we_replica env i)) = None ->
  exists t s,
    xsan_volume_write_async env true m id off len (Some buf) true =
      (t, Some (Some s, XSAN_OK)) /\
    users t = [] /\ PNever (r_node_id r) ∈ ws_pending s /\
    forall now l rest, ws_pending s ≡ₚ l.*1 ++ rest -> Forall (fun a => answerable a.1) l ->
      exists t' s', answers now (we_tid env) l s = (t', Some s') /\ users t' = [].
Proof.
  intros Hg Had Hctx Hq Hl Hi Hr Hw Hop Hreq Hact Hconn.
  pose proof (replicas_of_length _ _ _ _ Had) as Hlen.
  destruct (write_async_start env m vol id off len buf Hg Had Hctx) as (c & Hc & Hf & ->).
  set (s0 := WState (Some c) (Some vol) []). destruct Had.
  destruct (write_loop_accounted env (local_result env m id off len buf)
    (fun re => write_request re (we_tid env) id (v_block_size vol) off len buf)
    (v_replica_count vol) (we_tid env) (replicas_of vol) 0 s0 [])
    as (t & s & -> & Hacc & _ & Hnew); [done|by apply broken_false|lia|done| |lia|].
  { unfold accounted. simpl. rewrite Hf. now split_and!; try lia. }
  assert (Hp : PNever (r_node_id r) ∈ ws_pending s).
  { apply (Hnew i r); [done|]. intros s1. unfold iteration. rewrite Hw. cbn [negb Nat.add].
    destruct i as [|i]; [lia|]. now apply unconnected_awaits. }
  assert (existsb writable (replicas_of vol) = true) as ->.
  { apply existsb_exists. exists r. split; [|done].
    apply list_elem_of_In. now apply list_elem_of_lookup_2 with i. }
  exists t, s. cbn [negb tbind tret fst snd]. rewrite app_nil_r. simpl in Hacc.
  split; [done|]. split; [|split; [done|]].
  - unfold accounted in Hacc. destruct (ws_ctx s); [tauto|].
    destruct Hacc as (_ & Hnil & _). rewrite Hnil in Hp. now apply elem_of_nil in Hp.
  - intros now l rest Hperm Hans.
    destruct (answers_accounted now l s _ _ 0 _ rest Hacc Hperm Hans) as (t' & s' & He & Ha' & Hrest).
    exists t', s'. split; [done|].
    assert (Hin : PNever (r_node_id r) ∈ rest).
    { rewrite Hperm in Hp. apply elem_of_app in Hp as [Hin|]; [|done]. exfalso.
      apply list_elem_of_fmap in Hin as ([p st] & Heq & Hin). rewrite Forall_forall in Hans.
      specialize (Hans _ Hin). now destruct (Hans (r_node_id r)). }
    unfold accounted in Ha'. destruct (ws_ctx s') as [c'|].
    + destruct Ha' as (Hu & _). now apply app_eq_nil in Hu as [_ ?].
    + destruct Ha' as (_ & Hnil & _). rewrite <- Hrest, Hnil in Hin. now apply elem_of_nil in Hin.
Qed.

End Writes.

(** ** The two context constructors *)

(** C31: the two definitions of the context constructor in the library agree on a
    volume exactly when it has at most three replicas and no more than its tolerated
    failures ask for; otherwise a write is completed before all replicas are done, or
    is refused, depending on the definition that is linked. *)
Theorem context_definitions_agree vol buf off len tid :
  in_u 32 (v_replica_count vol) -> 0 <= v_FTT vol < 2 ^ 32 - 1 -> 0 < len ->
  xsan_replicated_io_ctx_create true true (Some vol) (Some buf) off len tid =
    common_io_ctx_create true true (Some vol) (Some buf) off len tid <->
  v_replica_count vol <= Z.min XSAN_MAX_REPLICAS (v_FTT vol + 1).
Proof.
  unfold in_u, XSAN_MAX_REPLICAS. intros Hc Hf Hl. unfold xsan_replicated_io_ctx_create,
    common_io_ctx_create. rewrite bool_decide_eq_false_2 by done. cbn [negb orb andb].
  rewrite (wrap_small 32) by (unfold in_u; lia). unfold XSAN_MAX_REPLICAS.
  destruct (Z.eqb_spec len 0); [lia|]. destruct (Z.ltb_spec 0 len); [|lia].
  destruct (Z.eqb_spec (v_replica_count vol) 0) as [->|Hn]; cbn [andb orb].
  - destruct (Z.ltb_spec 0 (v_FTT vol)); [split; [lia|done]|].
    destruct (Z.ltb_spec 0 (v_FTT vol + 1)); [|lia]. split; [lia|done].
  - rewrite andb_true_r.
    destruct (Z.ltb_spec 3 (v_replica_count vol)), (Z.ltb_spec (v_replica_count vol) (v_FTT vol + 1));
      case_cmp; try lia; (split; [intros [=]; lia|intros; (f_equal; f_equal; lia) || lia]).
Qed.

(** ** Witnesses *)

#[local] Instance toy_store : MetaStore mem_db := rocksdb_meta_store (fun _ => true).
#[local] Instance count_completion : WriteCompletion.
Proof.
  refine {| write_done c := rc_targeted c <=? rc_successful c + rc_failed c;
            write_status := rc_final_status |}.
  intros c. apply Z.leb_le.
Defined.

(** A volume of four blocks of four bytes with a local replica and one on node 2,
    whose allocation map is not in the store, so that local writes fail. *)
Definition pair_volume : xsan_volume :=
  Volume 7 $"pair" 16 4 4 XSAN_STORAGE_STATE_ONLINE 9 false 4 1 2
    [ReplicaLocation 1 [] 0 XSAN_STORAGE_STATE_ONLINE 0;
     ReplicaLocation 2 [] 4000 XSAN_STORAGE_STATE_ONLINE 0; replica0].
Definition pair_vm : xsan_volume_manager mem_db Z := Vm [pair_volume] 0 (MemDb ∅ false) false [].

Definition pair_env (active : option send_env) : write_env :=
  WriteEnv false true XSAN_OK ok_env
    (fun _ => ReplicaEnv true (fun _ => true) (replicate 32 0) (replicate 64 0) active
                (ConnectEnv true true true None)) 50.
Definition pair_data : list Z := [1; 2; 3; 4].
Definition sending : send_env := SendEnv true true true false (inl 1000).

Lemma pair_admissible : admissible pair_volume 7 0 4.
Proof. constructor; (reflexivity || done || vm_compute; intuition discriminate). Qed.

Lemma pair_context active : context_ok (pair_env active) pair_volume.
Proof. now split_and!. Qed.

Lemma pair_connects active : connects_report (pair_env active).
Proof. done. Qed.

(** A send that succeeds, and one that the socket refuses. *)
Lemma write_submission_witness :
  (exists t s,
    xsan_volume_write_async by_id (pair_env (Some sending)) true pair_vm 7 0 4
      (Some pair_data) true = (t, Some (Some s, XSAN_OK)) /\
    accounted 2 2 0 50 s (users t)) /\
  (exists t,
    xsan_volume_write_async by_id (pair_env (Some (SendEnv true true true false (inr 104))))
      true pair_vm 7 0 4 (Some pair_data) true = (t, None) /\ (length (users t) <= 1)%nat).
Proof.
  split.
  - pose proof (write_submission by_id (pair_env (Some sending)) pair_vm pair_volume 7 0 4
      pair_data eq_refl pair_admissible (pair_context _) (pair_connects _)) as H.
    replace (broken by_id (pair_env (Some sending)) pair_vm pair_volume 7 0 4 pair_data)
      with false in H by (vm_compute; reflexivity). exact H.
  - pose proof (write_submission by_id (pair_env (Some (SendEnv true true true false (inr 104))))
      pair_vm pair_volume 7 0 4 pair_data
      eq_refl pair_admissible (pair_context _) (pair_connects _)) as H.
    replace (broken by_id (pair_env (Some (SendEnv true true true false (inr 104))))
      pair_vm pair_volume 7 0 4 pair_data) with true in H by (vm_compute; reflexivity). exact H.
Defined.

(** A write to three replicas of which one has failed. *)
Definition sample_ctx : xsan_replicated_io_ctx :=
  RepCtx 7 (Some pair_data) 0 4 3 0 1 XSAN_ERROR_IO 50.
Definition sample_write : wstate := WState (Some sample_ctx) None [PLocal; PResponse 2].

Lemma sample_accounted : accounted 3 3 0 50 sample_write [].
Proof.
  unfold accounted. cbn [ws_ctx sample_write]. split_and!; [done| |done|done].
  constructor; simpl; done.
Qed.

Lemma write_completes_once_witness :
  exists t s', answers 0 50 [(PResponse 2, XSAN_OK); (PLocal, XSAN_OK)] sample_write =
      (t, Some s') /\ ws_ctx s' = None /\ users t = [XSAN_ERROR_IO].
Proof.
  destruct (write_completes_once 0 [(PResponse 2, XSAN_OK); (PLocal, XSAN_OK)] sample_write []
    3 0 50 [] sample_accounted) as (t & s' & He & _ & _ & Hd).
  - apply Permutation_swap.
  - repeat constructor; intros node; discriminate.
  - exists t, s'. split; [exact He|]. destruct (Hd eq_refl) as [Hn _]. split; [exact Hn|].
    vm_compute in He. now injection He as <- _.
Defined.

Lemma stray_responses_complete_witness :
  exists t s', responses 0 50 [(99, XSAN_OK); (99, XSAN_OK)] sample_write = (t, Some s') /\
    ws_pending s' = [PLocal; PResponse 2] /\
    local_replica_write_complete_cb 0 s' XSAN_OK = ([], None).
Proof.
  destruct (stray_responses_complete 0 sample_write 3 0 50 [99; 99] XSAN_OK sample_accounted
    eq_refl ltac:(discriminate)) as (t & s' & c & He & _ & _ & Hp & Hu).
  exists t, s'. split; [exact He|]. split; [exact Hp|exact Hu].
Defined.

Lemma unconnected_replica_hangs_witness :
  exists t s,
    xsan_volume_write_async by_id (pair_env None) true pair_vm 7 0 4 (Some pair_data) true =
      (t, Some (Some s, XSAN_OK)) /\ users t = [] /\ PNever 2 ∈ ws_pending s.
Proof.
  destruct (unconnected_replica_hangs by_id (pair_env None) pair_vm pair_volume 7 0 4 pair_data 1
    (ReplicaLocation 2 [] 4000 XSAN_STORAGE_STATE_ONLINE 0)) as (t & s & He & Hu & Hp & _).
  - reflexivity.
  - exact pair_admissible.
  - exact (pair_context _).
  - exact (pair_connects _).
  - vm_compute. reflexivity.
  - lia.
  - reflexivity.
  - reflexivity.
  - reflexivity.
  - vm_compute. discriminate.
  - reflexivity.
  - reflexivity.
  - exists t, s. split_and!; [exact He|exact Hu|exact Hp].
Defined.

Lemma context_definitions_agree_witness :
  xsan_replicated_io_ctx_create true true (Some pair_volume) (Some pair_data) 0 4 9 =
  common_io_ctx_create true true (Some pair_volume) (Some pair_data) 0 4 9.
Proof.
  apply (context_definitions_agree pair_volume pair_data 0 4 9).
  - vm_compute. split; congruence.
  - vm_compute. split; congruence.
  - lia.
  - vm_compute. congruence.
Defined.
