(* ===== verification/VolumeHistory.v ===== *)
(** * Histories of the volume manager ([src/src/storage/volume_manager.c])

    Any sequence of creations, deletions, replica state changes and state updates of
    volumes, with any outcome of the allocations and of the reads, writes and deletions in
    the metadata store.  The theorems say what holds in every state that such a history
    reaches: the volumes are well-formed, the store holds their records, and the extents
    that the disk manager has handed out and not got back are those of the volumes and
    those that deletions could not read.  When the store does as it is told there are no
    such extents and no other records. *)

From stdpp Require Import gmultiset prelude list strings gmap.
From Stdlib Require Import ZArith Lia Ascii.
From S2P Require Import Prelude Errors StringUtils Json VolumeMeta MetadataStore Cluster Volume Replication.

#[export] Instance extent_eq_dec : EqDecision xsan_volume_extent_mapping.
Proof. solve_decision. Defined.

#[export] Instance extent_countable : Countable xsan_volume_extent_mapping.
Proof.
  refine (inj_countable' (fun e => (e_disk e, e_start e, e_blocks e, e_vol_lba e))
    (fun '(d, s, n, l) => Extent d s n l) _).
  now intros [].
Defined.

(** ** Space *)

(** The extents of a group. *)
Definition space_of (g : uuid) (es : list xsan_volume_extent_mapping) :
    gmultiset (uuid * xsan_volume_extent_mapping) := list_to_set_disj (pair g <$> es).

Arguments space_of : simpl never.

(** What is handed out after a call; [None] once something is given back that is not
    handed out. *)
Definition space_step (s : option (gmultiset (uuid * xsan_volume_extent_mapping))) (c : dm_call) :
    option (gmultiset (uuid * xsan_volume_extent_mapping)) :=
  match s, c with
  | None, _ => None
  | Some s, DmAllocate g es => Some (s ⊎ space_of g es)
  | Some s, DmFree g es => if decide (space_of g es ⊆ s) then Some (s ∖ space_of g es) else None
  end.

Definition space (calls : list dm_call) : option (gmultiset (uuid * xsan_volume_extent_mapping)) :=
  foldl space_step (Some ∅) calls.

Section History.
Context {JC : JsonC} {SU : SpdkUuid} {SC : StorageCodes}.
Context {St : Type} {MS : MetaStore St} {DM : Type} {DK : DiskManager DM}.
Implicit Types (m : xsan_volume_manager St DM) (vol : xsan_volume).

(** ** Operations *)

(** [OpDelete]'s first argument is the outcome of allocating the structure its allocation
    map is read into.  [OpMark]: the callbacks of replicated I/O set the state and the last
    contact of the local replica or of the one on a node; the volume is the one at a
    position of the list. *)
Inductive vm_op :=
  | OpCreate (env : create_env) (name : option cstring) (size g lbs : Z) (thin : bool) (ftt : Z)
  | OpDelete (alloc_ok : bool) (id : uuid)
  | OpMark (i : nat) (node : option uuid) (st : Z) (contact : option Z)
  | OpUpdate (dup_ok : bool) (i : nat).

Definition mark_volume (node : option uuid) (st : Z) (contact : option Z) vol : xsan_volume :=
  match node with
  | None => if 0 <? v_replica_count vol then update_replica 0 st contact vol else vol
  | Some node =>
      match find_replica vol node with
      | Some j => update_replica j st contact vol
      | None => vol
      end
  end.

Definition vm_step m (op : vm_op) : option (xsan_volume_manager St DM) :=
  match op with
  | OpCreate env name size g lbs thin ftt =>
      (fun r => r.1.1) <$> xsan_volume_create env true m name size g lbs thin ftt
  | OpDelete alloc_ok id => fst <$> xsan_volume_delete alloc_ok true m id
  | OpMark i node st contact => Some (set_volumes m (alter (mark_volume node st contact) i (vm_volumes m)))
  | OpUpdate dup_ok i => volume_update_overall_state dup_ok m i
  end.

Fixpoint vm_run m (ops : list vm_op) : option (xsan_volume_manager St DM) :=
  match ops with
  | [] => Some m
  | op :: ops => m ← vm_step m op; vm_run m ops
  end.

(** The arguments have their C types, and identifiers that are generated are new. *)
Definition op_typed m (op : vm_op) : Prop :=
  match op with
  | OpCreate env name size g lbs thin ftt =>
      env_ok env /\ in_u 64 size /\ in_u 128 g /\ in_u 32 lbs /\ in_u 32 ftt /\
      (forall s, name = Some s -> no_nul s) /\ ce_new_id env ∉ (v_id <$> vm_volumes m)
  | OpDelete _ id => in_u 128 id
  | OpMark i node st contact => 0 <= st < 2 ^ 31 /\ (forall c, contact = Some c -> in_u 64 c)
  | OpUpdate _ _ => True
  end.

Inductive vm_reach (m0 : xsan_volume_manager St DM) : list vm_op -> xsan_volume_manager St DM -> Prop :=
  | vm_reach_start : vm_reach m0 [] m0
  | vm_reach_step m ops op m' :
      vm_reach m0 ops m -> op_typed m op -> vm_step m op = Some m' -> vm_reach m0 (ops ++ [op]) m'.

(** A deletion has the memory to read the allocation map. *)
Definition op_reads (op : vm_op) : Prop :=
  match op with OpDelete alloc_ok _ => alloc_ok = true | _ => True end.

(** The store does as it is told. *)
Definition store_healthy : Prop :=
  deletes_succeed (St := St) /\ gets_succeed (St := St) /\ failed_puts_undone (St := St).

(** The callbacks of replicated writes change the volume in this way. *)
Lemma mark_replica_volume s node st contact :
  ws_vol (mark_replica s node st contact) = mark_volume (Some node) st contact <$> ws_vol s.
Proof. done. Qed.

(** ** What a record keeps *)

(** A volume without what changes while it runs: its state, and the state and last
    contact of its replicas. *)
Definition settled (r : xsan_replica_location) : xsan_replica_location :=
  ReplicaLocation (r_node_id r) (r_ip r) (r_port r) 0 0.

Definition durable vol : xsan_volume :=
  Volume (v_id vol) (v_name vol) (v_size_bytes vol) (v_block_size vol) (v_num_blocks vol) 0
    (v_group vol) (v_thin vol) (v_allocated vol) (v_FTT vol) (v_replica_count vol)
    (settled <$> v_replicas vol).

(** ** The invariant *)

(** Both records of a volume with the extents [es] are in the store. *)
Record stored (view : gmap cstring cstring) vol (es : list xsan_volume_extent_mapping) : Prop := {
  sd_alloc : view !! alloc_key (v_id vol) =
    Some (json_to_string (alloc_meta_to_json (meta_of vol (v_group vol) es)));
  sd_volume : exists vol', volume_wf vol' /\ durable vol' = durable vol /\
    view !! volume_key (v_id vol) = Some (json_to_string (volume_to_json vol'))
}.

Record volume_ok (view : gmap cstring cstring) vol (es : list xsan_volume_extent_mapping) : Prop := {
  vk_wf : volume_wf vol;
  vk_id : v_id vol <> 0;
  vk_block : v_block_size vol = 512 \/ v_block_size vol = 4096;
  vk_thin : v_thin vol = true <-> es = [];
  vk_extents : Forall extent_wf es /\ Zlen es <= XSAN_MAX_EXTENTS_PER_VOLUME;
  vk_stored : stored view vol es
}.

(** The space of volumes with their extents. *)
Fixpoint holdings (vols : list xsan_volume) (ess : list (list xsan_volume_extent_mapping)) :
    gmultiset (uuid * xsan_volume_extent_mapping) :=
  match vols, ess with
  | vol :: vols, es :: ess => space_of (v_group vol) es ⊎ holdings vols ess
  | _, _ => ∅
  end.

Definition record_key (k : cstring) : Prop := starts k $"v:" = true \/ starts k $"volalloc:" = true.

(** [ess] are the extents of the volumes, [leaked] those of deleted volumes that were not
    given back. *)
Record vm_inv m (ess : list (list xsan_volume_extent_mapping))
    (leaked : gmultiset (uuid * xsan_volume_extent_mapping)) : Prop := {
  vi_unlocked : vm_locked m = false;
  vi_volumes : Forall2 (volume_ok (view m)) (vm_volumes m) ess;
  vi_ids : NoDup (v_id <$> vm_volumes m);
  vi_space : space (vm_calls m) = Some (holdings (vm_volumes m) ess ⊎ leaked)
}.

(** Only the volumes have records. *)
Definition tidy m : Prop := forall k, is_Some (view m !! k) -> record_key k ->
  exists id, id ∈ (v_id <$> vm_volumes m) /\ key_of id k.

(** One step: the invariant, and what a healthy store keeps. *)
Definition step_ok m leaked (op : vm_op) m' : Prop :=
  exists ess' leaked', vm_inv m' ess' leaked' /\
    (store_healthy -> op_reads op -> tidy m -> tidy m' /\ leaked' = leaked).

(** A manager that starts on a store without records of volumes. *)
Definition vm_start m : Prop :=
  vm_volumes m = [] /\ vm_locked m = false /\ vm_calls m = [] /\
  forall k, record_key k -> view m !! k = None.

Lemma vm_start_inv m : vm_start m -> vm_inv m [] ∅ /\ tidy m.
Proof.
  intros (Hv & Hl & Hc & Hk). split; [constructor; rewrite ?Hv, ?Hc; try done; constructor|].
  intros k [x Hx] Hr. now rewrite Hk in Hx.
Qed.

(** ** Keys *)

Lemma uuid_fmt_inj a b : in_u 128 a -> in_u 128 b -> uuid_fmt a = uuid_fmt b -> a = b.
Proof. intros Ha Hb H. apply (f_equal uuid_parse) in H. rewrite !uuid_parse_fmt in H by done. now injection H. Qed.

Lemma volume_key_inj a b : in_u 128 a -> in_u 128 b -> volume_key a = volume_key b -> a = b.
Proof. intros Ha Hb [= H]. now apply uuid_fmt_inj. Qed.

Lemma alloc_key_inj a b : in_u 128 a -> in_u 128 b -> alloc_key a = alloc_key b -> a = b.
Proof. intros Ha Hb [= H]. now apply uuid_fmt_inj. Qed.

Lemma alloc_volume_key a b : alloc_key a <> volume_key b.
Proof. done. Qed.

(** A store that agrees on the keys of a volume holds its records. *)
Lemma volume_ok_view view view' vol es :
  volume_ok view vol es ->
  view' !! alloc_key (v_id vol) = view !! alloc_key (v_id vol) ->
  view' !! volume_key (v_id vol) = view !! volume_key (v_id vol) -> volume_ok view' vol es.
Proof.
  intros [H0 H1 H2 H3 H4 [H5 (vol' & H6 & H7 & H8)]] Ha Hv. constructor; try done. constructor; [now rewrite Ha|].
  exists vol'. now rewrite Hv.
Qed.

Lemma vm_inv_wf m ess leaked : vm_inv m ess leaked -> Forall volume_wf (vm_volumes m).
Proof. intros [_ Hv _ _]. induction Hv as [|vol es vols ess' Hok _ IH]; constructor; [apply Hok|exact IH]. Qed.

Lemma vm_inv_id m ess leaked id : vm_inv m ess leaked -> id ∈ (v_id <$> vm_volumes m) -> in_u 128 id.
Proof.
  intros Hi%vm_inv_wf (vol & -> & [i Hin]%list_elem_of_lookup)%list_elem_of_fmap.
  exact (wf_id _ (Forall_lookup_1 _ _ _ _ Hi Hin)).
Qed.

Lemma differ_at_other id view view' vol es :
  differ_at id view view' -> in_u 128 id -> v_id vol <> id -> volume_ok view vol es -> volume_ok view' vol es.
Proof.
  intros Hd Hu Hne Hok. pose proof (wf_id _ (vk_wf _ _ _ Hok)) as Hv.
  apply (volume_ok_view view); [done| |]; apply Hd.
  - apply alloc_volume_key.
  - now intros He%alloc_key_inj.
  - now intros He%volume_key_inj.
  - intros He. now apply (alloc_volume_key id (v_id vol)).
Qed.

Lemma differ_at_volumes id view view' vols ess :
  differ_at id view view' -> in_u 128 id -> Forall2 (volume_ok view) vols ess ->
  id ∉ (v_id <$> vols) -> Forall2 (volume_ok view') vols ess.
Proof.
  intros Hd Hu Hf. induction Hf as [|vol es vols ess Hok _ IH]; cbn; [constructor|].
  intros [Hne Hn]%not_elem_of_cons. constructor; [|now apply IH].
  now apply (differ_at_other id view).
Qed.

(** ** Space *)

Lemma space_snoc calls c : space (calls ++ [c]) = space_step (space calls) c.
Proof. unfold space. now rewrite foldl_app. Qed.

Lemma space_alloc calls g es s : space calls = Some s -> space (calls ++ [DmAllocate g es]) = Some (s ⊎ space_of g es).
Proof. intros H. now rewrite space_snoc, H. Qed.

Lemma space_free calls g es s :
  space calls = Some (s ⊎ space_of g es) -> space (calls ++ [DmFree g es]) = Some s.
Proof.
  intros H. rewrite space_snoc, H. cbn. rewrite decide_True by multiset_solver. f_equal. multiset_solver.
Qed.

Lemma space_of_nil g : space_of g [] = ∅.
Proof. done. Qed.

Lemma holdings_snoc vols ess vol es :
  length vols = length ess ->
  holdings (vols ++ [vol]) (ess ++ [es]) = holdings vols ess ⊎ space_of (v_group vol) es.
Proof.
  revert ess. induction vols as [|v vols IH]; intros [|e ess] Hl; try discriminate; cbn [app holdings].
  - multiset_solver.
  - rewrite IH by (now injection Hl). multiset_solver.
Qed.

Lemma holdings_delete vols ess i vol es :
  vols !! i = Some vol -> ess !! i = Some es ->
  holdings vols ess = holdings (delete i vols) (delete i ess) ⊎ space_of (v_group vol) es.
Proof.
  revert ess i. induction vols as [|v vols IH]; intros [|e ess] [|i] Hv He; try discriminate; simpl in *.
  - injection Hv as ->. injection He as ->. multiset_solver.
  - rewrite (IH ess i Hv He). multiset_solver.
Qed.

Lemma holdings_insert vols ess i vol vol' :
  vols !! i = Some vol -> v_group vol' = v_group vol -> holdings (<[i := vol']> vols) ess = holdings vols ess.
Proof.
  intros Hv Hg. revert ess i Hv. induction vols as [|v vols IH]; intros [|e ess] [|i] Hv; try done; simpl in *.
  - injection Hv as ->. now rewrite Hg.
  - f_equal. now apply IH.
Qed.

(** ** Creation *)

Lemma record_volume_key id : record_key (volume_key id).
Proof. left. unfold volume_key. now destruct (uuid_fmt id). Qed.
Lemma record_alloc_key id : record_key (alloc_key id).
Proof. right. unfold alloc_key. now destruct (uuid_fmt id). Qed.

(** A new identifier has no records. *)
Lemma fresh_keys m ess leaked id :
  vm_inv m ess leaked -> tidy m -> in_u 128 id -> id ∉ (v_id <$> vm_volumes m) ->
  view m !! volume_key id = None /\ view m !! alloc_key id = None.
Proof.
  intros Hi Ht Hid Hn. split; apply eq_None_not_Some; intros Hs.
  - destruct (Ht _ Hs (record_volume_key id)) as (id' & Hin & [He|He]); [|now destruct (alloc_volume_key _ _ (eq_sym He))].
    apply Hn. apply volume_key_inj in He as ->; [done..|exact (vm_inv_id _ _ _ _ Hi Hin)].
  - destruct (Ht _ Hs (record_alloc_key id)) as (id' & Hin & [He|He]); [now destruct (alloc_volume_key _ _ He)|].
    apply Hn. apply alloc_key_inj in He as ->; [done..|exact (vm_inv_id _ _ _ _ Hi Hin)].
Qed.

(** Another manager with the same volumes, whose store differs elsewhere. *)
Lemma vm_inv_same m m' ess leaked id :
  vm_inv m ess leaked -> vm_locked m' = false -> vm_volumes m' = vm_volumes m ->
  differ_at id (view m) (view m') -> in_u 128 id -> id ∉ (v_id <$> vm_volumes m) ->
  space (vm_calls m') = space (vm_calls m) -> vm_inv m' ess leaked.
Proof.
  intros [H1 H2 H3 H4] Hl Hv Hw Hu Hn Hc. constructor; rewrite ?Hv, ?Hc; try done.
  now apply (differ_at_volumes id (view m)).
Qed.

Lemma vm_inv_view m m' ess leaked :
  vm_inv m ess leaked -> vm_locked m' = false -> vm_volumes m' = vm_volumes m -> view m' = view m ->
  space (vm_calls m') = space (vm_calls m) -> vm_inv m' ess leaked.
Proof. intros [H1 H2 H3 H4] Hl Hv Hw Hc. constructor; rewrite ?Hv, ?Hw, ?Hc; done. Qed.

Lemma tidy_view m m' : tidy m -> vm_volumes m' = vm_volumes m -> view m' = view m -> tidy m'.
Proof. intros Ht Hv Hw k. rewrite Hv, Hw. apply Ht. Qed.

(** Nothing changed. *)
Lemma step_ok_refl m ess leaked op : vm_inv m ess leaked -> step_ok m leaked op m.
Proof. intros Hi. exists ess, leaked. auto. Qed.

(** A store that changed at a managed volume only. *)
Lemma tidy_differ m m' id :
  tidy m -> differ_at id (view m) (view m') -> id ∈ (v_id <$> vm_volumes m') ->
  (forall id', id' ∈ (v_id <$> vm_volumes m) -> id' ∈ (v_id <$> vm_volumes m')) -> tidy m'.
Proof.
  intros Ht Hd Hin Hsub k Hk Hr. destruct (decide (k = volume_key id)) as [->|N1]; [exists id; split; [done|now left]|].
  destruct (decide (k = alloc_key id)) as [->|N2]; [exists id; split; [done|now right]|].
  rewrite Hd in Hk by done. destruct (Ht k Hk Hr) as (id' & Hid & Hkey). eauto.
Qed.

Lemma rolled_back_space m g calls s :
  space (vm_calls m) = Some s ->
  (calls = [] \/ calls = [DmAllocate g []] \/ exists l, calls = [DmAllocate g l; DmFree g l]) ->
  space (vm_calls m ++ calls) = Some s.
Proof.
  intros Hs [->|[->|[l ->]]].
  - now rewrite app_nil_r.
  - rewrite (space_alloc _ _ _ _ Hs), space_of_nil. f_equal. multiset_solver.
  - change [DmAllocate g l; DmFree g l] with ([DmAllocate g l] ++ [DmFree g l]). rewrite app_assoc.
    apply space_free. now apply space_alloc.
Qed.

Lemma created_inv env m ess leaked name g lbs thin m' :
  vm_inv m ess leaked -> env_ok env -> ce_new_id env ∉ (v_id <$> vm_volumes m) ->
  lbs = 512 \/ lbs = 4096 -> vm_locked m' = false -> created env m name g lbs thin m' ->
  exists es, vm_inv m' (ess ++ [es]) leaked /\ (tidy m -> tidy m').
Proof.
  intros Hi Hok Hn Hb Hl (vol & es & Hv & Hwf & Hid & Hg & Hlbs & Hth & _ & Hthin & Hlen & Hes & Hc & Hview).
  exists es. destruct (eo_id _ Hok) as [Hu Hnz].
  assert (Hdiff : differ_at (v_id vol) (view m) (view m')).
  { intros k H1 H2. now rewrite Hview, !lookup_insert_ne by done. }
  split.
  2: { intros Ht. apply (tidy_differ m _ (v_id vol) Ht Hdiff); rewrite Hv, fmap_app; set_solver. }
  constructor; rewrite ?Hv.
  - done.
  - apply Forall2_app.
    + apply (differ_at_volumes (v_id vol) (view m)); rewrite ?Hid; try done; [now rewrite <- Hid|apply Hi].
    + constructor; [|constructor]. constructor; [done|now rewrite Hid|now rewrite Hlbs|now rewrite Hth|done|].
      constructor; rewrite Hview.
      * rewrite lookup_insert_ne by (intros He; now apply (alloc_volume_key (v_id vol) (v_id vol))).
        now rewrite lookup_insert_eq, Hg.
      * exists vol. now rewrite lookup_insert_eq.
  - rewrite fmap_app. apply NoDup_app. split_and!; [apply Hi| |apply NoDup_singleton].
    intros x Hx ->%list_elem_of_singleton. now rewrite Hid in Hx.
  - rewrite holdings_snoc by exact (Forall2_length _ _ _ (vi_volumes _ _ _ Hi)). rewrite Hc, Hg.
    destruct thin.
    + rewrite app_nil_r, (vi_space _ _ _ Hi), (proj1 Hthin eq_refl), space_of_nil. f_equal. multiset_solver.
    + rewrite (space_alloc _ _ _ _ (vi_space _ _ _ Hi)). f_equal. multiset_solver.
Qed.

(** A creation whose arguments the first test refuses changes nothing. *)
Lemma create_args m env name size g lbs thin ftt :
  in_u 64 size -> in_u 128 g -> in_u 32 ftt -> no_nul name ->
  args_ok size g lbs ftt name \/
  xsan_volume_create env true m (Some name) size g lbs thin ftt = Some (m, XSAN_ERROR_INVALID_PARAM, None).
Proof.
  intros Hs Hg Hf Hn. unfold xsan_volume_create, uuid_is_null. cbn [negb orb].
  destruct (Z.eqb_spec size 0); [now right|]. destruct (Z.eqb_spec g 0); [now right|]. cbn [orb].
  destruct (Z.eqb_spec lbs 512), (Z.eqb_spec lbs 4096); cbn [negb andb orb]; try (now right);
    (destruct (Z.leb_spec XSAN_MAX_REPLICAS ftt); [now right|]); left; constructor; try done; try (now auto);
    destruct Hf; lia.
Qed.

Lemma create_inv m ess leaked env name size g lbs thin ftt :
  let op := OpCreate env name size g lbs thin ftt in
  vm_inv m ess leaked -> op_typed m op -> exists m', vm_step m op = Some m' /\ step_ok m leaked op m'.
Proof.
  intros op Hi (Hok & Hs & Hg & _ & Hf & Hn & Hfresh). cbn [vm_step op].
  destruct name as [name|]; [|exists m; split; [done|exact (step_ok_refl _ _ _ _ Hi)]].
  destruct (create_args m env name size g lbs thin ftt Hs Hg Hf (Hn _ eq_refl)) as [Hargs| ->];
    [|exists m; split; [done|exact (step_ok_refl _ _ _ _ Hi)]].
  destruct (create_spec env m name size g lbs thin ftt Hok Hargs (vi_unlocked _ _ _ Hi)) as (m' & e & out & -> & Hl & Hspec).
  exists m'. split; [done|]. destruct (e =? XSAN_OK); destruct Hspec as [_ Hspec].
  - destruct (created_inv env m ess leaked name g lbs thin m' Hi Hok Hfresh (ao_lbs _ _ _ _ _ Hargs) Hl Hspec) as (es & He & Ht).
    exists (ess ++ [es]), leaked. auto.
  - exists ess, leaked. destruct Hspec as (Hv & (calls & Hc & Hcase) & Hdiff & Hview). split.
    + apply (vm_inv_same m _ _ _ (ce_new_id env)); auto; [apply Hok|].
      rewrite Hc, (rolled_back_space m g calls _ (vi_space _ _ _ Hi) Hcase). now rewrite (vi_space _ _ _ Hi).
    + intros (Hd & _ & Hu) _ Ht. split; [|done].
      destruct (fresh_keys m ess leaked (ce_new_id env) Hi Ht (proj1 (eo_id _ Hok)) Hfresh) as [K1 K2].
      apply (tidy_view m); auto.
Qed.

(** ** Deletion *)

Lemma volume_ok_meta v vol es : volume_ok v vol es -> alloc_meta_wf (meta_of vol (v_group vol) es).
Proof. intros [H0 H1 H2 H3 [H4 H5] _]. apply meta_of_wf; try done. apply H0. Qed.

(** The identifiers that are left when a volume is removed. *)
Lemma delete_ids m ess leaked i vol :
  vm_inv m ess leaked -> vm_volumes m !! i = Some vol ->
  NoDup (v_id <$> delete i (vm_volumes m)) /\ v_id vol ∉ (v_id <$> delete i (vm_volumes m)) /\
  forall id, id ∈ (v_id <$> vm_volumes m) -> id = v_id vol \/ id ∈ (v_id <$> delete i (vm_volumes m)).
Proof.
  intros Hi Hv. pose proof (vi_ids _ _ _ Hi) as Hn. rewrite (delete_Permutation _ _ _ Hv) in Hn. cbn in Hn.
  apply NoDup_cons in Hn as [Hnin Hn]. split_and!; [done|done|].
  intros id Hin. rewrite (delete_Permutation _ _ _ Hv) in Hin. now apply elem_of_cons in Hin.
Qed.

(** The space after the removal, given whether the extents were read. *)
Lemma deleted_space m ess leaked i vol es (read : bool) :
  vm_inv m ess leaked -> vm_volumes m !! i = Some vol -> ess !! i = Some es ->
  space (vm_calls m ++ if read then (if decide (es = []) then [] else [DmFree (v_group vol) es]) else []) =
  Some (holdings (delete i (vm_volumes m)) (delete i ess) ⊎
        (leaked ⊎ if read then ∅ else space_of (v_group vol) es)).
Proof.
  intros Hi Hv He. pose proof (vi_space _ _ _ Hi) as Hs. rewrite (holdings_delete _ _ i vol es Hv He) in Hs.
  destruct read; [|rewrite app_nil_r, Hs; f_equal; multiset_solver].
  destruct (decide (es = [])) as [->|].
  - rewrite app_nil_r, Hs, space_of_nil. f_equal. multiset_solver.
  - apply space_free. rewrite Hs. f_equal. multiset_solver.
Qed.

Lemma delete_inv m ess leaked alloc_ok id :
  vm_inv m ess leaked -> in_u 128 id ->
  exists m', vm_step m (OpDelete alloc_ok id) = Some m' /\ step_ok m leaked (OpDelete alloc_ok id) m'.
Proof.
  intros Hi Hu. cbn [vm_step].
  destruct (Z.eq_dec id 0) as [->|Hnz]; [exists m; split; [done|exact (step_ok_refl _ _ _ _ Hi)]|].
  destruct (delete_spec alloc_ok m id Hnz (vi_unlocked _ _ _ Hi)) as (m' & e & -> & Hl & Hspec).
  exists m'. split; [done|]. destruct (list_find _ _) as [[i vol]|] eqn:Hf.
  2: { destruct Hspec as (_ & H1 & H2 & H3). exists ess, leaked. split; [apply (vm_inv_view m); congruence || done|].
       intros _ _ Ht. split; [|done]. now apply (tidy_view m). }
  apply list_find_Some in Hf as (Hv & <- & _). destruct Hspec as (_ & H1 & H2 & Hdiff & H3).
  destruct (Forall2_lookup_l _ _ _ _ _ (vi_volumes _ _ _ Hi) Hv) as (es & He & Hok).
  destruct (delete_ids m ess leaked i vol Hi Hv) as (Hn & Hnin & Hids).
  pose proof (volume_ok_meta _ _ _ Hok) as Hwf. pose proof (sd_alloc _ _ _ (vk_stored _ _ _ Hok)) as Hkey.
  set (read := if read_alloc_meta alloc_ok m (v_id vol) then true else false).
  exists (delete i ess), (leaked ⊎ if read then ∅ else space_of (v_group vol) es). split.
  - constructor; rewrite ?H1; try done.
    + apply (differ_at_volumes (v_id vol) (view m)); try done. apply Forall2_delete, Hi.
    + rewrite H2, <- (deleted_space m ess leaked i vol es read Hi Hv He). unfold read.
      destruct (read_alloc_meta_cases alloc_ok m (v_id vol) _ Hwf Hkey) as [-> | ->]; [|done].
      now rewrite frees_of_meta by apply Hok.
  - intros (Hd & Hg & _) Hop Ht. cbn in Hop. subst alloc_ok. unfold read. rewrite (read_alloc_meta_stored m _ _ Hg Hwf Hkey).
    split; [|multiset_solver]. intros k Hk Hr. rewrite H1. rewrite (H3 Hd) in Hk.
    apply lookup_delete_is_Some in Hk as [N1 Hk]. apply lookup_delete_is_Some in Hk as [N2 Hk].
    destruct (Ht k Hk Hr) as (id & Hin & Hkid). exists id. split; [|done].
    destruct (Hids id Hin) as [->|]; [|done]. destruct Hkid; congruence.
Qed.

(** A deletion that cannot read the allocation map still removes the volume and reports
    success: its extents are not given back, and when the store accepts the deletions no
    record of them is left to give them back later. *)
Theorem unread_deletion_leaks m ess leaked i vol es :
  vm_inv m ess leaked -> vm_volumes m !! i = Some vol -> ess !! i = Some es ->
  exists m', xsan_volume_delete false true m (v_id vol) = Some (m', XSAN_OK) /\
    vm_volumes m' = delete i (vm_volumes m) /\
    (deletes_succeed (St := St) ->
     view m' !! volume_key (v_id vol) = None /\ view m' !! alloc_key (v_id vol) = None) /\
    space (vm_calls m') =
      Some (holdings (vm_volumes m') (delete i ess) ⊎ (leaked ⊎ space_of (v_group vol) es)).
Proof.
  intros Hi Hv He. destruct (Forall2_lookup_l _ _ _ _ _ (vi_volumes _ _ _ Hi) Hv) as (es' & _ & Hok).
  destruct (delete_spec false m (v_id vol) (vk_id _ _ _ Hok) (vi_unlocked _ _ _ Hi)) as (m' & e & Hr & _ & Hspec).
  destruct (list_find _ _) as [[j w]|] eqn:Hf.
  2: { apply list_find_None in Hf. pose proof (Forall_lookup_1 _ _ _ _ Hf Hv) as Hn. now destruct Hn. }
  apply list_find_Some in Hf as (Hj & Hjid & _).
  assert (j = i) as ->.
  { eapply (NoDup_lookup (v_id <$> vm_volumes m)); [apply Hi|now rewrite list_lookup_fmap, Hj|].
    rewrite list_lookup_fmap, Hv. cbn. now rewrite Hjid. }
  destruct Hspec as (-> & H1 & H2 & _ & H3). exists m'.
  assert (Hread : read_alloc_meta false m (v_id vol) = None).
  { unfold read_alloc_meta. destruct (ms_get _ _) as [e [js|]]; [|done]. destruct (e =? XSAN_OK); [|done].
    cbn. now destruct (json_tokener_parse js). }
  split_and!; try done.
  - intros Hd. rewrite (H3 Hd), lookup_delete_eq, lookup_delete_ne, lookup_delete_eq; [done|].
    intros Hk. now apply (alloc_volume_key (v_id vol) (v_id vol)).
  - rewrite H2, H1, Hread. exact (deleted_space m ess leaked i vol es false Hi Hv He).
Qed.

(** ** Changes of state *)

Lemma durable_fields vol vol' :
  durable vol' = durable vol ->
  v_id vol' = v_id vol /\ v_group vol' = v_group vol /\ v_thin vol' = v_thin vol /\
  v_block_size vol' = v_block_size vol /\ v_num_blocks vol' = v_num_blocks vol.
Proof. now intros [= H1 H2 H3 H4 H5 H6 H7 H8 H9 H10 H11]. Qed.

(** What a change of a volume's state does to the store. *)
Definition saved_or_not (view view' : gmap cstring cstring) vol : Prop :=
  view' = view \/ view' = <[volume_key (v_id vol) := json_to_string (volume_to_json vol)]> view.

Lemma volume_ok_changed view view' vol vol' es :
  volume_ok view vol es -> volume_wf vol' -> durable vol' = durable vol ->
  saved_or_not view view' vol' -> volume_ok view' vol' es.
Proof.
  intros [K1 K2 K0 K3 K4 [K5 (w & K6 & K7 & K8)]] Hwf Hd Hview.
  destruct (durable_fields _ _ Hd) as (Hid & Hg & Hth & Hbs & Hnb).
  constructor; rewrite ?Hid, ?Hbs, ?Hth; try done. constructor.
  - unfold meta_of. rewrite Hid, Hg, Hbs, Hnb. destruct Hview as [-> | ->]; [done|]. rewrite Hid, lookup_insert_ne; [done|].
    intros He. now apply (alloc_volume_key (v_id vol) (v_id vol)).
  - destruct Hview as [-> | ->]; [exists w; now rewrite Hd, Hid|]. exists vol'. now rewrite lookup_insert_eq.
Qed.

(** A volume whose state changed, saved or not. *)
Lemma changed_inv m m' ess leaked op i vol vol' :
  vm_inv m ess leaked -> vm_volumes m !! i = Some vol -> volume_wf vol' -> durable vol' = durable vol ->
  vm_volumes m' = <[i := vol']> (vm_volumes m) -> vm_locked m' = false -> vm_calls m' = vm_calls m ->
  saved_or_not (view m) (view m') vol' -> step_ok m leaked op m'.
Proof.
  intros Hi Hv Hwf Hd Hvs Hl Hc Hview. destruct (durable_fields _ _ Hd) as (Hid & Hg & _).
  assert (Hids : v_id <$> vm_volumes m' = v_id <$> vm_volumes m).
  { rewrite Hvs, list_fmap_insert, Hid. apply list_insert_id. now rewrite list_lookup_fmap, Hv. }
  assert (Hvin : v_id vol ∈ (v_id <$> vm_volumes m)) by (eapply list_elem_of_fmap_2, list_elem_of_lookup_2, Hv).
  assert (Hdiff : differ_at (v_id vol) (view m) (view m')).
  { intros k H1 _. destruct Hview as [-> | ->]; [done|]. now rewrite Hid, lookup_insert_ne by done. }
  exists ess, leaked. split.
  2: { intros _ _ Ht. split; [|done]. apply (tidy_differ m _ (v_id vol) Ht Hdiff); now rewrite Hids. }
  constructor; rewrite ?Hids, ?Hc; try done; [|apply Hi|].
  - rewrite Hvs. pose proof (vi_volumes _ _ _ Hi) as Hfa. apply Forall2_same_length_lookup.
    split; [rewrite length_insert; exact (Forall2_length _ _ _ Hfa)|].
    intros j v es Hj1 Hj2. destruct (decide (i = j)) as [<-|Hij].
    + rewrite list_lookup_insert_eq in Hj1 by (eapply lookup_lt_Some, Hv). injection Hj1 as <-.
      eapply volume_ok_changed; [exact (Forall2_lookup_lr _ _ _ _ _ _ Hfa Hv Hj2)|done..].
    + rewrite list_lookup_insert_ne in Hj1 by done.
      apply (differ_at_other (v_id vol) (view m)); [done| | |exact (Forall2_lookup_lr _ _ _ _ _ _ Hfa Hj1 Hj2)].
      { exact (vm_inv_id _ _ _ _ Hi Hvin). }
      intros He. apply Hij. eapply (NoDup_lookup (v_id <$> vm_volumes m)); [apply Hi|now rewrite list_lookup_fmap, Hv|].
      rewrite list_lookup_fmap, Hj1. cbn. now rewrite He.
  - rewrite Hvs, (holdings_insert _ _ _ vol) by done. apply Hi.
Qed.

Lemma with_state_wf vol st : volume_wf vol -> 0 <= st < 2 ^ 31 -> volume_wf (with_state vol st).
Proof. intros [] Hst. now constructor. Qed.

Lemma overall_state_range vol : 0 <= overall_state vol < 2 ^ 31.
Proof. unfold overall_state. destruct (_ <=? _); [|destruct (_ <? _)]; now vm_compute. Qed.

Lemma array_alter {A} (f : A -> A) n z l (j : nat) :
  (j < length l <= n)%nat -> alter f j (array n z l) = array n z (alter f j l).
Proof. intros H. unfold array. rewrite <- alter_app_l by lia. now rewrite take_alter_lt by lia. Qed.

Lemma fmap_alter_same {A B} (h : A -> B) (f : A -> A) (j : nat) (l : list A) :
  (forall x, h (f x) = h x) -> h <$> alter f j l = h <$> l.
Proof.
  intros Hf. revert j. induction l as [|x l IH]; intros [|j]; cbn; try done; [now rewrite Hf|].
  f_equal. apply IH.
Qed.

Lemma update_replica_wf vol j st contact :
  volume_wf vol -> (j < Z.to_nat (v_replica_count vol))%nat -> 0 <= st < 2 ^ 31 ->
  (forall c, contact = Some c -> in_u 64 c) ->
  volume_wf (update_replica j st contact vol) /\ durable (update_replica j st contact vol) = durable vol.
Proof.
  intros [W1 W2 W3 W4 W5 W6 W7 W8 W9 (l & Hc & Hl & Ha & Hr)] Hj Hst Hcon. split.
  - constructor; try done. unfold Zlen, XSAN_MAX_REPLICAS in *. cbn. exists (alter (set_replica_state st contact) j l).
    unfold Zlen. rewrite length_alter. split_and!; try done.
    + rewrite Ha. apply array_alter. lia.
    + apply Forall_alter; [done|]. intros r _ (R1 & R2 & R3 & R4 & R5 & R6). split_and!; try done; try apply Hst.
      cbn. destruct contact; [now apply Hcon|done].
  - unfold durable. cbn. now rewrite fmap_alter_same.
Qed.

Lemma find_replica_bound vol node j :
  find_replica vol node = Some j -> (j < Z.to_nat (v_replica_count vol))%nat.
Proof.
  unfold find_replica. intros ([k x] & Hf & ->)%fmap_Some. apply list_find_Some in Hf as [Hf _].
  apply lookup_lt_Some in Hf. rewrite length_imap, length_take in Hf. cbn. lia.
Qed.

Lemma mark_volume_wf node st contact vol :
  volume_wf vol -> 0 <= st < 2 ^ 31 -> (forall c, contact = Some c -> in_u 64 c) ->
  volume_wf (mark_volume node st contact vol) /\ durable (mark_volume node st contact vol) = durable vol.
Proof.
  intros Hwf Hst Hc. unfold mark_volume. destruct node as [node|].
  - destruct (find_replica vol node) as [j|] eqn:Hf; [|done].
    apply update_replica_wf; try done. exact (find_replica_bound _ _ _ Hf).
  - destruct (Z.ltb_spec 0 (v_replica_count vol)); [|done]. apply update_replica_wf; try done. lia.
Qed.

Lemma alter_insert_lookup {A} (f : A -> A) (i : nat) (l : list A) :
  alter f i l = match l !! i with Some x => <[i := f x]> l | None => l end.
Proof.
  revert i. induction l as [|x l IH]; intros [|i]; cbn; try done. rewrite IH. now destruct (l !! i).
Qed.

Lemma mark_inv m ess leaked i node st contact :
  let op := OpMark i node st contact in
  vm_inv m ess leaked -> op_typed m op -> exists m', vm_step m op = Some m' /\ step_ok m leaked op m'.
Proof.
  intros op Hi [Hst Hc]. eexists. split; [reflexivity|]. rewrite alter_insert_lookup.
  destruct (vm_volumes m !! i) as [vol|] eqn:Hv.
  2: { exists ess, leaked. split; [apply (vm_inv_view m); try done; apply Hi|]. intros _ _ Ht. now split. }
  destruct (mark_volume_wf node st contact vol) as [Hwf Hd]; [|done|done|].
  { exact (Forall_lookup_1 _ _ _ _ (vm_inv_wf _ _ _ Hi) Hv). }
  eapply changed_inv; try done; [apply Hi|now left].
Qed.

Lemma update_inv m ess leaked dup_ok i :
  let op := OpUpdate dup_ok i in
  vm_inv m ess leaked -> exists m', vm_step m op = Some m' /\ step_ok m leaked op m'.
Proof.
  intros op Hi. cbn [vm_step op]. unfold volume_update_overall_state.
  destruct (vm_volumes m !! i) as [vol|] eqn:Hv; [|exists m; split; [done|exact (step_ok_refl _ _ _ _ Hi)]].
  unfold lock. rewrite (vi_unlocked _ _ _ Hi). cbn [mbind option_bind]. cbn [vm_volumes set_locked].
  pose proof (Forall_lookup_1 _ _ _ _ (vm_inv_wf _ _ _ Hi) Hv) as Hwf.
  pose proof (with_state_wf vol _ Hwf (overall_state_range vol)) as Hwf'.
  set (vol' := with_state vol (overall_state vol)) in *. set (m1 := unlock _).
  destruct (v_state vol' =? v_state vol).
  - exists m1. split; [done|]. eapply changed_inv; try done. now left.
  - pose proof (save_volume_meta_spec dup_ok m1 vol') as Hs.
    destruct (save_volume_meta dup_ok m1 vol') as [m2 e]. destruct Hs as (H1 & H2 & H3 & _ & H4).
    exists m2. split; [done|]. eapply changed_inv; try done. unfold saved_or_not.
    destruct (e =? XSAN_OK); [now right|apply H4].
Qed.

(** ** Every step *)

Lemma vm_step_inv m ess leaked op :
  vm_inv m ess leaked -> op_typed m op -> exists m', vm_step m op = Some m' /\ step_ok m leaked op m'.
Proof.
  intros Hi Ht. destruct op.
  - now apply (create_inv m ess leaked).
  - now apply (delete_inv m ess leaked).
  - now apply (mark_inv m ess leaked).
  - now apply (update_inv m ess leaked).
Qed.

Lemma vm_reach_inv m0 ops m :
  vm_start m0 -> vm_reach m0 ops m ->
  exists ess leaked, vm_inv m ess leaked /\ (store_healthy -> Forall op_reads ops -> tidy m /\ leaked = ∅).
Proof.
  intros Hs Hr. induction Hr as [|m ops op m' _ (ess & leaked & Hi & IH) Ht Hstep].
  - destruct (vm_start_inv m0 Hs). exists [], ∅. auto.
  - destruct (vm_step_inv m ess leaked op Hi Ht) as (m2 & He & ess' & leaked' & Hi' & Hh).
    assert (m2 = m') as -> by congruence. exists ess', leaked'. split; [done|].
    intros Hst [Hops Hop]%Forall_app. destruct (IH Hst Hops) as [Htidy ->].
    apply Hh; [done| |done]. exact (Forall_inv Hop).
Qed.

(** ** Reachable states *)

(** C8: whatever the history, and whatever fails in the store or for lack of memory,
    every managed volume is well typed: each field is in the
    range of its C type, strings are terminated within their buffers, the replica count is
    the number of replicas the array holds, the identifiers are distinct and not null and
    the block size is one of the two supported.  The lock is free, and every operation
    with arguments of their C types and a new identifier for a new volume returns, to a
    state of the same kind. *)
Theorem volumes_well_typed m0 ops m :
  vm_start m0 -> vm_reach m0 ops m ->
  Forall volume_wf (vm_volumes m) /\ NoDup (v_id <$> vm_volumes m) /\
  Forall (fun vol => v_id vol <> 0 /\ (v_block_size vol = 512 \/ v_block_size vol = 4096)) (vm_volumes m) /\
  vm_locked m = false /\
  forall op, op_typed m op -> exists m', vm_step m op = Some m' /\ Forall volume_wf (vm_volumes m').
Proof.
  intros Hs Hr. destruct (vm_reach_inv m0 ops m Hs Hr) as (ess & leaked & Hi & _).
  split_and!; [eapply vm_inv_wf, Hi|apply Hi| |apply Hi|].
  - apply Forall_lookup. intros i vol Hv. destruct (Forall2_lookup_l _ _ _ _ _ (vi_volumes _ _ _ Hi) Hv) as (es & _ & Hok).
    split; apply Hok.
  - intros op Ht. destruct (vm_step_inv m ess leaked op Hi Ht) as (m' & H1 & ess' & leaked' & H2 & _).
    exists m'. split; [done|]. eapply vm_inv_wf, H2.
Qed.

(** What the store holds for a volume: a record that is parsed to the volume, up to the
    states and contacts, and an allocation map that is parsed to the extents [es]. *)
Definition backed m vol (es : list xsan_volume_extent_mapping) : Prop :=
  (exists js vol', view m !! volume_key (v_id vol) = Some js /\
     json_string_to_volume true (Some js) = (XSAN_OK, Some vol') /\ durable vol' = durable vol) /\
  (exists js, view m !! alloc_key (v_id vol) = Some js /\
     json_string_to_volume_allocation_meta true (Some js) =
       (XSAN_OK, Some (meta_of vol (v_group vol) es))) /\
  (v_thin vol = true <-> es = []).

Lemma volume_ok_backed m vol es : volume_ok (view m) vol es -> backed m vol es.
Proof.
  intros Hok. pose proof (volume_ok_meta _ _ _ Hok) as Hwf.
  destruct Hok as [H0 H1 H2 H3 [H4 H5] [H6 (vol' & H7 & H8 & H9)]]. split_and!; [|..|done].
  - eexists _, vol'. split; [exact H9|]. split; [|done].
    unfold json_string_to_volume. rewrite json_parse_print by now apply volume_json_ok.
    now rewrite json_to_volume_to_json.
  - eexists. split; [exact H6|]. unfold json_string_to_volume_allocation_meta.
    rewrite json_parse_print by apply alloc_meta_json_ok. now rewrite json_to_alloc_meta_to_json.
Qed.

(** C1: whatever the history of creations, deletions and state changes, and whatever of
    them fails in the store or for lack of memory, the store holds for each managed volume
    a record with everything but states and contacts as it is in memory and an allocation
    map with its extents, and the space that was handed out and not given back is the
    extents of the volumes and some [leaked] extents: nothing is given back twice, and no
    extent of a volume is given back.  If the deletions and reads of the store succeed, its
    failed writes have not happened and no deletion runs out of memory while reading the
    allocation map, then nothing has leaked and the store holds no other volume record;
    without these conditions a deletion may leak ([unread_deletion_leaks]) or leave its
    records behind. *)
Theorem store_mirrors_volumes m0 ops m :
  vm_start m0 -> vm_reach m0 ops m ->
  exists ess leaked, Forall2 (backed m) (vm_volumes m) ess /\
    space (vm_calls m) = Some (holdings (vm_volumes m) ess ⊎ leaked) /\
    (store_healthy -> Forall op_reads ops ->
     leaked = ∅ /\
     forall k, record_key k -> is_Some (view m !! k) ->
       exists vol, vol ∈ vm_volumes m /\ (k = volume_key (v_id vol) \/ k = alloc_key (v_id vol))).
Proof.
  intros Hs Hr. destruct (vm_reach_inv m0 ops m Hs Hr) as (ess & leaked & Hi & Hh).
  exists ess, leaked. split_and!; [|apply Hi|].
  - eapply Forall2_impl; [apply Hi|]. intros vol es. apply volume_ok_backed.
  - intros Hst Hops. destruct (Hh Hst Hops) as [Ht ->]. split; [done|].
    intros k H1 H2. destruct (Ht k H2 H1) as (id & (vol & -> & Hin)%list_elem_of_fmap & Hk). eauto.
Qed.

End History.

(** ** A history *)

#[local] Instance toy_store : MetaStore mem_db := rocksdb_meta_store (fun _ => true).

(** Two volumes; the first is marked, updated, and the second deleted. *)
Definition second_env : create_env :=
  CreateEnv true true true true true true 8 1 true
    (NodeConfig (uuid_fmt 5) $"10.0.0.1" 8080) (Cluster [] true).

Definition create_op (env : create_env) (name : cstring) : vm_op := OpCreate env (Some name) 10000 9 512 false 1.

Definition two_ops : list vm_op := [create_op sample_env $"data"; create_op second_env $"logs"].
Definition sample_ops : list vm_op := two_ops ++ [OpMark 0 None XSAN_STORAGE_STATE_FAILED None; OpUpdate true 0; OpDelete true 8].

Definition sample_reached (ops : list vm_op) : xsan_volume_manager mem_db Z := default sample_vm (vm_run sample_vm ops).

Lemma sample_start : vm_start sample_vm.
Proof. now split_and!. Qed.

Lemma create_op_typed (m : xsan_volume_manager mem_db Z) env name :
  env_ok env -> no_nul name -> ce_new_id env ∉ (v_id <$> vm_volumes m) -> op_typed m (create_op env name).
Proof.
  intros He Hn Hf. split_and!; try done. now intros s [= <-].
Qed.

Lemma second_env_ok : env_ok second_env.
Proof.
  constructor.
  - split; [split|]; vm_compute; congruence.
  - split; vm_compute; congruence.
  - repeat constructor; vm_compute; congruence.
  - split; vm_compute; congruence.
  - constructor.
Qed.

(** The state after the first [n] operations of [ops]. *)
Lemma reached_step ops n op :
  ops !! n = Some op -> vm_reach sample_vm (take n ops) (sample_reached (take n ops)) ->
  op_typed (sample_reached (take n ops)) op ->
  vm_step (sample_reached (take n ops)) op = Some (sample_reached (take (S n) ops)) ->
  vm_reach sample_vm (take (S n) ops) (sample_reached (take (S n) ops)).
Proof. intros Hop. rewrite (take_S_r _ _ _ Hop) at 2. apply vm_reach_step. Qed.

Lemma two_reached : vm_reach sample_vm two_ops (sample_reached two_ops).
Proof.
  apply (reached_step two_ops 1 (create_op second_env $"logs")); [done| |apply create_op_typed|now vm_compute].
  - apply (reached_step two_ops 0 (create_op sample_env $"data")); [done|apply vm_reach_start|apply create_op_typed|now vm_compute].
    + apply sample_env_ok.
    + repeat constructor; vm_compute; congruence.
    + apply not_elem_of_nil.
  - apply second_env_ok.
  - repeat constructor; vm_compute; congruence.
  - assert (v_id <$> vm_volumes (sample_reached (take 1 two_ops)) = [7]) as -> by now vm_compute.
    intros Hin%list_elem_of_singleton. discriminate.
Qed.

Lemma sample_ops_reached : vm_reach sample_vm sample_ops (sample_reached sample_ops).
Proof.
  apply (reached_step sample_ops 4 (OpDelete true 8)); [done| |split; vm_compute; congruence|now vm_compute].
  apply (reached_step sample_ops 3 (OpUpdate true 0)); [done| |done|now vm_compute].
  apply (reached_step sample_ops 2 (OpMark 0 None XSAN_STORAGE_STATE_FAILED None)); [done| |split; [split; vm_compute; congruence|done]|now vm_compute].
  exact two_reached.
Qed.

Lemma toy_store_healthy : store_healthy (St := mem_db).
Proof.
  split_and!; [apply toy_deletes_succeed|apply toy_gets_succeed|].
  intros [m []] [|c k] v s' e; cbn; rewrite ?(proj2 (Z.eqb_neq (Zlen (c :: k)) 0)) by (rewrite Zlen_cons; pose proof (Zlen_nonneg k); lia);
    now intros [= <- <-].
Qed.

Lemma volumes_well_typed_witness :
  v_id <$> vm_volumes (sample_reached sample_ops) = [7] /\ Forall volume_wf (vm_volumes (sample_reached sample_ops)).
Proof.
  split; [now vm_compute|].
  exact (proj1 (volumes_well_typed sample_vm sample_ops (sample_reached sample_ops) sample_start sample_ops_reached)).
Defined.

Lemma store_mirrors_volumes_witness :
  length (vm_calls (sample_reached sample_ops)) = 3%nat /\
  exists ess, space (vm_calls (sample_reached sample_ops)) = Some (holdings (vm_volumes (sample_reached sample_ops)) ess ⊎ ∅).
Proof.
  split; [now vm_compute|].
  destruct (store_mirrors_volumes sample_vm sample_ops (sample_reached sample_ops)
    sample_start sample_ops_reached) as (ess & leaked & _ & H & Hh).
  destruct (Hh toy_store_healthy) as [He _]; [repeat constructor|].
  exists ess. rewrite He in H. exact H.
Defined.
