(* ===== verification/VolumeIsolation.v ===== *)
(** * Isolation of volumes ([src/src/storage/volume_manager.c])

    The composition of the volume manager's histories with its block addressing: in every
    state that a history reaches, whatever failed in it, blocks of different volumes lie on
    disjoint bytes of the disks, and so do different blocks of one volume where the block
    size of the disk divides that of the volume.  The disk manager is relied on to hand out
    only space that is not handed out already; that the extents of a volume are not freed
    while it exists is what the volume manager contributes. *)

From stdpp Require Import gmultiset prelude list strings gmap.
From Stdlib Require Import ZArith Lia Ascii.
From S2P Require Import Prelude Errors StringUtils Json VolumeMeta MetadataStore Cluster Volume.
From S2P Require Import Io VolumeIo Replication VolumeHistory.

(** ** Space that is handed out *)

(** The extents share a block of a disk. *)
Definition overlap (e1 e2 : xsan_volume_extent_mapping) : Prop :=
  e_disk e1 = e_disk e2 /\ e_start e1 < e_start e2 + e_blocks e2 /\ e_start e2 < e_start e1 + e_blocks e1.

(** No two of the extents handed out overlap. *)
Definition separated (s : gmultiset (uuid * xsan_volume_extent_mapping)) : Prop :=
  forall x y, {[+ x; y +]} ⊆ s -> ~ overlap x.2 y.2.

(** An allocation returns extents that overlap neither what is handed out nor each other. *)
Definition fresh_extents (s : gmultiset (uuid * xsan_volume_extent_mapping))
    (es : list xsan_volume_extent_mapping) : Prop :=
  (forall x e, x ∈ s -> e ∈ es -> ~ overlap x.2 e) /\
  (forall i j e1 e2, i <> j -> es !! i = Some e1 -> es !! j = Some e2 -> ~ overlap e1 e2).

(** Every allocation of a sequence of calls does. *)
Definition sound_allocations (calls : list dm_call) : Prop :=
  forall before g es after s,
    calls = before ++ DmAllocate g es :: after -> space before = Some s -> fresh_extents s es.

Lemma overlap_sym e1 e2 : overlap e1 e2 -> overlap e2 e1.
Proof. unfold overlap. intros (? & ? & ?). now split_and!. Qed.

Lemma pair_sub_union {A} `{Countable A} (x y : A) (s t : gmultiset A) :
  {[+ x; y +]} ⊆ s ⊎ t ->
  {[+ x; y +]} ⊆ s \/ {[+ x; y +]} ⊆ t \/ x ∈ s /\ y ∈ t \/ y ∈ s /\ x ∈ t.
Proof.
  intros Hsub. destruct (decide (x = y)) as [->|Hne].
  - assert (2 <= multiplicity y s + multiplicity y t)%nat by multiset_solver.
    destruct (decide (2 <= multiplicity y s)%nat); [left; multiset_solver|].
    destruct (decide (2 <= multiplicity y t)%nat); [right; left; multiset_solver|].
    right; right; left. split; multiset_solver.
  - assert (x ∈ s \/ x ∈ t) as [Hx|Hx] by multiset_solver;
      assert (y ∈ s \/ y ∈ t) as [Hy|Hy] by multiset_solver; auto;
      [left|right; left]; multiset_solver.
Qed.

Lemma pair_sub_split {A} `{Countable A} (x y : A) (s t : gmultiset A) :
  x ∈ s -> y ∈ t -> {[+ x; y +]} ⊆ s ⊎ t /\ {[+ y; x +]} ⊆ s ⊎ t.
Proof. intros Hx Hy. split; multiset_solver. Qed.

Lemma pair_sub_positions {A} `{Countable A} (x y : A) (l : list A) :
  {[+ x; y +]} ⊆ (list_to_set_disj l : gmultiset A) <->
  exists i j, i <> j /\ l !! i = Some x /\ l !! j = Some y.
Proof.
  revert x y. induction l as [|z l IH]; intros x y; cbn [list_to_set_disj].
  { split; [multiset_solver|]. intros (i & j & _ & Hi & _). now rewrite lookup_nil in Hi. }
  split.
  - intros [Hs|[Hs|[[Hx Hy]|[Hy Hx]]]]%pair_sub_union.
    + apply gmultiset_subseteq_size in Hs. rewrite gmultiset_size_disj_union, !gmultiset_size_singleton in Hs. lia.
    + apply IH in Hs as (i & j & Hij & Hi & Hj). exists (S i), (S j). split_and!; [lia|done|done].
    + apply gmultiset_elem_of_singleton in Hx as ->.
      apply elem_of_list_to_set_disj, list_elem_of_lookup in Hy as [j Hj]. now exists 0%nat, (S j).
    + apply gmultiset_elem_of_singleton in Hy as ->.
      apply elem_of_list_to_set_disj, list_elem_of_lookup in Hx as [i Hi]. now exists (S i), 0%nat.
  - intros (i & j & Hij & Hi & Hj). destruct i as [|i], j as [|j]; try done; cbn in Hi, Hj.
    + injection Hi as ->. apply list_elem_of_lookup_2, elem_of_list_to_set_disj in Hj. multiset_solver.
    + injection Hj as ->. apply list_elem_of_lookup_2, elem_of_list_to_set_disj in Hi. multiset_solver.
    + assert ({[+ x; y +]} ⊆ (list_to_set_disj l : gmultiset A)); [|multiset_solver].
      apply IH. exists i, j. split_and!; [congruence|done|done].
Qed.

Lemma elem_of_space_of g es x : x ∈ space_of g es <-> exists e, e ∈ es /\ x = (g, e).
Proof. unfold space_of. rewrite elem_of_list_to_set_disj, list_elem_of_fmap. naive_solver. Qed.

Lemma separated_alloc s g es : separated s -> fresh_extents s es -> separated (s ⊎ space_of g es).
Proof.
  intros Hs [H1 H2] x y [Hxy|[Hxy|[[Hx Hy]|[Hy Hx]]]]%pair_sub_union; [now apply Hs|..].
  - unfold space_of in Hxy. apply pair_sub_positions in Hxy as (i & j & Hij & Hi & Hj).
    rewrite list_lookup_fmap in Hi, Hj. apply fmap_Some in Hi as (e1 & Hi & ->), Hj as (e2 & Hj & ->).
    exact (H2 i j e1 e2 Hij Hi Hj).
  - apply elem_of_space_of in Hy as (e & He & ->). exact (H1 x e Hx He).
  - apply elem_of_space_of in Hx as (e & He & ->). intros Ho%overlap_sym. exact (H1 y e Hy He Ho).
Qed.

(** With sound allocations, what is handed out never overlaps. *)
Lemma space_separated calls s : sound_allocations calls -> space calls = Some s -> separated s.
Proof.
  revert s. induction calls as [|c calls IH] using rev_ind; intros s Hsound Hs.
  { injection Hs as <-. intros x y Hxy. multiset_solver. }
  rewrite space_snoc in Hs. destruct (space calls) as [s0|] eqn:H0; [|now destruct c].
  assert (Hsep : separated s0).
  { apply IH; [|done]. intros before g es after s' -> Hb. apply (Hsound before g es (after ++ [c]) s'); [|done].
    now rewrite <- app_assoc. }
  destruct c as [g es|g es]; cbn in Hs.
  - injection Hs as <-. apply separated_alloc; [done|]. exact (Hsound calls g es [] s0 eq_refl H0).
  - destruct (decide _) as [Hsub|]; [|done]. injection Hs as <-. intros x y Hxy. apply Hsep. multiset_solver.
Qed.

Lemma holdings_elem vols ess i k vol es e :
  vols !! i = Some vol -> ess !! i = Some es -> es !! k = Some e -> (v_group vol, e) ∈ holdings vols ess.
Proof.
  revert ess i. induction vols as [|v vols IH]; intros [|x ess] [|i] Hv He Hk; try done;
    cbn [holdings]; apply gmultiset_elem_of_disj_union.
  - injection Hv as ->. injection He as ->. left. apply elem_of_space_of. exists e. split; [|done].
    eapply list_elem_of_lookup_2, Hk.
  - right. exact (IH ess i Hv He Hk).
Qed.

(** Extents at different places of the volumes are different parts of the holdings. *)
Lemma holdings_pair vols ess i j k l vol1 vol2 es1 es2 e1 e2 :
  vols !! i = Some vol1 -> ess !! i = Some es1 -> es1 !! k = Some e1 ->
  vols !! j = Some vol2 -> ess !! j = Some es2 -> es2 !! l = Some e2 -> (i, k) <> (j, l) ->
  {[+ (v_group vol1, e1); (v_group vol2, e2) +]} ⊆ holdings vols ess.
Proof.
  revert ess i j. induction vols as [|v vols IH]; intros [|x ess] [|i] [|j] Hv1 He1 Hk1 Hv2 He2 Hk2 Hne;
    try done; cbn [holdings]; cbn in Hv1, He1, Hv2, He2.
  - injection Hv1 as ->. injection He1 as ->. injection Hv2 as ->. injection He2 as ->.
    trans (space_of (v_group vol2) es2); [|apply gmultiset_disj_union_subseteq_l].
    apply pair_sub_positions. exists k, l. rewrite !list_lookup_fmap, Hk1, Hk2. split_and!; congruence || done.
  - injection Hv1 as ->. injection He1 as ->. pose proof (holdings_elem vols ess j l vol2 es2 e2 Hv2 He2 Hk2).
    apply list_elem_of_lookup_2 in Hk1.
    refine (proj1 (pair_sub_split (v_group vol1, e1) (v_group vol2, e2) _ _ _ _)); [apply elem_of_space_of; eauto|done].
  - injection Hv2 as ->. injection He2 as ->. pose proof (holdings_elem vols ess i k vol1 es1 e1 Hv1 He1 Hk1).
    apply list_elem_of_lookup_2 in Hk2.
    refine (proj2 (pair_sub_split (v_group vol2, e2) (v_group vol1, e1) _ _ _ _)); [apply elem_of_space_of; eauto|done].
  - trans (holdings vols ess); [|apply gmultiset_disj_union_subseteq_r].
    apply (IH ess i j); try done. congruence.
Qed.

Section Isolation.
Context {JC : JsonC} {SU : SpdkUuid} {SC : StorageCodes}.
Context {St : Type} {MS : MetaStore St} {DM : Type} {DK : DiskManager DM}.
Variable get_by_id : xsan_volume_manager St DM -> uuid -> option xsan_volume.
Implicit Types (m : xsan_volume_manager St DM) (vol : xsan_volume).

(** ** The location of a block *)

(** The lookup finds the managed volumes. *)
Definition lookup_finds m : Prop :=
  forall vol, vol ∈ vm_volumes m -> get_by_id m (v_id vol) = Some vol.

(** The extents of the volumes lie on disks that the disk manager knows, and their sizes do
    not overflow 64 bits. *)
Definition extents_on_disks m : Prop :=
  forall vol es e, vol ∈ vm_volumes m -> backed m vol es -> e ∈ es ->
    exists disk, extent_fits (vm_dm m) (v_block_size vol) e disk.

(** A translation that succeeds has read the stored map of the volume. *)
Lemma mapped_reads m vol es alloc_ok lba d p bs :
  lookup_finds m -> vol ∈ vm_volumes m -> volume_ok (view m) vol es ->
  xsan_volume_map_lba_to_physical get_by_id true alloc_ok m (v_id vol) lba = Mapped d p bs ->
  es <> [] /\ map_extents (vm_dm m) (v_block_size vol) lba (Zlen es) es = Mapped d p bs.
Proof.
  intros Hfind Hin Hok. pose proof (volume_ok_meta _ _ _ Hok) as Hwf.
  destruct Hok as [H0 H1 H2 H3 [H4 H5] [H6 _]].
  unfold xsan_volume_map_lba_to_physical. rewrite (Hfind vol Hin). destruct (_ || _); [done|].
  destruct (_ <=? _); [done|]. destruct (ms_get _ _) as [e js] eqn:Hg.
  destruct (Z.eqb_spec e XSAN_OK) as [->|He]; cbn [negb]; [|done].
  apply ms_get_ok in Hg as [-> _]. unfold view in H6. rewrite H6.
  unfold json_string_to_volume_allocation_meta. rewrite json_parse_print by apply alloc_meta_json_ok.
  destruct alloc_ok; [|done]. rewrite json_to_alloc_meta_to_json by done.
  cbn [am_block_size am_num_extents am_extents meta_of]. rewrite Z.eqb_refl. cbn [negb].
  destruct (v_block_size vol =? 0); [done|]. destruct (Z.eqb_spec (Zlen es) 0) as [Hz|Hz]; [done|].
  unfold Zlen, XSAN_MAX_EXTENTS_PER_VOLUME in *. unfold array. rewrite take_app_ge by lia.
  fold (Zlen es). rewrite map_extents_app. intros Hm. split; [|done]. now intros ->.
Qed.

(** A translated block of a volume lies in one of the volume's extents. *)
Lemma mapped_in_extent m vol es alloc_ok lba d p bs :
  lookup_finds m -> extents_on_disks m -> vol ∈ vm_volumes m -> volume_ok (view m) vol es ->
  xsan_volume_map_lba_to_physical get_by_id true alloc_ok m (v_id vol) lba = Mapped d p bs ->
  exists k e disk, es !! k = Some e /\ extent_fits (vm_dm m) (v_block_size vol) e disk /\
    d = e_disk e /\ bs = d_block_size disk /\ located (v_block_size vol) lba e p bs.
Proof.
  intros Hfind Hdisks Hin Hok Hmap. destruct (mapped_reads _ _ _ _ _ _ _ _ Hfind Hin Hok Hmap) as [Hes Hm].
  assert (Hfits : Forall (fun e => exists disk, extent_fits (vm_dm m) (v_block_size vol) e disk) es).
  { apply Forall_lookup. intros i e He. apply (Hdisks vol es e Hin (volume_ok_backed m vol es Hok)).
    eapply list_elem_of_lookup_2, He. }
  assert (Hl : 0 < v_block_size vol) by (destruct (vk_block _ _ _ Hok); lia).
  pose proof (map_extents_spec (vm_dm m) _ lba es Hl Hfits) as Hspec. rewrite Hm in Hspec.
  destruct Hspec as (k & e & disk & H1 & H2 & H3 & H4 & _ & H5). now exists k, e, disk.
Qed.

(** Blocks of extents that do not overlap, or different blocks of one extent whose disk
    blocks divide them, are disjoint. *)
Lemma located_disjoint lbs1 lbs2 lba1 lba2 e1 e2 p1 p2 bs :
  0 < bs -> 0 < lbs1 -> 0 < lbs2 -> e_disk e1 = e_disk e2 ->
  located lbs1 lba1 e1 p1 bs -> located lbs2 lba2 e2 p2 bs ->
  ~ overlap e1 e2 \/ e1 = e2 /\ lbs1 = lbs2 /\ lba1 <> lba2 /\ (bs | lbs1) ->
  p1 * bs + lbs1 <= p2 * bs \/ p2 * bs + lbs2 <= p1 * bs.
Proof.
  intros Hbs Hl1 Hl2 Hd L1 L2 [Hno|(-> & -> & Hne & Hdiv)].
  - destruct L1 as (A1 & A2 & A3), L2 as (B1 & B2 & B3).
    assert (e_start e1 + e_blocks e1 <= e_start e2 \/ e_start e2 + e_blocks e2 <= e_start e1) as [H|H]; [|nia..].
    destruct (Z.le_gt_cases (e_start e1 + e_blocks e1) (e_start e2)); [now left|].
    destruct (Z.le_gt_cases (e_start e2 + e_blocks e2) (e_start e1)); [now right|].
    exfalso. apply Hno. split_and!; [done|lia|lia].
  - rewrite (located_exact _ _ _ _ _ Hbs Hdiv L1), (located_exact _ _ _ _ _ Hbs Hdiv L2).
    unfold block_start. nia.
Qed.

(** C2: volumes are isolated from each other.  Whatever the history of creations, deletions
    and state changes, and whatever of them failed in the store or for lack of memory, if
    blocks of two volumes are translated to the same disk, they are translated to disjoint
    byte ranges; and so are two different blocks of one volume if the block size of the disk
    divides that of the volume (the code rounds down otherwise, so that neighbouring blocks
    may share a disk block).  This relies on four things of code that is not in the sources:
    the lookup finds the managed volumes, the disk manager knows the disks of the extents,
    their sizes do not overflow 64 bits, and each of its allocations returned space that was
    not handed out at that time. *)
Theorem volumes_isolated m0 ops m vol1 vol2 ok1 ok2 lba1 lba2 d p1 p2 bs1 bs2 :
  vm_start m0 -> vm_reach m0 ops m -> sound_allocations (vm_calls m) ->
  lookup_finds m -> extents_on_disks m -> vol1 ∈ vm_volumes m -> vol2 ∈ vm_volumes m ->
  xsan_volume_map_lba_to_physical get_by_id true ok1 m (v_id vol1) lba1 = Mapped d p1 bs1 ->
  xsan_volume_map_lba_to_physical get_by_id true ok2 m (v_id vol2) lba2 = Mapped d p2 bs2 ->
  v_id vol1 <> v_id vol2 \/ lba1 <> lba2 /\ (bs1 | v_block_size vol1) ->
  bs1 = bs2 /\
  (p1 * bs1 + v_block_size vol1 <= p2 * bs2 \/ p2 * bs2 + v_block_size vol2 <= p1 * bs1).
Proof.
  intros Hs Hr Hsound Hfind Hdisks Hin1 Hin2 M1 M2 Hne.
  destruct (vm_reach_inv m0 ops m Hs Hr) as (ess & leaked & Hi & _).
  pose proof (space_separated _ _ Hsound (vi_space _ _ _ Hi)) as Hsep.
  destruct (proj1 (list_elem_of_lookup _ _) Hin1) as [i Hv1].
  destruct (proj1 (list_elem_of_lookup _ _) Hin2) as [j Hv2].
  destruct (Forall2_lookup_l _ _ _ _ _ (vi_volumes _ _ _ Hi) Hv1) as (es1 & He1 & Hok1).
  destruct (Forall2_lookup_l _ _ _ _ _ (vi_volumes _ _ _ Hi) Hv2) as (es2 & He2 & Hok2).
  destruct (mapped_in_extent m vol1 es1 ok1 lba1 d p1 bs1) as (k & e1 & k1 & K1 & F1 & D1 & -> & L1); try done.
  destruct (mapped_in_extent m vol2 es2 ok2 lba2 d p2 bs2) as (l & e2 & k2 & K2 & F2 & D2 & -> & L2); try done.
  assert (k2 = k1) as ->.
  { pose proof (ef_disk _ _ _ _ F1). pose proof (ef_disk _ _ _ _ F2). congruence. }
  split; [done|]. pose proof (vk_block _ _ _ Hok1). pose proof (vk_block _ _ _ Hok2).
  apply (located_disjoint _ _ lba1 lba2 e1 e2); try done; [exact (ef_bs _ _ _ _ F1)|lia|lia|congruence|].
  destruct (decide ((i, k) = (j, l))) as [[= -> ->]|Hpos].
  - right. assert (vol2 = vol1) as -> by congruence. assert (es2 = es1) as -> by congruence.
    destruct Hne as [Hne|[Hne Hdiv]]; [done|]. split_and!; [congruence|done|done|done].
  - left. apply (Hsep (v_group vol1, e1) (v_group vol2, e2)). trans (holdings (vm_volumes m) ess); [|apply gmultiset_disj_union_subseteq_l].
    exact (holdings_pair _ _ i j k l _ _ _ _ e1 e2 Hv1 He1 K1 Hv2 He2 K2 Hpos).
Qed.

End Isolation.

(** ** Two volumes on one disk *)

#[local] Instance toy_store : MetaStore mem_db := rocksdb_meta_store (fun _ => true).

Definition toy_get_by_id (m : xsan_volume_manager mem_db Z) (id : uuid) : option xsan_volume :=
  snd <$> list_find (fun vol => v_id vol = id) (vm_volumes m).

Definition two_volumes : xsan_volume_manager mem_db Z := sample_reached two_ops.

Definition sample_extent (start : Z) : xsan_volume_extent_mapping := Extent 3 start 20 0.

Lemma two_volumes_calls :
  vm_calls two_volumes = [DmAllocate 9 [sample_extent 0]; DmAllocate 9 [sample_extent 20]].
Proof. now vm_compute. Qed.

Lemma two_volumes_list :
  exists vol1 vol2, vm_volumes two_volumes = [vol1; vol2] /\ v_id vol1 = 7 /\ v_id vol2 = 8 /\
    v_block_size vol1 = 512 /\ v_block_size vol2 = 512.
Proof. eexists _, _. split; [now vm_compute|now split_and!]. Qed.

Lemma fresh_singleton s e : (forall x, x ∈ s -> ~ overlap x.2 e) -> fresh_extents s [e].
Proof.
  intros H. split; [now intros x e' Hx ->%list_elem_of_singleton; apply H|].
  intros [|i] [|j] e1 e2 Hij H1 H2; try done; now rewrite lookup_nil in *.
Qed.

Lemma two_volumes_sound : sound_allocations (vm_calls two_volumes).
Proof.
  rewrite two_volumes_calls. intros [|c1 [|c2 before]] g es after s Hc Hs.
  - injection Hc as _ <- _. injection Hs as <-. apply fresh_singleton. intros x Hx. now apply gmultiset_elem_of_empty in Hx.
  - injection Hc as <- _ <- _. injection Hs as <-. apply fresh_singleton. intros x Hx.
    apply gmultiset_elem_of_disj_union in Hx as [Hx|(e & ->%list_elem_of_singleton & ->)%elem_of_space_of].
    { now apply gmultiset_elem_of_empty in Hx. }
    unfold overlap; cbn. lia.
  - injection Hc as _ _ Hc. now destruct before.
Qed.

Lemma two_volumes_disks : extents_on_disks two_volumes.
Proof.
  intros vol es e Hin (_ & (js & Hk & Hjs) & _) He. destruct two_volumes_list as (v1 & v2 & Hv & I1 & I2 & B1 & B2).
  assert (Hm : exists start, 0 <= start <= 20 /\ v_block_size vol = 512 /\
    (fun am => (am_num_extents am, head (am_extents am))) <$>
      (json_string_to_volume_allocation_meta true (view two_volumes !! alloc_key (v_id vol))).2 =
    Some (1, Some (sample_extent start))).
  { rewrite Hv in Hin. apply elem_of_cons in Hin as [->| ->%list_elem_of_singleton]; rewrite ?I1, ?I2.
    - exists 0. split; [lia|]. split; [done|now vm_compute].
    - exists 20. split; [lia|]. split; [done|now vm_compute]. }
  destruct Hm as (start & Hstart & -> & Hm). rewrite Hk, Hjs in Hm. cbn in Hm. injection Hm as Hn Hh.
  destruct es as [|e' [|e'' es]]; [done| |unfold Zlen in Hn; cbn in Hn; lia].
  injection Hh as ->. apply list_elem_of_singleton in He as ->.
  exists (Disk 3 $"Nvme0n1" 512 true). constructor; cbn; done || lia.
Qed.

(** Block 3 of both volumes. *)
Lemma volumes_isolated_witness :
  exists p1 p2,
    xsan_volume_map_lba_to_physical toy_get_by_id true true two_volumes 7 3 = Mapped 3 p1 512 /\
    xsan_volume_map_lba_to_physical toy_get_by_id true true two_volumes 8 3 = Mapped 3 p2 512 /\
    (p1 * 512 + 512 <= p2 * 512 \/ p2 * 512 + 512 <= p1 * 512).
Proof.
  destruct two_volumes_list as (v1 & v2 & Hv & I1 & I2 & B1 & B2).
  assert (M1 : xsan_volume_map_lba_to_physical toy_get_by_id true true two_volumes 7 3 = Mapped 3 3 512) by now vm_compute.
  assert (M2 : xsan_volume_map_lba_to_physical toy_get_by_id true true two_volumes 8 3 = Mapped 3 23 512) by now vm_compute.
  destruct (volumes_isolated toy_get_by_id sample_vm two_ops two_volumes v1 v2 true true 3 3 3 3 23 512 512)
    as [_ H].
  - apply sample_start.
  - apply two_reached.
  - apply two_volumes_sound.
  - intros vol Hin. unfold toy_get_by_id. rewrite Hv in *.
    apply elem_of_cons in Hin as [->| ->%list_elem_of_singleton]; cbn [list_find].
    + now rewrite decide_True.
    + rewrite decide_False by congruence. now rewrite decide_True.
  - apply two_volumes_disks.
  - rewrite Hv. apply elem_of_cons. now left.
  - rewrite Hv. apply elem_of_cons. right. now apply list_elem_of_singleton.
  - now rewrite I1.
  - now rewrite I2.
  - left. rewrite I1, I2. discriminate.
  - exists 3, 23. rewrite B1, B2 in H. split; [exact M1|]. split; [exact M2|exact H].
Defined.
