(* ===== verification/ReplicaRead.v ===== *)
(** * Reads with failover
    (the read path of [src/src/storage/volume_manager.c], lines 1001-1172, and the
    coordinator of [src/src/replication/xsan_replication.c])

    A read tries the replicas of its volume in order, the local one first, until one
    succeeds.  Its state is the coordinator context ([None] once freed) and whether
    the table of pending reads holds it; the table frees the contexts that are
    removed from it.  Attempts call each other recursively through callbacks; the
    fuel of [try_read_from_next_replica] bounds the depth, and [read_terminates]
    shows that four is enough.  What a call yields is [None] when the fuel runs out. *)

From stdpp Require Import prelude strings gmap.
From Stdlib Require Import ZArith Lia Ascii.
From S2P Require Import Prelude Errors Protocol NodeComm StringUtils Json VolumeMeta MetadataStore.
From S2P Require Import Cluster Volume Io VolumeIo Replication.

(** ** The coordinator *)

Record xsan_replica_read_coordinator_ctx := ReadCtx {
  rd_vol : xsan_volume;
  rd_offset : Z;
  rd_length : Z;
  rd_idx : Z;                          (* current_replica_idx_to_try *)
  rd_last_status : xsan_error_t;
  rd_tid : Z;
  rd_dma : option (list Z);            (* contents of internal_dma_buffer *)
  rd_op : option xsan_per_replica_op_ctx
}.

Definition xsan_replica_read_coordinator_ctx_create (alloc_ok : bool)
    (vol : option xsan_volume) (buffer cb : bool) (off len tid : Z) :
    option xsan_replica_read_coordinator_ctx :=
  match vol with
  | None => None
  | Some vol =>
      if negb buffer || negb cb || negb alloc_ok then None
      else Some (ReadCtx vol off len 0 XSAN_OK tid None None)
  end.

Record rstate := RState {
  rs_ctx : option xsan_replica_read_coordinator_ctx;
  rs_table : bool
}.

(** Calls that are visible outside: the local I/O accepted, a request on the wire,
    the copy into the user's buffer, the user's callback. *)
Inductive revent :=
  | RLocal
  | RSent (node : uuid) (m : xsan_message)
  | RCopied (data : list Z)
  | RUser (status : xsan_error_t).

Definition read_req_payload (id : uuid) (lba num_blocks : Z) : list Z :=
  le_bytes 16 id ++ le_bytes 8 lba ++ le_bytes 4 num_blocks.
Definition XSAN_REPLICA_READ_REQ_PAYLOAD_SIZE : Z := 28.

Section Reads.
Context {JC : JsonC} {SU : SpdkUuid} {SC : StorageCodes}.
Context {St : Type} {MS : MetaStore St} {DM : Type} {DK : DiskManager DM}.
Variable get_by_id : xsan_volume_manager St DM -> uuid -> option xsan_volume.

Definition rderef (s : rstate) : traced revent xsan_replica_read_coordinator_ctx :=
  match rs_ctx s with Some c => tret c | None => tundef end.

(** Freeing a context that is no longer live is undefined. *)
Definition xsan_replica_read_coordinator_ctx_free (s : rstate) : traced revent rstate :=
  let* _ := rderef s in tret (RState None (rs_table s)).

(** Removal from the table, which destroys the value it holds. *)
Definition pending_remove (s : rstate) : traced revent rstate :=
  if rs_table s then
    let* s := xsan_replica_read_coordinator_ctx_free s in tret (RState (rs_ctx s) false)
  else tret s.

(** The end of a read: the user's callback, the removal and the release. *)
Definition finish_read (s : rstate) (status : xsan_error_t) : traced revent rstate :=
  let* _ := temit (RUser status) in
  let* s := pending_remove s in
  xsan_replica_read_coordinator_ctx_free s.

Definition with_attempt (c : xsan_replica_read_coordinator_ctx) (idx : Z)
    (last : xsan_error_t) (op : option xsan_per_replica_op_ctx) :
    xsan_replica_read_coordinator_ctx :=
  ReadCtx (rd_vol c) (rd_offset c) (rd_length c) idx last (rd_tid c) (rd_dma c) op.

Definition with_dma (c : xsan_replica_read_coordinator_ctx) (dma : list Z) :
    xsan_replica_read_coordinator_ctx :=
  ReadCtx (rd_vol c) (rd_offset c) (rd_length c) (rd_idx c) (rd_last_status c) (rd_tid c)
    (Some dma) (rd_op c).

(** Results of the local submission and of the calls for each remote attempt; the
    message of an attempt is created with its allocator. *)
Record read_env := ReadEnv {
  rn_local : option xsan_error_t;
  rn_dma : nat -> option (list Z);   (* a fresh DMA buffer *)
  rn_replica : nat -> replica_env;
  rn_put : nat -> bool
}.

Section Callbacks.
(** The next attempt. *)
Variable next : rstate -> traced revent (option rstate).

Definition next_attempt (s : rstate) (c : xsan_replica_read_coordinator_ctx)
    (status : xsan_error_t) (op : option xsan_per_replica_op_ctx) :
    traced revent (option rstate) :=
  next (RState (Some (with_attempt c (swrap 32 (rd_idx c + 1)) status op)) (rs_table s)).

(** [_xsan_replica_read_attempt_complete_cb]; a failed attempt frees the remote
    operation of the coordinator. *)
Definition read_attempt_complete_cb (s : rstate) (status : xsan_error_t) :
    traced revent (option rstate) :=
  let* c := rderef s in
  if status =? XSAN_OK then
    let* _ := (match rd_dma c with
               | Some dma => if 0 <? rd_idx c
                             then temit (RCopied (take (Z.to_nat (rd_length c)) dma)) else tret tt
               | None => tret tt
               end) in
    let* s := finish_read s XSAN_OK in tret (Some s)
  else next_attempt s c status None.

(** [_xsan_remote_replica_read_req_send_complete_cb]: after a failed send the
    operation, which the failed attempt has freed, is used again. *)
Definition read_req_send_complete_cb (s : rstate) (comm_status : Z) :
    traced revent (option rstate) :=
  let* c := rderef s in
  if negb (comm_status =? 0) then
    let* r := read_attempt_complete_cb s (xsan_error_from_errno (- comm_status)) in
    match r with None => tret None | Some _ => tundef end
  else tret (Some (RState (Some (with_attempt c (rd_idx c) (rd_last_status c) None))
                     (rs_table s))).

Definition read_connect_then_send_cb (se : send_env) (s : rstate) (sock : bool) (status : Z)
    (node : uuid) (m : xsan_message) : traced revent (option rstate) :=
  if (status =? 0) && sock then
    let '(e, cbs, _) := xsan_node_comm_send_msg (se_initialized se) true (se_thread se)
          (se_ctx_valid se) (se_busy se) (Some m) true (se_written se) in
    match cbs with
    | SendCallback st :: _ =>
        let* _ := (if st =? 0 then temit (RSent node m) else tret tt) in
        let* r := read_req_send_complete_cb s st in
        if negb (e =? XSAN_OK) then match r with None => tret None | Some _ => tundef end
        else tret r
    | [] => if negb (e =? XSAN_OK) then read_req_send_complete_cb s e else tret (Some s)
    end
  else read_attempt_complete_cb s (xsan_error_from_errno (- status)).

Definition read_request (re : replica_env) (tid : Z) (id : uuid) (bs off len : Z) :
    option xsan_message :=
  xsan_protocol_message_create (re_malloc re) (msg_type_code REPLICA_READ_BLOCK_REQ) tid
    (Some (read_req_payload id (off / bs) (wrap 32 (len / bs))))
    XSAN_REPLICA_READ_REQ_PAYLOAD_SIZE (re_fresh re).

(** A remote attempt on the replica [loc]. *)
Definition read_remote (env : read_env) (s : rstate) (c : xsan_replica_read_coordinator_ctx)
    (loc : xsan_replica_location) : traced revent (option rstate) :=
  let i := Z.to_nat (rd_idx c) in
  let re := rn_replica env i in
  match (match rd_dma c with
         | None => if 0 <? rd_length c then with_dma c <$> rn_dma env i else Some c
         | Some _ => Some c
         end) with
  | None => next_attempt s c XSAN_ERROR_OUT_OF_MEMORY (rd_op c)
  | Some c =>
      if negb (re_op re) then next_attempt s c XSAN_ERROR_OUT_OF_MEMORY (rd_op c) else
      let bs := v_block_size (rd_vol c) in
      match read_request re (rd_tid c) (v_id (rd_vol c)) bs (rd_offset c) (rd_length c) with
      | None => next_attempt s c XSAN_ERROR_OUT_OF_MEMORY (rd_op c)
      | Some m =>
          let op := ReplicaOp (r_node_id loc) (Some m) in
          let s := RState (Some (with_attempt c (rd_idx c) (rd_last_status c) (Some op)))
                     (rs_table s || rn_put env i) in
          match re_active re with
          | Some se => read_connect_then_send_cb se s true 0 (r_node_id loc) m
          | None =>
              let ce := re_connect re in
              match (xsan_node_comm_connect (ce_initialized ce) (ce_thread ce) (ce_alloc ce)
                       true (r_port loc) true (ce_sock ce)).2 with
              | ConnectCallback sock status :: _ =>
                  read_connect_then_send_cb (SendEnv true true true false (inl 0)) s sock
                    status (r_node_id loc) m
              | [] => tret (Some s)
              end
          end
      end
  end.
End Callbacks.

(** One level of the recursion. *)
Definition try_read_body (next : rstate -> traced revent (option rstate)) (env : read_env)
    (s : rstate) : traced revent (option rstate) :=
  let* c := rderef s in
  if (swrap 32 (v_replica_count (rd_vol c)) <=? rd_idx c) || (XSAN_MAX_REPLICAS <=? rd_idx c)
  then let* s := finish_read s (rd_last_status c) in tret (Some s) else
  match v_replicas (rd_vol c) !! Z.to_nat (rd_idx c) with
  | None => tundef
  | Some loc =>
      if rd_idx c =? 0 then
        match rn_local env with
        | None => tundef
        | Some e =>
            if negb (e =? XSAN_OK) then next_attempt next s c e (rd_op c) else
            let* _ := temit RLocal in
            tret (Some (RState (Some (with_attempt c (rd_idx c) e (rd_op c))) (rs_table s)))
        end
      else read_remote next env s c loc
  end.

Fixpoint try_read_from_next_replica (fuel : nat) (env : read_env) (s : rstate) :
    traced revent (option rstate) :=
  match fuel with
  | O => tret None
  | S fuel => try_read_body (try_read_from_next_replica fuel env) env s
  end.

Definition READ_FUEL : nat := 4.

Definition xsan_volume_read_async (dma : nat -> option (list Z)) (re : nat -> replica_env)
    (put : nat -> bool) (local_env : attempt_env) (ctx_ok initialized : bool)
    (m : xsan_volume_manager St DM) (id : uuid) (off len tid : Z) (buf : option (list Z))
    (user_cb : bool) : traced revent (option rstate * xsan_error_t) :=
  let fail (e : xsan_error_t) := tret (None, e) in
  if negb initialized || bool_decide (buf = None) || (len =? 0) || negb user_cb
  then fail XSAN_ERROR_INVALID_PARAM else
  match get_by_id m id with
  | None => fail XSAN_ERROR_NOT_FOUND
  | Some vol =>
      if (v_block_size vol =? 0) || negb (off mod v_block_size vol =? 0) ||
         negb (len mod v_block_size vol =? 0) || (v_size_bytes vol <? wrap 64 (off + len))
      then fail XSAN_ERROR_INVALID_PARAM_ALIGNMENT else
      match xsan_replica_read_coordinator_ctx_create ctx_ok (Some vol) true user_cb off len tid with
      | None => fail XSAN_ERROR_OUT_OF_MEMORY
      | Some c =>
          let local := (submit_single_io_attempt get_by_id local_env true m (v_id vol) off len
                          buf true true).1.2 in
          let* s := try_read_from_next_replica READ_FUEL (ReadEnv local dma re put)
                      (RState (Some c) false) in
          tret (s, XSAN_OK)
      end
  end.

(** A response finds the context that the table holds; [dma] is the buffer that is
    allocated when the context has none. *)
Definition process_replica_read_response (env : read_env) (initialized : bool)
    (dma : option (list Z)) (s : rstate) (tid : Z) (status : xsan_error_t)
    (data : option (list Z)) (data_len : Z) : traced revent (option rstate) :=
  if negb initialized || negb (rs_table s) then tret (Some s) else
  let* c := rderef s in
  if negb (rd_tid c =? tid) then tret (Some s) else
  let '(c, status) :=
    if status =? XSAN_OK then
      match data with
      | Some d =>
          if data_len =? rd_length c then
            match rd_dma c, dma with
            | None, None => (c, XSAN_ERROR_OUT_OF_MEMORY)
            | _, _ => (with_dma c (take (Z.to_nat data_len) d), status)
            end
          else (c, XSAN_ERROR_PROTOCOL_GENERIC)
      | None => (c, XSAN_ERROR_PROTOCOL_GENERIC)
      end
    else (c, status) in
  read_attempt_complete_cb (try_read_from_next_replica READ_FUEL env)
    (RState (Some c) true) status.

(** ** A whole read *)

(** What happens to a read after it was started: its local I/O completes, or a response
    arrives; each with what the calls that follow from it meet. *)
Inductive read_event :=
  | EvLocal (env : read_env) (status : xsan_error_t)
  | EvResponse (env : read_env) (initialized : bool) (dma : option (list Z)) (tid : Z)
      (status : xsan_error_t) (data : option (list Z)) (data_len : Z).

Definition read_event_step (ev : read_event) (s : rstate) : traced revent (option rstate) :=
  match ev with
  | EvLocal env status =>
      read_attempt_complete_cb (try_read_from_next_replica READ_FUEL env) s status
  | EvResponse env initialized dma tid status data data_len =>
      process_replica_read_response env initialized dma s tid status data data_len
  end.

Fixpoint read_events (evs : list read_event) (s : rstate) : traced revent (option rstate) :=
  match evs with
  | [] => tret (Some s)
  | ev :: evs =>
      let* r := read_event_step ev s in
      match r with Some s => read_events evs s | None => tret None end
  end.

(** * Theorems *)

Lemma swrap_next i : 0 <= i < XSAN_MAX_REPLICAS -> swrap 32 (i + 1) = i + 1.
Proof.
  unfold XSAN_MAX_REPLICAS. intros Hi. unfold swrap. rewrite wrap_small by (unfold in_u; pow2s; lia).
  pow2s. case_cmp; lia.
Qed.

Lemma tbind_none {A B} (x : traced revent A) (f : A -> traced revent (option B)) :
  (forall a, (f a).2 <> Some None) -> (tbind x f).2 <> Some None.
Proof. intros H. destruct x as [t [a|]]; [|done]. simpl. apply H. Qed.

(** ** Termination *)

(** Two continuations agree, and do not run out of fuel, on the attempt [i]. *)
Definition agree (next1 next2 : rstate -> traced revent (option rstate)) (i : Z) : Prop :=
  forall s c, rs_ctx s = Some c -> rd_idx c = i ->
    next1 s = next2 s /\ (next1 s).2 <> Some None.

(** The same for the callbacks of the attempt before. *)
Definition same (x y : traced revent (option rstate)) : Prop := x = y /\ x.2 <> Some None.

Lemma same_bind {A} (x : traced revent A) f g :
  (forall a, x.2 = Some a -> same (f a) (g a)) -> same (tbind x f) (tbind x g).
Proof.
  intros H. destruct x as [t [a|]]; [|now split]. destruct (H a eq_refl) as [He Hn]. split.
  - simpl. now rewrite He.
  - exact Hn.
Qed.

Lemma same_then x y f :
  same x y -> (forall s, (f (Some s)).2 <> Some None) -> same (tbind x f) (tbind y f).
Proof.
  intros [-> Hn] Hf. split; [done|]. destruct y as [t [[s|]|]]; simpl in *; [apply Hf|done|done].
Qed.

Section Agree.
Variables next1 next2 : rstate -> traced revent (option rstate).
Variable i : Z.
Hypothesis Hi : 0 <= i < XSAN_MAX_REPLICAS.
Hypothesis Hagree : agree next1 next2 (i + 1).

Lemma next_attempt_same s c st op :
  rd_idx c = i -> same (next_attempt next1 s c st op) (next_attempt next2 s c st op).
Proof.
  intros Hc. unfold next_attempt. rewrite Hc, swrap_next by done.
  exact (Hagree (RState (Some (with_attempt c (i + 1) st op)) (rs_table s)) _ eq_refl eq_refl).
Qed.

Lemma attempt_complete_same s c st :
  rs_ctx s = Some c -> rd_idx c = i ->
  same (read_attempt_complete_cb next1 s st) (read_attempt_complete_cb next2 s st).
Proof.
  intros Hs Hc. unfold read_attempt_complete_cb, rderef. rewrite Hs. apply same_bind.
  intros c' [= <-]. destruct (st =? XSAN_OK); [|now apply next_attempt_same].
  split; [done|]. apply tbind_none. intros _. now apply tbind_none.
Qed.

Lemma send_complete_same s c st :
  rs_ctx s = Some c -> rd_idx c = i ->
  same (read_req_send_complete_cb next1 s st) (read_req_send_complete_cb next2 s st).
Proof.
  intros Hs Hc. unfold read_req_send_complete_cb, rderef. rewrite Hs. apply same_bind.
  intros c' [= <-]. destruct (negb (st =? 0)); [|now split].
  apply same_then; [|done]. exact (attempt_complete_same s c _ Hs Hc).
Qed.

Lemma connect_then_send_same se s c sock status node m :
  rs_ctx s = Some c -> rd_idx c = i ->
  same (read_connect_then_send_cb next1 se s sock status node m)
       (read_connect_then_send_cb next2 se s sock status node m).
Proof.
  intros Hs Hc. unfold read_connect_then_send_cb.
  destruct ((status =? 0) && sock); [|exact (attempt_complete_same s c _ Hs Hc)].
  destruct (xsan_node_comm_send_msg _ _ _ _ _ _ _ _) as [[e [|[st] cbs]] busy].
  - destruct (negb _); [exact (send_complete_same s c _ Hs Hc)|now split].
  - apply same_bind. intros _ _.
    destruct (send_complete_same s c st Hs Hc) as [He Hn]. apply same_then; [now split|].
    intros s'. now destruct (negb _).
Qed.

Lemma read_remote_same env s c loc :
  rs_ctx s = Some c -> rd_idx c = i ->
  same (read_remote next1 env s c loc) (read_remote next2 env s c loc).
Proof.
  intros Hs Hc. unfold read_remote.
  set (c1 := match rd_dma c with Some _ => _ | None => _ end).
  assert (Hc1 : forall c', c1 = Some c' -> rd_idx c' = i).
  { intros c' H. unfold c1 in H. destruct (rd_dma c); [now injection H as <-|].
    destruct (0 <? rd_length c); [|now injection H as <-].
    destruct (rn_dma env (Z.to_nat (rd_idx c))); [now injection H as <-|done]. }
  destruct c1 as [c'|]; [|now apply next_attempt_same]. specialize (Hc1 c' eq_refl).
  destruct (negb _); [now apply next_attempt_same|].
  destruct (read_request _ _ _ _ _ _) as [m|]; [|now apply next_attempt_same].
  destruct (re_active _); [eapply connect_then_send_same; [reflexivity|exact Hc1]|].
  destruct (xsan_node_comm_connect _ _ _ _ _ _ _).2 as [|[sock st] cbs]; [now split|].
  eapply connect_then_send_same; [reflexivity|exact Hc1].
Qed.
End Agree.

Lemma try_read_S fuel env s :
  try_read_from_next_replica (S fuel) env s =
  try_read_body (try_read_from_next_replica fuel env) env s.
Proof. reflexivity. Qed.

Lemma try_read_fuel k fuel env s c :
  rs_ctx s = Some c -> 0 <= rd_idx c -> XSAN_MAX_REPLICAS - rd_idx c <= Z.of_nat k ->
  (k < fuel)%nat ->
  same (try_read_from_next_replica fuel env s) (try_read_from_next_replica (S k) env s).
Proof.
  revert fuel s c. induction k as [|k IH]; intros [|fuel] s c Hs Hi Hk Hf; try lia;
    rewrite (try_read_S fuel), (try_read_S _ env s); unfold try_read_body, rderef; rewrite Hs;
    apply same_bind; intros c' [= <-].
  - destruct (Z.leb_spec XSAN_MAX_REPLICAS (rd_idx c)); [|lia]. rewrite orb_true_r.
    split; [done|]. now apply tbind_none.
  - destruct (Z.leb_spec XSAN_MAX_REPLICAS (rd_idx c)).
    { rewrite orb_true_r. split; [done|]. now apply tbind_none. }
    rewrite orb_false_r. destruct (_ <=? _); [split; [done|now apply tbind_none]|].
    assert (Hag : agree (try_read_from_next_replica fuel env) (try_read_from_next_replica (S k) env)
      (rd_idx c + 1)).
    { intros s' c' Hs' Hc'. eapply IH; [exact Hs'|lia|lia|lia]. }
    destruct (v_replicas (rd_vol c) !! Z.to_nat (rd_idx c)) as [loc|]; [|now split].
    destruct (rd_idx c =? 0).
    + destruct (rn_local env) as [e|]; [|now split].
      destruct (negb _); [apply (next_attempt_same _ _ (rd_idx c)); [lia|exact Hag|done]|]. now split.
    + apply (read_remote_same _ _ (rd_idx c)); [lia|exact Hag|done|done].
Qed.

(** C14: a read always comes to an end.  Whatever fails, at most three replicas are
    tried: with any fuel from four on the recursion of the callbacks yields the same
    result and does not run out of fuel, so that starting a read reports success
    exactly when it has a coordinator. *)
Theorem read_terminates :
  (forall env s c fuel, rs_ctx s = Some c -> 0 <= rd_idx c -> (READ_FUEL <= fuel)%nat ->
     try_read_from_next_replica fuel env s = try_read_from_next_replica READ_FUEL env s /\
     (try_read_from_next_replica fuel env s).2 <> Some None) /\
  (forall dma re put le ctx_ok m id off len tid buf user_cb t s e,
     xsan_volume_read_async dma re put le ctx_ok true m id off len tid buf user_cb =
       (t, Some (s, e)) -> (e = XSAN_OK <-> s <> None)).
Proof.
  assert (Hfuel : forall env s c fuel, rs_ctx s = Some c -> 0 <= rd_idx c -> (READ_FUEL <= fuel)%nat ->
     same (try_read_from_next_replica fuel env s) (try_read_from_next_replica READ_FUEL env s)).
  { intros env s c fuel Hs Hi Hf. unfold READ_FUEL in *.
    apply (try_read_fuel 3 fuel env s c Hs Hi); unfold XSAN_MAX_REPLICAS; lia. }
  split; [exact Hfuel|]. intros dma re put le ctx_ok m id off len tid buf user_cb t s e.
  unfold xsan_volume_read_async.
  assert (Hfail : forall e0, e0 <> XSAN_OK -> tret (E := revent) (@None rstate, e0) = (t, Some (s, e)) ->
    (e = XSAN_OK <-> s <> None)) by (intros e0 He0 [= <- <- <-]; tauto).
  destruct (_ || _ || _ || _); [now apply Hfail|].
  destruct (get_by_id m id) as [vol|]; [|now apply Hfail].
  destruct (_ || _ || _ || _); [apply Hfail; auto with xsan|].
  destruct (xsan_replica_read_coordinator_ctx_create _ _ _ _ _ _ _) as [c|] eqn:Hc;
    [|apply Hfail; auto with xsan].
  set (env := ReadEnv _ dma re put).
  assert (Hidx : rd_idx c = 0).
  { unfold xsan_replica_read_coordinator_ctx_create in Hc.
    destruct (_ || _ || _); [done|]. now injection Hc as <-. }
  destruct (Hfuel env (RState (Some c) false) c READ_FUEL eq_refl ltac:(lia) ltac:(lia)) as [_ Hn].
  destruct (try_read_from_next_replica READ_FUEL env _) as [t' [s'|]]; [|done].
  simpl. intros [= _ -> <-]. split; [intros _ ->|done]. now apply Hn.
Qed.

(** ** Completion *)

Definition rusers (t : list revent) : list xsan_error_t :=
  omap (fun e => match e with RUser st => Some st | _ => None end) t.

Lemma rusers_app t1 t2 : rusers (t1 ++ t2) = rusers t1 ++ rusers t2.
Proof. apply omap_app. Qed.

(** A request was put on the wire. *)
Definition asked (t : list revent) : bool :=
  existsb (fun e => match e with RSent _ _ => true | _ => false end) t.

Lemma asked_app t1 t2 : asked (t1 ++ t2) = asked t1 || asked t2.
Proof. apply existsb_app. Qed.

(** The table takes every read. *)
Definition puts (env : read_env) : Prop := forall i, rn_put env i = true.

(** How a call on a read ends, whose context is in the table if [tab], where [P] says that
    the table takes every read: with the context live and the user not called; with the
    context freed and the user called once, which needs the context not to be in the
    table; or in undefined behaviour with the user called at most once.  A context is in
    the table once a request was sent. *)
Definition ends (P : Prop) (tab : bool) (x : traced revent (option rstate)) : Prop :=
  match x with
  | (t, Some (Some s)) =>
      match rs_ctx s with
      | Some c => rusers t = [] /\ 0 <= rd_idx c < XSAN_MAX_REPLICAS /\
          (tab = true -> rs_table s = true) /\ (P -> asked t = true -> rs_table s = true)
      | None => tab = false /\ rs_table s = false /\ (P -> asked t = false) /\
          exists st, rusers t = [st]
      end
  | (t, _) => (length (rusers t) <= 1)%nat
  end.

Lemma ends_weaken P tab x : ends P true x \/ ends P tab x -> ends P tab x.
Proof.
  intros [H|H]; [|done]. destruct x as [t [[s|]|]]; simpl in *; [|done|done].
  destruct (rs_ctx s); [|now destruct H]. destruct H as (H1 & H2 & H3 & H4). tauto.
Qed.

(** Events before the call; when one of them is a request the context is in the table. *)
Lemma ends_emit (P : Prop) tab t x :
  rusers t = [] -> (P -> asked t = true -> tab = true) -> ends P tab x ->
  ends P tab (t ++ x.1, x.2).
Proof.
  intros Ht Hs. destruct x as [t' [[s|]|]]; simpl; rewrite rusers_app, ?asked_app, Ht; try done.
  destruct (rs_ctx s).
  - intros (H1 & H2 & H3 & H4). split_and!; [done|lia|lia|done|].
    intros HP [|]%orb_true_iff; auto.
  - intros (H1 & H2 & H3 & H4). split_and!; try done. intros HP. rewrite (H3 HP), orb_false_r.
    destruct (asked t); [|done]. rewrite (Hs HP eq_refl) in H1. done.
Qed.

Lemma ends_undef P tab x :
  ends P tab x ->
  ends P tab (tbind x (fun r => match r with None => tret None | Some _ => tundef end)).
Proof.
  destruct x as [t [[s|]|]]; simpl; rewrite ?app_nil_r; try done.
  destruct (rs_ctx s); [intros [-> _]|intros (_ & _ & _ & st & ->)]; simpl; lia.
Qed.

Lemma finish_read_ends P s c st :
  rs_ctx s = Some c -> ends P (rs_table s) (let* s := finish_read s st in tret (Some s)).
Proof.
  intros Hs. unfold finish_read, pending_remove, xsan_replica_read_coordinator_ctx_free, rderef.
  destruct s as [ctx [|]]; simpl in *; subst; simpl; [lia|]. split_and!; try done. now exists st.
Qed.

Section Ends.
Variable P : Prop.
Variable next : rstate -> traced revent (option rstate).
Hypothesis Hnext : forall s c, rs_ctx s = Some c -> 0 <= rd_idx c -> ends P (rs_table s) (next s).

Lemma next_attempt_ends s c st op :
  0 <= rd_idx c < XSAN_MAX_REPLICAS -> ends P (rs_table s) (next_attempt next s c st op).
Proof.
  intros Hi. unfold next_attempt. rewrite swrap_next by done.
  apply (Hnext (RState (Some _) (rs_table s)) _ eq_refl). simpl. lia.
Qed.

Lemma attempt_complete_ends s c st :
  rs_ctx s = Some c -> 0 <= rd_idx c < XSAN_MAX_REPLICAS ->
  ends P (rs_table s) (read_attempt_complete_cb next s st).
Proof.
  intros Hs Hi. unfold read_attempt_complete_cb, rderef. rewrite Hs, tbind_ret.
  destruct (st =? XSAN_OK); [|now apply next_attempt_ends].
  set (copy := match rd_dma c with Some _ => _ | None => _ end).
  assert (Hcopy : exists t, copy = (t, Some tt) /\ rusers t = [] /\ asked t = false).
  { unfold copy. destruct (rd_dma c); [|now eexists]. destruct (0 <? rd_idx c); now eexists. }
  destruct Hcopy as (t & -> & Ht & Ha). cbn [tbind]. apply ends_emit; [done|congruence|].
  now apply (finish_read_ends P s c).
Qed.

Lemma send_complete_ends s c st :
  rs_ctx s = Some c -> 0 <= rd_idx c < XSAN_MAX_REPLICAS ->
  ends P (rs_table s) (read_req_send_complete_cb next s st).
Proof.
  intros Hs Hi. unfold read_req_send_complete_cb, rderef. rewrite Hs, tbind_ret.
  destruct (negb (st =? 0)); [|now simpl; split_and!].
  apply ends_undef. exact (attempt_complete_ends s c _ Hs Hi).
Qed.

Lemma connect_then_send_ends se s c sock status node m :
  rs_ctx s = Some c -> 0 <= rd_idx c < XSAN_MAX_REPLICAS -> (P -> rs_table s = true) ->
  ends P (rs_table s) (read_connect_then_send_cb next se s sock status node m).
Proof.
  intros Hs Hi HP. unfold read_connect_then_send_cb.
  destruct ((status =? 0) && sock); [|exact (attempt_complete_ends s c _ Hs Hi)].
  destruct (xsan_node_comm_send_msg _ _ _ _ _ _ _ _) as [[e [|[st] cbs]] busy].
  - destruct (negb _); [exact (send_complete_ends s c _ Hs Hi)|]. simpl. rewrite Hs.
    now split_and!.
  - pose proof (send_complete_ends s c st Hs Hi) as Hsend.
    assert (H : ends P (rs_table s) (tbind (read_req_send_complete_cb next s st)
      (fun r => if negb (e =? XSAN_OK) then match r with None => tret None | Some _ => tundef end
                else tret r))).
    { destruct (negb (e =? XSAN_OK)); [now apply ends_undef|].
      destruct (read_req_send_complete_cb next s st) as [t [r|]]; [|done].
      simpl. now rewrite app_nil_r. }
    destruct (st =? 0); [apply (ends_emit P _ [RSent node m]); auto|]. now rewrite tbind_ret.
Qed.

Lemma read_remote_ends env s c loc :
  (P -> puts env) -> rs_ctx s = Some c -> 0 <= rd_idx c < XSAN_MAX_REPLICAS ->
  ends P (rs_table s) (read_remote next env s c loc).
Proof.
  intros Hp Hs Hi. unfold read_remote.
  set (c1 := match rd_dma c with Some _ => _ | None => _ end).
  assert (Hc1 : forall c', c1 = Some c' -> 0 <= rd_idx c' < XSAN_MAX_REPLICAS).
  { intros c' H. unfold c1 in H. destruct (rd_dma c); [now injection H as <-|].
    destruct (0 <? rd_length c); [|now injection H as <-].
    destruct (rn_dma env (Z.to_nat (rd_idx c))); [now injection H as <-|done]. }
  destruct c1 as [c'|]; [|now apply next_attempt_ends]. specialize (Hc1 c' eq_refl).
  destruct (negb _); [now apply next_attempt_ends|].
  destruct (read_request _ _ _ _ _ _) as [m|]; [|now apply next_attempt_ends].
  set (s' := RState _ _).
  assert (Hw : forall x, ends P (rs_table s') x -> ends P (rs_table s) x).
  { intros x Hx. apply ends_weaken. destruct (rs_table s) eqn:Ht; [now left|].
    simpl in Hx. destruct (rn_put env _) in Hx; [now left|now right]. }
  assert (Ht : P -> rs_table s' = true) by (intros HP; simpl; rewrite Hp, orb_true_r by done; done).
  apply Hw. destruct (re_active _); [now eapply connect_then_send_ends|].
  destruct (xsan_node_comm_connect _ _ _ _ _ _ _).2 as [|[sock st] cbs]; [now simpl; split_and!|].
  now eapply connect_then_send_ends.
Qed.
End Ends.

Lemma try_read_ends (P : Prop) fuel env s c :
  (P -> puts env) -> rs_ctx s = Some c -> 0 <= rd_idx c ->
  ends P (rs_table s) (try_read_from_next_replica fuel env s).
Proof.
  intros Hp. revert s c. induction fuel as [|fuel IH]; intros s c Hs Hi; [simpl; lia|].
  rewrite try_read_S. unfold try_read_body, rderef. rewrite Hs, tbind_ret.
  destruct (Z.leb_spec XSAN_MAX_REPLICAS (rd_idx c)); rewrite ?orb_true_r, ?orb_false_r;
    [now apply (finish_read_ends P s c)|].
  destruct (_ <=? _); [now apply (finish_read_ends P s c)|].
  destruct (v_replicas (rd_vol c) !! Z.to_nat (rd_idx c)) as [loc|]; [|simpl; lia].
  destruct (rd_idx c =? 0); [|now apply read_remote_ends].
  destruct (rn_local env) as [e|]; [|simpl; lia].
  destruct (negb _); [now apply next_attempt_ends|]. now simpl; split_and!.
Qed.

(** Trying the replicas does not run out of fuel. *)
Lemma try_read_total env s c :
  rs_ctx s = Some c -> 0 <= rd_idx c ->
  (try_read_from_next_replica READ_FUEL env s).2 <> Some None.
Proof.
  intros Hs Hi. apply (try_read_fuel 3 READ_FUEL env s c Hs Hi);
    unfold READ_FUEL, XSAN_MAX_REPLICAS; lia.
Qed.

Lemma attempt_complete_total env s c st :
  rs_ctx s = Some c -> 0 <= rd_idx c < XSAN_MAX_REPLICAS ->
  (read_attempt_complete_cb (try_read_from_next_replica READ_FUEL env) s st).2 <> Some None.
Proof.
  intros Hs Hi. apply (attempt_complete_same _ (try_read_from_next_replica READ_FUEL env)
    (rd_idx c)) with (c := c); [lia| |done|done].
  intros s' c' Hs' Hc'. split; [done|]. apply (try_read_total env s' c'); [done|lia].
Qed.

(** ** The whole read *)

Definition event_puts (ev : read_event) : Prop :=
  match ev with EvLocal env _ | EvResponse env _ _ _ _ _ _ => puts env end.

(** What has happened to a read of which [t] is visible. *)
Definition read_inv (P : Prop) (t : list revent) (s : rstate) : Prop :=
  match rs_ctx s with
  | Some c => rusers t = [] /\ 0 <= rd_idx c < XSAN_MAX_REPLICAS /\
      (P -> asked t = true -> rs_table s = true)
  | None => rs_table s = false /\ (P -> asked t = false) /\ exists st, rusers t = [st]
  end.

Definition read_result (P : Prop) (t : list revent) (x : traced revent (option rstate)) : Prop :=
  match x with
  | (t', Some (Some s)) => read_inv P (t ++ t') s
  | (_, Some None) => False
  | (t', None) => (length (rusers (t ++ t')) <= 1)%nat
  end.

(** A call on a live read that ends well leaves the read as it should be. *)
Lemma ends_read P t s c x :
  rs_ctx s = Some c -> read_inv P t s -> ends P (rs_table s) x -> x.2 <> Some None ->
  read_result P t x.
Proof.
  intros Hs Hinv Hx Hn. unfold read_inv in Hinv. rewrite Hs in Hinv. destruct Hinv as (Ht & _ & Ha).
  destruct x as [t' [[s'|]|]]; simpl in *; [|done|by rewrite rusers_app, Ht].
  unfold read_inv. rewrite rusers_app, asked_app, Ht. destruct (rs_ctx s') as [c'|].
  - destruct Hx as (H1 & H2 & H3 & H4). split_and!; [done|lia|lia|].
    intros HP [Hat|]%orb_true_iff; auto.
  - destruct Hx as (H1 & H2 & H3 & H4). split_and!; [done| |done]. intros HP.
    rewrite (H3 HP), orb_false_r. destruct (asked t); [|done].
    rewrite (Ha HP eq_refl) in H1. done.
Qed.

Lemma read_event_ok (P : Prop) t s ev :
  (P -> event_puts ev) -> read_inv P t s -> read_result P t (read_event_step ev s).
Proof.
  intros Hp Hinv. pose proof Hinv as Hi. unfold read_inv in Hi.
  destruct (rs_ctx s) as [c|] eqn:Hs.
  - destruct Hi as (_ & Hi & _).
    assert (Hcb : forall env c' tab st, (P -> puts env) -> rd_idx c' = rd_idx c -> tab = rs_table s ->
      read_result P t (read_attempt_complete_cb (try_read_from_next_replica READ_FUEL env)
        (RState (Some c') tab) st)).
    { intros env c' tab st Hpe Hc' ->. rewrite <- Hc' in Hi. eapply (ends_read P t s c); [done..| |].
      - apply (attempt_complete_ends P _) with (s := RState (Some c') (rs_table s)) (c := c');
          [|done|done]. intros s2 c2 Hs2 Hc2. now apply (try_read_ends P READ_FUEL env s2 c2).
      - now apply (attempt_complete_total env _ c'). }
    destruct s as [ctx tab]. simpl in Hs. subst ctx.
    destruct ev as [env st|env init dma tid st data len]; [now apply Hcb|].
    cbn [read_event_step]. unfold process_replica_read_response, rderef. cbn [rs_ctx rs_table].
    assert (Hsame : read_result P t (tret (Some (RState (Some c) tab))))
      by (simpl; now rewrite app_nil_r).
    destruct init, tab; cbn [negb orb]; try exact Hsame. rewrite tbind_ret.
    destruct (negb _); [exact Hsame|].
    set (cs := if st =? XSAN_OK then _ else _).
    assert (Hcs : rd_idx cs.1 = rd_idx c) by (unfold cs; now repeat case_match).
    destruct cs as [c' st']. now apply Hcb.
  - destruct Hi as (Ht & Ha & st & Hu). destruct ev as [env st'|env init dma tid st' data len].
    + unfold read_event_step, read_attempt_complete_cb, rderef. rewrite Hs. simpl.
      rewrite app_nil_r, Hu. simpl. lia.
    + cbn [read_event_step]. unfold process_replica_read_response. rewrite Ht, orb_true_r.
      simpl. now rewrite app_nil_r.
Qed.

Lemma read_events_ok (P : Prop) evs t s :
  (P -> Forall event_puts evs) -> read_inv P t s -> read_result P t (read_events evs s).
Proof.
  revert t s. induction evs as [|ev evs IH]; intros t s Hp Hinv.
  { simpl. now rewrite app_nil_r. }
  assert (Hev : read_result P t (read_event_step ev s)).
  { apply read_event_ok; [|done]. intros HP. specialize (Hp HP). by apply Forall_inv in Hp. }
  cbn [read_events]. destruct (read_event_step ev s) as [t1 [[s1|]|]]; [|done|done].
  simpl in Hev. assert (Hres : read_result P (t ++ t1) (read_events evs s1)).
  { apply IH; [|done]. intros HP. specialize (Hp HP). by apply Forall_inv_tail in Hp. }
  cbn [tbind]. destruct (read_events evs s1) as [t2 [[s2|]|]]; simpl in *;
    by rewrite <- ?app_assoc in Hres.
Qed.

(** C13: the user of a read is called at most once, and a read that asked a remote replica
    never ends cleanly.  For a read that is started and then meets any completions of its
    local I/O and any responses, whatever the calls in between run into: a read that is
    refused has no effect; while its coordinator is live the user has not been called; when
    the coordinator has been freed once the user has been called exactly once and, if the
    table of pending reads took it each time, no request was ever sent; and when the run
    ends in undefined behaviour the user has been called at most once.  A read that sent a
    request is in the table, which frees what is removed from it, and the coordinator is then
    freed again.  No run of a read goes on for ever. *)
Theorem read_calls_user_once dma re put le ctx_ok initialized m id off len tid buf user_cb evs :
  match xsan_volume_read_async dma re put le ctx_ok initialized m id off len tid buf user_cb with
  | (t, Some (None, e)) => t = [] /\ e <> XSAN_OK
  | (t, None) => (length (rusers t) <= 1)%nat
  | (t, Some (Some s, e)) => e = XSAN_OK /\
      match read_events evs s with
      | (t', Some (Some s')) =>
          match rs_ctx s' with
          | Some _ => rusers (t ++ t') = []
          | None => (exists st, rusers (t ++ t') = [st]) /\
              ((forall i, put i = true) -> Forall event_puts evs -> asked (t ++ t') = false)
          end
      | (_, Some None) => False
      | (t', None) => (length (rusers (t ++ t')) <= 1)%nat
      end
  end.
Proof.
  unfold xsan_volume_read_async.
  destruct (_ || _ || _ || _); [done|]. destruct (get_by_id m id) as [vol|]; [|done].
  destruct (_ || _ || _ || _); [split; auto with xsan|].
  destruct (xsan_replica_read_coordinator_ctx_create _ _ _ _ _ _ _) as [c|] eqn:Hc;
    [|split; auto with xsan].
  assert (Hidx : rd_idx c = 0).
  { unfold xsan_replica_read_coordinator_ctx_create in Hc.
    destruct (_ || _ || _); [done|]. now injection Hc as <-. }
  set (env := ReadEnv _ dma re put). set (P := (forall i, put i = true) /\ Forall event_puts evs).
  assert (Hstart : read_result P [] (try_read_from_next_replica READ_FUEL env (RState (Some c) false))).
  { apply (ends_read P [] (RState (Some c) false) c).
    - done.
    - unfold read_inv. simpl. unfold XSAN_MAX_REPLICAS. split_and!; (done || lia).
    - apply (try_read_ends P READ_FUEL env (RState (Some c) false) c); [|done|lia].
      intros [HP _]. exact HP.
    - apply (try_read_total env _ c); [done|lia]. }
  destruct (try_read_from_next_replica READ_FUEL env _) as [t [[s|]|]]; simpl in Hstart |- *;
    [|done|done].
  rewrite app_nil_r. split; [done|].
  assert (Hevs : read_result P t (read_events evs s)) by (apply read_events_ok; [by intros [_ ?]|done]).
  destruct (read_events evs s) as [t' [[s'|]|]]; simpl in Hevs; [|done|done].
  unfold read_inv in Hevs. destruct (rs_ctx s'); [tauto|].
  destruct Hevs as (_ & Ha & Hst). split; [done|]. intros H1 H2. apply Ha. by split.
Qed.

(** A successful response with the right amount of data puts exactly that data
    into the user's buffer and reports success once, and then frees the coordinator
    twice; a response with another length, or a failure, counts as a failed attempt
    and moves to the next replica. *)
Theorem remote_read_response env dma s c tid status data :
  rs_ctx s = Some c -> rs_table s = true -> rd_tid c = tid -> 1 <= rd_idx c < XSAN_MAX_REPLICAS ->
  rd_dma c <> None ->
  process_replica_read_response env true dma s tid status (Some data) (Zlen data) =
  if (status =? XSAN_OK) && (Zlen data =? rd_length c)
  then ([RCopied data; RUser XSAN_OK], None)
  else try_read_from_next_replica READ_FUEL env
         (RState (Some (with_attempt c (rd_idx c + 1)
            (if status =? XSAN_OK then XSAN_ERROR_PROTOCOL_GENERIC else status) None)) true).
Proof.
  intros Hs Ht Htid Hi Hd. unfold process_replica_read_response, rderef. rewrite Ht, Hs.
  cbn [negb orb]. rewrite tbind_ret, Htid, Z.eqb_refl. cbn [negb].
  assert (Hnext : forall e, e <> XSAN_OK ->
    read_attempt_complete_cb (try_read_from_next_replica READ_FUEL env) (RState (Some c) true) e =
    try_read_from_next_replica READ_FUEL env
      (RState (Some (with_attempt c (rd_idx c + 1) e None)) true)).
  { intros e He. unfold read_attempt_complete_cb, rderef, next_attempt.
    cbn [rs_ctx rs_table]. rewrite tbind_ret, swrap_next by lia.
    destruct (Z.eqb_spec e XSAN_OK); [done|reflexivity]. }
  destruct (Z.eqb_spec status XSAN_OK) as [->|Hst]; cbn [andb]; [|now apply Hnext].
  destruct (Z.eqb_spec (Zlen data) (rd_length c)) as [Hl|Hl]; [|apply Hnext; auto with xsan].
  destruct (rd_dma c) as [d|]; [|done]. unfold read_attempt_complete_cb, rderef. cbn [rs_ctx].
  rewrite tbind_ret. simpl. destruct (Z.ltb_spec 0 (rd_idx c)); [|lia].
  unfold Zlen in *. rewrite <- Hl, Nat2Z.id, !firstn_all. reflexivity.
Qed.

End Reads.

(** ** Witnesses *)

#[local] Instance toy_store : MetaStore mem_db := rocksdb_meta_store (fun _ => true).

Definition read_ctx (idx : Z) : xsan_replica_read_coordinator_ctx :=
  ReadCtx pair_volume 0 4 idx XSAN_OK 60 (Some [0; 0; 0; 0]) None.

(** Nothing can be allocated and the local read fails. *)
Definition poor_env : read_env :=
  ReadEnv (Some XSAN_ERROR_IO) (fun _ => None)
    (fun _ => ReplicaEnv false (fun _ => false) [] [] None (ConnectEnv true true true None))
    (fun _ => true).

Lemma read_terminates_witness :
  exists t s, try_read_from_next_replica 100 poor_env (RState (Some (read_ctx 0)) false) =
    (t, Some (Some s)) /\ rusers t = [XSAN_ERROR_OUT_OF_MEMORY].
Proof.
  destruct (read_terminates by_id) as [Hfuel _].
  destruct (Hfuel poor_env (RState (Some (read_ctx 0)) false) (read_ctx 0) 100%nat eq_refl)
    as [He _]; [vm_compute; discriminate|unfold READ_FUEL; lia|].
  rewrite He. eexists _, _. split; [vm_compute; reflexivity|reflexivity].
Defined.

Lemma remote_read_response_witness :
  process_replica_read_response poor_env true None (RState (Some (read_ctx 1)) true) 60 XSAN_OK
    (Some [5; 6; 7; 8]) 4 = ([RCopied [5; 6; 7; 8]; RUser XSAN_OK], None).
Proof.
  refine (remote_read_response poor_env None (RState (Some (read_ctx 1)) true) (read_ctx 1) 60
    XSAN_OK [5; 6; 7; 8] eq_refl eq_refl eq_refl _ _).
  - vm_compute. split; [discriminate|reflexivity].
  - discriminate.
Defined.
