(* ===== verification/ReplicaHandler.v ===== *)
(** * Requests of other nodes
    (the handlers of [src/src/storage/volume_manager.c], lines 1363-1589)

    A node that holds a replica serves the write and read requests of the primary.
    A request is checked, its local I/O is submitted, and the message is destroyed;
    a request that fails a check is answered with an error.  The answer to an
    accepted request is the work of [_handle_replica_local_io_complete_cb], which is
    declared and called but defined nowhere: its calls are events.  The handlers are
    composed with the requests that [Replication.v] and [ReplicaRead.v] send and with
    the framing of [NodeComm.v], which reads a message again after its handler has
    destroyed it. *)

From stdpp Require Import prelude strings gmap.
From Stdlib Require Import ZArith Lia Ascii.
From S2P Require Import Prelude Errors Protocol NodeComm StringUtils Json VolumeMeta MetadataStore.
From S2P Require Import Cluster Volume Io VolumeIo Replication ReplicaRead.

(** ** Payloads *)

(** The fields of a request: volume, logical block and number of blocks. *)
Definition req_fields (p : list Z) : uuid * Z * Z := (load 0 16 p, load 16 8 p, load 24 4 p).

(** The packed response structures; a status is a 32-bit signed integer. *)
Definition write_resp_payload (status : xsan_error_t) (lba num_blocks : Z) : list Z :=
  le_bytes 4 (wrap 32 status) ++ le_bytes 8 lba ++ le_bytes 4 num_blocks.
Definition read_resp_payload (status : xsan_error_t) (id : uuid) (lba num_blocks : Z) : list Z :=
  le_bytes 4 (wrap 32 status) ++ le_bytes 16 id ++ le_bytes 8 lba ++ le_bytes 4 num_blocks.

Inductive hevent :=
  | HSubmitted (io : xsan_io_request * physical_io_ctx)   (* local I/O accepted *)
  | HLocalDone (status : xsan_error_t)   (* _handle_replica_local_io_complete_cb *)
  | HReply (m : xsan_message)            (* handed to xsan_node_comm_send_msg *)
  | HDestroyMsg.

Record handler_env := HandlerEnv {
  he_ctx : bool;
  he_dma : option (list Z);
  he_local : attempt_env;
  he_malloc : Z -> bool;
  he_block : list Z;
  he_fresh : list Z;
  he_resp : bool
}.

Section Handlers.
Context {JC : JsonC} {SU : SpdkUuid} {SC : StorageCodes}.
Context {St : Type} {MS : MetaStore St} {DM : Type} {DK : DiskManager DM}.
Variable get_by_id : xsan_volume_manager St DM -> uuid -> option xsan_volume.

(** The local I/O of a request and the call made when it is not accepted. *)
Definition serve (result : option (xsan_io_request * physical_io_ctx) * option xsan_error_t *
    list vio_event) : traced hevent unit :=
  match result with
  | (_, None, _) => tundef
  | (io, Some e, _) =>
      if negb (e =? XSAN_OK) then temit (HLocalDone e)
      else match io with Some io => temit (HSubmitted io) | None => tret tt end
  end.

Definition send_reply (env : handler_env) (reply : option xsan_message) : traced hevent unit :=
  match reply with
  | Some m => if he_resp env then temit (HReply m) else tret tt
  | None => tret tt
  end.

Definition write_error_response (env : handler_env) (msg : xsan_message) (lba : Z)
    (err : xsan_error_t) : traced hevent unit :=
  let* _ := send_reply env
    (xsan_protocol_message_create (he_malloc env) (msg_type_code REPLICA_WRITE_BLOCK_RESP)
       (transaction_id (m_header msg)) (Some (write_resp_payload err lba 0)) 16 (he_fresh env)) in
  temit HDestroyMsg.

Definition read_error_response (env : handler_env) (msg : xsan_message) (id : uuid) (lba : Z)
    (err : xsan_error_t) : traced hevent unit :=
  let* _ := send_reply env
    (xsan_protocol_message_create_with_data (he_malloc env)
       (msg_type_code REPLICA_READ_BLOCK_RESP) (transaction_id (m_header msg))
       (Some (read_resp_payload err id lba 0)) 32 None 0 (he_block env) (he_fresh env)) in
  temit HDestroyMsg.

(** A null or short payload is read out of bounds; framing never makes one. *)
Definition payload_of (msg : xsan_message) : traced hevent (list Z) :=
  match m_payload msg with
  | Some p => if Zlen p <? payload_length (m_header msg) then tundef else tret p
  | None => tundef
  end.

Definition handle_replica_write_req (env : handler_env) (initialized conn : bool)
    (msg : option xsan_message) (vm : option (xsan_volume_manager St DM)) :
    traced hevent unit :=
  match msg, conn, vm with
  | None, _, _ => tret tt
  | Some msg, true, Some m =>
      let len := payload_length (m_header msg) in
      if negb (type (m_header msg) =? msg_type_code REPLICA_WRITE_BLOCK_REQ)
      then write_error_response env msg 0 XSAN_ERROR_INVALID_MSG_TYPE else
      if len <? XSAN_REPLICA_WRITE_REQ_PAYLOAD_SIZE
      then write_error_response env msg 0 XSAN_ERROR_PROTOCOL_GENERIC else
      let* p := payload_of msg in
      let '(id, lba, num_blocks) := req_fields p in
      let data_len := len - XSAN_REPLICA_WRITE_REQ_PAYLOAD_SIZE in
      let data := take (Z.to_nat data_len) (drop 28 p) in
      match get_by_id m id with
      | None => write_error_response env msg lba XSAN_ERROR_NOT_FOUND
      | Some vol =>
          if (v_block_size vol =? 0) || (num_blocks =? 0)
          then write_error_response env msg lba XSAN_ERROR_INVALID_PARAM else
          if negb (data_len =? wrap 64 (num_blocks * v_block_size vol))
          then write_error_response env msg lba XSAN_ERROR_INVALID_PARAM_SIZE else
          if negb (he_ctx env)
          then write_error_response env msg lba XSAN_ERROR_OUT_OF_MEMORY else
          let* _ := serve (submit_single_io_attempt get_by_id (he_local env) initialized m id
                      (wrap 64 (lba * v_block_size vol)) data_len (Some data) false true) in
          temit HDestroyMsg
      end
  | Some msg, _, _ => temit HDestroyMsg
  end.

Definition handle_replica_read_req (env : handler_env) (initialized conn : bool)
    (msg : option xsan_message) (vm : option (xsan_volume_manager St DM)) :
    traced hevent unit :=
  match msg, conn, vm with
  | None, _, _ => tret tt
  | Some msg, true, Some m =>
      let len := payload_length (m_header msg) in
      if negb (type (m_header msg) =? msg_type_code REPLICA_READ_BLOCK_REQ)
      then read_error_response env msg 0 0 XSAN_ERROR_INVALID_MSG_TYPE else
      if negb (len =? XSAN_REPLICA_READ_REQ_PAYLOAD_SIZE)
      then read_error_response env msg 0 0 XSAN_ERROR_PROTOCOL_GENERIC else
      let* p := payload_of msg in
      let '(id, lba, num_blocks) := req_fields p in
      match get_by_id m id with
      | None => read_error_response env msg id lba XSAN_ERROR_NOT_FOUND
      | Some vol =>
          if (v_block_size vol =? 0) || (num_blocks =? 0)
          then read_error_response env msg id lba XSAN_ERROR_INVALID_PARAM else
          if negb (he_ctx env)
          then read_error_response env msg id lba XSAN_ERROR_OUT_OF_MEMORY else
          match he_dma env with
          | None => read_error_response env msg id lba XSAN_ERROR_OUT_OF_MEMORY
          | Some dma =>
              let* _ := serve (submit_single_io_attempt get_by_id (he_local env) initialized m id
                          (wrap 64 (lba * v_block_size vol))
                          (wrap 64 (num_blocks * v_block_size vol)) (Some dma) true true) in
              temit HDestroyMsg
          end
      end
  | Some msg, _, _ => temit HDestroyMsg
  end.

(** * Theorems *)

(** ** Payload lemmas *)

Lemma load_le_bytes pre n z post :
  0 <= z < 256 ^ Z.of_nat n -> load (length pre) n (pre ++ le_bytes n z ++ post) = z.
Proof.
  intros Hz. unfold load. rewrite drop_app_length, take_app_length' by now rewrite le_bytes_length.
  rewrite le_val_bytes. now apply Z.mod_small.
Qed.

Lemma req_fields_payload id lba n data :
  in_u 128 id -> in_u 64 lba -> in_u 32 n ->
  req_fields (write_req_payload id lba n ++ data) = (id, lba, n).
Proof.
  unfold in_u. intros Hid Hlba Hn. unfold req_fields, write_req_payload. rewrite <- !app_assoc.
  f_equal; [f_equal|].
  - exact (load_le_bytes [] 16 id _ Hid).
  - pose proof (load_le_bytes (le_bytes 16 id) 8 lba (le_bytes 4 n ++ data) Hlba) as H.
    now rewrite le_bytes_length in H.
  - pose proof (load_le_bytes (le_bytes 16 id ++ le_bytes 8 lba) 4 n data Hn) as H.
    now rewrite length_app, !le_bytes_length, <- app_assoc in H.
Qed.

Lemma load_range off n p : is_bytes p -> (off + n <= length p)%nat ->
  0 <= load off n p < 256 ^ Z.of_nat n /\ le_bytes n (load off n p) = take n (drop off p).
Proof.
  intros Hb Hl. assert (Hb' : is_bytes (take n (drop off p)))
    by (apply Forall_take, Forall_drop, Hb).
  assert (Hlen : length (take n (drop off p)) = n) by (rewrite length_take, length_drop; lia).
  unfold load. split.
  - pose proof (le_val_range _ Hb') as H. unfold Zlen in H. now rewrite Hlen in H.
  - rewrite <- Hlen at 1. now apply le_bytes_val.
Qed.

(** Any payload that is long enough is the one of its fields. *)
Lemma payload_req_fields p id lba n :
  is_bytes p -> (28 <= length p)%nat -> req_fields p = (id, lba, n) ->
  p = write_req_payload id lba n ++ drop 28 p /\ in_u 128 id /\ in_u 64 lba /\ in_u 32 n.
Proof.
  intros Hb Hl [= <- <- <-].
  destruct (load_range 0 16 p Hb ltac:(lia)) as [H1 E1].
  destruct (load_range 16 8 p Hb ltac:(lia)) as [H2 E2].
  destruct (load_range 24 4 p Hb ltac:(lia)) as [H3 E3].
  split_and!; [|exact H1|exact H2|exact H3].
  unfold write_req_payload. rewrite E1, E2, E3, drop_0, <- !app_assoc.
  rewrite <- (take_drop 16 p) at 1. f_equal.
  rewrite <- (take_drop 8 (drop 16 p)) at 1. f_equal. rewrite drop_drop.
  rewrite <- (take_drop 4 (drop (16 + 8) p)) at 1. now rewrite drop_drop.
Qed.

Lemma write_req_payload_length id lba n : Zlen (write_req_payload id lba n) = 28.
Proof. unfold Zlen, write_req_payload. now rewrite !length_app, !le_bytes_length. Qed.

Lemma write_req_payload_bytes id lba n : is_bytes (write_req_payload id lba n).
Proof.
  unfold write_req_payload, is_bytes. rewrite !Forall_app. split_and!; apply le_bytes_range.
Qed.

(** ** Write requests *)

(** Messages as they arrive: byte payloads of the declared length. *)
Definition received (msg : xsan_message) : Prop :=
  exists p, is_bytes p /\ Zlen p = payload_length (m_header msg) /\
    m_payload msg = (if 0 <? Zlen p then Some p else None) /\
    in_u 64 (transaction_id (m_header msg)).

(** Every allocation succeeds and blocks have 32-bit sizes. *)
Definition resourceful (env : handler_env) (m : xsan_volume_manager St DM) : Prop :=
  he_ctx env = true /\ (forall n, he_malloc env n = true) /\ he_resp env = true /\
  (exists dma, he_dma env = Some dma) /\ Zlen (he_block env) = 32 /\
  forall id vol, get_by_id m id = Some vol -> in_u 32 (v_block_size vol).

(** A request to write the data to [n] blocks from [lba] of a volume of this node. *)
Record write_request_ok (m : xsan_volume_manager St DM) (msg : xsan_message) (vol : xsan_volume)
    (id : uuid) (lba n : Z) (data : list Z) : Prop := {
  wr_type : type (m_header msg) = msg_type_code REPLICA_WRITE_BLOCK_REQ;
  wr_payload : m_payload msg = Some (write_req_payload id lba n ++ data);
  wr_length : payload_length (m_header msg) = 28 + Zlen data;
  wr_id : in_u 128 id;
  wr_lba : in_u 64 lba;
  wr_n : in_u 32 n /\ n <> 0;
  wr_volume : get_by_id m id = Some vol;
  wr_block : v_block_size vol <> 0;
  wr_data : Zlen data = n * v_block_size vol
}.

Lemma blocks_no_wrap n bs : in_u 32 n -> in_u 32 bs -> wrap 64 (n * bs) = n * bs.
Proof. unfold in_u. intros. apply wrap_small. unfold in_u. pow2s. nia. Qed.

Lemma write_error_replies env msg lba err m :
  received msg -> resourceful env m ->
  exists r, write_error_response env msg lba err = ([HReply r; HDestroyMsg], Some tt) /\
    message_ok r (msg_type_code REPLICA_WRITE_BLOCK_RESP) (transaction_id (m_header msg))
      (write_resp_payload err lba 0).
Proof.
  intros (p & _ & _ & _ & Htid) (_ & Hm & Hr & _). unfold write_error_response.
  set (pl := write_resp_payload err lba 0).
  assert (Hlen : Zlen pl = 16).
  { unfold pl, write_resp_payload, Zlen. now rewrite !length_app, !le_bytes_length. }
  assert (Hb : is_bytes pl).
  { unfold pl, write_resp_payload, is_bytes. rewrite !Forall_app. split_and!; apply le_bytes_range. }
  destruct (xsan_protocol_message_create (he_malloc env) _ _ (Some pl) 16 (he_fresh env))
    as [r|] eqn:Hc.
  - exists r. simpl. rewrite Hr. split; [done|].
    pose proof (message_create_ok _ _ _ (Some pl) 16 _ r Htid ltac:(lia)
      ltac:(intros d [= <-]; split; [done|lia]) Hc) as Hok.
    unfold created_payload in Hok. now rewrite firstn_all2 in Hok by (unfold Zlen in Hlen; lia).
  - exfalso. revert Hc. unfold xsan_protocol_message_create, finish_message.
    change (XSAN_PROTOCOL_MAX_PAYLOAD_SIZE <? 16) with false. cbn iota.
    rewrite !Hm. done.
Qed.

Lemma write_request_served env init m msg vol id lba n data :
  resourceful env m -> write_request_ok m msg vol id lba n data ->
  handle_replica_write_req env init true (Some msg) (Some m) =
    let* _ := serve (submit_single_io_attempt get_by_id (he_local env) init m id
                (wrap 64 (lba * v_block_size vol)) (Zlen data) (Some data) false true) in
    temit HDestroyMsg.
Proof.
  intros Hres [Ht Hp Hl Hid Hlba [Hn Hn0] Hv Hb Hd].
  destruct Hres as (Hctx & _ & _ & _ & _ & Hbs). pose proof (Zlen_nonneg data).
  unfold handle_replica_write_req, payload_of. rewrite Ht, Z.eqb_refl, Hl, Hp. cbn [negb].
  unfold XSAN_REPLICA_WRITE_REQ_PAYLOAD_SIZE.
  destruct (Z.ltb_spec (28 + Zlen data) 28); [lia|].
  rewrite Zlen_app, write_req_payload_length, Z.ltb_irrefl, tbind_ret.
  rewrite (req_fields_payload id lba n data Hid Hlba Hn), Hv.
  destruct (Z.eqb_spec (v_block_size vol) 0); [done|]. destruct (Z.eqb_spec n 0); [done|].
  cbn [orb]. rewrite blocks_no_wrap by eauto.
  replace (28 + Zlen data - 28) with (Zlen data) by lia. rewrite <- Hd, Z.eqb_refl, Hctx.
  cbn [negb]. rewrite drop_app_length' by
    (pose proof (write_req_payload_length id lba n) as H'; unfold Zlen in H'; lia).
  rewrite firstn_all2 by (unfold Zlen; lia). reflexivity.
Qed.

(** C12: a node serves exactly the well-formed write requests for its volumes.  A
    request with the right type, whose payload is the fields of an existing volume, a
    block range and that many blocks of data, is submitted to the local volume at that
    position with exactly that data; every other request is answered with one error
    response that carries its transaction number, and nothing is written.  The
    message is destroyed once in either case. *)
Theorem replica_write_requests env init m msg :
  received msg -> resourceful env m ->
  (forall vol id lba n data, write_request_ok m msg vol id lba n data ->
     handle_replica_write_req env init true (Some msg) (Some m) =
     let* _ := serve (submit_single_io_attempt get_by_id (he_local env) init m id
                 (wrap 64 (lba * v_block_size vol)) (Zlen data) (Some data) false true) in
     temit HDestroyMsg) /\
  (~ (exists vol id lba n data, write_request_ok m msg vol id lba n data) ->
   exists r e lba, handle_replica_write_req env init true (Some msg) (Some m) =
       ([HReply r; HDestroyMsg], Some tt) /\ e <> XSAN_OK /\
     message_ok r (msg_type_code REPLICA_WRITE_BLOCK_RESP) (transaction_id (m_header msg))
       (write_resp_payload e lba 0)).
Proof.
  intros Hrec Hres. split.
  - intros vol id lba n data Hw. now apply (write_request_served env init m msg vol id lba n).
  - intros Hno. pose proof Hrec as (p & Hb & Hl & Hp & _).
    pose proof Hres as (Hctx & _ & _ & _ & _ & Hbs).
    assert (Herr : forall e lba, e <> XSAN_OK ->
      exists r e' lba', write_error_response env msg lba e = ([HReply r; HDestroyMsg], Some tt) /\
        e' <> XSAN_OK /\ message_ok r (msg_type_code REPLICA_WRITE_BLOCK_RESP)
          (transaction_id (m_header msg)) (write_resp_payload e' lba' 0)).
    { intros e lba He. destruct (write_error_replies env msg lba e m Hrec Hres) as (r & Hr & Hok).
      now exists r, e, lba. }
    unfold handle_replica_write_req.
    destruct (Z.eqb_spec (type (m_header msg)) (msg_type_code REPLICA_WRITE_BLOCK_REQ)) as [Ht|];
      cbn [negb]; [|apply Herr; auto with xsan].
    unfold XSAN_REPLICA_WRITE_REQ_PAYLOAD_SIZE.
    destruct (Z.ltb_spec (payload_length (m_header msg)) 28); [apply Herr; auto with xsan|].
    unfold payload_of. destruct (Z.ltb_spec 0 (Zlen p)) as [Hpos|]; [|lia].
    rewrite Hp, <- Hl, Z.ltb_irrefl, tbind_ret.
    destruct (req_fields p) as [[id lba] n] eqn:Hf.
    destruct (payload_req_fields p id lba n Hb ltac:(unfold Zlen in *; lia) Hf)
      as (Heq & Hid & Hlba & Hn).
    destruct (get_by_id m id) as [vol|] eqn:Hv; [|apply Herr; auto with xsan; done].
    destruct (Z.eqb_spec (v_block_size vol) 0); [apply Herr; done|].
    destruct (Z.eqb_spec n 0); [apply Herr; done|]. cbn [orb]. rewrite blocks_no_wrap by eauto.
    destruct (Z.eqb_spec (Zlen p - 28) (n * v_block_size vol)) as [Hd|]; cbn [negb];
      [|apply Herr; auto with xsan].
    destruct Hno. exists vol, id, lba, n, (drop 28 p). constructor; try done.
    + now rewrite <- Heq.
    + rewrite <- Hl. unfold Zlen in *. rewrite length_drop. lia.
    + unfold Zlen in *. rewrite length_drop. lia.
Qed.

(** ** From one node to another *)

Lemma message_ok_wire msg ty tid p :
  in_u 64 tid -> message_ok msg ty tid p -> wire_ok msg /\ received msg.
Proof.
  intros Ht Hok. pose proof (message_ok_wf _ _ _ _ Ht Hok) as (Hw & Hm & Hl).
  pose proof (f_equal transaction_id (mo_clear _ _ _ _ Hok)) as Htid. simpl in Htid.
  destruct Hok as [_ Hp Hb Hmax _ _]. split.
  - constructor; [done|done|now rewrite Hl|]. exists p. now rewrite Hl.
  - exists p. rewrite Hl, Htid. done.
Qed.

(** The message is still allocated after this call of a handler. *)
Definition message_left (call : traced hevent unit) : bool :=
  match call with
  | (tr, Some _) => negb (existsb (fun e => match e with HDestroyMsg => true | _ => false end) tr)
  | (_, None) => false
  end.

(** The messages that the handlers keep, given the handler of one type. *)
Definition handler_keeps (ty : Z) (handler : xsan_message -> traced hevent unit)
    (others : dispatched -> bool) (d : dispatched) : bool :=
  match d with
  | ToSpecific t msg => if t =? ty then message_left (handler msg) else others d
  | _ => others d
  end.

Lemma destroyed_not_left (call : traced hevent unit) :
  message_left (let* _ := call in temit HDestroyMsg) = false.
Proof.
  destruct call as [tr [[]|]]; [|done]. simpl. rewrite existsb_app. simpl.
  by rewrite orb_true_r.
Qed.

(** A message alone on a connection reaches the handler of its type; when the handler
    destroys it, the receive run ends with the read of the freed message. *)
Lemma message_reaches_handler mok g handler others recv app msg ty tid p n o ds
    (call : traced hevent unit) :
  (forall k, mok k = true) -> in_u 64 tid -> message_ok msg ty tid p ->
  0 < ty < XSAN_MSG_TYPE_MAX -> specific_handlers g ty = true ->
  process mok g (handler_keeps ty handler others) recv n 0 (create_connection_ctx app)
    = (o, ds, wire_bytes msg) ->
  handler msg = (let* _ := call in temit HDestroyMsg) ->
  ds = [ToSpecific ty msg] /\ o = Undefined.
Proof.
  intros Hmok Ht Hok Hty Hg Hpr Hcall. destruct (message_ok_wire msg ty tid p Ht Hok) as [Hw _].
  assert (Htype : type (m_header msg) = ty).
  { pose proof (f_equal type (mo_clear _ _ _ _ Hok)) as H. simpl in H. rewrite H.
    apply wrap_small. unfold in_u, XSAN_MSG_TYPE_MAX in *. pow2s. lia. }
  set (keeps := handler_keeps ty handler others) in *.
  assert (Hfreed : freed keeps (ToSpecific ty msg) = true).
  { unfold freed, keeps, handler_keeps. by rewrite Z.eqb_refl, Hcall, destroyed_not_left. }
  assert (Hd : dispatch g app msg = ToSpecific ty msg).
  { unfold dispatch. rewrite Htype, Hg.
    destruct (Z.ltb_spec 0 ty); [|lia]. by destruct (Z.ltb_spec ty XSAN_MSG_TYPE_MAX); [|lia]. }
  assert (Hds : ds = [ToSpecific ty msg]).
  { rewrite (stream_dispatched mok g keeps recv app [msg] n o ds Hmok ltac:(now constructor)).
    - cbn [map until_freed]. by rewrite Hd, Hfreed.
    - cbn [map concat]. now rewrite app_nil_r. }
  split; [done|]. apply (process_undefined mok g keeps recv app n o ds _ Hpr).
  subst ds. cbn [existsb]. by rewrite Hfreed.
Qed.

(** The block numbers of a request give its byte range back. *)
Lemma block_range bs off len :
  in_u 32 bs -> bs <> 0 -> in_u 64 off -> off mod bs = 0 -> len mod bs = 0 ->
  0 < len < 2 ^ 32 ->
  in_u 64 (off / bs) /\ in_u 32 (wrap 32 (len / bs)) /\ wrap 32 (len / bs) <> 0 /\
  wrap 64 (off / bs * bs) = off /\ wrap 32 (len / bs) * bs = len.
Proof.
  unfold in_u. intros Hbs Hnz Hoff Hm Hml Hlen.
  assert (Ho : off / bs * bs = off) by (rewrite Z.mul_comm; symmetry; now apply Z.div_exact).
  assert (Hl : len / bs * bs = len) by (rewrite Z.mul_comm; symmetry; now apply Z.div_exact).
  assert (0 <= off / bs <= off) by (split; [apply Z.div_pos; lia|nia]).
  assert (0 < len / bs <= len) by nia.
  rewrite (wrap_small 32) by (unfold in_u; lia). rewrite Ho, (wrap_small 64) by (unfold in_u; lia).
  split_and!; lia.
Qed.

(** C6: a block written on the primary reaches the replica unchanged.  The request
    that the primary builds, put on the wire and received in pieces of any size, is
    dispatched to the write handler of the other node, which submits a local write of
    the same bytes at the same position of its volume.  The handler then destroys the
    message, and the receive run ends undefined: the framing code reads the length of the
    destroyed message.  Allocations succeed, and offset and length are multiples of the
    block size, which both nodes have. *)
Theorem replica_write_end_to_end re tid id bs off len buf msg mok g others recv app n o ds env init m vol :
  write_request re tid id bs off len buf = Some msg ->
  in_u 64 tid -> in_u 128 id -> is_bytes buf -> Zlen buf = len -> 0 < len -> 28 + len < 2 ^ 64 ->
  in_u 64 off -> off mod bs = 0 -> len mod bs = 0 -> Zlen (re_block re) = 28 + len ->
  (forall k, mok k = true) -> specific_handlers g (msg_type_code REPLICA_WRITE_BLOCK_REQ) = true ->
  process mok g (handler_keeps (msg_type_code REPLICA_WRITE_BLOCK_REQ)
      (fun msg' => handle_replica_write_req env init true (Some msg') (Some m)) others)
    recv n 0 (create_connection_ctx app) = (o, ds, wire_bytes msg) ->
  resourceful env m -> get_by_id m id = Some vol -> v_block_size vol = bs -> bs <> 0 ->
  ds = [ToSpecific (msg_type_code REPLICA_WRITE_BLOCK_REQ) msg] /\ o = Undefined /\
  handle_replica_write_req env init true (Some msg) (Some m) =
    let* _ := serve (submit_single_io_attempt get_by_id (he_local env) init m id off len
                (Some buf) false true) in
    temit HDestroyMsg.
Proof.
  intros Hreq Htid Hid Hb Hlen Hpos Hmax Hoff Hom Hlm Hblk Hmok Hg Hpr Hres Hv Hbs Hnz.
  set (pl := write_req_payload id (off / bs) (wrap 32 (len / bs))).
  pose proof (write_req_payload_length id (off / bs) (wrap 32 (len / bs))) as Hpl. fold pl in Hpl.
  assert (Hok : message_ok msg (msg_type_code REPLICA_WRITE_BLOCK_REQ) tid (pl ++ buf)).
  { unfold write_request in Hreq. fold pl in Hreq.
    change XSAN_REPLICA_WRITE_REQ_PAYLOAD_SIZE with 28 in Hreq. rewrite <- Hpl, <- Hlen in Hreq.
    refine (message_create_with_data_ok _ _ _ _ _ _ _ _ Htid _ Hb _ _ Hreq);
      [apply write_req_payload_bytes|lia|lia]. }
  assert (Hbs32 : in_u 32 bs) by (rewrite <- Hbs; destruct Hres as (_ & _ & _ & _ & _ & H); eauto).
  assert (Hmaxl : len < 2 ^ 32).
  { pose proof (mo_len _ _ _ _ Hok) as H. rewrite Zlen_app, Hpl in H.
    unfold XSAN_PROTOCOL_MAX_PAYLOAD_SIZE in H. pow2s. lia. }
  destruct (block_range bs off len Hbs32 Hnz Hoff Hom Hlm ltac:(lia)) as (H1 & H2 & H3 & H4 & H5).
  assert (Hw : write_request_ok m msg vol id (off / bs) (wrap 32 (len / bs)) buf).
  { pose proof (message_ok_wf _ _ _ _ Htid Hok) as (_ & _ & Hl). rewrite Zlen_app, Hpl in Hl.
    constructor; try done.
    - pose proof (f_equal type (mo_clear _ _ _ _ Hok)) as Ht. exact Ht.
    - rewrite (mo_payload _ _ _ _ Hok), Zlen_app, Hpl.
      destruct (Z.ltb_spec 0 (28 + Zlen buf)); [done|lia].
    - congruence.
    - rewrite Hbs. lia. }
  pose proof (write_request_served env init m msg vol _ _ _ _ Hres Hw) as Hh.
  rewrite Hbs, H4, Hlen in Hh. apply and_assoc. split; [|done].
  refine (message_reaches_handler mok g _ others recv app msg _ tid _ n o ds _ Hmok Htid Hok _ Hg
    Hpr Hh).
  vm_compute. split; reflexivity.
Qed.

(** ** Read requests *)

Lemma read_request_served env init m msg vol id lba n tid :
  resourceful env m ->
  message_ok msg (msg_type_code REPLICA_READ_BLOCK_REQ) tid (read_req_payload id lba n) ->
  in_u 64 tid -> in_u 128 id -> in_u 64 lba -> in_u 32 n -> n <> 0 ->
  get_by_id m id = Some vol -> v_block_size vol <> 0 ->
  exists dma, he_dma env = Some dma /\
  handle_replica_read_req env init true (Some msg) (Some m) =
    let* _ := serve (submit_single_io_attempt get_by_id (he_local env) init m id
                (wrap 64 (lba * v_block_size vol)) (n * v_block_size vol) (Some dma) true true) in
    temit HDestroyMsg.
Proof.
  intros (Hctx & _ & _ & [dma Hdma] & _ & Hbs) Hok Htid Hid Hlba Hn Hn0 Hv Hb. exists dma.
  split; [done|]. pose proof (message_ok_wf _ _ _ _ Htid Hok) as (_ & _ & Hl).
  assert (Hpl : Zlen (read_req_payload id lba n) = 28) by apply write_req_payload_length.
  assert (Hp : m_payload msg = Some (read_req_payload id lba n))
    by (rewrite (mo_payload _ _ _ _ Hok), Hpl; done).
  assert (Ht : type (m_header msg) = msg_type_code REPLICA_READ_BLOCK_REQ)
    by (pose proof (f_equal type (mo_clear _ _ _ _ Hok)) as Ht; exact Ht).
  assert (Hf : req_fields (read_req_payload id lba n) = (id, lba, n)).
  { rewrite <- (app_nil_r (read_req_payload id lba n)). now apply req_fields_payload. }
  unfold handle_replica_read_req, payload_of. rewrite Ht, Hl, Hp, Hpl. cbn [negb].
  change (28 =? XSAN_REPLICA_READ_REQ_PAYLOAD_SIZE) with true. cbn [negb].
  rewrite Z.eqb_refl, Z.ltb_irrefl, tbind_ret, Hf, Hv. cbn [negb].
  destruct (Z.eqb_spec (v_block_size vol) 0); [done|]. destruct (Z.eqb_spec n 0); [done|].
  cbn [orb]. rewrite Hctx, Hdma, (blocks_no_wrap n) by eauto. done.
Qed.


End Handlers.

(** ** Witnesses *)

#[local] Instance toy_store : MetaStore mem_db := rocksdb_meta_store (fun _ => true).

Definition rich_env : handler_env :=
  HandlerEnv true (Some [0; 0; 0; 0]) ok_env (fun _ => true) (replicate 32 0) (replicate 64 0) true.
Definition rich_replica : replica_env :=
  ReplicaEnv true (fun _ => true) (replicate 32 0) (replicate 64 0) None
    (ConnectEnv true true true None).
Definition both_handlers : handler_table := mk_handlers true (fun t => (t =? 600) || (t =? 602)).

Lemma rich_resourceful : resourceful by_id rich_env pair_vm.
Proof.
  split_and!; try done; [now exists [0; 0; 0; 0]|]. intros id vol Hv.
  unfold by_id in Hv. simpl in Hv. destruct (decide (7 = id)); [|done]. simpl in Hv.
  injection Hv as <-. vm_compute. split; congruence.
Qed.

(** A request for a volume this node does not have. *)
Definition stray_request : xsan_message :=
  mk_message (mk_header XSAN_PROTOCOL_MAGIC 600 1 28 5 0) (Some (write_req_payload 99 0 1)).

Lemma stray_received : received stray_request.
Proof.
  exists (write_req_payload 99 0 1). split_and!; [apply write_req_payload_bytes|done|done|].
  vm_compute. split; congruence.
Qed.

Lemma replica_write_requests_witness :
  exists r e lba, handle_replica_write_req by_id rich_env true true (Some stray_request)
      (Some pair_vm) = ([HReply r; HDestroyMsg], Some tt) /\ e <> XSAN_OK /\
    message_ok r 601 5 (write_resp_payload e lba 0).
Proof.
  destruct (replica_write_requests by_id rich_env true pair_vm stray_request stray_received
    rich_resourceful) as [_ Hno].
  apply Hno. intros (vol & id & lba & n & data & [_ Hp _ Hid Hlba [Hn _] Hv _ _]).
  assert (Hid99 : id = 99).
  { pose proof (req_fields_payload id lba n data Hid Hlba Hn) as Hf.
    change (m_payload stray_request) with (Some (write_req_payload 99 0 1)) in Hp.
    apply (inj Some) in Hp. rewrite <- Hp in Hf. vm_compute in Hf. congruence. }
  subst id. vm_compute in Hv. discriminate Hv.
Defined.

Lemma replica_write_end_to_end_witness :
  exists msg ds,
    write_request rich_replica 50 7 4 8 4 pair_data = Some msg /\
    process (fun _ => true) both_handlers
    (handler_keeps 600
      (fun msg' => handle_replica_write_req by_id rich_env true true (Some msg') (Some pair_vm))
      (fun _ => true))
    (drip_socket (wire_bytes msg)) 20 0
      (create_connection_ctx false) = (Undefined, ds, wire_bytes msg) /\
    ds = [ToSpecific 600 msg] /\
    handle_replica_write_req by_id rich_env true true (Some msg) (Some pair_vm) =
      let* _ := serve (submit_single_io_attempt by_id ok_env true pair_vm 7 8 4
                  (Some pair_data) false true) in temit HDestroyMsg.
Proof.
  destruct (write_request rich_replica 50 7 4 8 4 pair_data) as [msg|] eqn:Hreq;
    [|vm_compute in Hreq; discriminate Hreq].
  destruct (process (fun _ => true) both_handlers
    (handler_keeps 600
      (fun msg' => handle_replica_write_req by_id rich_env true true (Some msg') (Some pair_vm))
      (fun _ => true))
    (drip_socket (wire_bytes msg)) 20 0
    (create_connection_ctx false)) as [[o ds] bs] eqn:Hpr.
  assert (bs = wire_bytes msg) as ->.
  { vm_compute in Hreq. injection Hreq as <-. vm_compute in Hpr. now injection Hpr as _ _ <-. }
  destruct (replica_write_end_to_end by_id rich_replica 50 7 4 8 4 pair_data msg (fun _ => true)
    both_handlers (fun _ => true) (drip_socket (wire_bytes msg)) false 20 o ds rich_env true pair_vm pair_volume)
    as (Hds & Ho & Hh).
  - exact Hreq.
  - vm_compute; split; congruence.
  - vm_compute; split; congruence.
  - repeat constructor; lia.
  - reflexivity.
  - lia.
  - lia.
  - vm_compute; split; congruence.
  - reflexivity.
  - reflexivity.
  - reflexivity.
  - reflexivity.
  - reflexivity.
  - exact Hpr.
  - exact rich_resourceful.
  - reflexivity.
  - reflexivity.
  - discriminate.
  - exists msg, ds. rewrite Ho in Hpr. split_and!; [reflexivity|exact Hpr|exact Hds|exact Hh].
Defined.

