(* ===== verification/VolumeInit.v ===== *)
(** * Volume manager: start and stop
    ([src/src/storage/volume_manager.c], lines 94-133)

    The keys of the two tables of pending operations, the allocation of the manager
    with everything it owns, and its release.  The resources are a trace; whether
    each can be acquired is an argument.  Starting up scans the stored volumes with
    [load_metadata] of [Volume.v], which may never return: the result is then
    [None]. *)

From stdpp Require Import prelude strings gmap.
From Stdlib Require Import ZArith Lia Ascii.
From S2P Require Import Prelude Errors HashTable StringUtils Json VolumeMeta MetadataStore Cluster.
From S2P Require Import Volume.

(** ** Keys of the pending tables *)

(** Hash of a 64-bit transaction number. *)
Definition tid_hash (v : Z) : Z :=
  let v := wrap 64 (Z.lnot v + Z.shiftl v 21) in
  let v := Z.lxor v (Z.shiftr v 24) in
  let v := wrap 64 (v + Z.shiftl v 3 + Z.shiftl v 8) in
  let v := Z.lxor v (Z.shiftr v 14) in
  let v := wrap 64 (v + Z.shiftl v 2 + Z.shiftl v 4) in
  let v := Z.lxor v (Z.shiftr v 28) in
  let v := wrap 64 (v + Z.shiftl v 31) in
  wrap 32 v.

Section Tids.
(** The transaction number that a key points to. *)
Variable tid_at : ptr -> Z.

Definition uint64_tid_hash_func (key : ptr) : Z :=
  if key =? NULL then 0 else tid_hash (tid_at key).

Definition uint64_tid_key_compare_func (k1 k2 : ptr) : Z :=
  if k1 =? k2 then 0 else
  if k1 =? NULL then -1 else
  if k2 =? NULL then 1 else
  if tid_at k1 <? tid_at k2 then -1 else
  if tid_at k2 <? tid_at k1 then 1 else 0.

(** A key stands for the number it points to. *)
Definition tid_key (p : ptr) : option Z := if p =? NULL then None else Some (tid_at p).

(** The tables of pending operations meet the requirements of the hash table. *)
#[export] Instance tid_hash_key :
  HashKey tid_key uint64_tid_hash_func uint64_tid_key_compare_func.
Proof.
  constructor.
  - intros p q. unfold uint64_tid_key_compare_func, tid_key.
    destruct (Z.eqb_spec p q) as [->|Hne]; [done|].
    destruct (Z.eqb_spec p NULL), (Z.eqb_spec q NULL); try (split; [lia|done]); [congruence|].
    destruct (Z.ltb_spec (tid_at p) (tid_at q)); [split; [lia|intros [= ?]; lia]|].
    destruct (Z.ltb_spec (tid_at q) (tid_at p)); [split; [lia|intros [= ?]; lia]|].
    split; [intros _; f_equal; lia|done].
  - intros p. unfold uint64_tid_hash_func. destruct (p =? NULL); [split; reflexivity || lia|].
    apply wrap_range. lia.
  - intros p q. unfold tid_key, uint64_tid_hash_func.
    destruct (p =? NULL), (q =? NULL); congruence.
Qed.
End Tids.

(** ** Resources *)

Inductive vm_resource := VrManager | VrList | VrLock | VrIoLock | VrWrites | VrReads | VrStore.
Inductive vr_event := VrAcquire (r : vm_resource) | VrRelease (r : vm_resource).

#[export] Instance vm_resource_eq_dec : EqDecision vm_resource.
Proof. solve_decision. Defined.

Record init_env := InitEnv {
  ie_manager : bool;
  ie_list : bool;
  ie_lock : bool;
  ie_io_lock : bool;
  ie_writes : bool;
  ie_reads : bool;
  ie_store : bool
}.

Section Init.
Context {JC : JsonC} {SU : SpdkUuid} {SC : StorageCodes}.
Context {St : Type} {MS : MetaStore St} {DM : Type} {DK : DiskManager DM}.

(** The outcomes of the start-up scan, as arguments of [load_metadata]. *)
Record scan_env := ScanEnv {
  sc_alloc : cstring -> bool;
  sc_append : cstring -> bool;
  sc_dup : cstring -> bool;
  sc_tail : cstring -> cstring;
  sc_iter : option xsan_metadata_iterator
}.

(** The global instance after the call, and the code; [g] is the instance before,
    [dm] the disk manager and [st] the opened store. *)
Definition xsan_volume_manager_init (env : init_env) (scan : scan_env)
    (g : option (xsan_volume_manager St DM)) (dm : option DM) (st : St) :
    traced vr_event (option (xsan_volume_manager St DM) * xsan_error_t) :=
  match g, dm with
  | Some _, _ => tret (g, XSAN_OK)
  | None, None => tret (None, XSAN_ERROR_INVALID_PARAM)
  | None, Some dm =>
      let fail (t : list vr_event) (e : xsan_error_t) := (t, Some (None, e)) in
      if negb (ie_manager env) then fail [] XSAN_ERROR_OUT_OF_MEMORY else
      let t := [VrAcquire VrManager] in
      if negb (ie_list env) then fail (t ++ [VrRelease VrManager]) XSAN_ERROR_SYSTEM else
      let t := t ++ [VrAcquire VrList] in
      if negb (ie_lock env) then fail (t ++ [VrRelease VrManager]) XSAN_ERROR_SYSTEM else
      let t := t ++ [VrAcquire VrLock] in
      if negb (ie_io_lock env) then fail (t ++ [VrRelease VrManager]) XSAN_ERROR_SYSTEM else
      let t := t ++ [VrAcquire VrIoLock] in
      let undo := [VrRelease VrLock; VrRelease VrIoLock; VrRelease VrList; VrRelease VrManager] in
      if negb (ie_writes env) then fail (t ++ undo) XSAN_ERROR_OUT_OF_MEMORY else
      let t := t ++ [VrAcquire VrWrites] in
      if negb (ie_reads env)
      then fail (t ++ VrRelease VrWrites :: undo) XSAN_ERROR_OUT_OF_MEMORY else
      let t := t ++ [VrAcquire VrReads] in
      if negb (ie_store env)
      then fail (t ++ VrRelease VrReads :: VrRelease VrWrites :: undo) XSAN_ERROR_STORAGE_GENERIC
      else
      let t := t ++ [VrAcquire VrStore] in
      match load_metadata (sc_alloc scan) (sc_append scan) (sc_dup scan) (sc_tail scan) true
              (sc_iter scan) (Vm [] dm st false []) with
      | None => (t, None)
      | Some (vm, _) => (t, Some (Some vm, XSAN_OK))
      end
  end.

(** [vm_ptr] is the caller's pointer, if it passes one; both it and the global
    instance are cleared when the manager they name is released. *)
Definition xsan_volume_manager_fini (vm_set g_set same : bool) :
    list vr_event * (bool * bool) :=
  if negb (vm_set || g_set) then ([], (false, g_set)) else
  ([VrRelease VrWrites; VrRelease VrReads; VrRelease VrIoLock; VrRelease VrList;
    VrRelease VrStore; VrRelease VrLock; VrRelease VrManager],
   (false, if vm_set then (if same then false else g_set) else false)).

(** * Theorems *)

(** The resources that a trace leaves behind. *)
Definition held (t : list vr_event) : list vm_resource :=
  fold_left (fun l e => match e with
                        | VrAcquire r => r :: l
                        | VrRelease r => filter (fun q => q <> r) l
                        end) t [].

(** Starting the volume manager acquires all of its resources or none, except
    that a mutex that cannot be created leaves the list of volumes, and the first
    mutex when it was the second that failed, behind; stopping it after a successful
    start releases everything.  A start that finds a stored volume it can load does
    not return. *)
Theorem volume_manager_resources env scan dm st :
  match xsan_volume_manager_init env scan None (Some dm) st with
  | (t, Some (None, e)) => e <> XSAN_OK /\
      held t = (if ie_manager env && ie_list env then
                  if negb (ie_lock env) then [VrList]
                  else if negb (ie_io_lock env) then [VrLock; VrList] else []
                else [])
  | (t, Some (Some vm, e)) => e = XSAN_OK /\ vm_locked vm = false /\
      vm_volumes vm = [] /\ held (t ++ (xsan_volume_manager_fini false true true).1) = []
  | (t, None) => exists iter, sc_iter scan = Some iter /\
      Exists (loadable (sc_alloc scan) (sc_append scan) (sc_tail scan))
        (take_prefix $"v:" (it_rest (xsan_metadata_iterator_seek iter (Some $"v:"))))
  end.
Proof.
  destruct env as [m l lk io w r s]. unfold xsan_volume_manager_init. cbn [ie_manager ie_list
    ie_lock ie_io_lock ie_writes ie_reads ie_store].
  destruct m; cbn [negb]; [|split; [auto with xsan|done]].
  destruct l; cbn [negb]; [|split; done]. destruct lk; cbn [negb]; [|split; done].
  destruct io; cbn [negb]; [|split; done]. destruct w; cbn [negb]; [|split; [auto with xsan|done]].
  destruct r; cbn [negb]; [|split; [auto with xsan|done]]. destruct s; cbn [negb]; [|split; done].
  unfold load_metadata, lock. cbn [negb vm_locked]. destruct (sc_iter scan) as [iter|].
  - cbn [mbind option_bind].
    destruct (load_entries_locked (sc_alloc scan) (sc_append scan) (sc_dup scan) (sc_tail scan)
      (set_locked (Vm [] dm st false []) true)
      (take_prefix $"v:" (it_rest (xsan_metadata_iterator_seek iter (Some $"v:")))) eq_refl)
      as [[HN Hex]|[HS _]].
    + rewrite HN. now exists iter.
    + rewrite HS. done.
  - done.
Qed.

End Init.
