(* ===== verification/EventLoop.v ===== *)
(** * The event loop ([src/src/network/event_loop.c])

    Registration of file descriptors with epoll and dispatch of their events.  epoll
    is the class [Epoll]: its interest set and [epoll_ctl], with the documented
    effect of each operation.  The array that maps a descriptor to its callback is a
    list, its length the capacity; a slot is empty when its callback is null.  A call
    is [None] when the doubling of the capacity overflows [int].  A callback is given by
    what it does to the loop; callbacks do not poll the same loop again, and a
    descriptor is removed from the loop before it is closed.  The loop carries the log of
    what it has allocated, opened, freed and closed. *)

From stdpp Require Import prelude gmap.
From Stdlib Require Import ZArith Lia.
From S2P Require Import Prelude Errors.

(** ** epoll *)

Inductive ctl_op := EPOLL_CTL_ADD | EPOLL_CTL_MOD | EPOLL_CTL_DEL.

Class Epoll (E : Type) := {
  interest : E -> gmap Z Z;                                  (* descriptor to event mask *)
  epoll_ctl : E -> ctl_op -> Z -> Z -> E * option Z;         (* an errno on failure *)
  epoll_ctl_ok : forall e op fd mask e', epoll_ctl e op fd mask = (e', None) ->
    match op with
    | EPOLL_CTL_ADD => interest e !! fd = None /\ interest e' = <[fd := mask]> (interest e)
    | EPOLL_CTL_MOD => is_Some (interest e !! fd) /\ interest e' = <[fd := mask]> (interest e)
    | EPOLL_CTL_DEL => is_Some (interest e !! fd) /\ interest e' = delete fd (interest e)
    end;
  epoll_ctl_err : forall e op fd mask e' err, epoll_ctl e op fd mask = (e', Some err) ->
    interest e' = interest e /\ err <> 0
}.

(** ** Event masks *)

Definition EPOLLIN := 1.
Definition EPOLLOUT := 4.
Definition EPOLLERR := 8.
Definition EPOLLHUP := 16.
Definition XSAN_EVENT_TYPE_READ := 1.
Definition XSAN_EVENT_TYPE_WRITE := 2.
Definition XSAN_EVENT_TYPE_ERROR := 4.
Definition XSAN_EVENT_TYPE_HANGUP := 8.

(** [if (from & a) to |= b], for each pair. *)
Definition translate (pairs : list (Z * Z)) (from : Z) : Z :=
  foldl (fun to '(a, b) => if Z.land from a =? 0 then to else Z.lor to b) 0 pairs.

Definition event_pairs : list (Z * Z) :=
  [(XSAN_EVENT_TYPE_READ, EPOLLIN); (XSAN_EVENT_TYPE_WRITE, EPOLLOUT);
   (XSAN_EVENT_TYPE_ERROR, EPOLLERR); (XSAN_EVENT_TYPE_HANGUP, EPOLLHUP)].

Definition xsan_to_epoll_events (e : Z) : Z := translate event_pairs e.
Definition epoll_to_xsan_events (e : Z) : Z := translate (map (fun '(a, b) => (b, a)) event_pairs) e.

(** ** State *)

Section Loop.
Context {E : Type} {EP : Epoll E}.

(** What a loop owns, and the calls that acquire and release it. *)
Inductive loop_resource := RsLoop | RsEpoll | RsEvents | RsMap.
Inductive loop_call := Acquire (r : loop_resource) | Release (r : loop_resource).

#[global] Instance loop_resource_eq_dec : EqDecision loop_resource.
Proof. solve_decision. Defined.

(** The callback, never null, and the user data of a descriptor. *)
Definition fd_event_data : Type := Z * Z.

Record xsan_event_loop := Loop {
  el_epoll : E;
  el_max_events : Z;
  el_map : list (option fd_event_data);
  el_calls : list loop_call
}.

Definition el_capacity (l : xsan_event_loop) : Z := Zlen (el_map l).
Definition with_epoll (l : xsan_event_loop) (e : E) : xsan_event_loop :=
  Loop e (el_max_events l) (el_map l) (el_calls l).
Definition with_slot (l : xsan_event_loop) (fd : Z) (d : option fd_event_data) : xsan_event_loop :=
  Loop (el_epoll l) (el_max_events l) (<[Z.to_nat fd := d]> (el_map l)) (el_calls l).

Definition XSAN_EVENT_LOOP_DEFAULT_MAP_SIZE : Z := 1024.

(** [while (fd >= new_capacity) new_capacity *= 2]: [None] when the product is no
    [int]; [Some None] when the fuel runs out. *)
Fixpoint double_capacity (fuel : nat) (fd cap : Z) : option (option Z) :=
  if fd <? cap then Some (Some cap) else
  match fuel with
  | O => Some None
  | S fuel => if 2 ^ 31 <=? cap * 2 then None else double_capacity fuel fd (cap * 2)
  end.

Definition CAPACITY_FUEL : nat := 32.

Definition ensure_fd_map_capacity (alloc_ok : bool) (l : xsan_event_loop) (fd : Z) :
    option (xsan_event_loop * xsan_error_t) :=
  if fd <? el_capacity l then Some (l, XSAN_OK) else
  let cap := if el_capacity l =? 0 then XSAN_EVENT_LOOP_DEFAULT_MAP_SIZE else el_capacity l in
  cap' ← double_capacity CAPACITY_FUEL fd cap;
  cap' ← cap';
  if 1024 * 1024 <? cap' then Some (l, XSAN_ERROR_NO_MEMORY) else
  if negb alloc_ok then Some (l, XSAN_ERROR_NO_MEMORY) else
  Some (Loop (el_epoll l) (el_max_events l)
          (el_map l ++ replicate (Z.to_nat (cap' - el_capacity l)) None)
          (el_calls l ++ [Acquire RsMap] ++ if el_capacity l =? 0 then [] else [Release RsMap]), XSAN_OK).

(** The loop, or what a failed creation has called. *)
Definition xsan_event_loop_create (max_events : Z) (loop_ok : bool) (epoll : option E)
    (events_ok map_ok : bool) : xsan_event_loop + list loop_call :=
  if max_events <=? 0 then inr [] else
  if negb loop_ok then inr [] else
  match epoll with
  | None => inr [Acquire RsLoop; Release RsLoop]
  | Some e =>
      let calls := [Acquire RsLoop; Acquire RsEpoll] in
      if negb events_ok then inr (calls ++ [Release RsEpoll; Release RsLoop]) else
      let l := Loop e max_events [] (calls ++ [Acquire RsEvents]) in
      match ensure_fd_map_capacity map_ok l (XSAN_EVENT_LOOP_DEFAULT_MAP_SIZE - 1) with
      | Some (l, err) =>
          if err =? XSAN_OK then inl l
          else inr (el_calls l ++ [Release RsEvents; Release RsEpoll; Release RsLoop])
      | None => inr (el_calls l)
      end
  end.

(** The log of the loop's calls at its end; a created loop has an epoll descriptor. *)
Definition xsan_event_loop_destroy (l : option xsan_event_loop) : list loop_call :=
  match l with
  | None => []
  | Some l =>
      el_calls l ++ [Release RsEpoll; Release RsEvents] ++
      (if el_capacity l =? 0 then [] else [Release RsMap]) ++ [Release RsLoop]
  end.

(** The common part of adding and modifying; [callback] is [None] when null. *)
Definition register_fd (op : ctl_op) (alloc_ok : bool) (l : option xsan_event_loop) (fd events : Z)
    (callback : option Z) (user_data : Z) :
    option (option xsan_event_loop * xsan_error_t) :=
  match l, callback with
  | Some l, Some cb =>
      if fd <? 0 then Some (Some l, XSAN_ERROR_CONFIG_PARSE) else
      '(l, err) ← ensure_fd_map_capacity alloc_ok l fd;
      if negb (err =? XSAN_OK) then Some (Some l, err) else
      match epoll_ctl (el_epoll l) op fd (xsan_to_epoll_events events) with
      | (e, Some n) => Some (Some (with_epoll l e), xsan_error_from_errno n)
      | (e, None) => Some (Some (with_slot (with_epoll l e) fd (Some (cb, user_data))), XSAN_OK)
      end
  | _, _ => Some (l, XSAN_ERROR_CONFIG_PARSE)
  end.

Definition xsan_event_loop_add_fd := register_fd EPOLL_CTL_ADD.
Definition xsan_event_loop_modify_fd := register_fd EPOLL_CTL_MOD.

Definition xsan_event_loop_remove_fd (l : option xsan_event_loop) (fd : Z) :
    option xsan_event_loop * xsan_error_t :=
  match l with
  | None => (None, XSAN_ERROR_CONFIG_PARSE)
  | Some l =>
      if fd <? 0 then (Some l, XSAN_ERROR_CONFIG_PARSE) else
      match epoll_ctl (el_epoll l) EPOLL_CTL_DEL fd 0 with
      | (e, Some n) => (Some (with_epoll l e), xsan_error_from_errno n)
      | (e, None) =>
          let l := with_epoll l e in
          (Some (if fd <? el_capacity l then with_slot l fd None else l), XSAN_OK)
      end
  end.

(** ** Dispatch *)

(** A call of a callback. *)
Record dispatched_call := Call { dc_callback : Z; dc_fd : Z; dc_events : Z; dc_data : Z }.

Definition slot (l : xsan_event_loop) (fd : Z) : option fd_event_data :=
  if (0 <=? fd) && (fd <? el_capacity l) then mjoin (el_map l !! Z.to_nat fd) else None.

(** [effect] is what a callback does to the loop. *)
Fixpoint dispatch_events (effect : dispatched_call -> xsan_event_loop -> xsan_event_loop)
    (events : list (Z * Z)) (l : xsan_event_loop) : xsan_event_loop * list dispatched_call :=
  match events with
  | [] => (l, [])
  | (fd, mask) :: events =>
      match slot l fd with
      | Some (cb, data) =>
          let c := Call cb fd (epoll_to_xsan_events mask) data in
          let '(l', cs) := dispatch_events effect events (effect c l) in (l', c :: cs)
      | None => dispatch_events effect events l
      end
  end.

(** [wait] is the result of [epoll_wait]: an errno, or the events. *)
Definition xsan_event_loop_poll (effect : dispatched_call -> xsan_event_loop -> xsan_event_loop)
    (wait : Z + list (Z * Z)) (l : option xsan_event_loop) :
    option xsan_event_loop * Z * list dispatched_call :=
  match l, wait with
  | None, _ => (None, -1, [])
  | Some l, inl err => (Some l, if err =? EINTR then 0 else -1, [])
  | Some l, inr events =>
      let '(l', cs) := dispatch_events effect events l in (Some l', Zlen events, cs)
  end.

(** ** Sequences of operations *)

Inductive loop_op :=
  | OpAdd (alloc_ok : bool) (fd events : Z) (callback : option Z) (data : Z)
  | OpModify (alloc_ok : bool) (fd events : Z) (callback : option Z) (data : Z)
  | OpRemove (fd : Z).

Definition loop_step (l : xsan_event_loop) (op : loop_op) :
    option (option xsan_event_loop * xsan_error_t) :=
  match op with
  | OpAdd a fd ev cb d => xsan_event_loop_add_fd a (Some l) fd ev cb d
  | OpModify a fd ev cb d => xsan_event_loop_modify_fd a (Some l) fd ev cb d
  | OpRemove fd => Some (xsan_event_loop_remove_fd (Some l) fd)
  end.

(** * Theorems *)

(** ** Masks *)

Lemma translate_land e m : translate event_pairs (Z.land e m) =
  translate (map (fun '(a, b) => (Z.land m a, b)) event_pairs) e.
Proof. unfold translate, event_pairs. simpl. now rewrite <- !Z.land_assoc. Qed.

(** The translation of masks only looks at the four known events, and loses none of
    them on the way to epoll and back. *)
Lemma event_mask_round_trip e :
  epoll_to_xsan_events (xsan_to_epoll_events e) = Z.land e 15.
Proof.
  assert (H : xsan_to_epoll_events e = xsan_to_epoll_events (Z.land e 15)).
  { unfold xsan_to_epoll_events. now rewrite translate_land. }
  rewrite H. pose proof (Z.land_ones e 4 ltac:(lia)) as Hl. change (Z.ones 4) with 15 in Hl.
  pose proof (Z.mod_pos_bound e (2 ^ 4) ltac:(lia)) as Hb. rewrite <- Hl in Hb.
  generalize dependent (Z.land e 15). clear. intros k _ _ Hb. change (2 ^ 4) with 16 in Hb.
  assert (Hk : k ∈ seqZ 0 16) by (apply elem_of_seqZ; lia). revert Hk.
  apply (Forall_forall (fun k => epoll_to_xsan_events (xsan_to_epoll_events k) = k)).
  repeat constructor.
Qed.

(** ** Capacity *)

(** From a power of two, the loop ends at the smallest one above the descriptor,
    with fuel to spare; only descriptors from [2^30] on make the product overflow. *)
Lemma double_capacity_spec fuel fd k :
  0 <= k <= 30 -> 31 - k <= Z.of_nat fuel ->
  if 2 ^ 30 <=? fd then double_capacity fuel fd (2 ^ k) = None
  else exists j, k <= j <= 30 /\ fd < 2 ^ j /\ (j = k \/ 2 ^ (j - 1) <= fd) /\
    double_capacity fuel fd (2 ^ k) = Some (Some (2 ^ j)).
Proof.
  revert k. induction fuel as [|fuel IH]; intros k Hk Hf; [lia|]. cbn [double_capacity].
  assert (Hmono : 2 ^ k <= 2 ^ 30) by (apply Z.pow_le_mono_r; lia).
  assert (Hpow : 2 ^ k * 2 = 2 ^ (k + 1)) by (rewrite Z.pow_add_r; lia). rewrite Hpow.
  destruct (Z.ltb_spec fd (2 ^ k)).
  { destruct (Z.leb_spec (2 ^ 30) fd); [lia|]. exists k. split_and!; [lia..|now left|done]. }
  destruct (decide (k = 30)) as [->|].
  { change (2 ^ 31 <=? 2 ^ (30 + 1)) with true. now destruct (Z.leb_spec (2 ^ 30) fd); [|lia]. }
  destruct (Z.leb_spec (2 ^ 31) (2 ^ (k + 1))) as [Hle|_].
  { apply Z.pow_le_mono_r_iff in Hle; lia. }
  specialize (IH (k + 1) ltac:(lia) ltac:(lia)). destruct (2 ^ 30 <=? fd); [done|].
  destruct IH as (j & ? & ? & Hj & Hd). exists j. split_and!; [lia..| |done].
  right. destruct Hj as [->|]; [|done]. now replace (k + 1 - 1) with k by lia.
Qed.

(** ** Resources *)

(** How many of a resource are held after the calls; [None] once one is released that is
    not held. *)
Definition held (r : loop_resource) (calls : list loop_call) : option nat :=
  foldl (fun n c =>
    match n, c with
    | Some n, Acquire r' => Some (if decide (r' = r) then S n else n)
    | Some n, Release r' =>
        if decide (r' = r) then match n with O => None | S n => Some n end else Some n
    | None, _ => None
    end) (Some O) calls.

(** Everything that was acquired is released, once. *)
Definition balanced (calls : list loop_call) : Prop := forall r, held r calls = Some O.

(** The log of a loop that owns each of its resources. *)
Definition owning (calls : list loop_call) : Prop := forall r, held r calls = Some 1%nat.

Lemma held_app r calls rest n :
  held r calls = Some n -> held r (calls ++ rest) = held r (replicate n (Acquire r) ++ rest).
Proof.
  intros H. unfold held in *. rewrite !foldl_app, H. f_equal. clear. induction n as [|n IH]; [done|].
  rewrite replicate_S_end, foldl_app, <- IH. cbn. now rewrite decide_True.
Qed.

Lemma owning_grow calls : owning calls -> owning (calls ++ [Acquire RsMap; Release RsMap]).
Proof. intros H r. rewrite (held_app r calls _ 1) by done. now destruct r. Qed.

Lemma owning_destroy calls :
  owning calls -> balanced (calls ++ [Release RsEpoll; Release RsEvents; Release RsMap; Release RsLoop]).
Proof. intros H r. rewrite (held_app r calls _ 1) by done. now destruct r. Qed.

(** A creation that fails, at whatever step, leaves nothing behind. *)
Theorem event_loop_create_failure max_events loop_ok epoll events_ok map_ok :
  match xsan_event_loop_create max_events loop_ok epoll events_ok map_ok with
  | inl l => owning (el_calls l)
  | inr calls => balanced calls
  end.
Proof.
  unfold xsan_event_loop_create. destruct (max_events <=? 0); [done|]. destruct loop_ok; [|done].
  destruct epoll as [e|]; [|now intros []]. destruct events_ok; [|now intros []].
  destruct map_ok; now intros [].
Qed.

(** ** The registry *)

(** What the loop promises: a map from descriptors to the events waited for and the
    callback with its data. *)
Notation registry := (gmap Z (Z * fd_event_data)).

Record loop_rep (l : xsan_event_loop) (reg : registry) : Prop := {
  lr_interest : interest (el_epoll l) = fst <$> reg;
  lr_slots : forall fd, slot l fd = snd <$> reg !! fd;
  lr_capacity : exists k, 0 <= k <= 20 /\ el_capacity l = 2 ^ k;
  lr_owning : owning (el_calls l)
}.

Lemma slot_extend l n calls fd :
  slot (Loop (el_epoll l) (el_max_events l) (el_map l ++ replicate n None) calls) fd = slot l fd.
Proof.
  unfold slot, el_capacity. cbn [el_map]. rewrite Zlen_app. unfold Zlen. rewrite length_replicate.
  destruct (Z.leb_spec 0 fd); [|done]. cbn [andb].
  destruct (Z.ltb_spec fd (Z.of_nat (length (el_map l)))).
  - destruct (Z.ltb_spec fd (Z.of_nat (length (el_map l)) + Z.of_nat n)); [|lia].
    rewrite lookup_app_l by lia. done.
  - destruct (Z.ltb_spec fd (Z.of_nat (length (el_map l)) + Z.of_nat n)); [|done].
    rewrite lookup_app_r, lookup_replicate_2 by lia. done.
Qed.

Lemma ensure_rep a l fd reg :
  loop_rep l reg ->
  match ensure_fd_map_capacity a l fd with
  | None => 2 ^ 30 <= fd
  | Some (l', e) => loop_rep l' reg /\ fd < 2 ^ 30 /\
      (e = XSAN_OK /\ fd < el_capacity l' \/
       e = XSAN_ERROR_NO_MEMORY /\ (2 ^ 20 <= fd \/ a = false))
  end.
Proof.
  intros Hrep. pose proof Hrep as [Hi Hs (k & Hk & Hcap) Hown]. unfold ensure_fd_map_capacity.
  assert (Hmono : 2 ^ k <= 2 ^ 20) by (apply Z.pow_le_mono_r; lia).
  destruct (Z.ltb_spec fd (el_capacity l)); [split_and!; [done|lia|now left]|].
  destruct (Z.eqb_spec (el_capacity l) 0); [pose proof (Z.pow_pos_nonneg 2 k); lia|].
  pose proof (double_capacity_spec CAPACITY_FUEL fd k ltac:(lia) ltac:(unfold CAPACITY_FUEL; lia)) as Hd.
  rewrite <- Hcap in Hd. destruct (Z.leb_spec (2 ^ 30) fd); [now rewrite Hd|].
  destruct Hd as (j & Hj & Hlt & Hmin & ->). cbn [mbind option_bind].
  change (1024 * 1024) with (2 ^ 20). destruct (Z.ltb_spec (2 ^ 20) (2 ^ j)) as [Hbig|Hsmall].
  - split_and!; [done|lia|right]. split; [done|left]. apply Z.pow_lt_mono_r_iff in Hbig; [|lia..].
    destruct Hmin as [->|]; [lia|]. pose proof (Z.pow_le_mono_r 2 20 (j - 1)). lia.
  - destruct a; cbn [negb]; [|split_and!; [done|lia|auto]].
    apply Z.pow_le_mono_r_iff in Hsmall; [|lia..].
    assert (Hge : 2 ^ k <= 2 ^ j) by (apply Z.pow_le_mono_r; lia).
    set (l1 := Loop _ _ _ _). assert (Hc : el_capacity l1 = 2 ^ j).
    { unfold l1. unfold el_capacity in *. cbn [el_map]. rewrite Zlen_app. unfold Zlen in *.
      rewrite length_replicate. lia. }
    split_and!; [|lia|left; split; [done|lia]].
    constructor; [exact Hi| |exists j; lia|now apply owning_grow].
    intros fd'. unfold l1. rewrite slot_extend. apply Hs.
Qed.

Lemma slot_with_slot l fd fd' d :
  0 <= fd < el_capacity l ->
  slot (with_slot l fd d) fd' = if decide (fd' = fd) then d else slot l fd'.
Proof.
  intros Hfd. unfold slot, el_capacity, with_slot in *. cbn [el_map].
  unfold Zlen in *. rewrite length_insert. destruct (decide (fd' = fd)) as [->|Hne].
  - destruct (Z.leb_spec 0 fd); [|lia].
    destruct (Z.ltb_spec fd (Z.of_nat (length (el_map l)))); [|lia]. cbn [andb].
    rewrite list_lookup_insert_eq by lia. done.
  - destruct (Z.leb_spec 0 fd'); [|done]. cbn [andb].
    destruct (fd' <? Z.of_nat (length (el_map l))); [|done].
    rewrite list_lookup_insert_ne by lia. done.
Qed.

Lemma rep_set l reg fd d e mask :
  loop_rep l reg -> 0 <= fd < el_capacity l ->
  interest e = <[fd := mask]> (interest (el_epoll l)) ->
  loop_rep (with_slot (with_epoll l e) fd (Some d)) (<[fd := (mask, d)]> reg).
Proof.
  intros [Hi Hs Hc Ho] Hfd He. constructor; [| | |exact Ho].
  - cbn [el_epoll with_slot with_epoll]. rewrite He, Hi. symmetry. exact (fmap_insert fst reg fd (mask, d)).
  - intros fd'. rewrite slot_with_slot by done. rewrite lookup_insert.
    destruct (decide (fd' = fd)) as [->|Hne]; [now rewrite decide_True by done|].
    rewrite decide_False by done. apply Hs.
  - unfold el_capacity in *. cbn [el_map with_slot with_epoll]. unfold Zlen in *.
    now rewrite length_insert.
Qed.

Lemma rep_epoll l reg e :
  loop_rep l reg -> interest e = interest (el_epoll l) -> loop_rep (with_epoll l e) reg.
Proof.
  intros [Hi Hs Hc Ho] He. constructor; [cbn [el_epoll with_epoll]; congruence|exact Hs|exact Hc|exact Ho].
Qed.

(** The registration that an operation asks for, if it succeeds. *)
Definition register (reg : registry) (op : loop_op) : registry :=
  match op with
  | OpAdd _ fd ev (Some cb) d | OpModify _ fd ev (Some cb) d =>
      <[fd := (xsan_to_epoll_events ev, (cb, d))]> reg
  | OpRemove fd => delete fd reg
  | _ => reg
  end.

(** When it may succeed. *)
Definition op_descriptor (op : loop_op) : Z :=
  match op with OpAdd _ fd _ _ _ | OpModify _ fd _ _ _ | OpRemove fd => fd end.
Definition may_register (reg : registry) (op : loop_op) : Prop :=
  match op with
  | OpAdd _ fd _ _ _ => reg !! fd = None
  | OpModify _ fd _ _ _ | OpRemove fd => is_Some (reg !! fd)
  end.

(** One operation, from a loop that represents [reg]. *)
Definition step_spec (reg : registry) (op : loop_op)
    (r : option (option xsan_event_loop * xsan_error_t)) : Prop :=
  match r with
  | None => 2 ^ 30 <= op_descriptor op
  | Some (None, _) => False
  | Some (Some l, e) =>
      if e =? XSAN_OK then loop_rep l (register reg op) /\ may_register reg op
      else loop_rep l reg
  end.

Lemma errno_not_ok n : n <> 0 -> (xsan_error_from_errno n =? XSAN_OK) = false.
Proof. intros Hn. apply Z.eqb_neq. intros H'. now apply (proj1 (error_from_errno_ok n)) in H'. Qed.

Lemma register_fd_rep op ctl a fd ev cb d l reg :
  (ctl = EPOLL_CTL_ADD /\ op = OpAdd a fd ev cb d) \/
  (ctl = EPOLL_CTL_MOD /\ op = OpModify a fd ev cb d) ->
  loop_rep l reg -> step_spec reg op (register_fd ctl a (Some l) fd ev cb d).
Proof.
  intros Hop Hrep. unfold register_fd. destruct cb as [cb|]; [|exact Hrep].
  destruct (Z.ltb_spec fd 0); [exact Hrep|].
  pose proof (ensure_rep a l fd reg Hrep) as He.
  destruct (ensure_fd_map_capacity a l fd) as [[l1 e1]|]; cbn [mbind option_bind];
    [|now destruct Hop as [[_ ->]|[_ ->]]].
  destruct He as (Hrep1 & Hfd & [[-> Hcap]|[-> _]]); [rewrite Z.eqb_refl; cbn [negb]|exact Hrep1].
  destruct (epoll_ctl (el_epoll l1) ctl fd (xsan_to_epoll_events ev)) as [ep [n|]] eqn:Hctl; cbn [step_spec].
  - apply epoll_ctl_err in Hctl as [Hi Hn]. rewrite errno_not_ok by done. now apply rep_epoll.
  - apply epoll_ctl_ok in Hctl.
    assert (Hset : interest ep = <[fd := xsan_to_epoll_events ev]> (interest (el_epoll l1)))
      by (destruct Hop as [[-> _]|[-> _]]; apply Hctl).
    pose proof (rep_set l1 reg fd (cb, d) ep _ Hrep1 ltac:(lia) Hset) as Hr.
    rewrite (lr_interest _ _ Hrep1), lookup_fmap in Hctl.
    destruct Hop as [[-> ->]|[-> ->]]; (split; [exact Hr|]); simpl; destruct Hctl as [Hctl _].
    + now apply fmap_None in Hctl.
    + now apply fmap_is_Some in Hctl.
Qed.

Lemma rep_remove l reg fd e :
  loop_rep l reg -> is_Some (reg !! fd) -> interest e = delete fd (interest (el_epoll l)) ->
  fd < el_capacity l /\ loop_rep (with_slot (with_epoll l e) fd None) (delete fd reg).
Proof.
  intros [Hi Hs Hc Ho] Hin Hdel.
  assert (Hfd : 0 <= fd < el_capacity l).
  { destruct Hin as [[mask d] Hin]. pose proof (Hs fd) as Hsl. rewrite Hin in Hsl.
    unfold slot in Hsl. destruct (Z.leb_spec 0 fd); [|done].
    destruct (Z.ltb_spec fd (el_capacity l)); [lia|done]. }
  split; [lia|]. constructor; [| | |exact Ho].
  - cbn [el_epoll with_slot with_epoll]. rewrite Hdel, Hi. symmetry. exact (fmap_delete fst reg fd).
  - intros fd'. rewrite slot_with_slot by done. rewrite lookup_delete.
    destruct (decide (fd' = fd)) as [->|Hne]; [now rewrite decide_True by done|].
    rewrite decide_False by done. apply Hs.
  - unfold el_capacity in *. cbn [el_map with_slot with_epoll]. unfold Zlen in *.
    now rewrite length_insert.
Qed.

Lemma loop_step_rep l reg op : loop_rep l reg -> step_spec reg op (loop_step l op).
Proof.
  intros Hrep. destruct op as [a fd ev cb d|a fd ev cb d|fd]; cbn [loop_step].
  - apply register_fd_rep; [now left|done].
  - apply register_fd_rep; [now right|done].
  - unfold xsan_event_loop_remove_fd. destruct (Z.ltb_spec fd 0); [exact Hrep|].
    destruct (epoll_ctl (el_epoll l) EPOLL_CTL_DEL fd 0) as [ep [n|]] eqn:Hctl; cbn [step_spec].
    + apply epoll_ctl_err in Hctl as [Hi Hn]. rewrite errno_not_ok by done. now apply rep_epoll.
    + apply epoll_ctl_ok in Hctl as [Hin Hdel].
      rewrite (lr_interest _ _ Hrep), lookup_fmap in Hin. apply fmap_is_Some in Hin.
      destruct (rep_remove l reg fd ep Hrep Hin Hdel) as [Hfd Hrep'].
      change (el_capacity (with_epoll l ep)) with (el_capacity l).
      now destruct (Z.ltb_spec fd (el_capacity l)); [|lia].
Qed.

(** A sequence of operations, with their results. *)
Fixpoint run_ops (l : xsan_event_loop) (ops : list loop_op) :
    option (xsan_event_loop * list xsan_error_t) :=
  match ops with
  | [] => Some (l, [])
  | op :: ops =>
      '(l', e) ← loop_step l op;
      l' ← l';
      '(l', es) ← run_ops l' ops;
      Some (l', e :: es)
  end.

(** The registry after the operations that succeeded. *)
Fixpoint registered (reg : registry) (ops : list loop_op) (es : list xsan_error_t) : registry :=
  match ops, es with
  | op :: ops, e :: es => registered (if e =? XSAN_OK then register reg op else reg) ops es
  | _, _ => reg
  end.

Lemma run_ops_rep ops l reg :
  loop_rep l reg -> Forall (fun op => op_descriptor op < 2 ^ 30) ops ->
  exists l' es, run_ops l ops = Some (l', es) /\ length es = length ops /\
    loop_rep l' (registered reg ops es).
Proof.
  revert l reg. induction ops as [|op ops IH]; intros l reg Hrep Hops; [now exists l, []|].
  apply Forall_cons in Hops as [Hop Hops]. pose proof (loop_step_rep l reg op Hrep) as Hstep.
  cbn [run_ops]. destruct (loop_step l op) as [[[l1|] e]|]; cbn [step_spec] in Hstep;
    [|done|lia]. cbn [mbind option_bind].
  assert (Hrep1 : loop_rep l1 (if e =? XSAN_OK then register reg op else reg))
    by (destruct (e =? XSAN_OK); [apply Hstep|exact Hstep]).
  destruct (IH l1 _ Hrep1 Hops) as (l' & es & -> & Hlen & Hrep'). cbn [mbind option_bind].
  exists l', (e :: es). split_and!; [done|simpl; congruence|exact Hrep'].
Qed.

Lemma loop_create_rep max_events e l :
  interest e = ∅ -> xsan_event_loop_create max_events true (Some e) true true = inl l ->
  loop_rep l ∅.
Proof.
  intros He Hl. pose proof (event_loop_create_failure max_events true (Some e) true true) as Hown.
  rewrite Hl in Hown. revert Hl. unfold xsan_event_loop_create. destruct (max_events <=? 0); [done|].
  cbn [negb]. set (calls := [Acquire RsLoop; Acquire RsEpoll] ++ [Acquire RsEvents]).
  assert (Hens : ensure_fd_map_capacity true (Loop e max_events [] calls)
    (XSAN_EVENT_LOOP_DEFAULT_MAP_SIZE - 1) =
    Some (Loop e max_events (replicate 1024 None) (calls ++ [Acquire RsMap]), XSAN_OK)) by reflexivity.
  cbv zeta. rewrite Hens, Z.eqb_refl. intros [= <-].
  constructor; [| | |exact Hown].
  - cbn [el_epoll]. now rewrite He, fmap_empty.
  - intros fd. rewrite lookup_empty.
    pose proof (slot_extend (Loop e max_events [] calls) 1024 (calls ++ [Acquire RsMap]) fd) as Hs.
    cbn [el_epoll el_max_events el_map app] in Hs. etransitivity; [exact Hs|]. unfold slot.
    now destruct (_ && _).
  - exists 10. split; [lia|reflexivity].
Qed.

Lemma destroy_balanced l reg : loop_rep l reg -> balanced (xsan_event_loop_destroy (Some l)).
Proof.
  intros [_ _ (k & Hk & Hc) Ho]. cbn [xsan_event_loop_destroy].
  destruct (Z.eqb_spec (el_capacity l) 0); [pose proof (Z.pow_pos_nonneg 2 k); lia|].
  now apply owning_destroy.
Qed.

(** C20: From the creation of the loop on, and whatever epoll answers, the descriptors
    epoll watches, their event masks, and the callbacks of the array are those of one
    map, which each operation that succeeds updates and each that fails leaves alone.
    Every call returns as long as the descriptors are below [2^30].  Destroying the loop
    releases everything it acquired, growth of the array included, exactly once. *)
Theorem event_loop_registry max_events e l ops :
  interest e = ∅ -> xsan_event_loop_create max_events true (Some e) true true = inl l ->
  Forall (fun op => op_descriptor op < 2 ^ 30) ops ->
  exists l' es, run_ops l ops = Some (l', es) /\ length es = length ops /\
    interest (el_epoll l') = fst <$> registered ∅ ops es /\
    (forall fd, slot l' fd = snd <$> registered ∅ ops es !! fd) /\
    balanced (xsan_event_loop_destroy (Some l')).
Proof.
  intros He Hl Hops. destruct (run_ops_rep ops l ∅ (loop_create_rep _ _ _ He Hl) Hops)
    as (l' & es & Hr & Hlen & Hrep). exists l', es.
  split_and!; [done|done|apply Hrep|apply Hrep|exact (destroy_balanced _ _ Hrep)].
Qed.

(** ** Dispatch *)

(** Dispatch over the registry: an event is delivered when its descriptor is
    registered at that moment. *)
Fixpoint registry_dispatch (effect : dispatched_call -> registry -> registry)
    (events : list (Z * Z)) (reg : registry) : registry * list dispatched_call :=
  match events with
  | [] => (reg, [])
  | (fd, mask) :: events =>
      match reg !! fd with
      | Some (_, (cb, data)) =>
          let c := Call cb fd (epoll_to_xsan_events mask) data in
          let '(reg', cs) := registry_dispatch effect events (effect c reg) in (reg', c :: cs)
      | None => registry_dispatch effect events reg
      end
  end.

Lemma dispatch_refines effect reffect events l reg :
  (forall c l reg, loop_rep l reg -> loop_rep (effect c l) (reffect c reg)) ->
  loop_rep l reg ->
  loop_rep (dispatch_events effect events l).1 (registry_dispatch reffect events reg).1 /\
  (dispatch_events effect events l).2 = (registry_dispatch reffect events reg).2.
Proof.
  intros Heff. revert l reg. induction events as [|[fd mask] events IH]; intros l reg Hrep; [done|].
  cbn [dispatch_events registry_dispatch]. rewrite (lr_slots _ _ Hrep).
  destruct (reg !! fd) as [[m [cb data]]|]; cbn [fmap option_fmap option_map snd]; [|now apply IH].
  set (c := Call cb fd (epoll_to_xsan_events mask) data).
  destruct (IH (effect c l) (reffect c reg) (Heff c l reg Hrep)) as [Hr Hc].
  destruct (dispatch_events effect events (effect c l)),
    (registry_dispatch reffect events (reffect c reg)). simpl in *. now subst.
Qed.

(** A poll delivers the events epoll reports in their order, each to the callback
    registered for its descriptor at the moment of its turn, with the mask translated;
    an event whose descriptor an earlier callback of the same poll removed is dropped.
    The number returned is that of the events reported, dropped ones included. *)
Theorem event_loop_dispatch effect reffect events l reg :
  (forall c l reg, loop_rep l reg -> loop_rep (effect c l) (reffect c reg)) ->
  loop_rep l reg ->
  exists l', xsan_event_loop_poll effect (inr events) (Some l) =
    (Some l', Zlen events, (registry_dispatch reffect events reg).2) /\
    loop_rep l' (registry_dispatch reffect events reg).1.
Proof.
  intros Heff Hrep. destruct (dispatch_refines effect reffect events l reg Heff Hrep) as [Hr Hc].
  unfold xsan_event_loop_poll. destruct (dispatch_events effect events l) as [l' cs].
  exists l'. simpl in *. now subst.
Qed.

(** The doubling of the capacity overflows [int] for a descriptor from [2^30] on,
    before the check of the limit is reached. *)
Theorem large_descriptor_overflows a l reg fd events cb data :
  loop_rep l reg -> 2 ^ 30 <= fd ->
  xsan_event_loop_add_fd a (Some l) fd events (Some cb) data = None.
Proof.
  intros Hrep Hfd. unfold xsan_event_loop_add_fd, register_fd.
  destruct (Z.ltb_spec fd 0); [lia|]. pose proof (ensure_rep a l fd reg Hrep) as He.
  destruct (ensure_fd_map_capacity a l fd) as [[l' e]|]; [|done]. lia.
Qed.

End Loop.

(** ** An instance and witnesses *)

Definition toy_ctl (e : gmap Z Z) (op : ctl_op) (fd mask : Z) : gmap Z Z * option Z :=
  match op, e !! fd with
  | EPOLL_CTL_ADD, None => (<[fd := mask]> e, None)
  | EPOLL_CTL_ADD, Some _ => (e, Some EEXIST)
  | EPOLL_CTL_MOD, Some _ => (<[fd := mask]> e, None)
  | EPOLL_CTL_DEL, Some _ => (delete fd e, None)
  | _, None => (e, Some ENOENT)
  end.

#[export] Program Instance toy_epoll : Epoll (gmap Z Z) := {|
  interest := fun e => e; epoll_ctl := toy_ctl
|}.
Next Obligation. intros e [| |] fd mask e'; unfold toy_ctl; destruct (e !! fd); intros [= <-]; eauto. Qed.
Next Obligation. intros e [| |] fd mask e' err; unfold toy_ctl; destruct (e !! fd); intros [= <- <-]; done. Qed.

Definition toy_loop : xsan_event_loop := Loop (∅ : gmap Z Z) 16 (replicate 1024 None)
  [Acquire RsLoop; Acquire RsEpoll; Acquire RsEvents; Acquire RsMap].
Definition toy_ops : list loop_op :=
  [OpAdd true 4 1 (Some 10) 0; OpAdd true 4 3 (Some 11) 0; OpAdd true 2000 3 (Some 12) 7; OpRemove 4].

Lemma event_loop_registry_witness :
  exists l', run_ops toy_loop toy_ops = Some (l', [0; xsan_error_from_errno EEXIST; 0; 0]) /\
    interest (el_epoll l') = {[2000 := 5]} /\ slot l' 2000 = Some (12, 7) /\ slot l' 4 = None.
Proof.
  destruct (event_loop_registry (EP:=toy_epoll) 16 (∅ : gmap Z Z) toy_loop toy_ops eq_refl eq_refl)
    as (l' & es & Hr & _ & Hi & Hs & _); [repeat constructor|].
  assert (Hv : snd <$> run_ops toy_loop toy_ops = Some [0; xsan_error_from_errno EEXIST; 0; 0])
    by (vm_compute; reflexivity).
  rewrite Hr in Hv. apply (inj Some) in Hv. simpl in Hv. subst es.
  exists l'. split; [exact Hr|]. rewrite Hi, !Hs. vm_compute. repeat split.
Defined.

(** A callback that removes descriptor 5. *)
Definition remove_five {E} `{Epoll E} (c : dispatched_call) (l : xsan_event_loop) : xsan_event_loop :=
  default l (xsan_event_loop_remove_fd (Some l) 5).1.

Lemma remove_five_rep (c : dispatched_call) (l : @xsan_event_loop (gmap Z Z)) reg :
  loop_rep l reg -> loop_rep (remove_five c l) (delete 5 reg).
Proof.
  intros Hrep. pose proof (loop_step_rep l reg (OpRemove 5) Hrep) as Hstep.
  pose proof (lr_interest _ _ Hrep) as Hi. simpl in Hi.
  unfold remove_five, xsan_event_loop_remove_fd. simpl in *. rewrite Hi in *. rewrite lookup_fmap in *.
  destruct (reg !! 5) eqn:H5; simpl in *; [apply Hstep|].
  now rewrite delete_id.
Qed.

Lemma event_loop_dispatch_witness :
  exists l l', run_ops toy_loop [OpAdd true 4 1 (Some 10) 0; OpAdd true 5 1 (Some 11) 0] = Some (l, [0; 0]) /\
    xsan_event_loop_poll remove_five (inr [(4, 1); (5, 1)]) (Some l) = (Some l', 2, [Call 10 4 1 0]).
Proof.
  destruct (run_ops_rep [OpAdd true 4 1 (Some 10) 0; OpAdd true 5 1 (Some 11) 0] toy_loop ∅)
    as (l & es & Hr & _ & Hrep);
    [apply (loop_create_rep (EP:=toy_epoll) 16 (∅ : gmap Z Z) toy_loop); reflexivity|repeat constructor|].
  assert (Hv : snd <$> run_ops toy_loop [OpAdd true 4 1 (Some 10) 0; OpAdd true 5 1 (Some 11) 0] =
    Some [0; 0]) by (vm_compute; reflexivity).
  rewrite Hr in Hv. apply (inj Some) in Hv. simpl in Hv. subst es.
  destruct (event_loop_dispatch remove_five (fun _ => delete 5) [(4, 1); (5, 1)] l _ remove_five_rep Hrep)
    as (l' & Hp & _).
  exists l, l'. split; [exact Hr|exact Hp].
Defined.
