(* ===== verification/Log.v ===== *)
(** * The log ([src/src/utils/log.c])

    Levels, the global configuration, the messages and the rotation of the log files.
    The files are modelled with what [fopen], [rename], [stat] and [fprintf] do to
    them: names refer to file objects, and an open stream refers to the object, not to
    the name, so that a rename does not redirect it.  What the system may refuse is an
    argument of the operations.  The text of a message is what [vsnprintf] made of its
    format.  A call is [None] when it reads a table beyond its end. *)

From stdpp Require Import prelude strings gmap.
From Stdlib Require Import ZArith Lia Ascii.
From S2P Require Import Prelude Errors StringUtils.

Definition XSAN_MAX_PATH_LEN : Z := 4096.

(** ** Levels *)

(** The level is an unsigned number. *)
Definition XSAN_LOG_LEVEL_TRACE := 0.
Definition XSAN_LOG_LEVEL_DEBUG := 1.
Definition XSAN_LOG_LEVEL_INFO := 2.
Definition XSAN_LOG_LEVEL_WARN := 3.
Definition XSAN_LOG_LEVEL_ERROR := 4.
Definition XSAN_LOG_LEVEL_FATAL := 5.

Definition log_level_strings : list cstring :=
  [ $"TRACE"; $"DEBUG"; $"INFO"; $"WARN"; $"ERROR"; $"FATAL" ].

Definition ansi (s : cstring) : cstring := "027"%char :: "["%char :: s ++ $"m".
Definition log_level_colors : list cstring :=
  map ansi [ $"37"; $"36"; $"32"; $"33"; $"31"; $"35" ].
Definition color_reset : cstring := ansi $"0".

Definition xsan_log_level_string (level : Z) : cstring :=
  if (XSAN_LOG_LEVEL_TRACE <=? level) && (level <=? XSAN_LOG_LEVEL_FATAL)
  then default [] (log_level_strings !! Z.to_nat level) else $"UNKNOWN".

(** The loop over the table, from index [i]. *)
Fixpoint level_loop (str : cstring) (names : list cstring) (i : Z) : Z :=
  match names with
  | [] => XSAN_LOG_LEVEL_INFO
  | name :: names => if casecmp_loop str name =? 0 then i else level_loop str names (i + 1)
  end.

Definition xsan_log_level_from_string (str : option cstring) : Z :=
  match str with
  | None => XSAN_LOG_LEVEL_INFO
  | Some str => level_loop str log_level_strings 0
  end.

(** ** Files *)

Record files := Files {
  fs_names : gmap cstring nat;
  fs_data : gmap nat cstring;
  fs_next : nat                    (* the next file object *)
}.

Definition fs_read (f : files) (path : cstring) : option cstring :=
  fs_names f !! path ≫= fun i => fs_data f !! i.

(** [rename]: nothing happens without the old name. *)
Definition fs_rename (f : files) (old new : cstring) : files :=
  match fs_names f !! old with
  | Some i => Files (<[new := i]> (delete old (fs_names f))) (fs_data f) (fs_next f)
  | None => f
  end.

Inductive fopen_mode := ModeW | ModeA.

(** [fopen] when the system allows it: the object, truncated for ["w"]. *)
Definition fs_open (mode : fopen_mode) (f : files) (path : cstring) : files * nat :=
  match fs_names f !! path with
  | Some i =>
      (match mode with
       | ModeW => Files (fs_names f) (<[i := []]> (fs_data f)) (fs_next f)
       | ModeA => f
       end, i)
  | None =>
      (Files (<[path := fs_next f]> (fs_names f)) (<[fs_next f := []]> (fs_data f)) (S (fs_next f)),
       fs_next f)
  end.

(** [fprintf] and [fflush] on a stream that is at the end of its file. *)
Definition fs_append (f : files) (i : nat) (text : cstring) : files :=
  Files (fs_names f) (alter (fun old => old ++ text) i (fs_data f)) (fs_next f).

(** ** State *)

Record xsan_log_config := LogConfig {
  log_file : cstring;
  level : Z;
  console_output : bool;
  file_output : bool;
  max_file_size : Z;
  max_file_count : Z;
  file_handle : option nat
}.

(** The global configuration, the flag, the files, the streams open on them and what
    went to the standard error. *)
Record logger := Logger {
  g_log_config : xsan_log_config;
  g_log_initialized : bool;
  lg_files : files;
  lg_open : list nat;
  lg_stderr : list cstring
}.

Definition xsan_log_default_config : xsan_log_config :=
  LogConfig [] XSAN_LOG_LEVEL_INFO true false (100 * 1024 * 1024) 10 None.

(** The state the program starts with. *)
Definition log_start (f : files) : logger := Logger xsan_log_default_config false f [] [].

Definition with_handle (c : xsan_log_config) (h : option nat) : xsan_log_config :=
  LogConfig (log_file c) (level c) (console_output c) (file_output c) (max_file_size c)
    (max_file_count c) h.

Fixpoint remove_one (i : nat) (l : list nat) : list nat :=
  match l with
  | [] => []
  | j :: l => if decide (i = j) then l else j :: remove_one i l
  end.

(** [if (file_handle) { fclose(file_handle); file_handle = NULL; }] *)
Definition close_handle (g : logger) : logger :=
  match file_handle (g_log_config g) with
  | Some i => Logger (with_handle (g_log_config g) None) (g_log_initialized g) (lg_files g)
                (remove_one i (lg_open g)) (lg_stderr g)
  | None => g
  end.

(** [file_handle = fopen(log_file, mode)] *)
Definition open_handle (ok : bool) (mode : fopen_mode) (g : logger) : logger :=
  if ok then
    let '(f, i) := fs_open mode (lg_files g) (log_file (g_log_config g)) in
    Logger (with_handle (g_log_config g) (Some i)) (g_log_initialized g) f (i :: lg_open g) (lg_stderr g)
  else
    Logger (with_handle (g_log_config g) None) (g_log_initialized g) (lg_files g) (lg_open g) (lg_stderr g).

(** ** Rotation *)

Definition numbered (file : cstring) (i : Z) : cstring :=
  snprintf_to XSAN_MAX_PATH_LEN (file ++ "."%char :: print_signed i).

(** The loop from [i] down to 1; [rename_ok] tells whether the system allows the
    rename of step [i]. *)
Fixpoint rotate_loop (rename_ok : Z -> bool) (file : cstring) (i : nat) (f : files) : files :=
  match i with
  | O => f
  | S i' =>
      let old := if Z.of_nat i =? 1 then snprintf_to XSAN_MAX_PATH_LEN file
                 else numbered file (Z.of_nat i - 1) in
      let new := numbered file (Z.of_nat i) in
      rotate_loop rename_ok file i' (if rename_ok (Z.of_nat i) then fs_rename f old new else f)
  end.

(** What the system does during a message. *)
Record log_env := Env {
  stat_ok : bool;
  rename_ok : Z -> bool;
  reopen_ok : bool;
  is_tty : bool;
  timestamp : cstring
}.

Definition with_files (g : logger) (f : files) : logger :=
  Logger (g_log_config g) (g_log_initialized g) f (lg_open g) (lg_stderr g).

Definition rotate_log_file (e : log_env) (g : logger) : logger :=
  let g := close_handle g in
  let c := g_log_config g in
  let g := with_files g
    (rotate_loop (rename_ok e) (log_file c) (Z.to_nat (max_file_count c - 1)) (lg_files g)) in
  open_handle (reopen_ok e) ModeW g.

Definition check_log_rotation (e : log_env) (g : logger) : logger :=
  let c := g_log_config g in
  match file_handle c with
  | None => g
  | Some _ =>
      match stat_ok e, fs_read (lg_files g) (log_file c) with
      | true, Some content =>
          if max_file_size c <=? Zlen content then rotate_log_file e g else g
      | _, _ => g
      end
  end.

(** ** Operations *)

(** [fopen_ok]: the outcome of opening the log file. *)
Definition xsan_log_init (fopen_ok : bool) (config : option xsan_log_config) (g : logger) :
    logger * xsan_error_t :=
  match config with
  | None => (g, XSAN_ERROR_INVALID_PARAM)
  | Some c =>
      let old := g_log_config g in
      let opens := file_output c && (0 <? Zlen (log_file c)) in
      let g := Logger (LogConfig
        (if opens then take (Z.to_nat (XSAN_MAX_PATH_LEN - 1)) (log_file c) else log_file old)
        (level c) (console_output c) (file_output c) (max_file_size c) (max_file_count c)
        (file_handle old)) (g_log_initialized g) (lg_files g) (lg_open g) (lg_stderr g) in
      let g := if opens then open_handle fopen_ok ModeA g else g in
      if opens && negb fopen_ok then (g, XSAN_ERROR_STORAGE_IO) else
      (Logger (g_log_config g) true (lg_files g) (lg_open g) (lg_stderr g), XSAN_OK)
  end.

Definition xsan_log_shutdown (g : logger) : logger :=
  let g := close_handle g in
  Logger (g_log_config g) false (lg_files g) (lg_open g) (lg_stderr g).

Definition xsan_log_set_level (l : Z) (g : logger) : logger :=
  if (XSAN_LOG_LEVEL_TRACE <=? l) && (l <=? XSAN_LOG_LEVEL_FATAL) then
    let c := g_log_config g in
    Logger (LogConfig (log_file c) l (console_output c) (file_output c) (max_file_size c)
      (max_file_count c) (file_handle c)) (g_log_initialized g) (lg_files g) (lg_open g) (lg_stderr g)
  else g.

Definition xsan_log_get_level (g : logger) : Z := level (g_log_config g).

Definition xsan_log_is_enabled (l : Z) (g : logger) : bool :=
  g_log_initialized g && (level (g_log_config g) <=? l).

(** A call of [xsan_log_message]: level, place, and the text of the message. *)
Record log_call := LogCall {
  lc_level : Z; lc_file : cstring; lc_line : Z; lc_func : cstring; lc_text : cstring
}.

(** The file name without its directories. *)
Definition base_name (file : cstring) : cstring :=
  match split_last "/"%char file with Some (_, name) => name | None => file end.

Definition full_message (stamp : cstring) (name : cstring) (m : log_call) : cstring :=
  snprintf_to 4096
    ($"[" ++ snprintf_to 32 stamp ++ $"] [" ++ name ++ $"] [" ++ base_name (lc_file m) ++ $":" ++
     print_signed (lc_line m) ++ $"] [" ++ lc_func m ++ $"] " ++ snprintf_to 2048 (lc_text m) ++
     ["010"%char]).

Definition write_console (e : log_env) (color text : cstring) (g : logger) : logger :=
  if console_output (g_log_config g) then
    Logger (g_log_config g) (g_log_initialized g) (lg_files g) (lg_open g)
      (lg_stderr g ++ [if is_tty e then color ++ text ++ color_reset else text])
  else g.

Definition write_file (e : log_env) (text : cstring) (g : logger) : logger :=
  match file_output (g_log_config g), file_handle (g_log_config g) with
  | true, Some _ =>
      let g := check_log_rotation e g in
      match file_handle (g_log_config g) with
      | Some i => with_files g (fs_append (lg_files g) i text)
      | None => g
      end
  | _, _ => g
  end.

Definition xsan_log_message (e : log_env) (m : log_call) (g : logger) : option logger :=
  if negb (g_log_initialized g) || (lc_level m <? level (g_log_config g)) then Some g else
  name ← log_level_strings !! Z.to_nat (lc_level m);
  color ← log_level_colors !! Z.to_nat (lc_level m);
  let text := full_message (timestamp e) name m in
  Some (write_file e text (write_console e color text g)).

(** The calls of [fflush]: the standard error, and the stream of the log file. *)
Definition xsan_log_flush (g : logger) : bool * option nat :=
  (console_output (g_log_config g),
   if file_output (g_log_config g) then file_handle (g_log_config g) else None).

(** A sequence of messages. *)
Fixpoint log_all (ms : list (log_env * log_call)) (g : logger) : option logger :=
  match ms with
  | [] => Some g
  | (e, m) :: ms => g' ← xsan_log_message e m g; log_all ms g'
  end.

(** * Theorems *)

(** ** Levels *)

(** The name of a level is read back as the level, in any case of letters. *)
Lemma level_name_round_trip l s :
  0 <= l <= 5 -> map tolower s = map tolower (xsan_log_level_string l) ->
  no_nul s -> xsan_log_level_from_string (Some s) = l.
Proof.
  intros Hl Hs Hn. assert (Hk : l ∈ seqZ 0 6) by (apply elem_of_seqZ; lia).
  assert (Hcmp : forall name, name ∈ log_level_strings ->
    (casecmp_loop s name =? 0) = bool_decide (map tolower (xsan_log_level_string l) = map tolower name)).
  { intros name Hname. rewrite <- Hs. apply Bool.eq_iff_eq_true.
    rewrite Z.eqb_eq, bool_decide_eq_true.
    apply (strcasecmp_zero false s name Hn).
    revert name Hname. apply Forall_forall. unfold no_nul. repeat constructor; done. }
  unfold xsan_log_level_from_string, log_level_strings, level_loop.
  rewrite !Hcmp by (unfold log_level_strings; set_solver). clear Hcmp Hs.
  revert l Hk Hl. apply (Forall_forall (fun l => 0 <= l <= 5 -> _ = l)).
  repeat constructor; intros _; vm_compute; reflexivity.
Qed.

(** ** Files *)

(** Every name refers to an object of its own, allocated before. *)
Record files_wf (f : files) : Prop := {
  fw_inj : forall p q i, fs_names f !! p = Some i -> fs_names f !! q = Some i -> p = q;
  fw_data : forall p i, fs_names f !! p = Some i -> is_Some (fs_data f !! i);
  fw_next : forall p i, fs_names f !! p = Some i -> (i < fs_next f)%nat
}.

Lemma read_none f p : files_wf f -> fs_read f p = None <-> fs_names f !! p = None.
Proof.
  intros Hf. unfold fs_read. destruct (fs_names f !! p) as [i|] eqn:Hp; cbn; [|done].
  destruct (fw_data f Hf p i Hp) as [x ->]. done.
Qed.

Lemma rename_wf f old new : files_wf f -> files_wf (fs_rename f old new).
Proof.
  intros [Hi Hd Hn]. unfold fs_rename. destruct (fs_names f !! old) as [i|] eqn:Ho; [|done].
  assert (Hcases : forall p j, <[new := i]> (delete old (fs_names f)) !! p = Some j ->
    (p = new /\ j = i) \/ (p <> new /\ p <> old /\ fs_names f !! p = Some j)).
  { intros p j. rewrite lookup_insert, lookup_delete. destruct (decide (new = p)) as [->|].
    - intros [= <-]. now left.
    - destruct (decide (old = p)); [done|]. right. split_and!; congruence. }
  constructor; cbn [fs_names fs_data fs_next].
  - intros p q j Hp Hq. destruct (Hcases p j Hp) as [[-> ->]|(? & ? & Hp')],
      (Hcases q _ Hq) as [[-> Hqi]|(? & ? & Hq')]; [done| | |eauto].
    + pose proof (Hi _ _ _ Ho Hq'). congruence.
    + subst j. pose proof (Hi _ _ _ Ho Hp'). congruence.
  - intros p j Hp. destruct (Hcases p j Hp) as [[-> ->]|(? & ? & Hp')]; eauto.
  - intros p j Hp. destruct (Hcases p j Hp) as [[-> ->]|(? & ? & Hp')]; eauto.
Qed.

Lemma read_rename f old new p :
  files_wf f -> old <> new ->
  fs_read (fs_rename f old new) p =
  match fs_read f old with
  | None => fs_read f p
  | Some x => if decide (p = new) then Some x else if decide (p = old) then None else fs_read f p
  end.
Proof.
  intros Hf Hne. unfold fs_rename. destruct (fs_names f !! old) as [i|] eqn:Ho.
  - unfold fs_read at 1 2. cbn [fs_names fs_data]. rewrite Ho. cbn [mbind option_bind].
    destruct (fw_data f Hf old i Ho) as [x Hx]. rewrite Hx, lookup_insert, lookup_delete.
    destruct (decide (p = new)) as [->|]; [now rewrite decide_True|].
    rewrite (decide_False (P := new = p)) by done. destruct (decide (p = old)) as [->|].
    + now rewrite decide_True.
    + now rewrite decide_False.
  - now apply read_none in Ho as ->.
Qed.

Lemma open_spec mode f p f' h :
  files_wf f -> fs_open mode f p = (f', h) ->
  files_wf f' /\ fs_names f' !! p = Some h /\
  (forall q, q <> p -> fs_read f' q = fs_read f q) /\
  fs_read f' p = Some (match mode with ModeW => [] | ModeA => default [] (fs_read f p) end).
Proof.
  intros Hf. pose proof Hf as [Hi Hd Hn]. unfold fs_open.
  destruct (fs_names f !! p) as [i|] eqn:Hp; intros [= <- <-].
  - destruct (Hd p i Hp) as [x Hx].
    assert (Hr : fs_read f p = Some x) by (unfold fs_read; now rewrite Hp).
    destruct mode; [|now rewrite Hr].
    split_and!; [|done| |unfold fs_read; cbn; now rewrite Hp; cbn; rewrite lookup_insert_eq].
    + constructor; cbn [fs_names fs_data fs_next]; [exact Hi| |exact Hn].
      intros q j Hq. rewrite lookup_insert. destruct (decide (i = j)); eauto.
    + intros q Hq. unfold fs_read. cbn [fs_names fs_data].
      destruct (fs_names f !! q) as [j|] eqn:Hj; cbn; [|done].
      rewrite lookup_insert_ne; [done|]. intros ->. apply Hq. eauto.
  - assert (Hr : fs_read f p = None) by now apply read_none.
    assert (Hcases : forall q j, <[p := fs_next f]> (fs_names f) !! q = Some j ->
      (q = p /\ j = fs_next f) \/ (q <> p /\ fs_names f !! q = Some j)).
    { intros q j. rewrite lookup_insert. destruct (decide (p = q)) as [->|]; [|auto].
      intros [= <-]. auto. }
    assert (Hfresh : forall q j, fs_names f !! q = Some j -> j <> fs_next f)
      by (intros q j Hq ->; specialize (Hn q _ Hq); lia).
    split_and!; [|apply lookup_insert_eq| |].
    + constructor; cbn [fs_names fs_data fs_next].
      * intros q r j Hq Hr'. destruct (Hcases q j Hq) as [[-> ->]|[? Hq']],
          (Hcases r _ Hr') as [[-> Hj]|[? Hr'']]; [done| | |eauto].
        -- now destruct (Hfresh _ _ Hr'').
        -- now destruct (Hfresh _ _ Hq').
      * intros q j Hq. rewrite lookup_insert. destruct (decide (fs_next f = j)); [eauto|].
        destruct (Hcases q j Hq) as [[-> ->]|[? Hq']]; [done|eauto].
      * intros q j Hq. destruct (Hcases q j Hq) as [[-> ->]|[? Hq']]; [lia|].
        specialize (Hn q j Hq'). lia.
    + intros q Hq. unfold fs_read. cbn [fs_names fs_data]. rewrite lookup_insert_ne by done.
      destruct (fs_names f !! q) as [j|] eqn:Hj; cbn; [|done].
      rewrite lookup_insert_ne; [done|]. intros <-. now destruct (Hfresh _ _ Hj).
    + rewrite Hr. unfold fs_read. cbn [fs_names fs_data]. rewrite lookup_insert_eq. cbn.
      rewrite lookup_insert_eq. now destruct mode.
Qed.

Lemma append_spec f p h text :
  files_wf f -> fs_names f !! p = Some h ->
  files_wf (fs_append f h text) /\
  (forall q, q <> p -> fs_read (fs_append f h text) q = fs_read f q) /\
  fs_read (fs_append f h text) p = (fun old => old ++ text) <$> fs_read f p.
Proof.
  intros [Hi Hd Hn] Hp. split_and!.
  - constructor; cbn [fs_append fs_names fs_data fs_next]; [exact Hi| |exact Hn].
    intros q j Hq. rewrite lookup_alter. destruct (decide (h = j)) as [->|]; [|eauto].
    destruct (Hd q j Hq) as [x ->]. now eexists.
  - intros q Hq. unfold fs_read. cbn [fs_append fs_names fs_data].
    destruct (fs_names f !! q) as [j|] eqn:Hj; cbn; [|done].
    rewrite lookup_alter_ne; [done|]. intros ->. apply Hq. eauto.
  - unfold fs_read. cbn [fs_append fs_names fs_data]. rewrite Hp. cbn. now rewrite lookup_alter_eq.
Qed.

(** ** Rotation *)

(** The name of the file of age [i], 0 being the current one. *)
Definition aged (file : cstring) (i : nat) : cstring :=
  if decide (i = 0%nat) then file else file ++ "."%char :: print_signed (Z.of_nat i).

(** The names of all ages fit the path buffers. *)
Definition path_fits (file : cstring) : Prop := Zlen file <= 4084.
Definition age_fits (i : nat) : Prop := Z.of_nat i < 2 ^ 31.

Lemma print_signed_pos z : 0 <= z < 2 ^ 31 -> print_signed z = print_unsigned z.
Proof. intros Hz. unfold print_signed. now destruct (Z.ltb_spec z 0); [lia|]. Qed.

Lemma numbered_aged file i : path_fits file -> age_fits i -> (1 <= i)%nat ->
  numbered file (Z.of_nat i) = aged file i.
Proof.
  unfold path_fits, age_fits. intros Hf Hi H1. unfold numbered, aged. rewrite decide_False by lia.
  apply snprintf_to_fits. rewrite Zlen_app, Zlen_cons, print_signed_pos by lia.
  pose proof (print_unsigned_length (Z.of_nat i) 10 ltac:(pow2s; lia) ltac:(lia)). unfold XSAN_MAX_PATH_LEN. lia.
Qed.

Lemma aged_inj file i j : age_fits i -> age_fits j -> aged file i = aged file j -> i = j.
Proof.
  unfold age_fits, aged. intros Hi Hj Heq.
  assert (Happ : forall x, file = file ++ "."%char :: x -> False).
  { intros x Hx. apply (f_equal length) in Hx. rewrite length_app in Hx. simpl in Hx. lia. }
  destruct (decide (i = 0%nat)) as [->|], (decide (j = 0%nat)) as [->|]; [done|..].
  - now apply Happ in Heq.
  - symmetry in Heq. now apply Happ in Heq.
  - apply (inj (app file)) in Heq. injection Heq as Heq.
    rewrite !print_signed_pos in Heq by lia.
    apply (f_equal digits_val) in Heq.
    destruct (print_unsigned_spec (Z.of_nat i)) as (_ & _ & Hvi); [pow2s; lia|].
    destruct (print_unsigned_spec (Z.of_nat j)) as (_ & _ & Hvj); [pow2s; lia|]. lia.
Qed.

(** The old name of step [i] of the loop. *)
Lemma rotate_old file n :
  path_fits file -> age_fits (S n) ->
  (if Z.of_nat (S n) =? 1 then snprintf_to XSAN_MAX_PATH_LEN file
   else numbered file (Z.of_nat (S n) - 1)) = aged file n.
Proof.
  intros Hf Hn. destruct (Z.eqb_spec (Z.of_nat (S n)) 1).
  - unfold aged. rewrite decide_True by lia. apply snprintf_to_fits.
    unfold path_fits, XSAN_MAX_PATH_LEN in *. lia.
  - replace (Z.of_nat (S n) - 1) with (Z.of_nat n) by lia. unfold age_fits in *.
    apply numbered_aged; [done|unfold age_fits; lia|lia].
Qed.

(** Each file takes the name of the next age. *)
Lemma rotate_loop_spec file n f (hist : list cstring) :
  path_fits file -> age_fits n -> files_wf f ->
  (forall i, (i <= n)%nat -> fs_read f (aged file i) = hist !! i) ->
  let f' := rotate_loop (fun _ => true) file n f in
  files_wf f' /\
  (forall q, (forall i, (i <= n)%nat -> q <> aged file i) -> fs_read f' q = fs_read f q) /\
  forall i, (i <= n)%nat ->
    fs_read f' (aged file i) =
    match i with O => if decide (n = 0%nat) then hist !! 0%nat else None | S j => hist !! j end.
Proof.
  intros Hfile. revert f hist. induction n as [|n IH]; intros f hist Hn Hf Hr.
  { cbn. split_and!; [done..|]. intros i Hi. replace i with 0%nat by lia. now apply Hr. }
  cbn [rotate_loop]. rewrite rotate_old, numbered_aged by (done || lia).
  set (f1 := fs_rename f (aged file n) (aged file (S n))).
  assert (Hn' : age_fits n) by (unfold age_fits in *; lia).
  assert (Hne : aged file n <> aged file (S n)) by (intros Ha%aged_inj; [lia|done..]).
  assert (H1 : files_wf f1) by now apply rename_wf.
  assert (Hother : forall i, (i <= n)%nat -> i <> n ->
    aged file i <> aged file n /\ aged file i <> aged file (S n)).
  { intros i Hi Hin. split; intros Ha%aged_inj; try lia; unfold age_fits in *; lia. }
  assert (Hr1 : forall i, (i <= n)%nat -> fs_read f1 (aged file i) = take n hist !! i).
  { intros i Hi. unfold f1. rewrite read_rename by done. rewrite (Hr n) by lia.
    destruct (decide (i = n)) as [->|Hin].
    - rewrite lookup_take_ge by lia. destruct (hist !! n) eqn:Hh.
      + now rewrite decide_False, decide_True.
      + rewrite Hr by lia. done.
    - destruct (Hother i Hi Hin). rewrite lookup_take_lt by lia. rewrite Hr by lia.
      destruct (hist !! n); [|done]. now rewrite !decide_False. }
  destruct (IH f1 (take n hist) Hn' H1 Hr1) as (Hwf & Hout & Hin). split_and!; [done| |].
  - intros q Hq. rewrite Hout by (intros i Hi; apply Hq; lia). unfold f1.
    rewrite read_rename by done. destruct (fs_read f (aged file n)); [|done].
    rewrite !decide_False; [done|apply Hq; lia..].
  - intros i Hi. destruct (decide (i = S n)) as [->|Hne'].
    + rewrite Hout.
      2:{ intros j Hj Ha%aged_inj; [lia|done|]. unfold age_fits in *. lia. }
      unfold f1. rewrite read_rename by done. rewrite !Hr by lia.
      destruct (hist !! n) eqn:Hh; [now rewrite decide_True|].
      apply lookup_ge_None in Hh. apply lookup_ge_None. lia.
    + rewrite Hin by lia. rewrite (decide_False (P := S n = 0%nat)) by lia.
      destruct i as [|j].
      * destruct (decide (n = 0%nat)) as [->|]; [now rewrite take_0|done].
      * rewrite lookup_take_lt by lia. done.
Qed.

(** ** The log as a list of texts *)

(** How many files there are at most. *)
Definition ages (c : xsan_log_config) : nat := S (Z.to_nat (max_file_count c - 1)).

(** The texts of the files, the current one first: a line goes to the current text,
    after a new one was started when it is too long; the oldest is dropped. *)
Definition log_line (c : xsan_log_config) (hist : list cstring) (text : cstring) : list cstring :=
  let hist := if max_file_size c <=? Zlen (default [] (head hist))
              then [] :: take (Z.to_nat (max_file_count c - 1)) hist else hist in
  match hist with
  | cur :: older => (cur ++ text) :: older
  | [] => []
  end.

Record log_files (c : xsan_log_config) (f : files) (hist : list cstring) : Prop := {
  lf_wf : files_wf f;
  lf_handle : exists h, file_handle c = Some h /\ fs_names f !! log_file c = Some h;
  lf_read : forall i, (i < ages c)%nat -> fs_read f (aged (log_file c) i) = hist !! i;
  lf_some : hist <> [];
  lf_ages : (length hist <= ages c)%nat
}.

(** The configuration of a log to a file whose path fits the buffers. *)
Definition file_log (c : xsan_log_config) : Prop :=
  file_output c = true /\ path_fits (log_file c) /\ max_file_count c < 2 ^ 31.

(** The system refuses nothing. *)
Definition allows (e : log_env) : Prop :=
  stat_ok e = true /\ rename_ok e = (fun _ => true) /\ reopen_ok e = true.

Lemma rotate_files e g hist :
  allows e -> file_log (g_log_config g) ->
  log_files (g_log_config g) (lg_files g) hist ->
  let g' := rotate_log_file e g in
  with_handle (g_log_config g') None = with_handle (g_log_config g) None /\
  g_log_initialized g' = g_log_initialized g /\
  log_files (g_log_config g') (lg_files g')
    ([] :: take (Z.to_nat (max_file_count (g_log_config g) - 1)) hist).
Proof.
  intros (_ & Hren & Hreo) (_ & Hfit & Hcount) [Hwf (h & Hh & Hname) Hread Hne Hlen].
  unfold rotate_log_file, close_handle, open_handle. rewrite Hh, Hren, Hreo.
  cbn [g_log_config with_files with_handle log_file max_file_count lg_files].
  set (c := g_log_config g) in *. set (n := Z.to_nat (max_file_count c - 1)) in *.
  assert (Hn : age_fits n) by (unfold age_fits, n; lia).
  destruct (rotate_loop_spec (log_file c) n (lg_files g) hist Hfit Hn Hwf) as (Hwf1 & _ & Hr1).
  { intros i Hi. apply Hread. unfold ages. lia. }
  destruct (fs_open ModeW _ _) as [f' h'] eqn:Hop.
  apply open_spec in Hop as (Hwf' & Hname' & Hother & Hcur); [|done].
  cbn [g_log_config g_log_initialized lg_files with_handle]. split_and!; [done..|].
  constructor; cbn [file_handle log_file]; [done|now exists h'| |done|].
  - intros i Hi. change (ages _) with (S n) in Hi. destruct i as [|j]; [exact Hcur|].
    rewrite Hother.
    2:{ change (log_file c) with (aged (log_file c) 0). intros Ha%aged_inj; [done| |done].
        unfold age_fits in *. lia. }
    rewrite Hr1 by lia. change (([] :: take n hist) !! S j) with (take n hist !! j).
    now rewrite lookup_take_lt by lia.
  - simpl. rewrite length_take. change (ages _) with (S n). lia.
Qed.

Lemma append_files c f hist text h :
  file_log c -> log_files c f hist -> file_handle c = Some h ->
  log_files c (fs_append f h text)
    (match hist with cur :: older => (cur ++ text) :: older | [] => [] end).
Proof.
  intros (_ & _ & Hcount) [Hwf (h' & Hh & Hname) Hread Hne Hlen] Hh'.
  assert (h' = h) as -> by congruence.
  destruct (append_spec f (log_file c) h text Hwf Hname) as (Hwf' & Hother & Hcur).
  destruct hist as [|cur older]; [done|]. constructor; [done|now exists h| |done|done].
  intros [|j] Hj; [change (aged (log_file c) 0) with (log_file c)|].
  - rewrite Hcur. change (log_file c) with (aged (log_file c) 0). now rewrite Hread by lia.
  - rewrite Hother; [now rewrite Hread|].
    change (log_file c) with (aged (log_file c) 0) at 2. unfold ages in Hj.
    intros Ha%aged_inj; [done| |done]. unfold age_fits. lia.
Qed.

Lemma write_file_refines e text g hist :
  allows e -> file_log (g_log_config g) ->
  log_files (g_log_config g) (lg_files g) hist ->
  let g' := write_file e text g in
  with_handle (g_log_config g') None = with_handle (g_log_config g) None /\
  g_log_initialized g' = g_log_initialized g /\
  log_files (g_log_config g') (lg_files g') (log_line (g_log_config g) hist text).
Proof.
  intros Henv Hlog Hfiles. pose proof Hfiles as [_ (h & Hh & _) Hread _ _].
  pose proof Henv as (Hstat & _ & _). unfold write_file, check_log_rotation.
  rewrite (proj1 Hlog), Hh, Hstat.
  assert (Hr : fs_read (lg_files g) (log_file (g_log_config g)) = head hist).
  { change (log_file (g_log_config g)) with (aged (log_file (g_log_config g)) 0).
    rewrite Hread by (unfold ages; lia). now destruct hist. }
  rewrite Hr. unfold log_line. destruct hist as [|cur older]; [now destruct (lf_some _ _ _ Hfiles)|].
  change (default [] (head (cur :: older))) with cur. cbn [head]. destruct (max_file_size (g_log_config g) <=? Zlen cur).
  - destruct (rotate_files e g (cur :: older) Henv Hlog Hfiles) as (Hc & Hi & Hf).
    pose proof Hf as [_ (h' & Hh' & _) _ _ _]. rewrite Hh'. cbn [with_files g_log_config g_log_initialized lg_files].
    assert (Hlog' : file_log (g_log_config (rotate_log_file e g))).
    { destruct Hlog as (Ho & Hp & Hm). injection Hc as E1 E2 E3 E4 E5 E6.
      unfold file_log. now rewrite E1, E4, E6. }
    split_and!; [done..|]. exact (append_files _ _ _ text h' Hlog' Hf Hh').
  - rewrite Hh. cbn [with_files g_log_config g_log_initialized lg_files].
    split_and!; [done..|]. now apply (append_files _ _ (cur :: older) text h).
Qed.

(** ** Messages *)

Definition valid_level (l : Z) : Prop := 0 <= l <= 5.

(** The text a message adds to the file. *)
Definition message_text (e : log_env) (m : log_call) : cstring :=
  full_message (timestamp e) (xsan_log_level_string (lc_level m)) m.

Lemma level_tables l : valid_level l ->
  log_level_strings !! Z.to_nat l = Some (xsan_log_level_string l) /\
  is_Some (log_level_colors !! Z.to_nat l).
Proof.
  unfold valid_level. intros Hl. split.
  - unfold xsan_log_level_string. destruct (Z.leb_spec XSAN_LOG_LEVEL_TRACE l); [|unfold XSAN_LOG_LEVEL_TRACE in *; lia].
    destruct (Z.leb_spec l XSAN_LOG_LEVEL_FATAL); [|unfold XSAN_LOG_LEVEL_FATAL in *; lia]. cbn [andb].
    destruct (lookup_lt_is_Some_2 log_level_strings (Z.to_nat l)) as [x ->]; [simpl; lia|done].
  - apply lookup_lt_is_Some_2. simpl. lia.
Qed.

(** A message of a valid level is dropped below the threshold and is written to the
    log otherwise. *)
Lemma log_message_refines e m g hist :
  allows e -> valid_level (lc_level m) -> g_log_initialized g = true ->
  file_log (g_log_config g) -> log_files (g_log_config g) (lg_files g) hist ->
  exists g', xsan_log_message e m g = Some g' /\
    with_handle (g_log_config g') None = with_handle (g_log_config g) None /\
    g_log_initialized g' = true /\
    log_files (g_log_config g') (lg_files g')
      (if lc_level m <? level (g_log_config g) then hist
       else log_line (g_log_config g) hist (message_text e m)).
Proof.
  intros Henv Hl Hinit Hlog Hfiles. unfold xsan_log_message. rewrite Hinit. cbn [negb orb].
  destruct (lc_level m <? level (g_log_config g)); [now exists g|].
  destruct (level_tables (lc_level m) Hl) as [-> [color ->]]. cbn [mbind option_bind].
  eexists. split; [reflexivity|]. fold (message_text e m).
  set (g1 := write_console e color (message_text e m) g).
  assert (Hg1 : g_log_config g1 = g_log_config g /\ lg_files g1 = lg_files g /\
    g_log_initialized g1 = g_log_initialized g)
    by (unfold g1, write_console; now destruct (console_output (g_log_config g))).
  destruct Hg1 as (Ec & Ef & Ei). rewrite <- Ec, <- Hinit, <- Ei.
  apply write_file_refines; [done|now rewrite Ec|now rewrite Ec, Ef].
Qed.

(** The texts of the messages that pass the threshold. *)
Definition logged (threshold : Z) (ms : list (log_env * log_call)) : list cstring :=
  omap (fun '(e, m) => if lc_level m <? threshold then None else Some (message_text e m)) ms.

Definition log_lines (c : xsan_log_config) (hist : list cstring) (texts : list cstring) : list cstring :=
  foldl (log_line c) hist texts.

Lemma log_line_config c c' hist text :
  with_handle c' None = with_handle c None -> log_line c' hist text = log_line c hist text.
Proof. intros [= E1 E2 E3 E4 E5 E6]. unfold log_line. now rewrite E5, E6. Qed.

Lemma log_all_refines ms g hist :
  Forall (fun '(e, m) => allows e /\ valid_level (lc_level m)) ms ->
  g_log_initialized g = true -> file_log (g_log_config g) ->
  log_files (g_log_config g) (lg_files g) hist ->
  exists g', log_all ms g = Some g' /\
    with_handle (g_log_config g') None = with_handle (g_log_config g) None /\
    log_files (g_log_config g') (lg_files g')
      (log_lines (g_log_config g) hist (logged (level (g_log_config g)) ms)).
Proof.
  revert g hist. induction ms as [|[e m] ms IH]; intros g hist Hms Hinit Hlog Hfiles; [now exists g|].
  apply Forall_cons in Hms as [[Henv Hl] Hms].
  destruct (log_message_refines e m g hist Henv Hl Hinit Hlog Hfiles) as (g1 & Hm & Hc & Hi & Hf).
  cbn [log_all]. rewrite Hm. cbn [mbind option_bind]. pose proof Hc as [= E1 E2 E3 E4 E5 E6].
  destruct (IH g1 _ Hms Hi ltac:(unfold file_log in *; now rewrite E1, E4, E6) Hf) as (g' & Hg & Hc' & Hf').
  exists g'. split_and!; [done|congruence|]. rewrite E2 in Hf'.
  assert (Hlines : forall h ts, log_lines (g_log_config g1) h ts = log_lines (g_log_config g) h ts).
  { intros h ts. revert h. induction ts as [|t ts IHt]; intros h; [done|]. unfold log_lines in *. simpl.
    now rewrite (log_line_config _ _ _ _ Hc), IHt. }
  rewrite Hlines in Hf'. unfold logged in *. simpl. now destruct (lc_level m <? level (g_log_config g)).
Qed.

(** ** What the files keep *)

Lemma full_message_len stamp name m : Zlen (full_message stamp name m) <= 4095.
Proof. unfold full_message, snprintf_to, Zlen. rewrite length_take. lia. Qed.

(** The files hold whole pieces, and together the newest of them. *)
Definition keeps (pieces : list cstring) (hist : list cstring) : Prop :=
  exists parts : list (list cstring), hist = map (@concat ascii) parts /\
    concat (reverse parts) `suffix_of` pieces.

Lemma log_line_keeps c pieces hist text :
  hist <> [] -> keeps pieces hist ->
  log_line c hist text <> [] /\ keeps (pieces ++ [text]) (log_line c hist text).
Proof.
  intros Hne (parts & -> & Hsuf). unfold log_line.
  destruct (max_file_size c <=? _).
  - split; [done|]. set (n := Z.to_nat (max_file_count c - 1)).
    exists ([text] :: take n parts). split; [simpl; now rewrite app_nil_r, firstn_map|].
    rewrite reverse_cons, concat_app. apply suffix_app. etransitivity; [|exact Hsuf].
    exists (concat (reverse (drop n parts))).
    rewrite <- concat_app, <- reverse_app, take_drop. done.
  - destruct parts as [|p parts]; [done|]. split; [done|]. exists ((p ++ [text]) :: parts). split.
    + simpl. rewrite concat_app. simpl. now rewrite app_nil_r.
    + rewrite reverse_cons, concat_app in Hsuf |- *. simpl in *. rewrite app_nil_r in Hsuf |- *.
      rewrite app_assoc. now apply suffix_app.
Qed.

Lemma log_lines_keep c texts pieces hist :
  hist <> [] -> keeps pieces hist -> keeps (pieces ++ texts) (log_lines c hist texts).
Proof.
  revert pieces hist. induction texts as [|t texts IH]; intros pieces hist Hne Hk.
  - now rewrite app_nil_r.
  - destruct (log_line_keeps c pieces hist t Hne Hk) as [Hne' Hk'].
    change (t :: texts) with ([t] ++ texts). rewrite app_assoc. now apply IH.
Qed.

Lemma log_line_bounded c hist text :
  0 <= max_file_size c -> Zlen text <= 4095 ->
  Forall (fun x => Zlen x < max_file_size c + 4096) hist ->
  Forall (fun x => Zlen x < max_file_size c + 4096) (log_line c hist text).
Proof.
  intros Hmax Htext Hh. unfold log_line.
  destruct (Z.leb_spec (max_file_size c) (Zlen (default [] (head hist)))).
  - constructor; [cbn [app]; lia|]. now apply Forall_take.
  - destruct hist as [|cur older]; [done|]. apply Forall_cons in Hh as [_ Hold].
    constructor; [|done]. simpl in *. rewrite Zlen_app. lia.
Qed.

Lemma log_lines_bounded c ms hist :
  0 <= max_file_size c ->
  Forall (fun x => Zlen x < max_file_size c + 4096) hist ->
  Forall (fun x => Zlen x < max_file_size c + 4096) (log_lines c hist (logged (level c) ms)).
Proof.
  intros Hmax. revert hist. induction ms as [|[e m] ms IH]; intros hist Hh; [done|].
  unfold logged. simpl. destruct (lc_level m <? level c); [now apply IH|].
  apply IH, log_line_bounded; [done|apply full_message_len|done].
Qed.

(** What the files hold after messages that the system let through. *)
Lemma retained c g1 g2 ms hist :
  0 <= max_file_size c -> with_handle (g_log_config g1) None = with_handle c None ->
  g_log_initialized g1 = true -> file_log (g_log_config g1) ->
  log_files (g_log_config g1) (lg_files g1) (match hist with [] => [[]] | _ => hist end) ->
  Forall (fun '(_, m) => valid_level (lc_level m)) ms ->
  Forall (fun '(e, _) => allows e) ms -> log_all ms g1 = Some g2 ->
  exists parts : list (list cstring),
    (forall i, (i < ages c)%nat ->
       fs_read (lg_files g2) (aged (log_file c) i) = @concat ascii <$> parts !! i) /\
    concat (reverse parts) `suffix_of` reverse hist ++ logged (level c) ms /\
    (length parts <= ages c)%nat /\
    (Forall (fun x => Zlen x < max_file_size c + 4096) hist ->
     Forall (fun p => Zlen (concat p) < max_file_size c + 4096) parts).
Proof.
  intros Hmax Hc Hinit Hlog Hf Hl Ha Hg2. pose proof Hc as [= E1 E2 E3 E4 E5 E6].
  set (hist0 := match hist with [] => _ | _ => _ end) in *.
  assert (Hms : Forall (fun '(e, m) => allows e /\ valid_level (lc_level m)) ms).
  { rewrite Forall_forall in *. intros [e m] Hin. split; [apply (Ha _ Hin)|apply (Hl _ Hin)]. }
  destruct (log_all_refines ms g1 hist0 Hms Hinit Hlog Hf) as (g2' & Hall & Hc2 & Hf2).
  rewrite Hg2 in Hall. injection Hall as <-.
  assert (Hk : keeps (reverse hist) hist0).
  { unfold hist0. destruct hist as [|x h]; [now exists [[]]|].
    exists (map (fun x => [x]) (x :: h)). split.
    - rewrite map_map. clear. generalize (x :: h) as l. induction l as [|y l IH]; [done|].
      rewrite map_cons, <- IH. cbn. now rewrite app_nil_r.
    - generalize (x :: h) as l. intros l. replace (concat _) with (reverse l); [done|].
      induction l as [|y l IH]; [done|]. simpl. rewrite !reverse_cons, concat_app, <- IH. done. }
  pose proof (log_lines_keep (g_log_config g1) (logged (level c) ms) (reverse hist) hist0
    (lf_some _ _ _ Hf) Hk) as (parts & Hp & Hsuf).
  rewrite E2, Hp in Hf2. destruct Hf2 as [_ _ Hr2 _ Hlen2].
  pose proof Hc2 as [= F1 F2 F3 F4 F5 F6].
  assert (Hages : ages (g_log_config g2) = ages c) by (unfold ages; now rewrite F6, E6).
  exists parts. split_and!; [|done| |].
  - intros i Hin. rewrite <- E1, <- F1. rewrite Hr2 by (rewrite Hages; done). apply list_lookup_fmap.
  - rewrite length_map, Hages in Hlen2. done.
  - intros Hb.
    assert (Hb0 : Forall (fun x => Zlen x < max_file_size c + 4096) hist0).
    { unfold hist0. destruct hist; [|done]. constructor; [|done]. rewrite Zlen_nil. lia. }
    rewrite <- E5 in Hb0, Hmax |- *. pose proof (log_lines_bounded _ ms _ Hmax Hb0) as Hall'.
    rewrite E2, Hp in Hall'. now apply Forall_map in Hall'.
Qed.

(** ** Files that are not of the log *)

(** A path that is not the log file or one of the older ones that are configured. *)
Definition foreign (c : xsan_log_config) (q : cstring) : Prop :=
  forall i, (i < ages c)%nat -> q <> aged (log_file c) i.

(** The stream is that of the log file, and no other file has changed since [f0]. *)
Record undisturbed (c : xsan_log_config) (f0 f : files) : Prop := {
  ud_wf : files_wf f;
  ud_handle : forall h, file_handle c = Some h -> fs_names f !! log_file c = Some h;
  ud_read : forall q, foreign c q -> fs_read f q = fs_read f0 q
}.

Lemma rotate_loop_frame ok file n f :
  path_fits file -> age_fits n -> files_wf f ->
  files_wf (rotate_loop ok file n f) /\
  forall q, (forall i, (i <= n)%nat -> q <> aged file i) ->
    fs_read (rotate_loop ok file n f) q = fs_read f q.
Proof.
  intros Hfile. revert f. induction n as [|n IH]; intros f Hn Hf; [done|].
  cbn [rotate_loop]. rewrite rotate_old, numbered_aged by (done || lia).
  assert (Hn' : age_fits n) by (unfold age_fits in *; lia).
  assert (Hne : aged file n <> aged file (S n)) by (intros Ha%aged_inj; [lia|done..]).
  destruct (ok (Z.of_nat (S n))).
  - destruct (IH (fs_rename f (aged file n) (aged file (S n))) Hn') as [Hwf Hq];
      [now apply rename_wf|]. split; [done|]. intros q Hout.
    rewrite Hq by (intros i Hi; apply Hout; lia). rewrite read_rename by done.
    destruct (fs_read f (aged file n)); [|done]. rewrite !decide_False; [done|apply Hout; lia..].
  - destruct (IH f Hn' Hf) as [Hwf Hq]. split; [done|]. intros q Hout. apply Hq.
    intros i Hi. apply Hout. lia.
Qed.

Lemma foreign_current c q : foreign c q -> q <> log_file c.
Proof. intros Hq. apply (Hq 0%nat). unfold ages. lia. Qed.

Lemma open_undisturbed ok mode g f0 :
  undisturbed (with_handle (g_log_config g) None) f0 (lg_files g) ->
  let g' := open_handle ok mode g in
  with_handle (g_log_config g') None = with_handle (g_log_config g) None /\
  g_log_initialized g' = g_log_initialized g /\
  undisturbed (g_log_config g') f0 (lg_files g').
Proof.
  intros Hu. pose proof Hu as [Hwf _ Hread]. unfold open_handle. destruct ok; [|by split_and!].
  destruct (fs_open mode _ _) as [f h] eqn:Hop.
  apply open_spec in Hop as (Hwf' & Hname & Hother & _); [|done]. split_and!; [done..|].
  constructor; cbn; [done|by intros ? [= <-]|]. intros q Hq.
  rewrite Hother by exact (foreign_current _ q Hq). now apply Hread.
Qed.

Lemma rotate_undisturbed e g f0 :
  file_log (g_log_config g) -> undisturbed (g_log_config g) f0 (lg_files g) ->
  let g' := rotate_log_file e g in
  with_handle (g_log_config g') None = with_handle (g_log_config g) None /\
  g_log_initialized g' = g_log_initialized g /\
  undisturbed (g_log_config g') f0 (lg_files g').
Proof.
  intros (_ & Hfit & Hcount) [Hwf _ Hread]. unfold rotate_log_file.
  assert (Hg : with_handle (g_log_config (close_handle g)) None = with_handle (g_log_config g) None /\
    g_log_initialized (close_handle g) = g_log_initialized g /\
    lg_files (close_handle g) = lg_files g).
  { unfold close_handle. now destruct (file_handle (g_log_config g)). }
  destruct Hg as (Hc & Hi & Hf). set (g1 := close_handle g) in *.
  pose proof Hc as [= E1 E2 E3 E4 E5 E6].
  destruct (rotate_loop_frame (rename_ok e) (log_file (g_log_config g1))
    (Z.to_nat (max_file_count (g_log_config g1) - 1)) (lg_files g1)) as [Hwf1 Hout].
  { now rewrite E1. }
  { unfold age_fits. rewrite E6. lia. }
  { now rewrite Hf. }
  destruct (open_undisturbed (reopen_ok e) ModeW (with_files g1
    (rotate_loop (rename_ok e) (log_file (g_log_config g1))
       (Z.to_nat (max_file_count (g_log_config g1) - 1)) (lg_files g1))) f0) as (H1 & H2 & H3).
  - constructor; cbn; [done|done|]. intros q Hq.
    rewrite Hout; [rewrite Hf; apply Hread|].
    + intros i Hin. rewrite <- E1. apply Hq. unfold ages in *. cbn. rewrite E6. done.
    + intros i Hin. apply Hq. unfold ages. cbn. lia.
  - split_and!; [now rewrite H1|now rewrite H2|done].
Qed.

Lemma write_undisturbed e text g f0 :
  file_log (g_log_config g) -> undisturbed (g_log_config g) f0 (lg_files g) ->
  let g' := write_file e text g in
  with_handle (g_log_config g') None = with_handle (g_log_config g) None /\
  g_log_initialized g' = g_log_initialized g /\
  undisturbed (g_log_config g') f0 (lg_files g').
Proof.
  intros Hlog Hu. unfold write_file. destruct (file_output _); [|by split_and!].
  destruct (file_handle (g_log_config g)) eqn:Hh; [|by split_and!].
  assert (Hchk : let g' := check_log_rotation e g in
    with_handle (g_log_config g') None = with_handle (g_log_config g) None /\
    g_log_initialized g' = g_log_initialized g /\ undisturbed (g_log_config g') f0 (lg_files g')).
  { unfold check_log_rotation. rewrite Hh. destruct (stat_ok e); [|by split_and!].
    destruct (fs_read _ _); [|by split_and!]. destruct (_ <=? _); [|by split_and!].
    now apply rotate_undisturbed. }
  destruct Hchk as (Hc & Hi & Hu1). set (g1 := check_log_rotation e g) in *.
  pose proof Hu1 as [Hwf Hhd Hread].
  destruct (file_handle (g_log_config g1)) as [h|] eqn:Hh1; [|by split_and!].
  destruct (append_spec (lg_files g1) (log_file (g_log_config g1)) h text Hwf (Hhd h eq_refl))
    as (Hwf' & Hother & _).
  split_and!; [done..|]. constructor; cbn; [done| |].
  - intros h' Hh'. apply Hhd. congruence.
  - intros q Hq. rewrite Hother by exact (foreign_current _ q Hq). now apply Hread.
Qed.

Lemma log_all_undisturbed ms g f0 :
  Forall (fun '(_, m) => valid_level (lc_level m)) ms ->
  file_log (g_log_config g) -> undisturbed (g_log_config g) f0 (lg_files g) ->
  exists g', log_all ms g = Some g' /\
    with_handle (g_log_config g') None = with_handle (g_log_config g) None /\
    undisturbed (g_log_config g') f0 (lg_files g').
Proof.
  revert g. induction ms as [|[e m] ms IH]; intros g Hms Hlog Hu; [now exists g|].
  apply Forall_cons in Hms as [Hl Hms]. cbn [log_all]. unfold xsan_log_message.
  destruct (_ || _); cbn [mbind option_bind]; [now apply IH|].
  destruct (level_tables (lc_level m) Hl) as [-> [color ->]]. cbn [mbind option_bind].
  set (text := full_message _ _ _).
  set (g1 := write_console e color text g).
  assert (Hg1 : g_log_config g1 = g_log_config g /\ lg_files g1 = lg_files g)
    by (unfold g1, write_console; now destruct (console_output (g_log_config g))).
  destruct Hg1 as [Ec Ef].
  destruct (write_undisturbed e text g1 f0) as (Hc & _ & Hu'); [now rewrite Ec|now rewrite Ec, Ef|].
  rewrite Ec in Hc. pose proof Hc as [= E1 E2 E3 E4 E5 E6].
  destruct (IH (write_file e text g1)) as (g' & Hg' & Hc' & Hu'');
    [done|unfold file_log in *; now rewrite E1, E4, E6|done|].
  exists g'. split_and!; [done|congruence|done].
Qed.

(** Opening the log over the files left by an earlier run. *)
Lemma init_files c g hist :
  file_log c -> log_file c <> [] -> files_wf (lg_files g) ->
  (forall i, (i < ages c)%nat -> fs_read (lg_files g) (aged (log_file c) i) = hist !! i) ->
  (length hist <= ages c)%nat ->
  exists g', xsan_log_init true (Some c) g = (g', XSAN_OK) /\ g_log_initialized g' = true /\
    with_handle (g_log_config g') None = with_handle c None /\
    undisturbed (g_log_config g') (lg_files g) (lg_files g') /\
    log_files (g_log_config g') (lg_files g') (match hist with [] => [[]] | _ => hist end).
Proof.
  intros (Hout & Hfit & Hcount) Hne Hwf Hread Hlen. unfold xsan_log_init, open_handle.
  rewrite Hout. cbn [andb]. destruct (Z.ltb_spec 0 (Zlen (log_file c))) as [_|Hz].
  2:{ destruct (log_file c); [done|]. rewrite Zlen_cons in Hz. unfold Zlen in Hz. lia. }
  cbn [negb andb g_log_config g_log_initialized lg_files log_file].
  rewrite take_ge by (unfold path_fits, Zlen, XSAN_MAX_PATH_LEN in *; lia).
  destruct (fs_open ModeA _ _) as [f' h] eqn:Hop.
  apply open_spec in Hop as (Hwf' & Hname & Hother & Hcur); [|done].
  eexists. split; [reflexivity|]. cbn [g_log_config g_log_initialized lg_files].
  split_and!; [done|unfold with_handle; simpl; now rewrite Hout| |].
  { constructor; cbn; [done|by intros ? [= <-]|]. intros q Hq.
    apply Hother, (foreign_current _ q Hq). }
  constructor; cbn [with_handle file_handle log_file]; [done|now exists h| |now destruct hist|].
  - intros i Hi. change (ages _) with (ages c) in Hi. destruct i as [|j].
    + change (aged (log_file c) 0) with (log_file c). rewrite Hcur.
      change (log_file c) with (aged (log_file c) 0). rewrite Hread by lia. now destruct hist.
    + rewrite Hother; [rewrite Hread by done; now destruct hist|].
      change (log_file c) with (aged (log_file c) 0) at 2. unfold ages in Hi.
      intros Ha%aged_inj; [done| |done]. unfold age_fits. lia.
  - change (ages _) with (ages c). destruct hist; [simpl; unfold ages; lia|done].
Qed.

(** C25: A log to a file, opened over what an earlier run left, uses no other file than
    the current one and as many older ones as configured: whatever the system refuses,
    every other file stays as it was, so that no older file beyond the configured number
    is ever made.  If the system refuses nothing, that is, looking at the size, renaming
    and opening again always succeed, every message that passes the level threshold is
    written to the current file, starting a new one when it is too long: the files hold
    whole messages, read from the oldest on they are the newest part of everything
    logged, in order, and none exceeds the configured size by more than one message. *)
Theorem log_retention c g ms hist :
  file_log c -> log_file c <> [] -> 0 <= max_file_size c -> files_wf (lg_files g) ->
  (forall i, (i < ages c)%nat -> fs_read (lg_files g) (aged (log_file c) i) = hist !! i) ->
  (length hist <= ages c)%nat ->
  Forall (fun '(_, m) => valid_level (lc_level m)) ms ->
  exists g1 g2,
    xsan_log_init true (Some c) g = (g1, XSAN_OK) /\ log_all ms g1 = Some g2 /\
    (forall q, (forall i, (i < ages c)%nat -> q <> aged (log_file c) i) ->
       fs_read (lg_files g2) q = fs_read (lg_files g) q) /\
    (Forall (fun '(e, _) => allows e) ms ->
     exists parts : list (list cstring),
       (forall i, (i < ages c)%nat ->
          fs_read (lg_files g2) (aged (log_file c) i) = @concat ascii <$> parts !! i) /\
       concat (reverse parts) `suffix_of` reverse hist ++ logged (level c) ms /\
       (length parts <= ages c)%nat /\
       (Forall (fun x => Zlen x < max_file_size c + 4096) hist ->
        Forall (fun p => Zlen (concat p) < max_file_size c + 4096) parts)).
Proof.
  intros Hlog Hne Hmax Hwf Hread Hlen Hms.
  destruct (init_files c g hist Hlog Hne Hwf Hread Hlen) as (g1 & Hi & Hinit & Hc & Hu & Hf).
  pose proof Hc as [= E1 E2 E3 E4 E5 E6].
  assert (Hlog1 : file_log (g_log_config g1)) by (unfold file_log in *; now rewrite E1, E4, E6).
  destruct (log_all_undisturbed ms g1 (lg_files g) Hms Hlog1 Hu) as (g2 & Hall & Hc2 & Hu2).
  exists g1, g2. split_and!; [done|done| |].
  - intros q Hq. apply (ud_read _ _ _ Hu2). pose proof Hc2 as [= F1 F2 F3 F4 F5 F6].
    intros i. unfold ages in *. rewrite F1, E1, F6, E6. apply Hq.
  - intros Hall_ok. exact (retained c g1 g2 ms hist Hmax Hc Hinit Hlog1 Hf Hms Hall_ok Hall).
Qed.

(** ** Failures *)

(** When the file cannot be opened again after a rotation, nothing is ever written to
    it any more, although every message is accepted. *)
Theorem failed_reopen_silences_file ms g :
  file_handle (g_log_config g) = None ->
  Forall (fun '(_, m) => valid_level (lc_level m)) ms ->
  exists g', log_all ms g = Some g' /\ lg_files g' = lg_files g /\
    file_handle (g_log_config g') = None.
Proof.
  revert g. induction ms as [|[e m] ms IH]; intros g Hh Hms; [now exists g|].
  apply Forall_cons in Hms as [Hl Hms]. cbn [log_all]. unfold xsan_log_message.
  destruct (_ || _); cbn [mbind option_bind]; [now apply IH|].
  destruct (level_tables (lc_level m) Hl) as [-> [color ->]]. cbn [mbind option_bind].
  set (g1 := write_console _ _ _ g).
  assert (Hg1 : g_log_config g1 = g_log_config g /\ lg_files g1 = lg_files g)
    by (unfold g1, write_console; now destruct (console_output (g_log_config g))).
  destruct Hg1 as [Ec Ef]. unfold write_file. rewrite Ec, Hh. rewrite <- Ef, <- Ec in *.
  destruct (file_output (g_log_config g1)); now apply IH.
Qed.

Lemma reopen_failure_drops_handle e g :
  reopen_ok e = false -> file_handle (g_log_config (rotate_log_file e g)) = None.
Proof. intros He. unfold rotate_log_file, open_handle. now rewrite He. Qed.

(** A second initialisation with a file opens another stream without closing the
    first, and the shutdown closes only the last. *)
Theorem second_init_leaks_stream c g g1 g2 :
  file_output c = true -> log_file c <> [] -> lg_open g = [] ->
  xsan_log_init true (Some c) g = (g1, XSAN_OK) ->
  xsan_log_init true (Some c) g1 = (g2, XSAN_OK) ->
  lg_open (xsan_log_shutdown g2) <> [].
Proof.
  intros Ho Hne Hopen. unfold xsan_log_init, open_handle. rewrite Ho.
  destruct (Z.ltb_spec 0 (Zlen (log_file c))) as [_|Hz].
  2:{ destruct (log_file c); [done|]. rewrite Zlen_cons in Hz. unfold Zlen in Hz. lia. }
  cbn [andb negb]. destruct (fs_open ModeA _ _) as [f h]. intros [= <-].
  cbn [lg_files g_log_config log_file with_handle]. destruct (fs_open ModeA f _) as [f' h'].
  intros [= <-]. unfold xsan_log_shutdown, close_handle. cbn [g_log_config with_handle file_handle lg_open].
  rewrite Hopen. cbn [remove_one]. now rewrite decide_True by done.
Qed.

(** A level beyond the last reads past the end of the table of names. *)
Theorem level_out_of_table e m g :
  g_log_initialized g = true -> level (g_log_config g) <= lc_level m -> 6 <= lc_level m ->
  xsan_log_message e m g = None.
Proof.
  intros Hi Hl H6. unfold xsan_log_message. rewrite Hi.
  destruct (Z.ltb_spec (lc_level m) (level (g_log_config g))); [lia|]. cbn [negb orb].
  now rewrite (lookup_ge_None_2 log_level_strings) by (simpl; lia).
Qed.

(** ** Witness *)

Definition sample_config : xsan_log_config := LogConfig $"x.log" 2 false true 10 2 None.
Definition sample_call (text : cstring) : log_env * log_call :=
  (Env true (fun _ => true) true false $"now", LogCall 3 $"src/a.c" 7 $"f" text).

Lemma log_retention_witness :
  exists g1 g2 (parts : list (list cstring)),
    xsan_log_init true (Some sample_config) (log_start (Files ∅ ∅ 0)) = (g1, XSAN_OK) /\
    log_all (map sample_call [ $"one"; $"two"; $"three" ]) g1 = Some g2 /\
    fs_read (lg_files g2) $"x.log.2" = None /\
    fs_read (lg_files g2) $"x.log" = @concat ascii <$> parts !! 0%nat /\
    fs_read (lg_files g2) $"x.log.1" = @concat ascii <$> parts !! 1%nat /\
    concat (reverse parts) `suffix_of`
      logged 2 (map sample_call [ $"one"; $"two"; $"three" ]).
Proof.
  destruct (log_retention sample_config (log_start (Files ∅ ∅ 0))
    (map sample_call [ $"one"; $"two"; $"three" ]) []) as (g1 & g2 & Hi & Hall & Hout & Hk).
  - repeat split; vm_compute; congruence.
  - done.
  - vm_compute. congruence.
  - constructor; intros p; intros; simplify_eq.
  - intros i _. unfold fs_read. cbn [log_start lg_files fs_names]. now rewrite lookup_empty.
  - simpl. lia.
  - repeat constructor; vm_compute; congruence.
  - destruct Hk as (parts & Hr & Hs & _); [repeat constructor; vm_compute; congruence|].
    exists g1, g2, parts.
    split_and!; [exact Hi|exact Hall| |apply (Hr 0%nat)|apply (Hr 1%nat)|exact Hs];
      [|vm_compute; lia..].
    rewrite (Hout $"x.log.2"); [vm_compute; reflexivity|].
    intros [|[|i]] Hlt; [vm_compute; discriminate..|]. vm_compute in Hlt. lia.
Defined.

(** The same run, evaluated: the last message is in the current file and the one
    before in the older one. *)
Example sample_rotation :
  (let (g, _) := xsan_log_init true (Some sample_config) (log_start (Files ∅ ∅ 0)) in
   f ← lg_files <$> log_all (map sample_call [ $"one"; $"two"; $"three" ]) g;
   a ← fs_read f $"x.log"; b ← fs_read f $"x.log.1"; Some (a, b, fs_read f $"x.log.2")) =
  Some ($"[now] [WARN] [a.c:7] [f] three" ++ ["010"%char],
        $"[now] [WARN] [a.c:7] [f] two" ++ ["010"%char], None).
Proof. vm_compute. reflexivity. Qed.
