(* ===== verification/Socket.v ===== *)
(** * Sockets ([src/src/network/socket.c])

    Socket addresses and their texts, and the wrappers of the socket calls.
    [inet_pton] and [inet_ntop] are the class [Inet], with the documented shape of the
    texts they accept and make.  The outcome of a system call is an argument: an errno
    on the left, its result on the right.  The source includes a header for the
    address type that the repository does not hold; it uses the fields [ip] and
    [port].  The text of a fixed-size array is the string it holds. *)

From stdpp Require Import prelude strings.
From Stdlib Require Import ZArith Lia Ascii.
From S2P Require Import Prelude Errors Protocol StringUtils VolumeMeta Cluster ConfigLoad.

Definition EINPROGRESS := 115.
Definition XSAN_INVALID_SOCKET : Z := -1.

(** ** Addresses and their texts *)

Definition v4_char (c : ascii) : bool := isdigit c || Ascii.eqb c ".".
Definition v6_char (c : ascii) : bool :=
  isdigit c || Ascii.eqb c "." || Ascii.eqb c ":" ||
  ((97 <=? code c) && (code c <=? 102)) || ((65 <=? code c) && (code c <=? 70)).

Class Inet := {
  pton4 : cstring -> option Z;
  pton6 : cstring -> option Z;
  ntop4 : Z -> cstring;
  ntop6 : Z -> cstring;
  pton4_text : forall s a, pton4 s = Some a ->
    0 <= a < 2 ^ 32 /\ Zlen s <= 15 /\ Forall (fun c => v4_char c = true) s;
  pton6_text : forall s a, pton6 s = Some a ->
    0 <= a < 2 ^ 128 /\ Zlen s <= 45 /\ Forall (fun c => v6_char c = true) s /\ ":"%char ∈ s;
  pton4_ntop4 : forall a, 0 <= a < 2 ^ 32 -> pton4 (ntop4 a) = Some a;
  pton6_ntop6 : forall a, 0 <= a < 2 ^ 128 -> pton6 (ntop6 a) = Some a;
  pton4_any : pton4 $"0.0.0.0" = Some 0;
  pton6_any : pton6 $"::" = Some 0
}.

(** A socket address, the port in network order; [OtherFamily] is any family but the
    two of the internet. *)
Inductive sockaddr :=
  | SockIn (port addr : Z)
  | SockIn6 (port flowinfo addr scope_id : Z)
  | OtherFamily.

Record xsan_address := Address { ip : cstring; port : Z }.

Section Sockets.
Context {IN : Inet}.

Definition has_char (c : ascii) (s : cstring) : bool := existsb (Ascii.eqb c) s.

(** [None]: the text is no address. *)
Definition fill_sockaddr (ip_address : option cstring) (port : Z) : option sockaddr :=
  let v4 :=
    match ip_address with
    | Some s =>
        match pton4 s with
        | Some a => Some (SockIn (htons port) a)
        | None => if bool_decide (s = $"::") then Some (SockIn6 (htons port) 0 0 0) else None
        end
    | None => Some (SockIn (htons port) 0)
    end in
  match ip_address with
  | Some s =>
      if has_char ":" s then
        match pton6 s with Some a => Some (SockIn6 (htons port) 0 a 0) | None => v4 end
      else v4
  | None => v4
  end.

(** The address and port of a peer. *)
Definition sockaddr_address (ss : sockaddr) : option xsan_address :=
  match ss with
  | SockIn p a => Some (Address (ntop4 a) (htons p))
  | SockIn6 p _ a _ => Some (Address (ntop6 a) (htons p))
  | OtherFamily => None
  end.

(** The buffer is returned even when the text was cut to its size. *)
Definition xsan_socket_address_to_string (addr : option xsan_address) (has_buffer : bool)
    (buffer_size : Z) : option cstring :=
  match addr with
  | None => None
  | Some addr =>
      if negb has_buffer || (buffer_size =? 0) then None else
      Some (snprintf_to buffer_size
        (if has_char ":" (ip addr)
         then $"[" ++ ip addr ++ $"]:" ++ print_unsigned (port addr)
         else ip addr ++ $":" ++ print_unsigned (port addr)))
  end.

(** The text of the address and that of the port, if there is one. *)
Definition split_address (s : cstring) : option (cstring * option cstring) :=
  match s with
  | "["%char :: rest =>
      match split_first "]" rest with
      | Some (a, ":"%char :: p) => if INET6_ADDRSTRLEN <=? Zlen a then None else Some (a, Some p)
      | _ => None
      end
  | _ =>
      match split_last ":" s with
      | Some (a, p) => if INET6_ADDRSTRLEN <=? Zlen a then None else Some (a, Some p)
      | None => if INET6_ADDRSTRLEN <=? Zlen s then None else Some (s, None)
      end
  end.

(** [addr] before and after the call; its address is stored before the port is looked
    at. *)
Definition xsan_socket_string_to_address (address_string : option cstring)
    (addr : option xsan_address) : option xsan_address * xsan_error_t :=
  match address_string, addr with
  | Some s, Some old =>
      match split_address s with
      | None => (addr, XSAN_ERROR_INVALID_PARAM)
      | Some (a, port_str) =>
          let size := match pton4 a, pton6 a with
                      | Some _, _ => Some INET_ADDRSTRLEN
                      | None, Some _ => Some INET6_ADDRSTRLEN
                      | None, None => None
                      end in
          match size with
          | None => (addr, XSAN_ERROR_INVALID_PARAM)
          | Some size =>
              let stored := Address (copied size (Some a)) (port old) in
              match port_str with
              | Some (c :: p) =>
                  let r := strtol (c :: p) in
                  if negb (bool_decide (st_rest r = [])) || (st_value r <=? 0) || (65535 <? st_value r)
                  then (Some stored, XSAN_ERROR_INVALID_PARAM)
                  else (Some (Address (ip stored) (wrap 16 (st_value r))), XSAN_OK)
              | _ => (Some stored, XSAN_ERROR_INVALID_PARAM)
              end
          end
      end
  | _, _ => (addr, XSAN_ERROR_INVALID_PARAM)
  end.

(** ** Calls *)

(** The error of a call that only succeeds or fails. *)
Definition sys_error (r : option Z) : xsan_error_t :=
  match r with Some errno => xsan_error_from_errno errno | None => XSAN_OK end.

Definition simple_call (sockfd : Z) (r : option Z) : xsan_error_t :=
  if sockfd =? XSAN_INVALID_SOCKET then XSAN_ERROR_CONFIG_PARSE else sys_error r.

Definition xsan_socket_close := simple_call.
Definition xsan_socket_shutdown (shutdown : Z -> option Z) (sockfd how : Z) : xsan_error_t :=
  simple_call sockfd (shutdown how).
Definition xsan_socket_listen (listen : Z -> option Z) (sockfd backlog : Z) : xsan_error_t :=
  simple_call sockfd (listen backlog).
(** [setsockopt] sets [SO_REUSEADDR], and [TCP_NODELAY]. *)
Definition xsan_socket_set_reuseaddr (setsockopt : Z -> option Z) (sockfd : Z) (enable : bool) :
    xsan_error_t :=
  simple_call sockfd (setsockopt (if enable then 1 else 0)).
Definition xsan_socket_set_tcp_nodelay := xsan_socket_set_reuseaddr.

Definition AF_INET := 2.
Definition AF_INET6 := 10.
Definition SOCK_STREAM := 1.
Definition SOCK_DGRAM := 2.
Inductive xsan_socket_type := XSAN_SOCKET_TYPE_TCP | XSAN_SOCKET_TYPE_UDP.
Inductive xsan_socket_family := XSAN_SOCKET_FAMILY_IPV4 | XSAN_SOCKET_FAMILY_IPV6.

Definition xsan_socket_create (socket : Z -> Z -> Z) (type : xsan_socket_type)
    (family : xsan_socket_family) : Z :=
  let sock_type_os := match type with XSAN_SOCKET_TYPE_TCP => SOCK_STREAM | _ => SOCK_DGRAM end in
  let family_os := match family with XSAN_SOCKET_FAMILY_IPV4 => AF_INET | _ => AF_INET6 end in
  let sockfd := socket family_os sock_type_os in
  if sockfd <? 0 then XSAN_INVALID_SOCKET else sockfd.

(** [v6] is the family [getsockname] reports; the result is what [bind] is called with
    and the error. *)
Definition xsan_socket_bind (sockfd : Z) (ip_address : option cstring) (port : Z)
    (v6 : Z + bool) (bind_result : option Z) : option sockaddr * xsan_error_t :=
  if sockfd =? XSAN_INVALID_SOCKET then (None, XSAN_ERROR_CONFIG_PARSE) else
  match v6 with
  | inl errno => (None, xsan_error_from_errno errno)
  | inr v6 =>
      let any : cstring := if v6 : bool then $"::" else $"0.0.0.0" in
      let bind_ip := default any ip_address in
      match fill_sockaddr (Some bind_ip) port, ip_address with
      | Some ss, _ => (Some ss, sys_error bind_result)
      | None, Some _ => (None, XSAN_ERROR_INVALID_PARAM)
      | None, None =>
          (Some (if v6 then SockIn6 (htons port) 0 0 0 else SockIn (htons port) 0), sys_error bind_result)
      end
  end.

Definition xsan_socket_connect (sockfd : Z) (remote_ip : option cstring) (port : Z)
    (connect_result : option Z) : option sockaddr * xsan_error_t :=
  if sockfd =? XSAN_INVALID_SOCKET then (None, XSAN_ERROR_CONFIG_PARSE) else
  match remote_ip with
  | None => (None, XSAN_ERROR_CONFIG_PARSE)
  | Some s =>
      match fill_sockaddr (Some s) port with
      | None => (None, XSAN_ERROR_INVALID_PARAM)
      | Some ss =>
          (Some ss, match connect_result with
                    | Some errno => if errno =? EINPROGRESS then XSAN_OK else xsan_error_from_errno errno
                    | None => XSAN_OK
                    end)
      end
  end.

(** The address stored for a peer whose family is neither of the two. *)
Definition peer_or_empty (ss : sockaddr) : xsan_address :=
  default (Address [] 0) (sockaddr_address ss).

(** The descriptor, and the address when one was asked for. *)
Definition xsan_socket_accept (sockfd : Z) (wants_addr : bool) (r : Z + Z * sockaddr) :
    Z * option xsan_address :=
  if sockfd =? XSAN_INVALID_SOCKET then (XSAN_INVALID_SOCKET, None) else
  match r with
  | inl _ => (XSAN_INVALID_SOCKET, None)
  | inr (fd, ss) =>
      if fd <? 0 then (XSAN_INVALID_SOCKET, None)
      else (fd, if wants_addr then Some (peer_or_empty ss) else None)
  end.

(** [getsockname] and [getpeername]. *)
Definition xsan_socket_get_address (sockfd : Z) (has_out : bool) (r : Z + sockaddr) :
    option xsan_address * xsan_error_t :=
  if (sockfd =? XSAN_INVALID_SOCKET) || negb has_out then (None, XSAN_ERROR_CONFIG_PARSE) else
  match r with
  | inl errno => (None, xsan_error_from_errno errno)
  | inr ss => match sockaddr_address ss with
              | Some a => (Some a, XSAN_OK)
              | None => (None, XSAN_ERROR_NETWORK_DOWN)
              end
  end.

(** The count stored and the error; [-1] is stored before a refusal. *)
Definition xsan_socket_send (sockfd : Z) (has_buffer has_count : bool) (r : Z + Z) :
    option Z * xsan_error_t :=
  if (sockfd =? XSAN_INVALID_SOCKET) || negb has_buffer || negb has_count
  then (if has_count then Some (-1) else None, XSAN_ERROR_CONFIG_PARSE) else
  match r with
  | inl errno => (Some (-1), xsan_error_from_errno errno)
  | inr n => (Some n, XSAN_OK)
  end.

(** [stream]: whether the type of the socket could be asked and is that of TCP. *)
Definition xsan_socket_receive (sockfd : Z) (has_buffer has_count : bool) (r : Z + Z) (stream : bool) :
    option Z * xsan_error_t :=
  match xsan_socket_send sockfd has_buffer has_count r with
  | (Some n, e) =>
      (Some n, if (e =? XSAN_OK) && (n =? 0) && stream then XSAN_ERROR_CONNECTION_LOST else e)
  | (None, e) => (None, e)
  end.

Definition xsan_socket_sendto (sockfd : Z) (has_buffer : bool) (dest_ip : option cstring)
    (dest_port : Z) (has_count : bool) (r : Z + Z) : option sockaddr * option Z * xsan_error_t :=
  match dest_ip with
  | Some s =>
      if (sockfd =? XSAN_INVALID_SOCKET) || negb has_buffer || negb has_count
      then (None, if has_count then Some (-1) else None, XSAN_ERROR_CONFIG_PARSE) else
      match fill_sockaddr (Some s) dest_port with
      | None => (None, Some (-1), XSAN_ERROR_INVALID_PARAM)
      | Some ss => (Some ss, (xsan_socket_send sockfd true true r).1, (xsan_socket_send sockfd true true r).2)
      end
  | None => (None, if has_count then Some (-1) else None, XSAN_ERROR_CONFIG_PARSE)
  end.

Definition xsan_socket_recvfrom (sockfd : Z) (has_buffer wants_addr has_count : bool)
    (r : Z + Z * sockaddr) : option xsan_address * option Z * xsan_error_t :=
  if (sockfd =? XSAN_INVALID_SOCKET) || negb has_buffer || negb has_count
  then (None, if has_count then Some (-1) else None, XSAN_ERROR_CONFIG_PARSE) else
  match r with
  | inl errno => (None, Some (-1), xsan_error_from_errno errno)
  | inr (n, ss) => (if wants_addr then Some (peer_or_empty ss) else None, Some n, XSAN_OK)
  end.

(** ** Options *)

Definition O_NONBLOCK : Z := 2048.

(** The flags the descriptor is given, if any. *)
Definition set_flags (f : Z -> Z) (sockfd : Z) (getfl : Z + Z) (setfl : option Z) :
    option Z * xsan_error_t :=
  if sockfd =? XSAN_INVALID_SOCKET then (None, XSAN_ERROR_CONFIG_PARSE) else
  match getfl with
  | inl errno => (None, xsan_error_from_errno errno)
  | inr flags => (if setfl is None then Some (f flags) else None, sys_error setfl)
  end.

Definition xsan_socket_set_nonblocking := set_flags (fun flags => Z.lor flags O_NONBLOCK).
Definition xsan_socket_set_blocking := set_flags (fun flags => Z.land flags (Z.lnot O_NONBLOCK)).

Inductive sock_opt := SO_KEEPALIVE | TCP_KEEPIDLE | TCP_KEEPINTVL | TCP_KEEPCNT.

(** The options set one after the other, up to the first failure; [setsockopt] answers
    an errno or nothing. *)
Fixpoint set_options (setsockopt : sock_opt -> Z -> option Z) (opts : list (sock_opt * Z)) :
    list (sock_opt * Z) * xsan_error_t :=
  match opts with
  | [] => ([], XSAN_OK)
  | (o, v) :: opts =>
      match setsockopt o v with
      | Some errno => ([], xsan_error_from_errno errno)
      | None => let '(done, e) := set_options setsockopt opts in ((o, v) :: done, e)
      end
  end.

Definition xsan_socket_set_keepalive (setsockopt : sock_opt -> Z -> option Z) (sockfd : Z)
    (enable : bool) (idle_time_sec interval_sec count_probes : Z) :
    list (sock_opt * Z) * xsan_error_t :=
  if sockfd =? XSAN_INVALID_SOCKET then ([], XSAN_ERROR_CONFIG_PARSE) else
  set_options setsockopt
    ((SO_KEEPALIVE, if enable then 1 else 0) ::
     if enable then
       filter (fun '(_, v) => 0 < v)
         [(TCP_KEEPIDLE, idle_time_sec); (TCP_KEEPINTVL, interval_sec); (TCP_KEEPCNT, count_probes)]
     else []).

(** * Theorems *)

(** ** Texts of addresses *)

Lemma has_char_spec c s : has_char c s = bool_decide (c ∈ s).
Proof.
  apply Bool.eq_iff_eq_true. unfold has_char. rewrite existsb_exists, bool_decide_eq_true. split.
  - intros (x & Hx & ->%Ascii.eqb_eq). now apply list_elem_of_In.
  - intros Hc. exists c. split; [now apply list_elem_of_In|apply Ascii.eqb_refl].
Qed.

(** A character that is in no text of the kind. *)
Lemma text_avoids (p : ascii -> bool) s x : Forall (fun c => p c = true) s -> p x = false -> x ∉ s.
Proof. intros Hs Hx Hin. rewrite Forall_forall in Hs. specialize (Hs x Hin). congruence. Qed.

Lemma text_no_nul (p : ascii -> bool) s : Forall (fun c => p c = true) s -> p NUL = false -> no_nul s.
Proof. intros Hs Hp. apply Forall_forall. intros c Hc ->. now apply (text_avoids p s NUL). Qed.

Lemma pton4_only s a : pton4 s = Some a -> pton6 s = None /\ ":"%char ∉ s.
Proof.
  intros H4. destruct (pton4_text s a H4) as (_ & _ & Hs).
  pose proof (text_avoids v4_char s ":" Hs eq_refl) as Hc. split; [|done].
  destruct (pton6 s) as [b|] eqn:H6; [|done]. now destruct (pton6_text s b H6) as (_ & _ & _ & Hin).
Qed.

Lemma pton6_only s a : pton6 s = Some a -> pton4 s = None.
Proof.
  intros H6. destruct (pton4 s) as [b|] eqn:H4; [|done].
  destruct (pton4_only s b H4). congruence.
Qed.

(** An address as the code makes it. *)
Definition valid_ip (s : cstring) : Prop := is_Some (pton4 s) \/ is_Some (pton6 s).

(** The copy into the address keeps the whole text. *)
Lemma stored_ip s size :
  match pton4 s, pton6 s with
  | Some _, _ => Some INET_ADDRSTRLEN | None, Some _ => Some INET6_ADDRSTRLEN | None, None => None
  end = Some size -> copied size (Some s) = s /\ valid_ip s.
Proof.
  unfold valid_ip. destruct (pton4 s) as [a|] eqn:H4; [|destruct (pton6 s) as [a|] eqn:H6; [|done]];
    intros [= <-]; (split; [|eauto]).
  - destruct (pton4_text s a H4) as (_ & Hl & Hs).
    rewrite copied_spec by (done || now apply (text_no_nul v4_char)).
    apply take_ge. unfold Zlen, INET_ADDRSTRLEN in *. lia.
  - destruct (pton6_text s a H6) as (_ & Hl & Hs & _).
    rewrite copied_spec by (done || now apply (text_no_nul v6_char)).
    apply take_ge. unfold Zlen, INET6_ADDRSTRLEN in *. lia.
Qed.

Lemma valid_ip_size s : valid_ip s -> exists size,
  match pton4 s, pton6 s with
  | Some _, _ => Some INET_ADDRSTRLEN | None, Some _ => Some INET6_ADDRSTRLEN | None, None => None
  end = Some size.
Proof. intros [[a ->]|[a Ha]]; [eauto|]. rewrite (pton6_only s a Ha), Ha. eauto. Qed.

Lemma valid_ip_len s : valid_ip s -> Zlen s <= 45.
Proof.
  intros [[a Ha]|[a Ha]].
  - pose proof (pton4_text s a Ha). lia.
  - pose proof (pton6_text s a Ha). lia.
Qed.

Lemma port_text p :
  0 < p <= 65535 ->
  exists c ds, print_unsigned p = c :: ds /\ Zlen (c :: ds) <= 5 /\ ":"%char ∉ c :: ds /\
    strtol (c :: ds) = StrtolResult p [] false false.
Proof.
  intros Hp. destruct (print_unsigned_spec p) as (Hne & Hd & _); [lia|].
  pose proof (print_unsigned_length p 5 ltac:(lia) ltac:(lia)) as Hl.
  pose proof (strtol_print p) as Hs. unfold print_signed in Hs.
  destruct (Z.ltb_spec p 0); [lia|].
  destruct (print_unsigned p) as [|c ds]; [done|]. exists c, ds. split_and!; [done|done| |].
  - now apply (text_avoids isdigit).
  - apply Hs. unfold LONG_MIN, LONG_MAX. pow2s. lia.
Qed.

Lemma string_to_address_parts s a p n old :
  split_address s = Some (a, Some p) -> valid_ip a -> p <> [] ->
  strtol p = StrtolResult n [] false false -> 0 < n <= 65535 ->
  xsan_socket_string_to_address (Some s) (Some old) = (Some (Address a n), XSAN_OK).
Proof.
  intros Hsplit Ha Hp Hn Hr. unfold xsan_socket_string_to_address. rewrite Hsplit.
  destruct (valid_ip_size a Ha) as [size Hsize]. rewrite Hsize.
  destruct (stored_ip a size Hsize) as [-> _]. destruct p as [|c p]; [done|].
  rewrite Hn. cbn [st_rest st_value ip].
  rewrite bool_decide_true by done. destruct (Z.leb_spec n 0); [lia|].
  destruct (Z.ltb_spec 65535 n); [lia|]. cbn. unfold wrap. rewrite Z.mod_small by (pow2s; lia). done.
Qed.

Lemma split_unbracketed s :
  (forall r, s <> "["%char :: r) ->
  split_address s =
  match split_last ":" s with
  | Some (a, p) => if INET6_ADDRSTRLEN <=? Zlen a then None else Some (a, Some p)
  | None => if INET6_ADDRSTRLEN <=? Zlen s then None else Some (s, None)
  end.
Proof.
  intros Hne. destruct s as [|y s]; [done|].
  destruct (decide (y = "["%char)) as [->|]; [now destruct (Hne s)|].
  now destruct y as [[] [] [] [] [] [] [] []].
Qed.

(** Printing an address and parsing the text gives the address back. *)
Lemma address_text_round_trip addr old size :
  valid_ip (ip addr) -> 0 < port addr <= 65535 -> 54 <= size ->
  exists s, xsan_socket_address_to_string (Some addr) true size = Some s /\
    xsan_socket_string_to_address (Some s) (Some old) = (Some addr, XSAN_OK).
Proof.
  destruct addr as [a p]. cbn [ip port]. intros Ha Hp Hsize.
  destruct (port_text p Hp) as (c & ds & Hprint & Hlen & Hcolon & Hnum).
  pose proof (valid_ip_len a Ha) as Hla.
  unfold xsan_socket_address_to_string. cbn [negb orb ip port].
  destruct (Z.eqb_spec size 0); [lia|]. rewrite Hprint, has_char_spec. case_bool_decide as Hc.
  - assert (exists x, pton6 a = Some x) as [x Hx].
    { destruct Ha as [[x Hx]|[x Hx]]; [|eauto]. now destruct (pton4_only a x Hx). }
    destruct (pton6_text a x Hx) as (_ & _ & Hs & _).
    eexists. split; [reflexivity|]. rewrite snprintf_to_fits.
    2:{ change ($"[" ++ a ++ $"]:" ++ c :: ds) with ("["%char :: a ++ "]"%char :: ":"%char :: c :: ds).
        autorewrite with xsan in *. lia. }
    apply (string_to_address_parts _ a (c :: ds)); [|now right; eauto|done|done|done].
    change ($"[" ++ a ++ $"]:" ++ c :: ds) with ("["%char :: a ++ "]"%char :: ":"%char :: c :: ds).
    cbn [split_address]. rewrite split_first_app by now apply (text_avoids v6_char).
    destruct (Z.leb_spec INET6_ADDRSTRLEN (Zlen a)); [unfold INET6_ADDRSTRLEN in *; lia|done].
  - assert (exists x, pton4 a = Some x) as [x Hx].
    { destruct Ha as [[x Hx]|[x Hx]]; [eauto|]. now destruct (pton6_text a x Hx) as (_ & _ & _ & ?). }
    destruct (pton4_text a x Hx) as (_ & _ & Hs).
    eexists. split; [reflexivity|]. rewrite snprintf_to_fits.
    2:{ change (a ++ $":" ++ c :: ds) with (a ++ ":"%char :: c :: ds).
        autorewrite with xsan in *. lia. }
    apply (string_to_address_parts _ a (c :: ds)); [|now left; eauto|done|done|done].
    change (a ++ $":" ++ c :: ds) with (a ++ ":"%char :: c :: ds).
    rewrite split_unbracketed.
    + rewrite split_last_app by done. destruct (Z.leb_spec INET6_ADDRSTRLEN (Zlen a)); [unfold INET6_ADDRSTRLEN in *; lia|done].
    + intros r Hr. destruct a as [|y a]; [done|]. injection Hr as -> _.
      apply Forall_inv in Hs. done.
Qed.

(** ** Socket addresses *)

(** An address the network functions report. *)
Definition inet_addr (ss : sockaddr) : Prop :=
  match ss with
  | SockIn p a => 0 < htons p <= 65535 /\ in_u 16 p /\ in_u 32 a
  | SockIn6 p _ a _ => 0 < htons p <= 65535 /\ in_u 16 p /\ in_u 128 a
  | OtherFamily => False
  end.

Lemma htons_htons p : in_u 16 p -> htons (htons p) = p.
Proof. unfold in_u. intros Hp. unfold htons. rewrite bswap_bswap. apply Z.mod_small. pow2s. simpl. lia. Qed.

Lemma fill_v4 s a p : pton4 s = Some a -> fill_sockaddr (Some s) p = Some (SockIn (htons p) a).
Proof.
  intros Ha. destruct (pton4_only s a Ha) as [_ Hc]. unfold fill_sockaddr.
  rewrite has_char_spec, bool_decide_false by done. now rewrite Ha.
Qed.

Lemma fill_v6 s a p : pton6 s = Some a -> fill_sockaddr (Some s) p = Some (SockIn6 (htons p) 0 a 0).
Proof.
  intros Ha. destruct (pton6_text s a Ha) as (_ & _ & _ & Hc). unfold fill_sockaddr.
  rewrite has_char_spec, bool_decide_true by done. now rewrite Ha.
Qed.

(** The address without the flow label and the zone of an IPv6 address. *)
Definition without_zone (ss : sockaddr) : sockaddr :=
  match ss with SockIn6 p _ a _ => SockIn6 p 0 a 0 | ss => ss end.

Definition zone_free (ss : sockaddr) : Prop :=
  match ss with SockIn6 _ flow _ scope => flow = 0 /\ scope = 0 | _ => True end.

(** C24: An address reported for a peer is printed to a text that parses back to the
    same address and port, and connecting to the result is connecting to the peer's
    address and port: no byte order, bracket or buffer size gets in between.  The zone and
    the flow label of an IPv6 address are not part of [xsan_address] and are lost: the call
    connects to the very address of the peer exactly when it has neither, which a
    link-local peer does.  Any buffer of 54 bytes is enough, and what the parsed structure
    held before does not matter.  The port is not zero. *)
Theorem socket_address_round_trip ss old size sockfd :
  inet_addr ss -> 54 <= size -> sockfd <> XSAN_INVALID_SOCKET ->
  exists addr s,
    xsan_socket_get_address sockfd true (inr ss) = (Some addr, XSAN_OK) /\
    xsan_socket_address_to_string (Some addr) true size = Some s /\
    xsan_socket_string_to_address (Some s) (Some old) = (Some addr, XSAN_OK) /\
    xsan_socket_connect sockfd (Some (ip addr)) (port addr) None =
      (Some (without_zone ss), XSAN_OK) /\
    (without_zone ss = ss <-> zone_free ss).
Proof.
  intros Hss Hsize Hfd. assert (exists addr, sockaddr_address ss = Some addr /\
    valid_ip (ip addr) /\ 0 < port addr <= 65535 /\
    fill_sockaddr (Some (ip addr)) (port addr) = Some (without_zone ss))
    as (addr & Ha & Hip & Hp & Hfill).
  { destruct ss as [p a|p flow a scope|]; [| |done]; destruct Hss as (Hp & Hp16 & Ha);
      eexists; (split; [reflexivity|]); cbn [ip port]; unfold valid_ip.
    - pose proof (pton4_ntop4 a Ha) as H4. split_and!; [eauto|lia|lia|].
      now rewrite (fill_v4 _ a _ H4), htons_htons.
    - pose proof (pton6_ntop6 a Ha) as H6. split_and!; [eauto|lia|lia|].
      now rewrite (fill_v6 _ a _ H6), htons_htons. }
  destruct (address_text_round_trip addr old size Hip Hp Hsize) as (s & Hs & Hparse).
  exists addr, s. unfold xsan_socket_get_address, xsan_socket_connect.
  rewrite (proj2 (Z.eqb_neq _ _) Hfd). cbn [orb negb]. rewrite Ha, Hfill. split_and!; try done.
  destruct ss as [|p flow a scope|]; cbn; [done| |done].
  split; [by intros [= <- <-]|by intros [-> ->]].
Qed.

(** Whatever text is accepted, the result is an address with a port. *)
Theorem parsed_address_valid s old addr :
  xsan_socket_string_to_address (Some s) (Some old) = (Some addr, XSAN_OK) ->
  valid_ip (ip addr) /\ 0 < port addr <= 65535.
Proof.
  unfold xsan_socket_string_to_address. destruct (split_address s) as [[a p]|]; [|done].
  destruct (match pton4 a, pton6 a with Some _, _ => _ | None, Some _ => _ | None, None => _ end)
    as [size|] eqn:Hsize; [|done].
  destruct (stored_ip a size Hsize) as [Ha Hv]. destruct p as [[|c p]|]; [done| |done].
  destruct (bool_decide _); [|done]. cbn [negb orb].
  destruct (Z.leb_spec (st_value (strtol (c :: p))) 0); [done|].
  destruct (Z.ltb_spec 65535 (st_value (strtol (c :: p)))); [done|]. cbn [orb].
  intros [= <-]. cbn [ip port]. rewrite Ha. split; [done|].
  rewrite wrap_small by (unfold in_u; pow2s; lia). lia.
Qed.

(** A null address binds the wildcard of the family of the socket, as documented. *)
Theorem bind_any sockfd p v6 r :
  sockfd <> XSAN_INVALID_SOCKET ->
  xsan_socket_bind sockfd None p (inr v6) r =
  (Some (if v6 : bool then SockIn6 (htons p) 0 0 0 else SockIn (htons p) 0), sys_error r).
Proof.
  intros Hfd. unfold xsan_socket_bind. rewrite (proj2 (Z.eqb_neq _ _) Hfd). cbn [default].
  destruct v6; cbn [from_option id].
  - now rewrite (fill_v6 _ 0 _ pton6_any).
  - now rewrite (fill_v4 _ 0 _ pton4_any).
Qed.

(** ** Flags and options *)

(** Switching to non-blocking and back keeps every other flag. *)
Theorem blocking_toggle sockfd flags on off :
  xsan_socket_set_nonblocking sockfd (inr flags) None = (Some on, XSAN_OK) ->
  xsan_socket_set_blocking sockfd (inr on) None = (Some off, XSAN_OK) ->
  Z.testbit on 11 = true /\ Z.testbit off 11 = false /\
  forall n, 0 <= n -> n <> 11 -> Z.testbit on n = Z.testbit flags n /\ Z.testbit off n = Z.testbit flags n.
Proof.
  unfold xsan_socket_set_nonblocking, xsan_socket_set_blocking, set_flags.
  destruct (sockfd =? XSAN_INVALID_SOCKET); [done|]. intros [= <-] [= <-].
  assert (Hbit : forall n, 0 <= n -> Z.testbit O_NONBLOCK n = (n =? 11)).
  { intros n Hn. change O_NONBLOCK with (2 ^ 11). rewrite Z.pow2_bits_eqb by lia. apply Z.eqb_sym. }
  split_and!.
  - now rewrite Z.lor_spec, Hbit, orb_true_r by lia.
  - rewrite Z.land_spec, Z.lnot_spec, Hbit by lia. apply andb_false_r.
  - intros n Hn Hne. rewrite Z.land_spec, Z.lnot_spec, Z.lor_spec, !Hbit by lia.
    rewrite (proj2 (Z.eqb_neq n 11) Hne). now rewrite orb_false_r, andb_true_r.
Qed.

(** Of a stream, an empty read is reported as a lost connection and no other is. *)
Theorem receive_end_of_stream sockfd n stream :
  sockfd <> XSAN_INVALID_SOCKET ->
  xsan_socket_receive sockfd true true (inr n) stream =
  (Some n, if (n =? 0) && stream then XSAN_ERROR_CONNECTION_LOST else XSAN_OK).
Proof.
  intros Hfd. unfold xsan_socket_receive, xsan_socket_send.
  now rewrite (proj2 (Z.eqb_neq _ _) Hfd).
Qed.

End Sockets.

(** ** An instance and a witness *)

(** Decimal texts of a fixed length. *)
Fixpoint fixed_digits (n : nat) (a : Z) : cstring :=
  match n with
  | O => []
  | S n => chr (48 + a / 10 ^ Z.of_nat n) :: fixed_digits n (a mod 10 ^ Z.of_nat n)
  end.

Lemma fixed_digits_spec n a :
  0 <= a < 10 ^ Z.of_nat n ->
  length (fixed_digits n a) = n /\ Forall (fun c => isdigit c = true) (fixed_digits n a) /\
  forall b, fold_left (fun acc c => 10 * acc + (code c - 48)) (fixed_digits n a) b =
    b * 10 ^ Z.of_nat n + a.
Proof.
  revert a. induction n as [|n IH]; intros a Ha; cbn [fixed_digits].
  { simpl in Ha. split_and!; [done|done|]. intros b. simpl. lia. }
  rewrite Nat2Z.inj_succ, Z.pow_succ_r in Ha |- * by lia.
  assert (Hpos : 0 < 10 ^ Z.of_nat n) by (apply Z.pow_pos_nonneg; lia).
  pose proof (Z.mod_pos_bound a _ Hpos) as Hmod.
  assert (Hd : 0 <= a / 10 ^ Z.of_nat n < 10).
  { split; [apply Z.div_pos; lia|apply Z.div_lt_upper_bound; lia]. }
  destruct (IH _ Hmod) as (Hl & Hf & Hv). split_and!.
  - simpl. lia.
  - constructor; [|done]. unfold isdigit. rewrite digit_code by lia. case_cmp; lia || done.
  - intros b. cbn [fold_left]. rewrite Hv, digit_code by lia.
    pose proof (Z.div_mod a (10 ^ Z.of_nat n) ltac:(lia)). nia.
Qed.

Definition toy_pton (n : nat) (w : Z) (s : cstring) : option Z :=
  if bool_decide (length s = n) && forallb isdigit s && (digits_val s <? 2 ^ w)
  then Some (digits_val s) else None.

Lemma digits_val_nonneg s : Forall (fun c => isdigit c = true) s -> 0 <= digits_val s.
Proof.
  unfold digits_val. assert (H : forall b, 0 <= b -> Forall (fun c => isdigit c = true) s ->
    0 <= fold_left (fun acc c => 10 * acc + (code c - 48)) s b); [|apply H; lia].
  induction s as [|c s IH]; intros b Hb Hs; [done|]. apply Forall_cons in Hs as [Hc Hs].
  cbn [fold_left]. apply IH; [|done]. unfold isdigit in Hc. case_cmp; simpl in Hc; try done; lia.
Qed.

Lemma toy_pton_text n w s a : toy_pton n w s = Some a ->
  in_u w a /\ length s = n /\ Forall (fun c => isdigit c = true) s.
Proof.
  unfold toy_pton. case_bool_decide; [|done]. destruct (forallb isdigit s) eqn:Hd; [|done].
  destruct (Z.ltb_spec (digits_val s) (2 ^ w)); [|done]. intros [= <-].
  assert (Hf : Forall (fun c => isdigit c = true) s).
  { apply Forall_forall. intros c Hc. rewrite forallb_forall in Hd. apply Hd.
    now apply list_elem_of_In. }
  unfold in_u. split_and!; [now apply digits_val_nonneg|done..].
Qed.

Lemma toy_pton_digits n w a :
  in_u w a -> 2 ^ w <= 10 ^ Z.of_nat n -> toy_pton n w (fixed_digits n a) = Some a.
Proof.
  intros Ha Hw. unfold in_u in Ha. destruct (fixed_digits_spec n a ltac:(lia)) as (Hl & Hf & Hv).
  unfold toy_pton. rewrite bool_decide_true by done.
  assert (forallb isdigit (fixed_digits n a) = true) as ->.
  { apply forallb_forall. intros c Hc. rewrite Forall_forall in Hf. apply Hf. now apply list_elem_of_In. }
  assert (digits_val (fixed_digits n a) = a) as -> by (unfold digits_val; rewrite Hv; lia).
  now destruct (Z.ltb_spec a (2 ^ w)); [|lia].
Qed.

Definition toy_pton4 (s : cstring) : option Z :=
  if bool_decide (s = $"0.0.0.0") then Some 0 else toy_pton 10 32 s.
Definition toy_pton6 (s : cstring) : option Z :=
  if bool_decide (s = $"::") then Some 0 else
  match s with ":"%char :: s => toy_pton 39 128 s | _ => None end.

Lemma digits_chars (p : ascii -> bool) s :
  Forall (fun c => isdigit c = true) s -> (forall c, isdigit c = true -> p c = true) ->
  Forall (fun c => p c = true) s.
Proof. intros Hs Hp. eapply Forall_impl; [exact Hs|]. intros c. apply Hp. Qed.

Lemma toy_pton4_text s a : toy_pton4 s = Some a ->
  0 <= a < 2 ^ 32 /\ Zlen s <= 15 /\ Forall (fun c => v4_char c = true) s.
Proof.
  unfold toy_pton4. case_bool_decide as Hs.
  - intros [= <-]. subst s. split_and!; [lia..|vm_compute; congruence|repeat constructor].
  - intros (Ha & Hl & Hd)%toy_pton_text. split_and!; [apply Ha..|unfold Zlen; lia|].
    apply (digits_chars _ _ Hd). intros c Hc. unfold v4_char. now rewrite Hc.
Qed.

Lemma toy_pton6_cases s a : toy_pton6 s = Some a ->
  (s = $"::" /\ a = 0) \/ exists r, s = ":"%char :: r /\ toy_pton 39 128 r = Some a.
Proof.
  unfold toy_pton6. case_bool_decide; [intros [= <-]; auto|].
  destruct s as [|c s]; [done|]. destruct (decide (c = ":"%char)) as [->|Hc]; [eauto|].
  now destruct c as [[] [] [] [] [] [] [] []].
Qed.

Lemma toy_pton6_text s a : toy_pton6 s = Some a ->
  0 <= a < 2 ^ 128 /\ Zlen s <= 45 /\ Forall (fun c => v6_char c = true) s /\ ":"%char ∈ s.
Proof.
  intros [[-> ->]|(r & -> & (Ha & Hl & Hd)%toy_pton_text)]%toy_pton6_cases.
  - split_and!; [lia..|vm_compute; congruence|repeat constructor|left].
  - split_and!; [apply Ha..|rewrite Zlen_cons; unfold Zlen; lia| |left].
    constructor; [done|]. apply (digits_chars _ _ Hd). intros c Hc. unfold v6_char. now rewrite Hc.
Qed.

#[export] Program Instance toy_inet : Inet := {|
  pton4 := toy_pton4; pton6 := toy_pton6;
  ntop4 := fixed_digits 10; ntop6 := fun a => ":"%char :: fixed_digits 39 a;
  pton4_text := toy_pton4_text; pton6_text := toy_pton6_text
|}.
Next Obligation.
  intros a Ha. unfold toy_pton4. rewrite bool_decide_false.
  - apply toy_pton_digits; [exact Ha|vm_compute; congruence].
  - intros H. apply (f_equal length) in H.
    destruct (fixed_digits_spec 10 a) as (Hl & _); [pow2s; simpl; lia|]. rewrite Hl in H. done.
Qed.
Next Obligation.
  intros a Ha. unfold toy_pton6. rewrite bool_decide_false.
  - apply toy_pton_digits; [exact Ha|vm_compute; congruence].
  - intros H. apply (f_equal length) in H.
    destruct (fixed_digits_spec 39 a) as (Hl & _); [pow2s; simpl; lia|]. cbn [length] in H.
    rewrite Hl in H. done.
Qed.
Next Obligation. reflexivity. Qed.
Next Obligation. reflexivity. Qed.

(** A link-local peer on interface 3: the zone is lost. *)
Lemma socket_address_round_trip_witness :
  exists addr s,
    xsan_socket_get_address 5 true (inr (SockIn6 0x901F 0 1 3)) = (Some addr, XSAN_OK) /\
    xsan_socket_address_to_string (Some addr) true 64 = Some s /\
    xsan_socket_string_to_address (Some s) (Some (Address [] 0)) = (Some addr, XSAN_OK) /\
    xsan_socket_connect 5 (Some (ip addr)) (port addr) None = (Some (SockIn6 0x901F 0 1 0), XSAN_OK).
Proof.
  destruct (socket_address_round_trip (SockIn6 0x901F 0 1 3) (Address [] 0) 64 5)
    as (addr & s & H1 & H2 & H3 & H4 & _).
  - cbn [inet_addr]. unfold in_u. pow2s. split; [vm_compute; split; congruence|lia].
  - lia.
  - done.
  - exists addr, s. split_and!; [exact H1|exact H2|exact H3|exact H4].
Defined.
