(* ===== verification/Format.v ===== *)
(** * Formatted output

    The functions that turn values into text with [printf]: byte counts and bounded
    formatting of [src/src/utils/string_utils.c], the time stamps of
    [src/src/utils/log.c] and the error reports of [src/src/common/error.c].

    The doubles that occur are whole numbers divided by a power of 1024; they are kept
    as numerator and binary exponent, so that conversion and printing are exact. *)

From stdpp Require Import prelude strings.
From Stdlib Require Import ZArith Lia Ascii.
From S2P Require Import Prelude Errors StringUtils.

(** ** Bounded formatting *)

(** [formatted] is what the format produces, [None] on an output error.  The text left
    in the buffer ([None]: the buffer is not written, or holds what [vsnprintf] left),
    and the result. *)
Definition xsan_snprintf_safe (has_dest has_format : bool) (dest_size : Z) (formatted : option cstring) :
    option cstring * Z :=
  if negb has_dest || negb has_format || (dest_size =? 0) then (None, -1) else
  match formatted with
  | Some s => if Zlen s <? dest_size then (Some s, Zlen s)
              else (Some (snprintf_to dest_size s), swrap 32 dest_size - 1)
  | None => (None, swrap 32 dest_size - 1)
  end.

(** ** Doubles *)

(** The value [num / 2 ^ scale]. *)
Record double := Double { num : Z; scale : Z }.

(** [a / b], a tie going to the even neighbour. *)
Definition round_half_even (a b : Z) : Z :=
  let q := a / b in
  let r := a mod b in
  if 2 * r <? b then q else if b <? 2 * r then q + 1 else if Z.even q then q else q + 1.

(** Conversion of a [uint64_t]: 53 significant bits. *)
Definition double_of_u64 (n : Z) : double :=
  if n <? 2 ^ 53 then Double n 0
  else let e := Z.log2 n - 52 in Double (round_half_even n (2 ^ e) * 2 ^ e) 0.

Definition double_ge_1024 (d : double) : bool := 1024 * 2 ^ scale d <=? num d.

(** Division by 1024 is exact. *)
Definition double_div_1024 (d : double) : double := Double (num d) (scale d + 10).

Definition two_digits (n : Z) : cstring := [chr (48 + n / 10 mod 10); chr (48 + n mod 10)].

(** The format [%.2f]. *)
Definition print_hundredths (d : double) : cstring :=
  let h := round_half_even (100 * num d) (2 ^ scale d) in
  print_unsigned (h / 100) ++ $"." ++ two_digits (h mod 100).

(** ** Byte counts *)

Definition units : list cstring := [$"B"; $"KB"; $"MB"; $"GB"; $"TB"; $"PB"].
Definition num_units : nat := 6.

(** The loop; [fuel] bounds the remaining units. *)
Fixpoint reduce (fuel : nat) (size : double) (unit_index : nat) : double * nat :=
  match fuel with
  | O => (size, unit_index)
  | S fuel =>
      if double_ge_1024 size && (unit_index <? num_units - 1)%nat
      then reduce fuel (double_div_1024 size) (S unit_index) else (size, unit_index)
  end.

Definition xsan_bytes_to_human_readable (bytes : Z) (has_buffer : bool) (buffer_size : Z) : option cstring :=
  if negb has_buffer || (buffer_size <? 16) then None else
  let '(size, unit_index) := reduce num_units (double_of_u64 bytes) 0 in
  let unit_name := default [] (units !! unit_index) in
  Some (snprintf_to buffer_size
    (if (unit_index =? 0)%nat then print_unsigned bytes ++ $" " ++ unit_name
     else print_hundredths size ++ $" " ++ unit_name)).

(** ** Floating-point input *)

Section Strtod.
(** The type of doubles and [strtod]: the value, the rest of the text, and whether the
    value is out of range. *)
Context {D : Type} (strtod : cstring -> D * cstring * bool).

Definition xsan_str_to_double (str : option cstring) (has_value : bool) : option D :=
  match str with
  | None => None
  | Some s =>
      if negb has_value then None else
      let '(result, rest, erange) := strtod s in
      if erange || negb (bool_decide (rest = [])) || bool_decide (rest = s) then None else Some result
  end.
End Strtod.

(** ** Time stamps *)

(** The local time of a moment: [struct tm] with the year in full and the month from
    1, and the nanoseconds. *)
Record moment := Moment {
  year : Z; month : Z; mday : Z; hour : Z; minute : Z; second : Z; nsec : Z
}.

(** The formats [%02d], [%03ld] and [%04d] of a number that is not negative: at least
    [w] digits. *)
Definition zero_padded (w : nat) (n : Z) : cstring :=
  let s := print_unsigned n in replicate (w - length s) "0"%char ++ s.

Definition get_timestamp (t : moment) (size : Z) : cstring :=
  snprintf_to size
    (zero_padded 4 (year t) ++ $"-" ++ zero_padded 2 (month t) ++ $"-" ++ zero_padded 2 (mday t) ++
     $" " ++ zero_padded 2 (hour t) ++ $":" ++ zero_padded 2 (minute t) ++ $":" ++
     zero_padded 2 (second t) ++ $"." ++ zero_padded 3 (nsec t / 1000000)).

(** ** Error reports *)

Definition xsan_error_print (error : xsan_error_t) (file : string) (line : Z) (func : string)
    (context_msg : option string) : string :=
  let num z := String.string_of_list_ascii (print_signed z) in
  let head := String.append "XSAN Error: " (String.append file (String.append ":" (String.append (num line)
      (String.append " [" (String.append func "]: "))))) in
  let tail := String.append (xsan_error_string error) (String.append " (code: " (String.append (num error) ")")) in
  match context_msg with
  | Some (String.String c m) => String.append head (String.append (String.String c m) (String.append " - " tail))
  | _ => String.append head tail
  end.

(** [err] is the current [errno]. *)
Definition xsan_error_last (err : Z) : xsan_error_t := xsan_error_from_errno err.

(** * Theorems *)

(** ** Byte counts *)

Lemma round_half_even_near a b : 0 < b -> 2 * Z.abs (round_half_even a b * b - a) <= b.
Proof.
  intros Hb. unfold round_half_even. pose proof (Z.div_mod a b ltac:(lia)) as Hd.
  pose proof (Z.mod_pos_bound a b Hb). set (q := a / b) in *. set (r := a mod b) in *.
  destruct (Z.ltb_spec (2 * r) b); [lia|]. destruct (Z.ltb_spec b (2 * r)); [lia|]. destruct (Z.even q); lia.
Qed.

(** A rounded quotient stays within whole bounds. *)
Lemma round_half_even_bounds a b lo hi :
  0 < b -> lo * b <= a <= hi * b -> lo <= round_half_even a b <= hi.
Proof. intros Hb H. pose proof (round_half_even_near a b Hb). nia. Qed.

Lemma double_of_u64_near n :
  in_u 64 n ->
  exists m, double_of_u64 n = Double m 0 /\ 0 <= m <= 2 ^ 64 /\ Z.abs (m - n) <= 2 ^ 10 /\
    (n <= 2 ^ 53 -> m = n).
Proof.
  intros Hn. unfold in_u in Hn. unfold double_of_u64. destruct (Z.ltb_spec n (2 ^ 53)) as [Hs|Hb].
  { exists n. split; [done|]. pow2s. lia. }
  assert (Hl : 53 <= Z.log2 n < 64).
  { split; [apply Z.log2_le_pow2|apply Z.log2_lt_pow2]; pow2s; lia. }
  set (e := Z.log2 n - 52). assert (He : 0 < 2 ^ e) by (apply Z.pow_pos_nonneg; lia).
  assert (Hp : 2 ^ e <= 2 ^ 11) by (apply Z.pow_le_mono_r; lia).
  pose proof (round_half_even_near n (2 ^ e) He) as Hr.
  assert (H64 : 2 ^ (64 - e) * 2 ^ e = 2 ^ 64) by (rewrite <- Z.pow_add_r by lia; f_equal; lia).
  pose proof (round_half_even_bounds n (2 ^ e) 0 (2 ^ (64 - e)) He ltac:(lia)) as Hrb.
  eexists. split; [reflexivity|]. split; [nia|]. split; [pow2s; lia|].
  intros Hle. assert (Hn53 : n = 2 ^ 53) by lia. unfold e. rewrite Hn53. reflexivity.
Qed.

(** The unit chosen for the double [m]. *)
Lemma reduce_spec m :
  0 <= m ->
  exists k, (k <= 5)%nat /\ reduce num_units (Double m 0) 0 = (Double m (10 * Z.of_nat k), k) /\
    (k <> 0%nat -> 1024 ^ Z.of_nat k <= m) /\ (k <> 5%nat -> m < 1024 ^ Z.of_nat (S k)).
Proof.
  intros Hm.
  assert (H : forall fuel j, (j <= 5)%nat -> (5 < fuel + j)%nat -> (j <> 0%nat -> 1024 ^ Z.of_nat j <= m) ->
    exists k, (k <= 5)%nat /\ reduce fuel (Double m (10 * Z.of_nat j)) j = (Double m (10 * Z.of_nat k), k) /\
      (k <> 0%nat -> 1024 ^ Z.of_nat k <= m) /\ (k <> 5%nat -> m < 1024 ^ Z.of_nat (S k))).
  { induction fuel as [|fuel IH]; intros j Hj Hf Hlo; [lia|]. cbn [reduce]. unfold double_ge_1024. cbn [num scale].
    assert (Hp : 1024 * 2 ^ (10 * Z.of_nat j) = 1024 ^ Z.of_nat (S j)).
    { rewrite Z.pow_mul_r, Nat2Z.inj_succ, Z.pow_succ_r by lia. done. }
    rewrite Hp. destruct (Z.leb_spec (1024 ^ Z.of_nat (S j)) m), (Nat.ltb_spec j (num_units - 1));
      unfold num_units in *; cbn [andb]; try (exists j; split_and!; [done|done|done|lia]).
    unfold double_div_1024. cbn [num scale].
    replace (10 * Z.of_nat j + 10) with (10 * Z.of_nat (S j)) by lia. apply IH; [lia|lia|done]. }
  destruct (H num_units 0%nat) as (k & Hk); [lia|unfold num_units; lia|done|]. exists k. exact Hk.
Qed.

Lemma units_length k : (k <= 5)%nat -> Zlen (default [] (units !! k)) <= 2.
Proof. intros Hk. do 6 (destruct k as [|k]; [done|]). lia. Qed.

(** Every 64-bit byte count is printed in full in the sixteen characters that the
    function asks for.  The unit is the largest that keeps the number, taken as a
    double, at one or more, up to petabytes; the number printed is the hundredth
    nearest to that double, and up to 2^53 the double is the count itself. *)
Theorem bytes_readable bytes size :
  in_u 64 bytes -> 16 <= size ->
  exists m k h text unit_name,
    xsan_bytes_to_human_readable bytes true size = Some text /\
    double_of_u64 bytes = Double m 0 /\ Z.abs (m - bytes) <= 2 ^ 10 /\ (bytes <= 2 ^ 53 -> m = bytes) /\
    units !! k = Some unit_name /\
    (k <> 0%nat -> 1024 ^ Z.of_nat k <= m) /\ (k <> 5%nat -> m < 1024 ^ Z.of_nat (S k)) /\
    (k = 0%nat -> text = print_unsigned bytes ++ $" B") /\
    (k <> 0%nat -> text = print_unsigned (h / 100) ++ $"." ++ two_digits (h mod 100) ++ $" " ++ unit_name /\
       2 * Z.abs (h * 1024 ^ Z.of_nat k - 100 * m) <= 1024 ^ Z.of_nat k) /\
    Zlen text < 16.
Proof.
  intros Hb Hs. destruct (double_of_u64_near bytes Hb) as (m & Hm & Hmr & Hnear & Hexact).
  destruct (reduce_spec m ltac:(lia)) as (k & Hk & Hred & Hlo & Hhi).
  set (h := round_half_even (100 * m) (2 ^ (10 * Z.of_nat k))).
  destruct (lookup_lt_is_Some_2 units k ltac:(cbn; lia)) as [u Hu].
  assert (Hul : Zlen u <= 2) by (pose proof (units_length k Hk) as H; now rewrite Hu in H).
  assert (Hpow : 2 ^ (10 * Z.of_nat k) = 1024 ^ Z.of_nat k) by (rewrite Z.pow_mul_r by lia; done).
  assert (Hpos : 0 < 1024 ^ Z.of_nat k) by (apply Z.pow_pos_nonneg; lia).
  assert (Hm5 : m <= 16384 * 1024 ^ Z.of_nat k).
  { destruct (decide (k = 5%nat)) as [->|Hne]; [change (1024 ^ Z.of_nat 5) with (2 ^ 50); pow2s; lia|].
    specialize (Hhi Hne). rewrite Nat2Z.inj_succ, Z.pow_succ_r in Hhi by lia. lia. }
  assert (Hh : 0 <= h <= 1638400).
  { apply round_half_even_bounds; rewrite ?Hpow; lia. }
  assert (Hfit : forall s, Zlen s < 16 -> snprintf_to size s = s) by (intros s Hl; apply snprintf_to_fits; lia).
  unfold xsan_bytes_to_human_readable. cbn [negb orb]. rewrite (proj2 (Z.ltb_ge size 16) Hs), Hm, Hred, Hu.
  cbn [default]. destruct (decide (k = 0%nat)) as [->|Hk0].
  - injection Hu as <-. cbn [Nat.eqb]. cbn in Hhi. assert (Hb10 : bytes < 10 ^ 4).
    { destruct (decide (bytes <= 2 ^ 53)) as [H|H]; [rewrite (Hexact H) in Hhi|]; pow2s; lia. }
    assert (Hl : Zlen (print_unsigned bytes ++ $" " ++ $"B") < 16).
    { unfold in_u in Hb. pose proof (print_unsigned_length bytes 4 ltac:(lia) ltac:(lia)).
      rewrite Zlen_app. change (Zlen ($" " ++ $"B")) with 2. lia. }
    exists m, 0%nat, h. do 2 eexists. rewrite Hfit by done. split_and!; try done.
  - rewrite (proj2 (Nat.eqb_neq k 0) Hk0). unfold print_hundredths. cbn [num scale]. fold h.
    assert (Hl : Zlen ((print_unsigned (h / 100) ++ $"." ++ two_digits (h mod 100)) ++ $" " ++ u) < 16).
    { pose proof (print_unsigned_length (h / 100) 5) as Hp.
      pose proof (Z.div_pos h 100). pose proof (Z.div_lt_upper_bound h 100 100000).
      rewrite !Zlen_app. change (Zlen $".") with 1. change (Zlen (two_digits (h mod 100))) with 2.
      change (Zlen $" ") with 1. lia. }
    exists m, k, h. do 2 eexists. rewrite Hfit by done. split_and!; try done.
    intros _. rewrite <- !app_assoc. split; [done|]. rewrite <- Hpow.
    apply round_half_even_near. rewrite Hpow. lia.
Qed.

Lemma bytes_readable_witness :
  xsan_bytes_to_human_readable 1536 true 16 = Some $"1.50 KB" /\
  (exists m k h text unit_name, xsan_bytes_to_human_readable 1536 true 16 = Some text /\
    double_of_u64 1536 = Double m 0 /\ units !! k = Some unit_name /\ Zlen text < 16 /\
    (k <> 0%nat -> 2 * Z.abs (h * 1024 ^ Z.of_nat k - 100 * m) <= 1024 ^ Z.of_nat k)).
Proof.
  split; [vm_compute; reflexivity|].
  destruct (bytes_readable 1536 16) as (m & k & h & text & u & H1 & H2 & H3 & H4 & H5 & H6 & H7 & H8 & H9 & H10);
    [unfold in_u; pow2s; lia|lia|].
  exists m, k, h, text, u. split_and!; try assumption. intros Hk. exact (proj2 (H9 Hk)).
Defined.

(** ** Time stamps *)

(** Order of texts by character, and of lists of numbers. *)
Fixpoint lex_compare {A} (cmp : A -> A -> comparison) (s t : list A) : comparison :=
  match s, t with
  | [], [] => Eq
  | [], _ => Lt
  | _, [] => Gt
  | x :: s, y :: t => match cmp x y with Eq => lex_compare cmp s t | c => c end
  end.

Definition text_compare : cstring -> cstring -> comparison := lex_compare (fun c d => code c ?= code d).

Lemma text_compare_refl_app s x y : text_compare (s ++ x) (s ++ y) = text_compare x y.
Proof. induction s as [|c s IH]; [done|]. unfold text_compare in *. cbn. now rewrite Z.compare_refl. Qed.

Lemma digits_val_cons c ds : digits_val (c :: ds) = (code c - 48) * 10 ^ Zlen ds + digits_val ds.
Proof.
  unfold digits_val.
  assert (H : forall a, fold_left (fun acc c => 10 * acc + (code c - 48)) ds a =
    a * 10 ^ Zlen ds + fold_left (fun acc c => 10 * acc + (code c - 48)) ds 0).
  { induction ds as [|d ds IH]; intros a; [cbn [fold_left]; rewrite Zlen_nil; lia|]. cbn [fold_left].
    rewrite IH, (IH (10 * 0 + _)), Zlen_cons, Z.pow_add_r by (lia || apply Zlen_nonneg). lia. }
  cbn [fold_left]. rewrite H. lia.
Qed.

Lemma digits_val_range ds :
  Forall (fun c => isdigit c = true) ds -> 0 <= digits_val ds < 10 ^ Zlen ds.
Proof.
  induction 1 as [|c ds Hc Hds IH]; [done|]. rewrite digits_val_cons, Zlen_cons, Z.pow_add_r by
    (lia || apply Zlen_nonneg). change (10 ^ 1) with 10.
  unfold isdigit in Hc. apply andb_true_iff in Hc as [?%Z.leb_le ?%Z.leb_le]. nia.
Qed.

(** Digits of the same number of places order like the numbers. *)
Lemma digits_compare ds es x y :
  Forall (fun c => isdigit c = true) ds -> Forall (fun c => isdigit c = true) es ->
  length ds = length es ->
  text_compare (ds ++ x) (es ++ y) =
    match digits_val ds ?= digits_val es with Eq => text_compare x y | c => c end.
Proof.
  intros Hd. revert es. induction Hd as [|c ds Hc Hds IH]; intros [|d es] He Hl; try done.
  apply Forall_cons in He as [Hd He]. injection Hl as Hl. unfold text_compare in *. cbn [lex_compare app].
  assert (Hz : Zlen ds = Zlen es) by (unfold Zlen; lia). rewrite !digits_val_cons, <- Hz.
  pose proof (digits_val_range ds Hds) as R1. pose proof (digits_val_range es He) as R2. rewrite <- Hz in R2.
  destruct (Z.compare_spec (code c) (code d)) as [Heq|Hlt|Hgt].
  - rewrite Heq, IH by done. rewrite Z.add_compare_mono_l. done.
  - destruct (Z.compare_spec ((code c - 48) * 10 ^ Zlen ds + digits_val ds)
      ((code d - 48) * 10 ^ Zlen ds + digits_val es)); (done || nia).
  - destruct (Z.compare_spec ((code c - 48) * 10 ^ Zlen ds + digits_val ds)
      ((code d - 48) * 10 ^ Zlen ds + digits_val es)); (done || nia).
Qed.

Lemma zero_padded_spec w n :
  0 <= n < 10 ^ Z.of_nat w -> (1 <= w <= 20)%nat ->
  length (zero_padded w n) = w /\ Forall (fun c => isdigit c = true) (zero_padded w n) /\
  digits_val (zero_padded w n) = n.
Proof.
  intros Hn Hw. unfold zero_padded. assert (10 ^ Z.of_nat w <= 10 ^ 20) by (apply Z.pow_le_mono_r; lia).
  destruct (print_unsigned_spec n) as (_ & Hall & Hv); [lia|].
  pose proof (print_unsigned_length n (Z.of_nat w) Hn ltac:(lia)) as Hl. unfold Zlen in Hl.
  split_and!.
  - rewrite length_app, length_replicate. lia.
  - apply Forall_app. split; [|done]. now apply Forall_replicate.
  - induction (w - length (print_unsigned n))%nat as [|z IH]; [done|]. cbn [replicate app].
    rewrite digits_val_cons, IH. change (code "0"%char) with 48. lia.
Qed.

Lemma zero_padded_compare w n m x y :
  0 <= n < 10 ^ Z.of_nat w -> 0 <= m < 10 ^ Z.of_nat w -> (1 <= w <= 20)%nat ->
  text_compare (zero_padded w n ++ x) (zero_padded w m ++ y) =
    match n ?= m with Eq => text_compare x y | c => c end.
Proof.
  intros Hn Hm Hw. destruct (zero_padded_spec w n Hn Hw) as (L1 & D1 & V1).
  destruct (zero_padded_spec w m Hm Hw) as (L2 & D2 & V2). rewrite digits_compare, V1, V2 by congruence. done.
Qed.

(** What [localtime] and [clock_gettime] give in the years with four digits. *)
Definition moment_ok (t : moment) : Prop :=
  0 <= year t < 10000 /\ 1 <= month t <= 12 /\ 1 <= mday t <= 31 /\ 0 <= hour t < 24 /\
  0 <= minute t < 60 /\ 0 <= second t <= 60 /\ 0 <= nsec t < 1000000000.

(** The fields from the most significant on, to the millisecond. *)
Definition moment_fields (t : moment) : list Z :=
  [year t; month t; mday t; hour t; minute t; second t; nsec t / 1000000].

(** A time stamp has 23 characters, which the buffer of the log holds, and the order
    of two stamps as texts is the order of their moments to the millisecond, so that
    sorting log lines sorts them by time. *)
Theorem timestamps_ordered t u size :
  moment_ok t -> moment_ok u -> 24 <= size ->
  Zlen (get_timestamp t size) = 23 /\
  text_compare (get_timestamp t size) (get_timestamp u size) =
    lex_compare Z.compare (moment_fields t) (moment_fields u).
Proof.
  intros (Y & Mo & D & H & Mi & S & N) (Y' & Mo' & D' & H' & Mi' & S' & N') Hs.
  assert (Hms : forall n, 0 <= n < 1000000000 -> 0 <= n / 1000000 < 10 ^ Z.of_nat 3).
  { intros n Hn. split; [apply Z.div_pos; lia|]. apply Z.div_lt_upper_bound; cbn; lia. }
  pose proof (Hms _ N) as Nm. pose proof (Hms _ N') as Nm'.
  assert (Hlen : forall w n, 0 <= n < 10 ^ Z.of_nat w -> (1 <= w <= 20)%nat -> Zlen (zero_padded w n) = Z.of_nat w).
  { intros w n Hn Hw. unfold Zlen. now rewrite (proj1 (zero_padded_spec w n Hn Hw)). }
  unfold get_timestamp. rewrite !snprintf_to_fits.
  2,3: rewrite !Zlen_app, !Hlen by (cbn in *; lia); unfold Zlen; cbn; lia.
  split; [rewrite !Zlen_app, !Hlen by (cbn in *; lia); reflexivity|].
  unfold moment_fields. cbn [lex_compare].
  repeat (rewrite zero_padded_compare by (cbn in *; lia); case (_ ?= _); [rewrite ?text_compare_refl_app|done..]).
  rewrite <- (app_nil_r (zero_padded 3 (nsec t / 1000000))), <- (app_nil_r (zero_padded 3 (nsec u / 1000000))).
  rewrite zero_padded_compare by (cbn in *; lia). now case (_ ?= _).
Qed.

Lemma timestamps_ordered_witness :
  Zlen (get_timestamp (Moment 2024 1 9 23 59 59 999000000) 32) = 23 /\
  text_compare (get_timestamp (Moment 2024 1 9 23 59 59 999000000) 32)
    (get_timestamp (Moment 2024 1 10 0 0 0 0) 32) = Lt.
Proof.
  apply (timestamps_ordered (Moment 2024 1 9 23 59 59 999000000) (Moment 2024 1 10 0 0 0 0) 32);
    unfold moment_ok; cbn; lia.
Defined.
