(* ===== verification/DiskInit.v ===== *)
(** * The disk manager ([src/src/storage/disk_manager.c])

    The source file ends in the middle of [xsan_disk_manager_fini], so that what there is
    of the disk manager is its structure, the destructors of its two lists and its start.
    Resources are a trace and whether each can be acquired is an argument; the scan of the
    stored disks, declared and called but not defined, is a parameter.  What the volume
    manager relies on is the class [DiskManager] of [Volume.v]. *)

From stdpp Require Import prelude strings.
From Stdlib Require Import ZArith Lia Ascii.
From S2P Require Import Prelude Errors StringUtils VolumeMeta Cluster ConfigLoad Log.

Inductive disk_resource := DrManager | DrDisks | DrGroups | DrLock | DrStore.
Inductive dr_event := DrAcquire (r : disk_resource) | DrRelease (r : disk_resource).

#[export] Instance disk_resource_eq_dec : EqDecision disk_resource.
Proof. solve_decision. Defined.

(** An entry of the list of disks: whether its device is open. *)
Inductive disk_event := DiskClose | DiskFree.

Definition internal_disk_destroy_cb (disk : option bool) : list disk_event :=
  match disk with
  | Some descriptor => (if descriptor then [DiskClose] else []) ++ [DiskFree]
  | None => []
  end.

Definition internal_disk_group_destroy_cb (group : bool) : list disk_event :=
  if group then [DiskFree] else [].

Record disk_env := DiskEnv {
  de_manager : bool;
  de_disks : bool;
  de_groups : bool;
  de_lock : bool;
  de_store : bool
}.

Section DiskInit.
Context {SC : StorageCodes}.

(** The entries of the two lists are of the types [D] and [G]. *)
Context {D G : Type}.

Record xsan_disk_manager := DiskMgr {
  managed_disks : list D;
  managed_disk_groups : list G;
  dm_initialized : bool;
  metadata_db_path : cstring
}.

Variable load_metadata : xsan_disk_manager -> xsan_disk_manager.

(** [g] is the global instance; the result is the instance, what the caller's pointer
    receives, the code and the resources. *)
Definition xsan_disk_manager_init (env : disk_env) (g : option xsan_disk_manager) :
    option xsan_disk_manager * option xsan_disk_manager * xsan_error_t * list dr_event :=
  let actual_db_path := snprintf_to XSAN_MAX_PATH_LEN ($"./" ++ $"xsan_meta_db/disk_manager") in
  match g with
  | Some _ => (g, g, XSAN_OK, [])
  | None =>
      let fail t e := (None, None, e, t) in
      if negb (de_manager env) then fail [] XSAN_ERROR_OUT_OF_MEMORY else
      let t := [DrAcquire DrManager] ++ (if de_disks env then [DrAcquire DrDisks] else []) ++
               (if de_groups env then [DrAcquire DrGroups] else []) in
      if negb (de_disks env) || negb (de_groups env) then
        fail (t ++ (if de_disks env then [DrRelease DrDisks] else []) ++
              (if de_groups env then [DrRelease DrGroups] else []) ++ [DrRelease DrManager])
          XSAN_ERROR_OUT_OF_MEMORY else
      let undo := [DrRelease DrGroups; DrRelease DrDisks; DrRelease DrManager] in
      if negb (de_lock env) then fail (t ++ undo) XSAN_ERROR_SYSTEM else
      let t := t ++ [DrAcquire DrLock] in
      if negb (de_store env) then fail (t ++ DrRelease DrLock :: undo) XSAN_ERROR_STORAGE_GENERIC else
      let dm := load_metadata (DiskMgr [] [] true (copied XSAN_MAX_PATH_LEN (Some actual_db_path))) in
      (Some dm, Some dm, XSAN_OK, t ++ [DrAcquire DrStore])
  end.

(** * Theorems *)

(** What is held after a trace; [None] when something is released that is not held. *)
Definition disk_track (held : option (list disk_resource)) (e : dr_event) : option (list disk_resource) :=
  match e, held with
  | DrAcquire r, Some l => Some (r :: l)
  | DrRelease r, Some l => if decide (r ∈ l) then Some (filter (fun q => q <> r) l) else None
  | _, None => None
  end.

(** Starting the disk manager acquires everything or leaves nothing behind, releases
    nothing twice, and reports success exactly in the first case; a second start changes
    nothing. *)
Theorem disk_manager_resources env :
  let '(g, out, e, t) := xsan_disk_manager_init env None in
  out = g /\ (e = XSAN_OK <-> is_Some g) /\
  foldl disk_track (Some []) t =
    Some (if bool_decide (is_Some g) then [DrStore; DrLock; DrGroups; DrDisks; DrManager] else []) /\
  (forall dm env', g = Some dm -> xsan_disk_manager_init env' g = (g, g, XSAN_OK, [])).
Proof.
  destruct env as [m d g l s]. pose proof out_of_memory_fails.
  assert (Hno : is_Some (@None xsan_disk_manager) <-> False) by (split; [intros [? [=]]|done]).
  unfold xsan_disk_manager_init. cbn [de_manager de_disks de_groups de_lock de_store].
  destruct m, d, g, l, s; cbn; (split; [done|]); (split; [|split; [done|intros ? ? [=]; subst; done]]);
    rewrite ?Hno; try (split; done). all: split; eauto.
Qed.

End DiskInit.
