(* ===== verification/CommModule.v ===== *)
(** * Node communication: the module ([src/src/network/xsan_node_comm.c])

    Start and stop of the module, its listening socket, the connections it accepts and
    what happens to them when data arrives.  The receive path of one connection, sending,
    connecting and the lock of the list are those of [NodeComm.v].  The calls that
    acquire and release something are a trace; the answers of SPDK are arguments.  A step
    without result does not return, or uses a connection that is gone. *)

From stdpp Require Import prelude strings gmap.
From Stdlib Require Import ZArith Lia Ascii.
From S2P Require Import Prelude Errors Protocol NodeComm StringUtils VolumeMeta Cluster ConfigLoad Socket Format.

Definition XSAN_COMM_MAX_PEER_ADDR_LEN : Z := 64.

(** The code is used where the headers do not define it. *)
Definition XSAN_ERROR_SPDK_ENV : xsan_error_t := XSAN_ERROR_SYSTEM.

(** A connection: its socket, the text of its peer and its receive side. *)
Record connection := Connection { cx_sock : Z; cx_peer : cstring; cx_conn : conn }.

Record comm := Comm {
  cm_initialized : bool;
  cm_group : bool;
  cm_poller : bool;
  cm_listener : option Z;
  cm_listen_ip : cstring;
  cm_listen_port : Z;
  cm_app_handler : bool;
  cm_active : list connection;
  cm_handlers : Z -> bool
}.

Definition comm_zero : comm := Comm false false false None [] 0 false [] (fun _ => false).

Definition with_active (s : comm) (l : list connection) : comm :=
  Comm (cm_initialized s) (cm_group s) (cm_poller s) (cm_listener s) (cm_listen_ip s) (cm_listen_port s)
    (cm_app_handler s) l (cm_handlers s).

Definition comm_table (s : comm) : handler_table := mk_handlers (cm_initialized s) (cm_handlers s).

Inductive comm_event :=
  | CMutexInit | CMutexDestroy
  | CPollerOn | CPollerOff
  | COpen (s : Z)                 (* listening and accepted sockets *)
  | CConnected (s : Z)            (* sockets that [xsan_node_comm_connect] opens *)
  | CClose (s : Z)
  | CCtxAlloc (s : Z) | CCtxFree (s : Z)
  | CBufAlloc (s : Z) | CBufFree (s : Z)
  | CPendingAlloc | CPendingFree
  | CDispatch (d : dispatched).

(** ** Start and stop *)

Record comm_env := CommEnv {
  ce_on_thread : bool;
  ce_mutex : bool;
  ce_group : bool;
  ce_listen : option Z;
  ce_poller : bool
}.

Definition xsan_node_comm_init (env : comm_env) (listen_ip : option cstring) (listen_port : Z)
    (msg_handler : bool) (s : comm) : traced comm_event (comm * xsan_error_t) :=
  if cm_initialized s then tret (s, XSAN_OK) else
  if negb (ce_on_thread env) then tret (s, XSAN_ERROR_THREAD_CONTEXT) else
  if negb (ce_mutex env) then tret (comm_zero, XSAN_ERROR_SYSTEM) else
  let* _ := temit CMutexInit in
  if negb (ce_group env) then
    let* _ := temit CMutexDestroy in tret (comm_zero, XSAN_ERROR_SPDK_ENV) else
  let state listener ip port poller initialized :=
    Comm initialized true poller listener ip port msg_handler [] (fun _ => false) in
  let finish listener ip port :=
    if negb (ce_poller env) then
      let* _ := match listener with Some l => temit (CClose l) | None => tret tt end in
      let* _ := temit CMutexDestroy in
      tret (state None ip port false false, XSAN_ERROR_SPDK_ENV)
    else
      let* _ := temit CPollerOn in
      tret (state listener ip port true true, XSAN_OK) in
  match listen_ip with
  | Some ip =>
      if 0 <? listen_port then
        match ce_listen env with
        | None => let* _ := temit CMutexDestroy in
            tret (state None [] 0 false false, XSAN_ERROR_NETWORK)
        | Some l =>
            let* _ := temit (COpen l) in
            finish (Some l) (copied INET6_ADDRSTRLEN (Some ip)) listen_port
        end
      else finish None [] 0
  | None => finish None [] 0
  end.

(** [_cleanup_and_free_connection_ctx]. *)
Definition cleanup_connection (close : bool) (c : connection) : list comm_event :=
  (if close then [CClose (cx_sock c)] else []) ++ [CBufFree (cx_sock c); CCtxFree (cx_sock c)].

Definition xsan_node_comm_fini (s : comm) : traced comm_event comm :=
  if negb (cm_initialized s) then tret s else
  let* _ := if cm_poller s then temit CPollerOff else tret tt in
  let* _ := (concat (map (cleanup_connection true) (cm_active s)), Some tt) in
  let* _ := match cm_listener s with Some l => temit (CClose l) | None => tret tt end in
  let* _ := temit CMutexDestroy in
  tret (Comm false false false None (cm_listen_ip s) (cm_listen_port s) (cm_app_handler s) []
          (cm_handlers s)).

(** Whether the poller was busy; [poll] is the result of [spdk_sock_group_poll], which
    calls the callbacks of the sockets in the group. *)
Definition comm_poller_fn (poll : Z) (s : comm) : bool := cm_group s && (0 <? poll).

(** ** Connections *)

(** [peer] is what [spdk_sock_get_peer_addr] gives. *)
Definition format_peer_addr (peer : option (cstring * Z)) (len : Z) : cstring :=
  if len =? 0 then [] else
  let text := match peer with
              | Some (host, port) =>
                  if has_char ":" host then $"[" ++ host ++ $"]:" ++ print_unsigned port
                  else host ++ $":" ++ print_unsigned port
              | None => $"unknown_peer"
              end in
  default [] (xsan_snprintf_safe true true len (Some text)).1.

Record accept_env := AcceptEnv {
  ae_sock : option Z;
  ae_peer : option (cstring * Z);
  ae_ctx : bool;
  ae_buf : bool
}.

(** [_create_connection_ctx] for an accepted socket. *)
Definition create_connection (env : accept_env) (sock : Z) (handler : bool) :
    traced comm_event (option connection) :=
  if negb (ae_ctx env) then tret None else
  let* _ := temit (CCtxAlloc sock) in
  if negb (ae_buf env) then let* _ := temit (CCtxFree sock) in tret None else
  let* _ := temit (CBufAlloc sock) in
  tret (Some (Connection sock (format_peer_addr (ae_peer env) XSAN_COMM_MAX_PEER_ADDR_LEN)
                (create_connection_ctx handler))).

(** [_xsan_comm_sock_event_callback]: an event on the listening socket accepts a
    connection, one on another socket does nothing. *)
Definition comm_sock_event_callback (env : accept_env) (sock : Z) (s : comm) : traced comm_event comm :=
  if bool_decide (cm_listener s = Some sock) then
    match ae_sock env with
    | None => tret s
    | Some new_sock =>
        let* _ := temit (COpen new_sock) in
        let* c := create_connection env new_sock (cm_app_handler s) in
        match c with
        | Some c => tret (with_active s (c :: cm_active s))
        | None => let* _ := temit (CClose new_sock) in tret s
        end
    end
  else tret s.

Definition same_sock (sock : Z) (c : connection) : bool := cx_sock c =? sock.

Definition without_sock (sock : Z) (l : list connection) : list connection :=
  filter (fun c => cx_sock c <> sock) l.

(** [_process_received_data_for_connection] on the connection of [sock], whose socket
    answers [recv] and whose handlers leave the messages of [keeps] allocated; it has no
    result while the socket still has data after [n] calls, nor once a freed message was
    read. *)
Definition process_received (malloc_ok : Z -> bool) (keeps : dispatched -> bool) (recv : nat -> Z -> recv_result)
    (n : nat) (sock : Z) (s : comm) : traced comm_event comm :=
  match find (same_sock sock) (cm_active s) with
  | None => tundef
  | Some c =>
      let '(o, ds, _) := process malloc_ok (comm_table s) keeps recv n 0 (cx_conn c) in
      let* _ := (map CDispatch ds, Some tt) in
      match o with
      | Running _ | Undefined => tundef
      | Alive c' =>
          tret (with_active s
            (map (fun x => if same_sock sock x then Connection sock (cx_peer x) c' else x) (cm_active s)))
      | PeerClosed =>
          let* _ := (cleanup_connection false c, Some tt) in
          tret (with_active s (without_sock sock (cm_active s)))
      | ErrorClosed =>
          let* _ := (cleanup_connection true c, Some tt) in
          tret (with_active s (without_sock sock (cm_active s)))
      end
  end.

(** ** Connecting and disconnecting *)

(** [xsan_node_comm_connect] with what it acquires; [sock] is the new socket or the
    errno.  The pending operation and the socket in it are never looked at again. *)
Definition connect_resources (on_thread pending_ok ip_set : bool) (port : Z) (cb : bool) (sock : Z + Z)
    (s : comm) : traced comm_event (comm * xsan_error_t) :=
  let '(e, _) := xsan_node_comm_connect (cm_initialized s) on_thread pending_ok ip_set port cb
                   (match sock with inl _ => None | inr err => Some err end) in
  let reached := cm_initialized s && ip_set && negb (port =? 0) && cb && on_thread && pending_ok in
  if reached then
    let* _ := temit CPendingAlloc in
    match sock with
    | inl fd => let* _ := temit (CConnected fd) in tret (s, e)
    | inr _ => let* _ := temit CPendingFree in tret (s, e)
    end
  else tret (s, e).

(** [xsan_node_comm_disconnect] with what it releases.  It takes the lock of the list
    whether or not the module is initialised; without it there is no mutex. *)
Definition disconnect_resources (sock : Z) (s : comm) : traced comm_event comm :=
  if sock =? NULL then tret s else
  if negb (cm_initialized s) then tundef else
  match xsan_node_comm_disconnect sock (mk_comm (map (fun c => (cx_sock c, cx_sock c)) (cm_active s)) false) with
  | None => tundef
  | Some (_, true) => (cleanup_connection true (Connection sock [] (create_connection_ctx false)),
                       Some (with_active s (without_sock sock (cm_active s))))
  | Some (_, false) => let* _ := temit (CClose sock) in tret s
  end.

(** * Theorems *)

(** ** What is live *)

(** [lv_lost]: sockets that are open and that no connection refers to. *)
Record live := Live {
  lv_mutex : bool;
  lv_poller : bool;
  lv_socks : gset Z;
  lv_ctxs : gset Z;
  lv_bufs : gset Z;
  lv_lost : gset Z
}.

Definition live_none : live := Live false false ∅ ∅ ∅ ∅.

(** The effect of an event; [None] when it acquires what is there or releases what is
    not. *)
Definition live_step (L : live) (e : comm_event) : option live :=
  let '(Live m p ss cs bs lost) := L in
  match e with
  | CMutexInit => if m then None else Some (Live true p ss cs bs lost)
  | CMutexDestroy => if m && negb p then Some (Live false p ss cs bs lost) else None
  | CPollerOn => if p then None else Some (Live m true ss cs bs lost)
  | CPollerOff => if p then Some (Live m false ss cs bs lost) else None
  | COpen s => if decide (s ∈ ss) then None else Some (Live m p ({[s]} ∪ ss) cs bs lost)
  | CConnected s =>
      if decide (s ∈ ss) then None else Some (Live m p ({[s]} ∪ ss) cs bs ({[s]} ∪ lost))
  | CClose s => if decide (s ∈ ss) then Some (Live m p (ss ∖ {[s]}) cs bs (lost ∖ {[s]})) else None
  | CCtxAlloc s => if decide (s ∈ cs) then None else Some (Live m p ss ({[s]} ∪ cs) bs lost)
  | CCtxFree s =>
      if decide (s ∈ cs /\ s ∉ bs)
      then Some (Live m p ss (cs ∖ {[s]}) bs (if decide (s ∈ ss) then {[s]} ∪ lost else lost)) else None
  | CBufAlloc s => if decide (s ∈ cs /\ s ∉ bs) then Some (Live m p ss cs ({[s]} ∪ bs) lost) else None
  | CBufFree s => if decide (s ∈ bs) then Some (Live m p ss cs (bs ∖ {[s]}) lost) else None
  | CPendingAlloc | CPendingFree | CDispatch _ => Some L
  end.

Fixpoint live_run (L : live) (t : list comm_event) : option live :=
  match t with
  | [] => Some L
  | e :: t => L' ← live_step L e; live_run L' t
  end.

Lemma live_run_app L t1 t2 : live_run L (t1 ++ t2) = L' ← live_run L t1; live_run L' t2.
Proof.
  revert L. induction t1 as [|e t1 IH]; intros L; [done|]. cbn. destruct (live_step L e); [apply IH|done].
Qed.

Definition socks_of (l : list connection) : gset Z := list_to_set (map cx_sock l).
Definition listener_of (s : comm) : gset Z := match cm_listener s with Some l => {[l]} | None => ∅ end.

#[local] Typeclasses Opaque socks_of listener_of.
#[local] Arguments socks_of : simpl never.
#[local] Arguments listener_of : simpl never.

(** The live resources are those that the module refers to, apart from lost sockets. *)
Record accounted (s : comm) (L : live) : Prop := {
  ac_mutex : lv_mutex L = cm_initialized s;
  ac_poller : lv_poller L = cm_initialized s;
  ac_poller_set : cm_poller s = cm_initialized s;
  ac_ctxs : lv_ctxs L = socks_of (cm_active s);
  ac_bufs : lv_bufs L = socks_of (cm_active s);
  ac_socks : lv_socks L = socks_of (cm_active s) ∪ listener_of s ∪ lv_lost L;
  ac_nodup : NoDup (map cx_sock (cm_active s));
  ac_listener : listener_of s ## socks_of (cm_active s) ∪ lv_lost L;
  ac_lost : socks_of (cm_active s) ## lv_lost L;
  ac_stopped : cm_initialized s = false -> cm_active s = [] /\ cm_listener s = None
}.

Lemma live_dispatch L ds : live_run L (map CDispatch ds) = Some L.
Proof. induction ds as [|d ds IH]; [done|]. destruct L. exact IH. Qed.

(** Cleaning up a connection. *)
Lemma live_cleanup close c m p ss cs bs lost :
  cx_sock c ∈ ss -> cx_sock c ∈ cs -> cx_sock c ∈ bs ->
  live_run (Live m p ss cs bs lost) (cleanup_connection close c) =
  Some (Live m p (if close then ss ∖ {[cx_sock c]} else ss) (cs ∖ {[cx_sock c]}) (bs ∖ {[cx_sock c]})
          (if close then lost ∖ {[cx_sock c]} else {[cx_sock c]} ∪ lost)).
Proof.
  intros Hs Hc Hb. unfold cleanup_connection. destruct close; cbn; repeat (rewrite decide_True by set_solver; cbn).
  - now rewrite decide_False by set_solver.
  - done.
Qed.

(** ** Steps *)

Lemma socks_of_nil : socks_of [] = ∅.
Proof. done. Qed.

Lemma socks_of_cons c l : socks_of (c :: l) = {[cx_sock c]} ∪ socks_of l.
Proof. done. Qed.

Lemma elem_of_socks x l : x ∈ socks_of l <-> exists c, c ∈ l /\ cx_sock c = x.
Proof.
  unfold socks_of. rewrite elem_of_list_to_set. change (map cx_sock l) with (cx_sock <$> l).
  rewrite list_elem_of_fmap. firstorder.
Qed.

Lemma find_sock sock l c : find (same_sock sock) l = Some c -> c ∈ l /\ cx_sock c = sock.
Proof.
  intros [Hin Hs]%find_some. apply Z.eqb_eq in Hs. split; [now apply list_elem_of_In|done].
Qed.

(** Removing a socket from a list that has it once. *)
Lemma without_sock_spec sock l :
  socks_of (without_sock sock l) = socks_of l ∖ {[sock]} /\
  (NoDup (map cx_sock l) -> NoDup (map cx_sock (without_sock sock l))).
Proof.
  split.
  - apply set_eq. intros x. rewrite elem_of_difference, elem_of_singleton, !elem_of_socks.
    unfold without_sock. setoid_rewrite list_elem_of_filter. firstorder congruence.
  - induction l as [|c l IH]; [done|]. cbn [map]. intros [Hc Hl]%NoDup_cons. unfold without_sock in *.
    destruct (decide (cx_sock c = sock)) as [He|He].
    + rewrite filter_cons_False by (intros Hn; now apply Hn). auto.
    + rewrite filter_cons_True by done. cbn [map]. apply NoDup_cons. split; [|auto].
      change (map cx_sock ?l) with (cx_sock <$> l) in *. rewrite list_elem_of_fmap in *.
      intros (y & Hy & [_ Hin]%list_elem_of_filter). apply Hc. eauto.
Qed.

(** Closing every connection of a list. *)
Lemma live_close_all l m p ss cs bs lost :
  NoDup (map cx_sock l) -> socks_of l ⊆ ss -> socks_of l ⊆ cs -> socks_of l ⊆ bs -> socks_of l ## lost ->
  live_run (Live m p ss cs bs lost) (concat (map (cleanup_connection true) l)) =
  Some (Live m p (ss ∖ socks_of l) (cs ∖ socks_of l) (bs ∖ socks_of l) lost).
Proof.
  revert ss cs bs. induction l as [|c l IH]; intros ss cs bs Hnd Hs Hc Hb Hl.
  { cbn. unfold socks_of. cbn. now rewrite !difference_empty_L. }
  cbn [map] in Hnd. apply NoDup_cons in Hnd as [Hnew Hnd]. rewrite socks_of_cons in *.
  assert (Hx : cx_sock c ∉ socks_of l) by (unfold socks_of; now rewrite elem_of_list_to_set).
  cbn [map concat]. rewrite live_run_app, live_cleanup by set_solver. cbn [mbind option_bind].
  replace (lost ∖ {[cx_sock c]}) with lost by set_solver. rewrite IH by set_solver. do 2 f_equal; set_solver.
Qed.

Lemma find_pair sock (l : list connection) :
  match find (fun x : Z * Z => x.2 =? sock) (map (fun c => (cx_sock c, cx_sock c)) l) with
  | Some _ => True
  | None => sock ∉ socks_of l
  end.
Proof.
  destruct (find _ _) eqn:Hf; [done|]. rewrite elem_of_socks. intros (c & Hin & Hs).
  assert (Hno : ((cx_sock c, cx_sock c).2 =? sock) = false).
  { apply (find_none _ _ Hf). apply in_map_iff. exists c. split; [done|now apply list_elem_of_In]. }
  cbn in Hno. apply Z.eqb_neq in Hno. congruence.
Qed.

(** Disconnecting returns only for a socket without a connection. *)
Lemma disconnect_returns sock s t s' :
  sock <> NULL -> disconnect_resources sock s = (t, Some s') ->
  t = [CClose sock] /\ s' = s /\ sock ∉ socks_of (cm_active s).
Proof.
  intros Hn. unfold disconnect_resources, xsan_node_comm_disconnect. rewrite (proj2 (Z.eqb_neq _ _) Hn).
  destruct (cm_initialized s); [|done].
  cbn [mutex_lock lock_held mbind option_bind active_connections].
  pose proof (find_pair sock (cm_active s)) as Hp. destruct (find _ _) as [ctx|]; [done|].
  cbn. now intros [= <- <-].
Qed.

Inductive comm_op :=
  | OInit (env : comm_env) (ip : option cstring) (port : Z) (handler : bool)
  | OFini
  | ORegister (type : Z) (set : bool)
  | OEvent (env : accept_env) (sock : Z)
  | OReceive (malloc_ok : Z -> bool) (keeps : dispatched -> bool) (recv : nat -> Z -> recv_result)
      (n : nat) (sock : Z)
  | OConnect (on_thread pending_ok ip_set : bool) (port : Z) (cb : bool) (sock : Z + Z)
  | ODisconnect (sock : Z).

Definition comm_step (s : comm) (op : comm_op) : traced comm_event comm :=
  match op with
  | OInit env ip port handler =>
      let* r := xsan_node_comm_init env ip port handler s in tret r.1
  | OFini => xsan_node_comm_fini s
  | ORegister type set =>
      let h := (xsan_node_comm_register_message_handler (comm_table s) type set).1 in
      tret (Comm (cm_initialized s) (cm_group s) (cm_poller s) (cm_listener s) (cm_listen_ip s)
              (cm_listen_port s) (cm_app_handler s) (cm_active s) (specific_handlers h))
  | OEvent env sock => comm_sock_event_callback env sock s
  | OReceive malloc_ok keeps recv n sock => process_received malloc_ok keeps recv n sock s
  | OConnect on_thread pending_ok ip_set port cb sock =>
      let* r := connect_resources on_thread pending_ok ip_set port cb sock s in tret r.1
  | ODisconnect sock => disconnect_resources sock s
  end.

(** SPDK gives sockets that are not open, and a caller disconnects only sockets that
    are, the listening socket apart. *)
Definition op_ok (s : comm) (L : live) (op : comm_op) : Prop :=
  match op with
  | OInit env _ _ _ => forall l, ce_listen env = Some l -> l ∉ lv_socks L
  | OEvent env _ => forall x, ae_sock env = Some x -> x ∉ lv_socks L
  | OConnect _ _ _ _ _ (inl x) => x ∉ lv_socks L
  | ODisconnect sock => sock <> NULL /\ sock ∈ lv_socks L /\ cm_listener s <> Some sock
  | _ => True
  end.

(** Closing or losing a socket of [A] beside [B] and [C]. *)
Lemma union_close (A B C : gset Z) x : x ∉ B -> (A ∪ B ∪ C) ∖ {[x]} = A ∖ {[x]} ∪ B ∪ C ∖ {[x]}.
Proof. set_solver. Qed.

Lemma union_lose (A B C : gset Z) x : x ∈ A -> A ∪ B ∪ C = A ∖ {[x]} ∪ B ∪ ({[x]} ∪ C).
Proof. intros Hx. apply set_eq. intros y. destruct (decide (y = x)); set_solver. Qed.

Lemma disjoint_close (A B C : gset Z) x : A ## B ∪ C -> A ## B ∖ {[x]} ∪ C ∖ {[x]}.
Proof. set_solver. Qed.

Lemma disjoint_lose (A B C : gset Z) x : A ## B ∪ C -> x ∉ A -> A ## B ∖ {[x]} ∪ ({[x]} ∪ C).
Proof. set_solver. Qed.

Lemma union_open (A B C : gset Z) x : {[x]} ∪ (A ∪ B ∪ C) = {[x]} ∪ A ∪ B ∪ C.
Proof. set_solver. Qed.

(** Leaves that no socket occurs twice and what holds when the module is stopped. *)
Ltac account :=
  unfold comm_zero; constructor; cbn; rewrite ?socks_of_cons, ?socks_of_nil;
  repeat match goal with
  | |- context [listener_of (with_active ?s ?l)] => change (listener_of (with_active s l)) with (listener_of s)
  | |- context [listener_of (Comm ?a ?b ?c ?d ?e ?f ?g ?h ?i)] =>
      change (listener_of (Comm a b c d e f g h i)) with (match d with Some x => {[x]} | None => ∅ end : gset Z); cbn iota
  end;
  [done|done|done|set_solver|set_solver|set_solver| |set_solver|set_solver|].

#[local] Arguments format_peer_addr : simpl never.

Section Steps.
Variables (s : comm) (L : live).
Hypothesis Hac : accounted s L.

Lemma init_accounted env ip port handler t r :
  op_ok s L (OInit env ip port handler) ->
  xsan_node_comm_init env ip port handler s = (t, Some r) ->
  exists L', live_run L t = Some L' /\ accounted r.1 L'.
Proof.
  intros Hok. unfold xsan_node_comm_init. destruct (cm_initialized s) eqn:Hi; [intros [= <- <-]; now exists L|].
  destruct (ce_on_thread env); cbn [negb]; [|intros [= <- <-]; now exists L].
  destruct Hac as [A1 A2 _ A4 A5 A6 _ _ _ A10]. destruct (A10 Hi) as [Ha Hl]. rewrite Hi, Ha in *.
  destruct L as [m p ss cs bs lost]. unfold listener_of in A6. rewrite Hl in A6.
  cbn in Hok, A1, A2, A4, A5, A6. rewrite socks_of_nil in A4, A5, A6. subst m p cs bs.
  assert (Hss : ss = lost) by set_solver. clear A6 A10. subst ss.
  destruct (ce_mutex env); cbn [negb]; [|intros [= <- <-]; eexists; split; [reflexivity|account; [constructor|done]]].
  destruct (ce_group env); cbn [negb]; [|intros [= <- <-]; eexists; split; [reflexivity|account; [constructor|done]]].
  assert (Hfinish : forall t r,
    (let* _ := temit CMutexInit in
     if negb (ce_poller env)
     then let* _ := tret tt in let* _ := temit CMutexDestroy in
          tret (Comm false true false None [] 0 handler [] (fun _ => false), XSAN_ERROR_SPDK_ENV)
     else let* _ := temit CPollerOn in
          tret (Comm true true true None [] 0 handler [] (fun _ => false), XSAN_OK)) = (t, Some r) ->
    exists L', live_run (Live false false lost ∅ ∅ lost) t = Some L' /\ accounted r.1 L').
  { intros t0 r0. destruct (ce_poller env); intros [= <- <-]; (eexists; split; [reflexivity|]);
      (account; [constructor|done]). }
  destruct ip as [ip|]; [|apply Hfinish]. destruct (0 <? port); [|apply Hfinish].
  destruct (ce_listen env) as [l|];
    [|intros [= <- <-]; eexists; split; [reflexivity|account; [constructor|done]]].
  specialize (Hok l eq_refl).
  destruct (ce_poller env); intros [= <- <-]; cbn; rewrite decide_False by done; cbn; rewrite ?decide_True by set_solver;
    (eexists; split; [reflexivity|]); (account; [constructor|done]).
Qed.

Lemma fini_accounted t s' :
  xsan_node_comm_fini s = (t, Some s') -> exists L', live_run L t = Some L' /\ accounted s' L'.
Proof.
  unfold xsan_node_comm_fini. destruct (cm_initialized s) eqn:Hi; cbn [negb].
  2:{ unfold tret. intros H. injection H as <- <-. now exists L. }
  destruct Hac as [A1 A2 A3 A4 A5 A6 A7 A8 A9 _].
  destruct L as [m p ss cs bs lost]. cbn in A1, A2, A4, A5, A6, A8, A9. unfold listener_of in *.
  rewrite Hi in *. rewrite A3. subst m p cs bs ss.
  destruct (cm_listener s) as [l|]; intros [= <- <-]; cbn [live_run live_step mbind option_bind];
    rewrite live_run_app, live_close_all by set_solver; cbn.
  - assert (Hl : l ∉ socks_of (cm_active s) /\ l ∉ lost) by set_solver. rewrite decide_True by set_solver. cbn.
    eexists. split; [reflexivity|]. account; [constructor|done].
  - eexists. split; [reflexivity|]. account; [constructor|done].
Qed.

Lemma event_accounted env sock t s' :
  op_ok s L (OEvent env sock) -> comm_sock_event_callback env sock s = (t, Some s') ->
  exists L', live_run L t = Some L' /\ accounted s' L'.
Proof.
  intros Hok. unfold comm_sock_event_callback, create_connection. cbn in Hok.
  case_bool_decide as Hl; [|intros [= <- <-]; now exists L].
  destruct (ae_sock env) as [x|]; [|intros [= <- <-]; now exists L]. specialize (Hok x eq_refl).
  pose proof Hac as [A1 A2 A3 A4 A5 A6 A7 A8 A9 A10].
  destruct L as [m p ss cs bs lost]. cbn in Hok, A1, A2, A4, A5, A6, A8, A9. subst m p cs bs.
  rewrite A6, !not_elem_of_union in Hok. destruct Hok as [[Hx1 Hx3] Hx2].
  assert (Hnx : x ∉ map cx_sock (cm_active s)) by (unfold socks_of in Hx1; now rewrite elem_of_list_to_set in Hx1).
  assert (Hnot : x ∉ ss) by set_solver.
  assert (Hinit : cm_initialized s = true).
  { destruct (cm_initialized s); [done|]. destruct (A10 eq_refl). congruence. }
  clear A10 Hac Hl.
  destruct (ae_ctx env); cbn [negb]; [destruct (ae_buf env); cbn [negb]|];
    intros [= <- <-]; cbn; rewrite decide_False by done; cbn.
  - rewrite decide_False by done. cbn. rewrite decide_True by set_solver. cbn. eexists. split; [reflexivity|].
    change (listener_of (with_active s _)) with (listener_of s).
    constructor; cbn; rewrite ?socks_of_cons; [done|done|done|done|done| | | | |congruence];
      try change (listener_of (with_active s _)) with (listener_of s).
    + rewrite A6. apply union_open.
    + now apply NoDup_cons.
    + clear -A8 Hx3. set_solver.
    + clear -A9 Hx2. set_solver.
  - rewrite decide_False by done. cbn. rewrite decide_True by set_solver. cbn.
    rewrite !decide_True by set_solver. cbn. eexists. split; [reflexivity|].
    account; [done|congruence].
  - rewrite decide_True by set_solver. cbn. eexists. split; [reflexivity|].
    account; [done|congruence].
Qed.

(** A connection that goes away, closing its socket or not. *)
Lemma gone_accounted close c :
  c ∈ cm_active s -> cm_initialized s = true ->
  exists L', live_run L (cleanup_connection close c) = Some L' /\
    accounted (with_active s (without_sock (cx_sock c) (cm_active s))) L'.
Proof.
  intros Hin Hi. pose proof Hac as [A1 A2 A3 A4 A5 A6 A7 A8 A9 A10].
  assert (Hc : cx_sock c ∈ socks_of (cm_active s)) by (apply elem_of_socks; eauto).
  destruct (without_sock_spec (cx_sock c) (cm_active s)) as [Hw Hnd].
  destruct L as [m p ss cs bs lost]. cbn in A1, A2, A4, A5, A6, A8, A9. subst m p cs bs.
  rewrite live_cleanup by set_solver. eexists. split; [reflexivity|].
  assert (Hl : cx_sock c ∉ listener_of s) by set_solver. assert (Hlo : cx_sock c ∉ lost) by set_solver.
  specialize (Hnd A7). subst ss.
  constructor; cbn; rewrite ?Hw; try change (listener_of (with_active s _)) with (listener_of s);
    [done|done|done|done|done| |done| | |congruence]; destruct close.
  - now apply union_close.
  - now apply union_lose.
  - now apply disjoint_close.
  - now apply disjoint_lose.
  - clear -A9. set_solver.
  - clear -A9. set_solver.
Qed.

Lemma receive_accounted malloc_ok keeps recv n sock t s' :
  process_received malloc_ok keeps recv n sock s = (t, Some s') ->
  exists L', live_run L t = Some L' /\ accounted s' L'.
Proof.
  unfold process_received. destruct (find _ _) as [c|] eqn:Hf; [|done]. apply find_sock in Hf as [Hin <-].
  assert (Hi : cm_initialized s = true).
  { destruct (cm_initialized s) eqn:Hi; [done|]. destruct (ac_stopped _ _ Hac Hi) as [He _].
    rewrite He in Hin. now apply not_elem_of_nil in Hin. }
  destruct (process _ _ _ _ _ _ _) as [[o ds] bs]. destruct o as [c'|c'| | |]; [done| | | |done].
  - intros [= <- <-]. rewrite app_nil_r, live_dispatch. exists L. split; [done|].
    destruct Hac as [A1 A2 A3 A4 A5 A6 A7 A8 A9 A10].
    assert (Hm : map cx_sock (map (fun x => if same_sock (cx_sock c) x
      then Connection (cx_sock c) (cx_peer x) c' else x) (cm_active s)) = map cx_sock (cm_active s)).
    { rewrite map_map. apply map_ext. intros x. unfold same_sock.
      now destruct (Z.eqb_spec (cx_sock x) (cx_sock c)). }
    constructor; cbn; unfold socks_of in *; rewrite ?Hm; try done. congruence.
  - intros [= <- <-]. destruct (gone_accounted false c Hin Hi) as (L' & HL & Hac').
    exists L'. split; [|done]. rewrite live_run_app, live_dispatch. cbn [mbind option_bind].
    rewrite <- HL. f_equal; apply app_nil_r || done.
  - intros [= <- <-]. destruct (gone_accounted true c Hin Hi) as (L' & HL & Hac').
    exists L'. split; [|done]. rewrite live_run_app, live_dispatch. cbn [mbind option_bind].
    rewrite <- HL. f_equal; apply app_nil_r || done.
Qed.

Lemma connect_accounted on_thread pending_ok ip_set port cb sock t r :
  op_ok s L (OConnect on_thread pending_ok ip_set port cb sock) ->
  connect_resources on_thread pending_ok ip_set port cb sock s = (t, Some r) ->
  exists L', live_run L t = Some L' /\ accounted r.1 L'.
Proof.
  intros Hok. unfold connect_resources. destruct (xsan_node_comm_connect _ _ _ _ _ _ _) as [e evs].
  destruct (_ && _); [|intros [= <- <-]; now exists L].
  destruct sock as [x|err]; intros [= <- <-]; [|exists L; split; [now destruct L|done]].
  destruct Hac as [A1 A2 A3 A4 A5 A6 A7 A8 A9 A10]. destruct L as [m p ss cs bs lost].
  cbn in Hok, A1, A2, A4, A5, A6, A8, A9. cbn. rewrite decide_False by done. cbn.
  eexists. split; [reflexivity|]. constructor; cbn; try done; set_solver.
Qed.

Lemma disconnect_accounted sock t s' :
  op_ok s L (ODisconnect sock) -> disconnect_resources sock s = (t, Some s') ->
  exists L', live_run L t = Some L' /\ accounted s' L'.
Proof.
  intros (Hn & Hin & Hl) Hd. apply disconnect_returns in Hd as (-> & -> & Hna); [|done].
  destruct Hac as [A1 A2 A3 A4 A5 A6 A7 A8 A9 A10]. destruct L as [m p ss cs bs lost].
  cbn in Hin, A1, A2, A4, A5, A6, A8, A9. cbn. rewrite decide_True by done. cbn.
  assert (Hls : sock ∉ listener_of s).
  { unfold listener_of. destruct (cm_listener s); [|set_solver]. rewrite elem_of_singleton. congruence. }
  eexists. split; [reflexivity|]. constructor; cbn; try done; set_solver.
Qed.

Lemma comm_step_accounted op t s' :
  op_ok s L op -> comm_step s op = (t, Some s') ->
  exists L', live_run L t = Some L' /\ accounted s' L'.
Proof.
  intros Hok. destruct op as [env ip port h| |type set|env sock|mok keeps recv n sock|th pd ips port cb sock|sock];
    cbn [comm_step].
  - destruct (xsan_node_comm_init _ _ _ _ _) as [t1 [r|]] eqn:Hi; [|done]. cbn. intros [= <- <-].
    rewrite app_nil_r. now apply (init_accounted env ip port h).
  - apply fini_accounted.
  - intros [= <- <-]. exists L. split; [done|]. now destruct Hac; constructor.
  - now apply event_accounted.
  - apply receive_accounted.
  - destruct (connect_resources _ _ _ _ _ _ _) as [t1 [r|]] eqn:Hc; [|done]. cbn. intros [= <- <-].
    rewrite app_nil_r. now apply (connect_accounted th pd ips port cb sock).
  - now apply disconnect_accounted.
Qed.
End Steps.

(** ** Runs *)

Inductive comm_reach : list comm_event -> comm -> Prop :=
  | comm_reach_start : comm_reach [] comm_zero
  | comm_reach_step t s L op t' s' :
      comm_reach t s -> live_run live_none t = Some L -> op_ok s L op ->
      comm_step s op = (t', Some s') -> comm_reach (t ++ t') s'.

Lemma comm_reach_accounted t s :
  comm_reach t s -> exists L, live_run live_none t = Some L /\ accounted s L.
Proof.
  induction 1 as [|t s L op t' s' Hr (L0 & HL0 & Hac) HL Hok Hs].
  { exists live_none. split; [done|]. account; [constructor|done]. }
  rewrite HL in HL0. injection HL0 as <-.
  destruct (comm_step_accounted s L Hac op t' s' Hok Hs) as (L' & HL' & Hac').
  exists L'. split; [|done]. rewrite live_run_app, HL. exact HL'.
Qed.



(** ** The text of a peer *)

(** The text kept for a peer is that of the socket layer, and is read back by its
    parser: the field of 64 characters never cuts it. *)
Theorem peer_text_parses `{IN : Inet} host port old :
  valid_ip host -> 0 < port <= 65535 ->
  xsan_socket_string_to_address
    (Some (format_peer_addr (Some (host, port)) XSAN_COMM_MAX_PEER_ADDR_LEN)) (Some old) =
  (Some (Address host port), XSAN_OK).
Proof.
  intros Hh Hp.
  destruct (address_text_round_trip (Address host port) old XSAN_COMM_MAX_PEER_ADDR_LEN) as (s & Hs & Hparse);
    [done..|].
  enough (format_peer_addr (Some (host, port)) XSAN_COMM_MAX_PEER_ADDR_LEN = s) as -> by exact Hparse.
  revert Hs. unfold xsan_socket_address_to_string, format_peer_addr, xsan_snprintf_safe. cbn [negb orb ip Socket.port].
  set (text := if has_char _ _ then _ else _). change (XSAN_COMM_MAX_PEER_ADDR_LEN =? 0) with false. cbn iota.
  intros [= <-]. destruct (Z.ltb_spec (Zlen text) XSAN_COMM_MAX_PEER_ADDR_LEN); [|done].
  symmetry. now apply snprintf_to_fits.
Qed.
