(* ===== verification/Bdev.v ===== *)
(** * Block devices ([src/src/bdev/xsan_bdev.c])

    Device information and the synchronous reads and writes over SPDK.  A device is
    the class [BlockDevice]: its geometry and what successful reads and writes of
    blocks do.  The answers of SPDK to one I/O are the record [sync_env].  An I/O is a
    traced computation over what is acquired and released; it has no result when the
    completion it polls for never comes. *)

From stdpp Require Import prelude strings.
From Stdlib Require Import ZArith Lia Ascii.
From S2P Require Import Prelude Errors StringUtils VolumeMeta Cluster ConfigLoad.

(** ** Devices *)

Class BlockDevice (V : Type) := {
  dev_name : V -> cstring;
  dev_product : V -> cstring;
  dev_uuid : V -> option uuid;
  dev_num_blocks : V -> Z;
  dev_block_size : V -> Z;
  dev_buf_align : V -> Z;
  dev_rotational : V -> bool;
  dev_io_boundary : V -> Z;
  dev_write_cache : V -> bool;
  read_blocks : V -> Z -> Z -> list Z;
  write_blocks : V -> Z -> list Z -> V;
  dev_geometry : forall d, in_u 64 (dev_num_blocks d) /\ in_u 32 (dev_block_size d);
  write_blocks_geometry : forall d off n data, 0 <= off -> 0 <= n -> off + n <= dev_num_blocks d ->
    Zlen data = n * dev_block_size d ->
    dev_num_blocks (write_blocks d off data) = dev_num_blocks d /\
    dev_block_size (write_blocks d off data) = dev_block_size d;
  read_blocks_length : forall d off n, 0 <= off -> 0 <= n -> off + n <= dev_num_blocks d ->
    Zlen (read_blocks d off n) = n * dev_block_size d;
  read_written : forall d off n data, 0 <= off -> 0 <= n -> off + n <= dev_num_blocks d ->
    Zlen data = n * dev_block_size d -> read_blocks (write_blocks d off data) off n = data;
  read_elsewhere : forall d off n data off' n', 0 <= off -> 0 <= n -> off + n <= dev_num_blocks d ->
    0 <= off' -> 0 <= n' -> off' + n' <= dev_num_blocks d -> Zlen data = n * dev_block_size d ->
    off + n <= off' \/ off' + n' <= off ->
    read_blocks (write_blocks d off data) off' n' = read_blocks d off' n'
}.

Section Devices.
Context {V : Type} {BD : BlockDevice V}.

(** ** Information *)

Record xsan_bdev_info := BdevInfo {
  bi_name : cstring;
  bi_uuid : uuid;
  bi_num_blocks : Z;
  bi_block_size : Z;
  bi_capacity_bytes : Z;
  bi_product_name : cstring;
  bi_is_rotational : bool;
  bi_optimal_io_boundary : Z;
  bi_has_write_cache : bool
}.

Definition xsan_bdev_populate_info (d : V) : xsan_bdev_info :=
  BdevInfo (copied XSAN_MAX_NAME_LEN (Some (dev_name d))) (default 0 (dev_uuid d))
    (dev_num_blocks d) (dev_block_size d) (wrap 64 (dev_num_blocks d * dev_block_size d))
    (copied XSAN_MAX_NAME_LEN (Some (dev_product d))) (dev_rotational d) (dev_io_boundary d)
    (dev_write_cache d).

(** [devices] is what [spdk_bdev_first] and [spdk_bdev_next] enumerate, the same in both
    passes; the list stored, if the pointers are there. *)
Definition xsan_bdev_list_get_all (has_out on_thread alloc_ok : bool) (devices : list V) :
    option (list xsan_bdev_info) * xsan_error_t :=
  if negb has_out then (None, XSAN_ERROR_CONFIG_PARSE) else
  if negb on_thread then (Some [], XSAN_ERROR_TASK_FAILED) else
  match devices with
  | [] => (Some [], XSAN_OK)
  | _ => if negb alloc_ok then (Some [], XSAN_ERROR_NO_MEMORY)
         else (Some (map xsan_bdev_populate_info devices), XSAN_OK)
  end.

(** [get_by_name] is [spdk_bdev_get_by_name]. *)
Definition xsan_bdev_get_info_by_name (get_by_name : cstring -> option V) (bdev_name : option cstring)
    (on_thread alloc_ok : bool) : option xsan_bdev_info :=
  name ← bdev_name;
  if negb on_thread then None else
  d ← get_by_name name;
  if negb alloc_ok then None else Some (xsan_bdev_populate_info d).

Definition xsan_bdev_get_buf_align (get_by_name : cstring -> option V) (bdev_name : option cstring)
    (on_thread : bool) : Z :=
  match bdev_name with
  | None => 0
  | Some name =>
      if negb on_thread then 0 else
      match get_by_name name with Some d => dev_buf_align d | None => 0 end
  end.

(** [spdk_ok]: the answer of the allocator of SPDK. *)
Definition xsan_bdev_dma_malloc (spdk_ok : bool) (size : Z) : bool :=
  if size =? 0 then false else spdk_ok.

(** ** Synchronous I/O *)

Inductive bdev_event :=
  | EvOpen | EvClose
  | EvGetChannel | EvPutChannel
  | EvDmaAlloc (size : Z) | EvDmaFree
  | EvRead (off n : Z)
  | EvWrite (off : Z) (data : list Z)
  | EvPoll.

(** What SPDK answers to one I/O.  Codes are negated errno values, 0 for success;
    [se_completion] is the number of polls until the completion and whether it is a
    success, [None] when it never comes; a failed I/O may leave anything in the device
    and in the memory it was given. *)
Record sync_env := SyncEnv {
  se_on_thread : bool;
  se_open_rc : Z;
  se_channel_ok : bool;
  se_dma_ok : bool;
  se_submit_rc : Z;
  se_completion : option (nat * bool);
  se_failed_device : V;
  se_failed_memory : list Z
}.

(** [memcpy] of [data] to the start of [buf]. *)
Definition copy_in (buf data : list Z) : list Z := data ++ drop (length data) buf.

(** The submitted I/O: the status and what device and memory hold afterwards. *)
Definition perform (env : sync_env) (d : V) (is_read : bool) (off n : Z) (mem : list Z) :
    traced bdev_event (bool * V * list Z) :=
  let* _ := temit (if is_read then EvRead off n else EvWrite off (take (Z.to_nat (n * dev_block_size d)) mem)) in
  match se_completion env with
  | None => tundef
  | Some (polls, ok) =>
      let* _ := (replicate polls EvPoll, Some tt) in
      if ok then
        if is_read then tret (true, d, copy_in mem (read_blocks d off n))
        else tret (true, write_blocks d off (take (Z.to_nat (n * dev_block_size d)) mem), mem)
      else tret (false, se_failed_device env, if is_read then se_failed_memory env else mem)
  end.

(** The error of a rejected submission. *)
Definition submit_error (rc : Z) : xsan_error_t :=
  if rc =? - ENOMEM then XSAN_ERROR_NO_MEMORY else XSAN_ERROR_STORAGE_IO.

(** The part between acquiring the channel and releasing it; [mem] is the memory given
    to SPDK, the result also holds the memory after the I/O when it succeeded. *)
Definition submit_and_wait (env : sync_env) (d : V) (is_read : bool) (off n : Z) (mem : list Z) :
    traced bdev_event (xsan_error_t * V * list Z) :=
  if negb (se_submit_rc env =? 0) then tret (submit_error (se_submit_rc env), d, mem) else
  let* r := perform env d is_read off n mem in
  let '(ok, d', mem') := r in
  tret (if ok : bool then XSAN_OK else XSAN_ERROR_STORAGE_IO, d', mem').

(** The result: the error, the device, and the buffer of the user.  [dma_memory] is what
    the buffer allocated for the I/O holds at first. *)
Definition xsan_bdev_do_sync_io (get_by_name : cstring -> option V) (env : sync_env)
    (dma_memory : list Z) (bdev_name : option cstring) (offset_blocks num_blocks : Z)
    (app_payload_buf : option (list Z)) (app_payload_buf_len : Z)
    (use_internal_dma_alloc is_read_op : bool) :
    traced bdev_event (xsan_error_t * option V * option (list Z)) :=
  let fail (e : xsan_error_t) := tret (e, None, app_payload_buf) in
  match bdev_name, app_payload_buf with
  | Some name, Some buf =>
      if num_blocks =? 0 then fail XSAN_ERROR_CONFIG_PARSE else
      if negb (se_on_thread env) then fail XSAN_ERROR_TASK_FAILED else
      match get_by_name name with
      | None => fail XSAN_ERROR_VM_NOT_FOUND
      | Some d =>
          let required_io_len := wrap 64 (num_blocks * dev_block_size d) in
          if app_payload_buf_len <? required_io_len then fail XSAN_ERROR_CONFIG_PARSE else
          if negb (se_open_rc env =? 0) then fail (xsan_error_from_errno (- se_open_rc env)) else
          let* _ := temit EvOpen in
          if negb (se_channel_ok env)
          then let* _ := temit EvClose in fail XSAN_ERROR_STORAGE_IO else
          let* _ := temit EvGetChannel in
          if use_internal_dma_alloc then
            if negb (xsan_bdev_dma_malloc (se_dma_ok env) required_io_len) then
              let* _ := temit EvPutChannel in
              let* _ := temit EvClose in
              fail XSAN_ERROR_NO_MEMORY
            else
              let* _ := temit (EvDmaAlloc required_io_len) in
              let data := take (Z.to_nat required_io_len) buf in
              let mem := if is_read_op then dma_memory else copy_in dma_memory data in
              let* r := submit_and_wait env d is_read_op offset_blocks num_blocks mem in
              let '(e, d', mem') := r in
              let buf' := if is_read_op && (e =? XSAN_OK)
                          then copy_in buf (take (Z.to_nat required_io_len) mem') else buf in
              let* _ := temit EvDmaFree in
              let* _ := temit EvPutChannel in
              let* _ := temit EvClose in
              tret (e, Some d', Some buf')
          else
            let* r := submit_and_wait env d is_read_op offset_blocks num_blocks buf in
            let '(e, d', buf') := r in
            let* _ := temit EvPutChannel in
            let* _ := temit EvClose in
            tret (e, Some d', Some buf')
      end
  | _, _ => fail XSAN_ERROR_CONFIG_PARSE
  end.

Definition xsan_bdev_read_sync get_by_name env dma_memory name off n buf len dma :=
  xsan_bdev_do_sync_io get_by_name env dma_memory name off n buf len dma true.
Definition xsan_bdev_write_sync get_by_name env dma_memory name off n buf len dma :=
  xsan_bdev_do_sync_io get_by_name env dma_memory name off n buf len dma false.

(** * Theorems *)

(** ** Resources *)

Inductive bdev_resource := RDesc | RChannel | RDma.
#[global] Instance bdev_resource_eq : EqDecision bdev_resource.
Proof. solve_decision. Defined.

(** The resources held, the last one acquired first; [None] after a release out of
    order or an I/O without an open channel. *)
Definition track (held : option (list bdev_resource)) (e : bdev_event) : option (list bdev_resource) :=
  match e, held with
  | EvOpen, Some h => Some (RDesc :: h)
  | EvGetChannel, Some h => Some (RChannel :: h)
  | EvDmaAlloc _, Some h => Some (RDma :: h)
  | EvClose, Some (RDesc :: h) => Some h
  | EvPutChannel, Some (RChannel :: h) => Some h
  | EvDmaFree, Some (RDma :: h) => Some h
  | EvRead _ _, Some h | EvWrite _ _, Some h =>
      if decide (RChannel ∈ h /\ RDesc ∈ h) then Some h else None
  | EvPoll, Some h => Some h
  | _, _ => None
  end.

Definition held_after (h : list bdev_resource) (t : list bdev_event) : option (list bdev_resource) :=
  foldl track (Some h) t.

(** A run that returns leaves [h'] held; one that does not waits for a completion. *)
Definition leaves {A} (env : sync_env) (h h' : list bdev_resource) (x : traced bdev_event A) : Prop :=
  match x with
  | (t, Some _) => held_after h t = Some h'
  | (_, None) => se_submit_rc env = 0 /\ se_completion env = None
  end.

Lemma leaves_ret {A} env h (a : A) : leaves env h h (tret a).
Proof. done. Qed.

Lemma leaves_bind {A B} env h h1 h2 (x : traced bdev_event A) (f : A -> traced bdev_event B) :
  leaves env h h1 x -> (forall a, leaves env h1 h2 (f a)) -> leaves env h h2 (tbind x f).
Proof.
  destruct x as [t [a|]]; [|done]. intros Hx Hf. specialize (Hf a). simpl in *.
  destruct (f a) as [t' [b|]]; [|exact Hf]. simpl in *. unfold held_after in *.
  now rewrite foldl_app, Hx.
Qed.

Lemma leaves_emit env h h' e : track (Some h) e = Some h' -> leaves env h h' (temit e).
Proof. done. Qed.

Lemma submit_leaves env d is_read off n mem h :
  RChannel ∈ h -> RDesc ∈ h -> leaves env h h (submit_and_wait env d is_read off n mem).
Proof.
  intros Hc Hd. unfold submit_and_wait. destruct (Z.eqb_spec (se_submit_rc env) 0) as [Hrc|]; [|done].
  apply (leaves_bind _ _ h); [|now intros [[ok d'] mem']].
  unfold perform. apply (leaves_bind _ _ h).
  - apply leaves_emit. destruct is_read; cbn [track]; now rewrite decide_True.
  - intros _. destruct (se_completion env) as [[polls ok]|] eqn:Hcomp; [|done].
    apply (leaves_bind _ _ h); [|intros _; now destruct ok, is_read].
    cbn [leaves]. unfold held_after. clear Hcomp. induction polls as [|polls IH]; [done|exact IH].
Qed.

Ltac leaves_step :=
  lazymatch goal with
  | |- leaves _ _ _ (tret _) => apply leaves_ret
  | |- leaves _ _ _ (tbind (temit _) _) =>
      eapply leaves_bind; [apply leaves_emit; reflexivity|intros _]
  | |- leaves _ _ _ (tbind (submit_and_wait _ _ _ _ _ _) _) =>
      eapply leaves_bind; [apply submit_leaves; set_solver|intros [[? ?] ?]]
  | |- leaves _ _ _ (if ?b then _ else _) => destruct b
  | |- leaves _ _ _ (match ?x with _ => _ end) => destruct x
  end.

(** A synchronous I/O, whatever SPDK answers, submits only through an open channel
    and gives back the buffer, the channel and the descriptor in the reverse order of
    their acquisition on every path that returns; it fails to return only when it
    waits for a completion that never comes. *)
Theorem sync_io_resources get_by_name env mem name off n buf len dma is_read :
  match xsan_bdev_do_sync_io get_by_name env mem name off n buf len dma is_read with
  | (t, Some _) => held_after [] t = Some []
  | (_, None) => se_submit_rc env = 0 /\ se_completion env = None
  end.
Proof.
  change (leaves env [] [] (xsan_bdev_do_sync_io get_by_name env mem name off n buf len dma is_read)).
  unfold xsan_bdev_do_sync_io. cbv zeta. repeat leaves_step.
Qed.

(** ** Data *)

Lemma io_length_fits d n : in_u 32 n -> wrap 64 (n * dev_block_size d) = n * dev_block_size d.
Proof.
  intros Hn. apply wrap_small. pose proof (dev_geometry d) as [_ Hb]. unfold in_u in *.
  split; [nia|]. apply (Z.lt_le_trans _ (2 ^ 32 * 2 ^ 32)); [nia|]. pow2s. lia.
Qed.

Lemma submit_error_not_ok rc : submit_error rc <> XSAN_OK.
Proof. unfold submit_error. now destruct (rc =? - ENOMEM). Qed.

Lemma submit_ok env d is_read off n mem t d' mem' :
  submit_and_wait env d is_read off n mem = (t, Some (XSAN_OK, d', mem')) ->
  if is_read then d' = d /\ mem' = copy_in mem (read_blocks d off n)
  else d' = write_blocks d off (take (Z.to_nat (n * dev_block_size d)) mem) /\ mem' = mem.
Proof.
  unfold submit_and_wait. destruct (se_submit_rc env =? 0); cbn [negb].
  2:{ intros [= _ He]. now destruct (submit_error_not_ok (se_submit_rc env)). }
  unfold perform. destruct (se_completion env) as [[polls ok]|]; [|done].
  destruct ok, is_read; cbn; intros [= _ <- <-]; done.
Qed.

Lemma take_copy_in (buf data : list Z) : take (length data) (copy_in buf data) = data.
Proof. unfold copy_in. now rewrite take_app_length. Qed.

(** What a successful I/O does. *)
Lemma sync_io_ok get_by_name env mem name d off n buf len dma is_read t d' buf' :
  get_by_name name = Some d -> in_u 32 n -> 0 <= off -> off + n <= dev_num_blocks d ->
  Zlen buf = len -> Zlen mem = n * dev_block_size d ->
  xsan_bdev_do_sync_io get_by_name env mem (Some name) off n (Some buf) len dma is_read =
    (t, Some (XSAN_OK, Some d', Some buf')) ->
  n * dev_block_size d <= Zlen buf /\
  if is_read then d' = d /\ buf' = copy_in buf (read_blocks d off n)
  else d' = write_blocks d off (take (Z.to_nat (n * dev_block_size d)) buf) /\ buf' = buf.
Proof.
  intros Hname Hn Hoff Hrange Hlen Hmem. unfold xsan_bdev_do_sync_io. rewrite Hname, io_length_fits by done.
  pose proof (read_blocks_length d off n ltac:(lia) ltac:(unfold in_u in Hn; lia) Hrange) as Hrlen.
  destruct (n =? 0); [done|]. destruct (se_on_thread env); [|done]. cbn [negb].
  destruct (Z.ltb_spec len (n * dev_block_size d)); [done|].
  destruct (se_open_rc env =? 0); [|done]. cbn [negb].
  destruct (se_channel_ok env); [|done]. cbn [negb]. destruct dma.
  - destruct (xsan_bdev_dma_malloc _ _); [|done]. cbn [negb].
    destruct (submit_and_wait _ _ _ _ _ _) as [t1 [[[e d1] m1]|]] eqn:Hs; [|done].
    cbn. intros [= _ -> -> <-]. apply submit_ok in Hs. split; [lia|].
    destruct is_read; destruct Hs as [-> ->]; split; try done.
    + cbn. f_equal. rewrite <- Hrlen. unfold Zlen. rewrite Nat2Z.id. apply take_copy_in.
    + f_equal. set (data := take _ buf).
      assert (Hd : length data = Z.to_nat (n * dev_block_size d))
        by (unfold data, Zlen in *; rewrite length_take; lia).
      rewrite <- Hd. apply take_copy_in.
  - destruct (submit_and_wait _ _ _ _ _ _) as [t1 [[[e d1] m1]|]] eqn:Hs; [|done].
    cbn. intros [= _ -> -> <-]. apply submit_ok in Hs. split; [lia|done].
Qed.

(** SPDK accepts and completes the I/O. *)
Definition io_works (env : sync_env) : Prop :=
  se_on_thread env = true /\ se_open_rc env = 0 /\ se_channel_ok env = true /\ se_dma_ok env = true /\
  se_submit_rc env = 0 /\ exists polls, se_completion env = Some (polls, true).

Lemma sync_io_works get_by_name env mem name d off n buf dma is_read :
  get_by_name name = Some d -> io_works env -> 0 < n -> in_u 32 n -> 0 < dev_block_size d ->
  n * dev_block_size d <= Zlen buf ->
  exists t d' b', xsan_bdev_do_sync_io get_by_name env mem (Some name) off n (Some buf) (Zlen buf) dma is_read =
    (t, Some (XSAN_OK, Some d', Some b')).
Proof.
  intros Hname (H1 & H2 & H3 & H4 & H5 & polls & H6) Hn Hu Hb Hfit.
  unfold xsan_bdev_do_sync_io, submit_and_wait, perform, xsan_bdev_dma_malloc.
  rewrite Hname, io_length_fits, H1, H2, H3, H4, H5, H6 by done.
  rewrite (proj2 (Z.eqb_neq n 0)), (proj2 (Z.ltb_ge _ _) Hfit) by lia. cbn [negb Z.eqb].
  rewrite (proj2 (Z.eqb_neq (n * dev_block_size d) 0)) by nia.
  destruct dma, is_read; cbn; do 3 eexists; reflexivity.
Qed.

(** The devices once that called [name] is [d]. *)
Definition with_device (get_by_name : cstring -> option V) (name : cstring) (d : V) (k : cstring) : option V :=
  if decide (k = name) then Some d else get_by_name k.

(** C22: When SPDK carries them out, a write of blocks and a read of the same blocks after
    it both succeed and the read returns the bytes written, whichever of the two goes
    through a buffer of its own and however large the buffers of the user are; the rest
    of the user's buffer is untouched and other blocks read as before. *)
Theorem bdev_write_then_read gbn env env' mem mem' name d off n buf dma buf2 dma2 :
  gbn name = Some d -> io_works env -> io_works env' ->
  0 < n -> in_u 32 n -> 0 <= off -> off + n <= dev_num_blocks d ->
  let required := n * dev_block_size d in
  0 < dev_block_size d -> required <= Zlen buf -> required <= Zlen buf2 ->
  Zlen mem = required -> Zlen mem' = required ->
  exists t1 d1 t2 b2,
    xsan_bdev_write_sync gbn env mem (Some name) off n (Some buf) (Zlen buf) dma =
      (t1, Some (XSAN_OK, Some d1, Some buf)) /\
    xsan_bdev_read_sync (with_device gbn name d1) env' mem' (Some name) off n (Some buf2) (Zlen buf2) dma2 =
      (t2, Some (XSAN_OK, Some d1, Some b2)) /\
    b2 = take (Z.to_nat required) buf ++ drop (Z.to_nat required) buf2 /\
    forall off' n', 0 <= off' -> 0 <= n' -> off' + n' <= dev_num_blocks d ->
      off + n <= off' \/ off' + n' <= off -> read_blocks d1 off' n' = read_blocks d off' n'.
Proof.
  intros Hname Hw Hw' Hpos Hn Hoff Hrange required Hb Hfit Hfit2 Hmem Hmem'.
  destruct (sync_io_works gbn env mem name d off n buf dma false) as (t1 & d1 & b1 & H1); [done..|].
  pose proof H1 as (_ & Hd1 & Hb1)%(sync_io_ok _ _ _ _ d); [|done..]. subst b1.
  set (data := take _ buf) in Hd1.
  assert (Hdata : Zlen data = required) by (unfold data, Zlen in *; rewrite length_take; lia).
  destruct (write_blocks_geometry d off n data Hoff ltac:(lia) Hrange Hdata) as [Hnb Hbs].
  rewrite <- Hd1 in Hnb, Hbs.
  assert (Hname1 : with_device gbn name d1 name = Some d1) by (unfold with_device; now rewrite decide_True).
  destruct (sync_io_works (with_device gbn name d1) env' mem' name d1 off n buf2 dma2 true)
    as (t2 & d2 & b2 & H2); [done|done|done|done|lia|lia|].
  pose proof H2 as (_ & Hd2 & Hb2)%(sync_io_ok _ _ _ _ d1); [|done|done|done|lia|done|lia]. subst d2.
  exists t1, d1, t2, b2. split_and!; [done|done| |].
  - rewrite Hb2, Hd1, read_written by (done || lia). unfold copy_in. f_equal. f_equal.
    unfold Zlen in Hdata. lia.
  - intros off' n' ? ? ? ?. rewrite Hd1. apply (read_elsewhere d off n); done || lia.
Qed.

End Devices.

(** ** An instance and witnesses *)

(** Sixteen blocks of one byte. *)
Definition toy_read (d : Z -> Z) (off n : Z) : list Z := map (fun i => d (off + i)) (seqZ 0 n).
Definition toy_write (d : Z -> Z) (off : Z) (data : list Z) (i : Z) : Z :=
  if (off <=? i) && (i <? off + Zlen data) then default 0 (data !! Z.to_nat (i - off)) else d i.

Lemma toy_read_length d off n : 0 <= n -> Zlen (toy_read d off n) = n.
Proof. intros Hn. unfold toy_read, Zlen. rewrite length_map, length_seqZ. lia. Qed.

Lemma toy_read_written d off n data :
  0 <= n -> Zlen data = n -> toy_read (toy_write d off data) off n = data.
Proof.
  intros Hn Hl. unfold Zlen in Hl. apply list_eq. intros i. unfold toy_read.
  change (map ?f ?l) with (f <$> l). rewrite list_lookup_fmap.
  destruct (decide (i < length data)%nat) as [Hi|Hi].
  - rewrite lookup_seqZ_lt by lia. cbn. unfold toy_write, Zlen.
    destruct (Z.leb_spec off (off + (0 + Z.of_nat i))); [|lia].
    destruct (Z.ltb_spec (off + (0 + Z.of_nat i)) (off + Z.of_nat (length data))); [|lia]. cbn.
    replace (Z.to_nat (off + (0 + Z.of_nat i) - off)) with i by lia.
    now destruct (lookup_lt_is_Some_2 data i Hi) as [x ->].
  - rewrite lookup_seqZ_ge by lia. symmetry. apply lookup_ge_None_2. lia.
Qed.

Lemma toy_read_elsewhere d off data off' n' :
  off + Zlen data <= off' \/ off' + n' <= off ->
  toy_read (toy_write d off data) off' n' = toy_read d off' n'.
Proof.
  intros Hdis. unfold toy_read. apply map_ext_in. intros i Hi.
  apply list_elem_of_In, elem_of_seqZ in Hi. unfold toy_write.
  destruct (Z.leb_spec off (off' + i)), (Z.ltb_spec (off' + i) (off + Zlen data)); cbn; done || lia.
Qed.

#[export] Program Instance toy_device : BlockDevice (Z -> Z) := {|
  dev_name := fun _ => $"Malloc0"; dev_product := fun _ => $"Malloc disk"; dev_uuid := fun _ => None;
  dev_num_blocks := fun _ => 16; dev_block_size := fun _ => 1; dev_buf_align := fun _ => 1;
  dev_rotational := fun _ => false; dev_io_boundary := fun _ => 0; dev_write_cache := fun _ => false;
  read_blocks := toy_read; write_blocks := toy_write
|}.
Next Obligation. intros d. unfold in_u. pow2s. lia. Qed.
Next Obligation. done. Qed.
Next Obligation. intros. cbn in *. rewrite toy_read_length; lia. Qed.
Next Obligation. intros. cbn in *. apply toy_read_written; lia. Qed.
Next Obligation. intros. cbn in *. apply toy_read_elsewhere. lia. Qed.

Definition toy_env : sync_env := SyncEnv (V := Z -> Z) true 0 true true 0 (Some (3%nat, true)) (fun _ => 0) [].

Lemma toy_env_works : io_works toy_env.
Proof. repeat split. now exists 3%nat. Qed.

Lemma bdev_write_then_read_witness :
  exists t1 d1 t2,
    xsan_bdev_write_sync (fun _ => Some (fun _ => 0)) toy_env [0; 0] (Some $"Malloc0") 4 2
      (Some [7; 9; 1]) 3 true = (t1, Some (XSAN_OK, Some d1, Some [7; 9; 1])) /\
    xsan_bdev_read_sync (with_device (fun _ => Some (fun _ => 0)) $"Malloc0" d1) toy_env [0; 0]
      (Some $"Malloc0") 4 2 (Some [5; 5; 6]) 3 false = (t2, Some (XSAN_OK, Some d1, Some [7; 9; 6])).
Proof.
  destruct (bdev_write_then_read (fun _ => Some (fun _ => 0)) toy_env toy_env [0; 0] [0; 0] $"Malloc0"
    (fun _ => 0) 4 2 [7; 9; 1] true [5; 5; 6] false) as (t1 & d1 & t2 & b2 & H1 & H2 & -> & _);
    try exact toy_env_works; try reflexivity; try lia; try done; try (unfold in_u; pow2s; lia).
  exists t1, d1, t2. split; [exact H1|exact H2].
Defined.
