(* ===== verification/Vhost.v ===== *)
(** * Volumes as SPDK block devices ([src/src/vhost/xsan_vhost.c])

    A volume is exposed to SPDK as a virtual block device, whose requests become reads
    and writes of the volume.  The model has the list of exposed devices and the life of
    one request: a traced computation over what it allocates, frees, asks of the volume
    layer and reports to SPDK, without result once it uses a freed context.  The copies
    between a flat buffer and a scatter list are the class [SpdkIov]; what the volume
    layer does with a request, the calls of the callback and the code it returns, is an
    argument, and the models of the replicated reads and writes bound it. *)

From stdpp Require Import prelude strings gmap.
From Stdlib Require Import ZArith Lia Ascii.
From S2P Require Import Prelude Errors Protocol NodeComm StringUtils MetadataStore Json VolumeMeta.
From S2P Require Import Cluster Volume VolumeIo Replication ReplicaRead.

(** ** Scatter lists *)

Class SpdkIov := {
  (* [spdk_iov_memcpy_from_iov]: the bytes copied into a buffer of the given size *)
  iov_gather : Z -> list (list Z) -> list Z;
  (* [spdk_iov_memcpy_to_iov]: the lists afterwards, and the number of bytes copied *)
  iov_scatter : list (list Z) -> list Z -> list (list Z) * Z;
  iov_gather_spec : forall n iovs, iov_gather n iovs = take (Z.to_nat n) (concat iovs);
  iov_scatter_spec : forall iovs data, Zlen data <= Zlen (concat iovs) ->
    (iov_scatter iovs data).2 = Zlen data /\
    map length (iov_scatter iovs data).1 = map length iovs /\
    concat (iov_scatter iovs data).1 = data ++ drop (length data) (concat iovs)
}.

(** ** Requests *)

Inductive bdev_io_type := IO_READ | IO_WRITE | IO_UNMAP | IO_FLUSH | IO_RESET | IO_OTHER.
Inductive bdev_io_status := IO_SUCCESS | IO_FAILED | IO_NOMEM | IO_NOT_SUPPORTED.

(** [io_iovs] is [None] when there is no scatter list or it is empty. *)
Record spdk_bdev_io := BdevIo {
  io_type : bdev_io_type;
  io_offset_blocks : Z;
  io_num_blocks : Z;
  io_iovs : option (list (list Z))
}.

(** An exposed volume: its address, and [vb_volume] for the volume pointer. *)
Record xsan_vbdev := Vbdev {
  vb_addr : Z;
  vb_name : cstring;
  vb_volume_id : uuid;
  vb_volume : option xsan_volume;
  vb_blocklen : Z;
  vb_blockcnt : Z
}.

Inductive vhost_event :=
  | VCtxAlloc | VCtxFree
  | VDmaAlloc (size : Z) | VDmaFree
  | VRead (id : uuid) (off len : Z)
  | VWrite (id : uuid) (off len : Z) (data : list Z)
  | VIovs (iovs : list (list Z))             (* what the scatter list holds *)
  | VComplete (status : bdev_io_status).

(** The context of a request in flight: the request, and the length of its buffer. *)
Record xsan_vhost_io_ctx := VhostCtx { vc_io : spdk_bdev_io; vc_dma_len : option Z }.

Section Requests.
Context {IOV : SpdkIov}.

(** What the volume layer does with a submitted request: the calls of the callback
    before it returns, each with the status and what the buffer then holds, and the
    code it returns. *)
Record io_answer := IoAnswer {
  ia_calls : list (xsan_error_t * list Z);
  ia_code : xsan_error_t
}.

Definition free_dma (c : xsan_vhost_io_ctx) : traced vhost_event unit :=
  match vc_dma_len c with Some _ => temit VDmaFree | None => tret tt end.

(** [dma] is what the buffer holds; a context that is gone is used after its free. *)
Definition vbdev_io_complete_cb (s : option xsan_vhost_io_ctx) (xsan_status : xsan_error_t)
    (dma : list Z) : traced vhost_event (option xsan_vhost_io_ctx) :=
  match s with
  | None => tundef
  | Some c =>
      let* status :=
        if xsan_status =? XSAN_OK then
          match io_type (vc_io c), vc_dma_len c with
          | IO_READ, Some len =>
              match io_iovs (vc_io c) with
              | Some iovs =>
                  let actual_copy_len := Z.min len (Zlen (concat iovs)) in
                  let '(iovs', copied) := iov_scatter iovs (take (Z.to_nat actual_copy_len) dma) in
                  let* _ := temit (VIovs iovs') in
                  tret (if copied =? actual_copy_len then IO_SUCCESS else IO_FAILED)
              | None => tret IO_FAILED
              end
          | _, _ => tret IO_SUCCESS
          end
        else tret IO_FAILED in
      let* _ := free_dma c in
      let* _ := temit VCtxFree in
      let* _ := temit (VComplete status) in
      tret None
  end.

Fixpoint io_callbacks (calls : list (xsan_error_t * list Z)) (s : option xsan_vhost_io_ctx) :
    traced vhost_event (option xsan_vhost_io_ctx) :=
  match calls with
  | [] => tret s
  | (status, dma) :: calls =>
      let* s := vbdev_io_complete_cb s status dma in io_callbacks calls s
  end.

(** Freeing the context and completing the request. *)
Definition finish_io (status : bdev_io_status) : traced vhost_event (option xsan_vhost_io_ctx) :=
  let* _ := temit VCtxFree in
  let* _ := temit (VComplete status) in
  tret None.

(** The read and write branch behind the checks of length and scatter list; [answer] is
    that of [xsan_volume_read_async] or [xsan_volume_write_async]. *)
Definition submit_io (dma_ok : bool) (answer : io_answer) (xvbdev : xsan_vbdev) (io : spdk_bdev_io)
    (offset_bytes length_bytes : Z) (iovs : list (list Z)) :
    traced vhost_event (option xsan_vhost_io_ctx) :=
  if negb dma_ok then finish_io IO_NOMEM else
  let* _ := temit (VDmaAlloc length_bytes) in
  let c := VhostCtx io (Some length_bytes) in
  let data := iov_gather length_bytes iovs in
  match io_type io with
  | IO_WRITE =>
      if negb (Zlen data =? length_bytes) then
        let* _ := temit VDmaFree in finish_io IO_FAILED
      else
        let* _ := temit (VWrite (vb_volume_id xvbdev) offset_bytes length_bytes data) in
        let* s := io_callbacks (ia_calls answer) (Some c) in
        if negb (ia_code answer =? XSAN_OK) then
          match s with
          | None => tundef
          | Some c => let* _ := free_dma c in finish_io IO_FAILED
          end
        else tret s
  | _ =>
      let* _ := temit (VRead (vb_volume_id xvbdev) offset_bytes length_bytes) in
      let* s := io_callbacks (ia_calls answer) (Some c) in
      if negb (ia_code answer =? XSAN_OK) then
        match s with
        | None => tundef
        | Some c => let* _ := free_dma c in finish_io IO_FAILED
        end
      else tret s
  end.

Definition vbdev_submit_request (ctx_ok dma_ok : bool) (answer : io_answer) (xvbdev : xsan_vbdev)
    (io : spdk_bdev_io) : traced vhost_event (option xsan_vhost_io_ctx) :=
  if negb ctx_ok then let* _ := temit (VComplete IO_NOMEM) in tret None else
  let* _ := temit VCtxAlloc in
  match vb_volume xvbdev with
  | None => finish_io IO_FAILED
  | Some _ =>
      let offset_bytes := wrap 64 (io_offset_blocks io * vb_blocklen xvbdev) in
      let length_bytes := wrap 64 (io_num_blocks io * vb_blocklen xvbdev) in
      match io_type io with
      | IO_READ | IO_WRITE =>
          if length_bytes =? 0 then finish_io IO_SUCCESS else
          match io_iovs io with
          | None => finish_io IO_FAILED
          | Some iovs =>
              submit_io (dma_ok && negb (length_bytes =? 0)) answer xvbdev io offset_bytes
                length_bytes iovs
          end
      | IO_UNMAP | IO_FLUSH | IO_RESET => finish_io IO_SUCCESS
      | IO_OTHER => finish_io IO_NOT_SUPPORTED
      end
  end.

Definition vbdev_io_type_supported (t : bdev_io_type) : bool :=
  match t with IO_READ | IO_WRITE | IO_UNMAP | IO_FLUSH | IO_RESET => true | IO_OTHER => false end.

(** A request until the end: the callbacks that come after the submission are
    [later]. *)
Definition run_request (ctx_ok dma_ok : bool) (answer : io_answer)
    (later : list (xsan_error_t * list Z)) (xvbdev : xsan_vbdev) (io : spdk_bdev_io) :
    traced vhost_event (option xsan_vhost_io_ctx) :=
  let* s := vbdev_submit_request ctx_ok dma_ok answer xvbdev io in
  io_callbacks later s.

(** ** The list of exposed volumes *)

(** [vh_leaving] are the devices that SPDK was asked to unregister and has not
    destructed yet. *)
Record vhost := Vhost {
  vh_manager : bool;                 (* the volume manager is set *)
  vh_head : list xsan_vbdev;
  vh_leaving : list xsan_vbdev
}.

Definition xsan_vhost_subsystem_init (vm : bool) (h : vhost) : vhost * xsan_error_t :=
  if negb vm then (h, XSAN_ERROR_INVALID_PARAM)
  else (Vhost true (vh_head h) (vh_leaving h), XSAN_OK).

Definition xsan_vhost_subsystem_fini (h : vhost) : vhost :=
  Vhost false [] (vh_leaving h ++ vh_head h).

(** Outcomes of the allocations, the address of the new device, and the result of
    [spdk_bdev_register]. *)
Record expose_env := ExposeEnv {
  ee_on_thread : bool;
  ee_alloc : bool;
  ee_addr : Z;
  ee_strdup : bool;
  ee_register_rc : Z
}.

(** [get_by_id] is [xsan_volume_get_by_id] on the volume manager. *)
Definition xsan_vhost_expose_volume_as_vbdev (get_by_id : uuid -> option xsan_volume)
    (env : expose_env) (volume_id : uuid) (vbdev_name : option cstring) (h : vhost) :
    vhost * xsan_error_t :=
  if negb (ee_on_thread env) then (h, XSAN_ERROR_THREAD_CONTEXT) else
  if negb (vh_manager h) then (h, XSAN_ERROR_INVALID_NODE_STATE) else
  match vbdev_name with
  | None => (h, XSAN_ERROR_INVALID_PARAM)
  | Some name =>
      if uuid_is_null volume_id then (h, XSAN_ERROR_INVALID_PARAM) else
      match get_by_id volume_id with
      | None => (h, XSAN_ERROR_NOT_FOUND)
      | Some vol =>
          if (v_block_size vol =? 0) || (v_num_blocks vol =? 0)
          then (h, XSAN_ERROR_INVALID_NODE_STATE) else
          if existsb (fun v => bool_decide (vb_name v = name)) (vh_head h)
          then (h, XSAN_ERROR_ALREADY_EXISTS) else
          if negb (ee_alloc env) then (h, XSAN_ERROR_NO_MEMORY) else
          if negb (ee_strdup env) then (h, XSAN_ERROR_NO_MEMORY) else
          if negb (ee_register_rc env =? 0)
          then (h, xsan_error_from_errno (- ee_register_rc env)) else
          (Vhost (vh_manager h)
             (Vbdev (ee_addr env) name volume_id (Some vol) (v_block_size vol) (v_num_blocks vol)
              :: vh_head h) (vh_leaving h), XSAN_OK)
      end
  end.

(** The first device that satisfies [p], and the list without it. *)
Fixpoint unlink_vbdev (p : xsan_vbdev -> bool) (l : list xsan_vbdev) :
    option xsan_vbdev * list xsan_vbdev :=
  match l with
  | [] => (None, [])
  | v :: l => if p v then (Some v, l) else let '(r, l') := unlink_vbdev p l in (r, v :: l')
  end.

Definition xsan_vhost_unexpose_volume_vbdev (on_thread : bool) (vbdev_name : option cstring)
    (h : vhost) : vhost * xsan_error_t :=
  if negb on_thread then (h, XSAN_ERROR_THREAD_CONTEXT) else
  match vbdev_name with
  | None => (h, XSAN_ERROR_INVALID_PARAM)
  | Some name =>
      match unlink_vbdev (fun v => bool_decide (vb_name v = name)) (vh_head h) with
      | (None, _) => (h, XSAN_ERROR_NOT_FOUND)
      | (Some v, head) => (Vhost (vh_manager h) head (v :: vh_leaving h), XSAN_OK)
      end
  end.

(** [_xsan_vbdev_destruct], called by SPDK for the device at [addr]. *)
Definition vbdev_destruct (addr : Z) (h : vhost) : vhost :=
  let at_addr v := vb_addr v =? addr in
  Vhost (vh_manager h) (unlink_vbdev at_addr (vh_head h)).2 (unlink_vbdev at_addr (vh_leaving h)).2.

(** * Theorems *)

(** ** A request completes once *)

Definition completions (t : list vhost_event) : list bdev_io_status :=
  omap (fun e => match e with VComplete st => Some st | _ => None end) t.

(** The allocations minus the frees. *)
Definition balance (t : list vhost_event) : Z * Z :=
  foldr (fun e '(c, d) =>
    match e with
    | VCtxAlloc => (c + 1, d) | VCtxFree => (c - 1, d)
    | VDmaAlloc _ => (c, d + 1) | VDmaFree => (c, d - 1)
    | _ => (c, d)
    end) (0, 0) t.

Lemma balance_app t1 t2 :
  balance (t1 ++ t2) = ((balance t1).1 + (balance t2).1, (balance t1).2 + (balance t2).2).
Proof.
  induction t1 as [|e t1 IH]; [change ([] ++ t2) with t2; now destruct (balance t2)|].
  cbn [app foldr balance]. fold (balance (t1 ++ t2)) (balance t1). rewrite IH.
  destruct (balance t1), e; cbn [fst snd]; f_equal; lia.
Qed.

(** What one call of the callback does to a live context. *)
Lemma complete_cb_once io len status dma :
  exists t st, vbdev_io_complete_cb (Some (VhostCtx io (Some len))) status dma = (t, Some None) /\
    completions t = [st] /\ balance t = (-1, -1) /\
    (status <> XSAN_OK -> st = IO_FAILED).
Proof.
  unfold vbdev_io_complete_cb, free_dma. cbn [vc_io vc_dma_len].
  destruct (Z.eqb_spec status XSAN_OK).
  - destruct (io_type io); [|do 2 eexists; split_and!; [reflexivity..|done]..].
    destruct (io_iovs io) as [iovs|]; [|do 2 eexists; split_and!; [reflexivity..|done]].
    destruct (iov_scatter _ _) as [iovs' copied].
    do 2 eexists; split_and!; [reflexivity..|done].
  - do 2 eexists; split_and!; [reflexivity..|done].
Qed.

(** A trace that completes the request once and changes the balance by [-c] and [-d]. *)
Definition completes (c d : Z) (t : list vhost_event) : Prop :=
  (exists st, completions t = [st]) /\ balance t = (- c, - d).

(** How a call on a request ends that has been reported [n] times: not at all, the context
    is live and nothing has happened; once, it is completed and released; more than
    once, the context is used after its free, and it was completed and released once. *)
Definition reported (n : nat) (c d : Z) (t0 : list vhost_event)
    (x : traced vhost_event (option xsan_vhost_io_ctx)) : Prop :=
  match x with
  | (t, Some (Some _)) => n = 0%nat /\ t = t0
  | (t, Some None) => n = 1%nat /\ completes c d t
  | (t, None) => (2 <= n)%nat /\ completes c d t
  end.

Lemma callbacks_gone calls :
  io_callbacks calls None = match calls with [] => ([], Some None) | _ => ([], None) end.
Proof. destruct calls as [|[st dma] calls]; done. Qed.

(** Callbacks on a request that has been reported [n] times already. *)
Lemma callbacks_reported n x calls io len :
  reported n 1 1 [] x -> (forall c, x.2 = Some (Some c) -> c = VhostCtx io (Some len)) ->
  reported (n + length calls) 1 1 [] (let* s := x in io_callbacks calls s) /\
  (forall c, (let* s := x in io_callbacks calls s).2 = Some (Some c) -> c = VhostCtx io (Some len)).
Proof.
  intros Hx Hc. destruct x as [t [[c|]|]]; cbn [reported] in Hx.
  - destruct Hx as [-> ->]. rewrite (Hc c eq_refl). destruct calls as [|[st dma] calls].
    { split; [done|]. by intros ? [= <-]. }
    destruct (complete_cb_once io len st dma) as (t & s & Ht & Hs & Hb & _).
    cbn [tbind io_callbacks]. rewrite Ht. cbn [tbind]. rewrite callbacks_gone.
    destruct calls; cbn; rewrite !app_nil_r; (split; [|done]);
      (split; [lia|]); (split; [by exists s|done]).
  - destruct Hx as [-> Hx]. cbn [tbind]. rewrite callbacks_gone.
    destruct calls; cbn; rewrite app_nil_r; (split; [|done]); (split; [lia|done]).
  - destruct Hx as [Hn Hx]. cbn. split; [|done]. split; [lia|done].
Qed.

(** The calls, the error that is returned and the late calls, over a live context. *)
Lemma answered io len answer later :
  reported (length (ia_calls answer ++ later) + (if ia_code answer =? XSAN_OK then 0 else 1)) 1 1 []
    (let* s := (let* s := io_callbacks (ia_calls answer) (Some (VhostCtx io (Some len))) in
       if negb (ia_code answer =? XSAN_OK) then
         match s with
         | None => tundef
         | Some c => let* _ := free_dma c in finish_io IO_FAILED
         end
       else tret s) in io_callbacks later s).
Proof.
  destruct answer as [calls code]. cbn [ia_calls ia_code]. rewrite length_app.
  set (c := VhostCtx io (Some len)).
  destruct (callbacks_reported 0 (tret (Some c)) calls io len) as [H1 Hc1];
    [done|by intros ? [= <-]|]. rewrite tbind_ret in H1, Hc1. cbn [Nat.add] in H1.
  destruct (code =? XSAN_OK); cbn [negb].
  - destruct (callbacks_reported (length calls) (io_callbacks calls (Some c)) later io len H1 Hc1)
      as [H2 _]. rewrite Nat.add_0_r.
    destruct (io_callbacks calls (Some c)) as [t [x|]]; [|done].
    cbn [tbind tret] in H2 |- *. by rewrite ?app_nil_r.
  - destruct (io_callbacks calls (Some c)) as [t [[c'|]|]].
    + rewrite (Hc1 c' eq_refl). destruct H1 as [H1 ->].
      destruct (callbacks_reported 1 (let* _ := free_dma c in finish_io IO_FAILED) later io len)
        as [H2 _]; [split; [done|]; split; [by exists IO_FAILED|done]|done|].
      rewrite H1. replace (0 + length later + 1)%nat with (1 + length later)%nat by lia. exact H2.
    + destruct H1 as [H1 Hx]. cbn. rewrite app_nil_r. split; [lia|done].
    + destruct H1 as [H1 Hx]. cbn. split; [lia|done].
Qed.

(** Whether the request gets to the volume layer. *)
Definition asks (ctx_ok dma_ok : bool) (xvbdev : xsan_vbdev) (io : spdk_bdev_io) : bool :=
  let length_bytes := wrap 64 (io_num_blocks io * vb_blocklen xvbdev) in
  match vb_volume xvbdev, io_iovs io, io_type io with
  | Some _, Some iovs, IO_READ => ctx_ok && negb (length_bytes =? 0) && dma_ok
  | Some _, Some iovs, IO_WRITE =>
      ctx_ok && negb (length_bytes =? 0) && dma_ok && (length_bytes <=? Zlen (concat iovs))
  | _, _, _ => false
  end.

Lemma gather_length n iovs : 0 <= n ->
  (Zlen (iov_gather n iovs) =? n) = (n <=? Zlen (concat iovs)).
Proof.
  intros Hn. rewrite iov_gather_spec. unfold Zlen. rewrite length_take. case_cmp; done || lia.
Qed.

Lemma temit_bind {A} (e : vhost_event) (f : unit -> traced vhost_event A) :
  tbind (temit e) f = (e :: (f tt).1, (f tt).2).
Proof. done. Qed.

Ltac emit_steps := repeat (rewrite temit_bind; cbv beta).

(** What happens before the volume layer is asked. *)
Lemma reported_after pre n x :
  completions pre = [] -> balance pre = (1, 1) -> reported n 1 1 [] x ->
  match (pre ++ x.1, x.2) with
  | (t, Some (Some _)) => n = 0%nat /\ completions t = [] /\ balance t = (1, 1)
  | (t, Some None) => n = 1%nat /\ (exists st, completions t = [st]) /\ balance t = (0, 0)
  | (t, None) => (2 <= n)%nat /\ (exists st, completions t = [st]) /\ balance t = (0, 0)
  end.
Proof.
  intros Hc Hb. destruct x as [t [[c|]|]]; cbn [fst snd reported].
  - intros [-> ->]. by rewrite app_nil_r.
  - intros [Hn [[st Hs] Hbt]]. unfold completions in *.
    rewrite omap_app, Hc, Hs, balance_app, Hb, Hbt. split_and!; [done|by exists st|done].
  - intros [Hn [[st Hs] Hbt]]. unfold completions in *.
    rewrite omap_app, Hc, Hs, balance_app, Hb, Hbt. split_and!; [done|by exists st|done].
Qed.

(** How often a request is reported: by the calls of the callback and by the error that
    the volume layer returns, or once by the submission when the volume layer is not
    asked. *)
Definition reports (ctx_ok dma_ok : bool) (answer : io_answer) (later : list (xsan_error_t * list Z))
    (xvbdev : xsan_vbdev) (io : spdk_bdev_io) : nat :=
  if asks ctx_ok dma_ok xvbdev io
  then length (ia_calls answer ++ later) + (if ia_code answer =? XSAN_OK then 0 else 1)
  else 1 + length later.

(** C21: a request to an exposed volume completes as often as it is reported, but never
    more than once, whatever its type, whatever allocation fails, and whatever the volume
    layer does.  A request is reported by each call of its callback and by an error that
    the volume layer returns, and by the submission itself when the volume layer is not
    asked.  Not reported, it stays in flight with its context and its buffer; reported
    once, SPDK is told once and everything allocated is freed; reported a second time,
    which the volume layer must not do and does when no replica is writable, SPDK has
    been told once and everything was freed once, and the freed context is then used. *)
Theorem vhost_request_once ctx_ok dma_ok answer later xvbdev io :
  match run_request ctx_ok dma_ok answer later xvbdev io with
  | (t, Some (Some _)) =>
      reports ctx_ok dma_ok answer later xvbdev io = 0%nat /\
      completions t = [] /\ balance t = (1, 1)
  | (t, Some None) =>
      reports ctx_ok dma_ok answer later xvbdev io = 1%nat /\
      (exists st, completions t = [st]) /\ balance t = (0, 0)
  | (t, None) =>
      (2 <= reports ctx_ok dma_ok answer later xvbdev io)%nat /\
      (exists st, completions t = [st]) /\ balance t = (0, 0)
  end.
Proof.
  unfold reports, asks, run_request, vbdev_submit_request.
  assert (Hdone : forall t st, completions t = [st] -> balance t = (0, 0) ->
    match (let* s := (t, Some None) in io_callbacks later s) with
    | (t, Some (Some _)) => (1 + length later)%nat = 0%nat /\ completions t = [] /\ balance t = (1, 1)
    | (t, Some None) => (1 + length later)%nat = 1%nat /\ (exists st, completions t = [st]) /\ balance t = (0, 0)
    | (t, None) => (2 <= 1 + length later)%nat /\ (exists st, completions t = [st]) /\ balance t = (0, 0)
    end).
  { intros t st Hc Hb. cbn [tbind]. rewrite callbacks_gone.
    destruct later; cbn; rewrite app_nil_r; (split_and!; [lia|by exists st|done]). }
  destruct ctx_ok; cbn [andb negb].
  2:{ destruct (vb_volume xvbdev), (io_iovs io), (io_type io); by eapply Hdone. }
  destruct (vb_volume xvbdev) as [vol|]; [|by eapply Hdone].
  set (len := wrap 64 (io_num_blocks io * _)). set (off := wrap 64 _).
  assert (Hlen : 0 <= len) by (apply (wrap_range 64); lia).
  destruct (io_iovs io) as [iovs|].
  2:{ destruct (io_type io), (len =? 0); by eapply Hdone. }
  unfold submit_io. rewrite gather_length by done.
  pose proof (answered io len answer later) as Hans. rewrite tbind_assoc in Hans.
  destruct (io_type io), (len =? 0), dma_ok; cbn [andb negb]; try (by eapply Hdone).
  - rewrite !tbind_assoc. emit_steps.
    by apply (reported_after [VCtxAlloc; VDmaAlloc len; VRead (vb_volume_id xvbdev) off len]).
  - destruct (len <=? Zlen (concat iovs)); cbn [negb]; [|by eapply Hdone].
    rewrite !tbind_assoc. emit_steps.
    by apply (reported_after [VCtxAlloc; VDmaAlloc len;
      VWrite (vb_volume_id xvbdev) off len (iov_gather len iovs)]).
Qed.

(** ** Data *)

(** The byte range of a request that lies inside the device. *)
Lemma request_bytes xvbdev io :
  0 <= io_offset_blocks io -> 0 <= io_num_blocks io -> 0 <= vb_blocklen xvbdev ->
  io_offset_blocks io + io_num_blocks io <= vb_blockcnt xvbdev ->
  vb_blockcnt xvbdev * vb_blocklen xvbdev < 2 ^ 64 ->
  wrap 64 (io_offset_blocks io * vb_blocklen xvbdev) = io_offset_blocks io * vb_blocklen xvbdev /\
  wrap 64 (io_num_blocks io * vb_blocklen xvbdev) = io_num_blocks io * vb_blocklen xvbdev.
Proof. intros. split; apply wrap_small; unfold in_u; nia. Qed.

(** A request inside the device whose scatter list has the right length. *)
Definition request_ok (xvbdev : xsan_vbdev) (io : spdk_bdev_io) (iovs : list (list Z)) : Prop :=
  0 <= io_offset_blocks io /\ 0 < io_num_blocks io /\ 0 < vb_blocklen xvbdev /\
  io_offset_blocks io + io_num_blocks io <= vb_blockcnt xvbdev /\
  vb_blockcnt xvbdev * vb_blocklen xvbdev < 2 ^ 64 /\
  io_iovs io = Some iovs /\ Zlen (concat iovs) = io_num_blocks io * vb_blocklen xvbdev /\
  is_Some (vb_volume xvbdev).

(** C23: A request inside the device asks the volume for exactly its bytes: a write
    passes the bytes of the scatter list, in order, at the byte position of its first
    block; a read that the volume answers leaves the answer in the scatter list,
    without changing the lengths of its parts. *)
Theorem vhost_data_path xvbdev io iovs data :
  request_ok xvbdev io iovs ->
  let off := io_offset_blocks io * vb_blocklen xvbdev in
  let len := io_num_blocks io * vb_blocklen xvbdev in
  (io_type io = IO_WRITE ->
   run_request true true (IoAnswer [] XSAN_OK) [(XSAN_OK, [])] xvbdev io =
     ([VCtxAlloc; VDmaAlloc len; VWrite (vb_volume_id xvbdev) off len (concat iovs);
       VDmaFree; VCtxFree; VComplete IO_SUCCESS], Some None)) /\
  (io_type io = IO_READ -> Zlen data = len ->
   exists iovs',
     run_request true true (IoAnswer [] XSAN_OK) [(XSAN_OK, data)] xvbdev io =
       ([VCtxAlloc; VDmaAlloc len; VRead (vb_volume_id xvbdev) off len; VIovs iovs';
         VDmaFree; VCtxFree; VComplete IO_SUCCESS], Some None) /\
     concat iovs' = data /\ map length iovs' = map length iovs).
Proof.
  intros (Hoff & Hn & Hbl & Hin & Hsize & Hiovs & Hlen & [vol Hvol]) off len.
  destruct (request_bytes xvbdev io) as [Eo El]; [lia..|].
  fold len in Hlen. assert (Hpos : 0 < len) by (unfold len; nia).
  unfold run_request, vbdev_submit_request, submit_io. rewrite Hvol, Hiovs, Eo, El.
  fold off len.
  rewrite (proj2 (Z.eqb_neq len 0) ltac:(lia)). split.
  - intros Ht. rewrite Ht, gather_length, (proj2 (Z.leb_le len _)), iov_gather_spec by lia. cbn.
    rewrite take_ge by (unfold Zlen in Hlen; lia). now rewrite Ht.
  - intros Ht Hdata. rewrite Ht. destruct (iov_scatter_spec iovs data ltac:(lia)) as (Hs & Hshape & Hcat).
    destruct (iov_scatter iovs data) as [iovs' copied] eqn:Hsc. cbn [fst snd] in *.
    exists iovs'. split_and!; [|rewrite Hcat, drop_ge, app_nil_r by (unfold Zlen in *; lia); done|done].
    cbn. rewrite Ht, Hiovs, Hlen, Z.min_id, take_ge, Hsc by (unfold Zlen in *; lia).
    cbn. now rewrite Hs, Hdata, Z.eqb_refl.
Qed.

End Requests.

(** ** What the volume layer reports *)

Section VolumeLayer.
Context {JC : JsonC} {SU : SpdkUuid} {SC : StorageCodes} {WC : WriteCompletion}.
Context {St : Type} {MS : MetaStore St} {DM : Type} {DK : DiskManager DM}.
Variable get_by_id : xsan_volume_manager St DM -> uuid -> option xsan_volume.

(** A replicated read that returns has called the user at most once, not at all when it
    reports an error, and is still in flight when it has not called yet. *)
Theorem replica_reads_keep_contract dma re put lenv ctx_ok init m id off len tid buf cb t s e :
  xsan_volume_read_async get_by_id dma re put lenv ctx_ok init m id off len tid buf cb =
    (t, Some (s, e)) ->
  if e =? XSAN_OK then
    exists s', s = Some s' /\
      match rs_ctx s' with Some _ => rusers t = [] | None => exists st, rusers t = [st] end
  else rusers t = [].
Proof.
  unfold xsan_volume_read_async.
  assert (Hfail : forall e0, e0 <> XSAN_OK -> tret (E := revent) (@None rstate, e0) = (t, Some (s, e)) ->
    if e =? XSAN_OK then exists s', s = Some s' /\
      match rs_ctx s' with Some _ => rusers t = [] | None => exists st, rusers t = [st] end
    else rusers t = []).
  { intros e0 He0 [= <- <- <-]. now rewrite (proj2 (Z.eqb_neq _ _) He0). }
  destruct (_ || _); [now apply Hfail|].
  destruct (get_by_id m id) as [vol|]; [|now apply Hfail].
  destruct (_ || _); [apply Hfail; auto with xsan|].
  destruct (xsan_replica_read_coordinator_ctx_create _ _ _ _ _ _ _) as [c|] eqn:Hc;
    [|apply Hfail; auto with xsan].
  assert (Hidx : rd_idx c = 0).
  { unfold xsan_replica_read_coordinator_ctx_create in Hc.
    destruct (_ || _ || _); [done|]. now injection Hc as <-. }
  set (x := try_read_from_next_replica READ_FUEL _ _).
  assert (Hends : ends False false x).
  { unfold x. generalize READ_FUEL. intros fuel.
    apply (try_read_ends False fuel _ (RState (Some c) false) c); [done|done|lia]. }
  assert (Hfuel : x.2 <> Some None).
  { unfold x. refine (proj2 (try_read_fuel 3 READ_FUEL _ (RState (Some c) false) c eq_refl _ _ _));
      unfold READ_FUEL, XSAN_MAX_REPLICAS; lia. }
  destruct x as [t1 [[s1|]|]]; cbn; [|done|done]. intros [= <- <- <-]. rewrite app_nil_r. cbn.
  exists s1. split; [done|]. cbn in Hends. destruct (rs_ctx s1); tauto.
Qed.

(** *** Writes *)

Definition dead (s : wstate) : nat := match ws_ctx s with Some _ => 0 | None => 1 end.

(** A step that returns calls the user exactly when it frees the context. *)
Definition frees_on_call (s : wstate) (x : traced wevent wstate) : Prop :=
  match x with
  | (t, Some s') => (length (users t) + dead s)%nat = dead s'
  | (_, None) => True
  end.

Lemma frees_ret s s' : ws_ctx s' = ws_ctx s -> frees_on_call s (tret s').
Proof. unfold frees_on_call, dead. cbn. now intros ->. Qed.

Lemma frees_bind s (x : traced wevent wstate) f :
  frees_on_call s x -> (forall s', frees_on_call s' (f s')) -> frees_on_call s (tbind x f).
Proof.
  destruct x as [t [s1|]]; [|done]. cbn. intros Hx Hf. specialize (Hf s1).
  destruct (f s1) as [t' [s2|]]; [|done]. cbn in *. rewrite users_app, length_app. lia.
Qed.

Lemma frees_silent s t (x : traced wevent wstate) :
  users t = [] -> frees_on_call s x -> frees_on_call s (tbind (t, Some tt) (fun _ => x)).
Proof.
  intros Ht. destruct x as [t' [s'|]]; [|done]. cbn. now rewrite users_app, Ht.
Qed.

Lemma frees_check s s' : ws_ctx s <> None -> ws_ctx s' <> None -> frees_on_call s (check_completion s').
Proof.
  unfold check_completion, deref. intros Hs Hs'. destruct (ws_ctx s') as [c|] eqn:Hc; [|done].
  rewrite tbind_ret. unfold frees_on_call, dead. destruct (ws_ctx s); [|done].
  destruct (write_done c); cbn; [done|]. now rewrite Hc.
Qed.

(** A step that begins with the context. *)
Lemma frees_deref s (f : xsan_replicated_io_ctx -> traced wevent wstate) :
  (forall c, ws_ctx s = Some c -> frees_on_call s (f c)) -> frees_on_call s (let* c := deref s in f c).
Proof.
  unfold deref. intros Hf. destruct (ws_ctx s) as [c|]; [|done]. rewrite tbind_ret. now apply Hf.
Qed.

Lemma local_cb_frees now s st : frees_on_call s (local_replica_write_complete_cb now s st).
Proof. apply frees_deref. intros c Hc. apply frees_check; [congruence|done]. Qed.

Lemma send_cb_frees s st op : frees_on_call s (request_send_actual_cb s st op).
Proof.
  apply frees_deref. intros c Hc. destruct (negb _); [|now apply frees_ret].
  apply frees_check; [congruence|done].
Qed.

Lemma connect_cb_frees se s sock st op : frees_on_call s (connect_then_send_cb se s sock st op).
Proof.
  unfold connect_then_send_cb. destruct (op_msg op) as [m|]; [|now apply frees_ret].
  apply frees_deref. intros c Hc. destruct (_ && _); [|apply frees_check; [congruence|done]].
  destruct (xsan_node_comm_send_msg _ _ _ _ _ _ _ _) as [[e cbs] b].
  destruct cbs as [|[st'] cbs].
  - destruct (negb _); [apply send_cb_frees|now apply frees_ret].
  - assert (Hin : forall t, users t = [] -> frees_on_call s
      (tbind (t, Some tt) (fun _ => let* s0 := request_send_actual_cb s st' op in
         if negb (e =? XSAN_OK) then tundef else tret s0))).
    { intros t Ht. apply frees_silent; [done|]. apply frees_bind; [apply send_cb_frees|].
      intros s'. destruct (negb _); [done|now apply frees_ret]. }
    destruct (st' =? 0); now apply Hin.
Qed.

Lemma iteration_frees env local request i r s : frees_on_call s (iteration env local request i r s).
Proof.
  unfold iteration, skip_replica, attempt_local, attempt_remote, fail_replica.
  destruct (negb (writable r)), i as [|i]; [apply local_cb_frees| | |].
  - destruct (re_op _); [apply send_cb_frees|].
    apply frees_deref. intros c Hc. apply frees_check; [congruence|done].
  - destruct local as [e|]; [|done]. destruct (negb _); [apply local_cb_frees|now apply frees_ret].
  - destruct (negb (re_op _)).
    { apply frees_deref. intros c Hc. apply frees_check; [congruence|done]. }
    destruct (request _) as [msg|].
    2:{ apply frees_deref. intros c Hc. apply frees_check; [congruence|done]. }
    destruct (re_active _); [apply connect_cb_frees|].
    destruct (_.2) as [|[sock st]]; [now apply frees_ret|apply connect_cb_frees].
Qed.

Lemma write_loop_frees env local request rs i s :
  frees_on_call s (write_loop env local request i rs s).
Proof.
  revert i s. induction rs as [|r rs IH]; intros i s; [now apply frees_ret|].
  cbn [write_loop]. apply frees_bind; [exact (iteration_frees env local request i r s)|intros s'; apply IH].
Qed.

Lemma fail_all_frees s : frees_on_call s (fail_all s).
Proof. apply frees_deref. intros c Hc. apply frees_check; [congruence|done]. Qed.

Lemma one_call s t s' : ws_ctx s <> None -> frees_on_call s (t, Some s') ->
  match ws_ctx s' with Some _ => users t = [] | None => exists st, users t = [st] end.
Proof.
  unfold frees_on_call, dead. intros Hs. destruct (ws_ctx s); [|done]. destruct (ws_ctx s');
    intros Hn; destruct (users t) as [|st [|]]; cbn in Hn; try lia; eauto.
Qed.

(** The same for replicated writes.  The exception is a volume without a writable
    replica: there the user may have been called and the error is returned as well. *)
Theorem replica_writes_keep_contract env init m id off len buf cb t s e :
  xsan_volume_write_async get_by_id env init m id off len buf cb = (t, Some (s, e)) ->
  if e =? XSAN_OK then
    exists s', s = Some s' /\
      match ws_ctx s' with Some _ => users t = [] | None => exists st, users t = [st] end
  else users t = [] \/
    exists vol, get_by_id m id = Some vol /\ existsb writable (replicas_of vol) = false /\
      (length (users t) <= 1)%nat.
Proof.
  unfold xsan_volume_write_async.
  assert (Hfail : forall e0 (P : Prop), e0 <> XSAN_OK -> tret (E := wevent) (@None wstate, e0) = (t, Some (s, e)) ->
    if e =? XSAN_OK then exists s', s = Some s' /\
      match ws_ctx s' with Some _ => users t = [] | None => exists st, users t = [st] end
    else users t = [] \/ P).
  { intros e0 P He0 [= <- <- <-]. rewrite (proj2 (Z.eqb_neq _ _) He0). now left. }
  destruct buf as [data|]; [|now apply Hfail]. destruct (_ || _); [now apply Hfail|].
  destruct (get_by_id m id) as [vol|]; [|now apply Hfail].
  destruct (_ || _); [apply Hfail; auto with xsan|]. destruct (_ || _); [apply Hfail; auto with xsan|].
  destruct (_ =? 0); [apply Hfail; auto with xsan|]. unfold start_write.
  destruct ((if we_common env then _ else _) _ _ _ _ _ _ _) as [c|]; [|apply Hfail; auto with xsan].
  destruct (negb (we_put env =? XSAN_OK)); [apply Hfail; auto with xsan|].
  destruct (_ <? _); [done|]. fold (replicas_of vol).
  set (s0 := WState (Some c) (Some vol) []). set (x := write_loop _ _ _ _ _ _).
  assert (Hx : frees_on_call s0 x) by apply write_loop_frees.
  destruct (existsb writable (replicas_of vol)) eqn:Hw; cbn [negb].
  - destruct x as [t1 [s1|]]; [|done]. cbn. intros [= <- <- <-]. rewrite app_nil_r. cbn.
    exists s1. split; [done|]. now apply (one_call s0).
  - pose proof (frees_bind s0 x _ Hx fail_all_frees) as Hall. rewrite <- tbind_assoc.
    destruct (tbind x _) as [t1 [s1|]]; [|done]. cbn. intros [= <- <- <-]. rewrite app_nil_r.
    rewrite (proj2 (Z.eqb_neq _ _)) by auto with xsan. right. exists vol. split_and!; [done..|].
    unfold frees_on_call, dead in Hall. cbn in Hall. destruct (ws_ctx s1); lia.
Qed.

End VolumeLayer.

(** ** The list of exposed volumes is a map *)

Inductive vhost_op :=
  | OpInit (vm : bool)
  | OpFini
  | OpExpose (env : expose_env) (id : uuid) (name : option cstring)
  | OpUnexpose (on_thread : bool) (name : option cstring)
  | OpDestruct (addr : Z).

Section VbdevList.
Variable get_by_id : uuid -> option xsan_volume.

Definition vhost_step (h : vhost) (op : vhost_op) : vhost * xsan_error_t :=
  match op with
  | OpInit vm => xsan_vhost_subsystem_init vm h
  | OpFini => (xsan_vhost_subsystem_fini h, XSAN_OK)
  | OpExpose env id name => xsan_vhost_expose_volume_as_vbdev get_by_id env id name h
  | OpUnexpose on_thread name => xsan_vhost_unexpose_volume_vbdev on_thread name h
  | OpDestruct addr => (vbdev_destruct addr h, XSAN_OK)
  end.

(** SPDK destructs only devices that were unregistered, and an allocation is at no
    address in use. *)
Definition op_allowed (h : vhost) (op : vhost_op) : Prop :=
  match op with
  | OpExpose env _ _ => ee_addr env ∉ map vb_addr (vh_head h ++ vh_leaving h)
  | OpDestruct addr => addr ∈ map vb_addr (vh_leaving h)
  | _ => True
  end.

(** What the operations promise: a map from names to volumes with their geometry. *)
Record exposed := Exposed {
  ex_manager : bool;
  ex_map : gmap cstring (uuid * Z * Z)
}.

Definition exposed_step (a : exposed) (op : vhost_op) : exposed * xsan_error_t :=
  match op with
  | OpInit vm => if vm then (Exposed true (ex_map a), XSAN_OK) else (a, XSAN_ERROR_INVALID_PARAM)
  | OpFini => (Exposed false ∅, XSAN_OK)
  | OpDestruct _ => (a, XSAN_OK)
  | OpUnexpose on_thread name =>
      match on_thread, name with
      | false, _ => (a, XSAN_ERROR_THREAD_CONTEXT)
      | _, None => (a, XSAN_ERROR_INVALID_PARAM)
      | _, Some name =>
          match ex_map a !! name with
          | None => (a, XSAN_ERROR_NOT_FOUND)
          | Some _ => (Exposed (ex_manager a) (delete name (ex_map a)), XSAN_OK)
          end
      end
  | OpExpose env id name =>
      if negb (ee_on_thread env) then (a, XSAN_ERROR_THREAD_CONTEXT) else
      if negb (ex_manager a) then (a, XSAN_ERROR_INVALID_NODE_STATE) else
      match name, get_by_id id with
      | None, _ => (a, XSAN_ERROR_INVALID_PARAM)
      | Some name, vol =>
          if uuid_is_null id then (a, XSAN_ERROR_INVALID_PARAM) else
          match vol with
          | None => (a, XSAN_ERROR_NOT_FOUND)
          | Some vol =>
              if (v_block_size vol =? 0) || (v_num_blocks vol =? 0) then (a, XSAN_ERROR_INVALID_NODE_STATE)
              else if decide (is_Some (ex_map a !! name)) then (a, XSAN_ERROR_ALREADY_EXISTS)
              else if negb (ee_alloc env && ee_strdup env) then (a, XSAN_ERROR_NO_MEMORY)
              else if negb (ee_register_rc env =? 0) then (a, xsan_error_from_errno (- ee_register_rc env))
              else (Exposed (ex_manager a)
                      (<[name := (id, v_block_size vol, v_num_blocks vol)]> (ex_map a)), XSAN_OK)
          end
      end
  end.

Definition vb_entry (v : xsan_vbdev) : cstring * (uuid * Z * Z) :=
  (vb_name v, (vb_volume_id v, vb_blocklen v, vb_blockcnt v)).

Record vhost_rep (h : vhost) (a : exposed) : Prop := {
  vr_manager : vh_manager h = ex_manager a;
  vr_names : NoDup (map vb_name (vh_head h));
  vr_map : ex_map a = list_to_map (map vb_entry (vh_head h));
  vr_addrs : NoDup (map vb_addr (vh_head h ++ vh_leaving h))
}.

Lemma entry_names l : (map vb_entry l).*1 = map vb_name l.
Proof. change ((map vb_entry l).*1) with (map fst (map vb_entry l)). now rewrite map_map. Qed.

Lemma listed_name (l : list xsan_vbdev) name :
  existsb (fun v => bool_decide (vb_name v = name)) l =
  bool_decide (is_Some ((list_to_map (map vb_entry l) : gmap cstring _) !! name)).
Proof.
  apply Bool.eq_iff_eq_true. rewrite existsb_exists, bool_decide_eq_true.
  rewrite <- elem_of_dom, dom_list_to_map, elem_of_list_to_set, entry_names. split.
  - intros (v & Hv & Hn%bool_decide_eq_true). apply list_elem_of_In, in_map_iff. eauto.
  - intros (v & Hn & Hv)%list_elem_of_In%in_map_iff. exists v. now rewrite bool_decide_true.
Qed.

(** Unlinking one element out of a list without duplicates of [key]. *)
Lemma unlink_vbdev_spec {K} `{EqDecision K} (key : xsan_vbdev -> K) k p l :
  (forall v, p v = bool_decide (key v = k)) -> NoDup (map key l) ->
  match unlink_vbdev p l with
  | (None, l') => l' = l /\ k ∉ map key l
  | (Some v, l') => key v = k /\ l ≡ₚ v :: l' /\ k ∉ map key l'
  end.
Proof.
  intros Hp. induction l as [|v l IH]; cbn [unlink_vbdev map]; [intros _; split; [done|apply not_elem_of_nil]|].
  intros [Hv Hl]%NoDup_cons. rewrite Hp. case_bool_decide as Hk.
  - subst k. now split_and!.
  - specialize (IH Hl). destruct (unlink_vbdev p l) as [[w|] l'].
    + destruct IH as (Hw & Hperm & Hin). split_and!; [done|rewrite Hperm; constructor|].
      cbn. apply not_elem_of_cons. split; [congruence|done].
    + destruct IH as [-> Hin]. split; [done|]. apply not_elem_of_cons. split; [congruence|done].
Qed.

Lemma map_unlinked v l l' :
  NoDup (map vb_name l) -> l ≡ₚ v :: l' -> vb_name v ∉ map vb_name l' ->
  (list_to_map (map vb_entry l') : gmap cstring _) =
  delete (vb_name v) (list_to_map (map vb_entry l)).
Proof.
  intros Hnd Hperm Hv.
  rewrite (list_to_map_proper (map vb_entry l) (map vb_entry (v :: l'))).
  - cbn. rewrite delete_insert_id; [done|]. apply not_elem_of_list_to_map. now rewrite entry_names.
  - now rewrite entry_names.
  - now apply (fmap_Permutation vb_entry).
Qed.

Lemma addrs_perm (l l' : list xsan_vbdev) :
  l ≡ₚ l' -> NoDup (map vb_addr l) -> NoDup (map vb_addr l').
Proof. intros Hp. now rewrite (Permutation_map vb_addr Hp). Qed.

Lemma unexpose_refines h a on_thread name :
  vhost_rep h a ->
  vhost_rep (vhost_step h (OpUnexpose on_thread name)).1 (exposed_step a (OpUnexpose on_thread name)).1 /\
  (vhost_step h (OpUnexpose on_thread name)).2 = (exposed_step a (OpUnexpose on_thread name)).2.
Proof.
  intros Hrep. pose proof Hrep as [Hm Hn Hmap Ha]. cbn [vhost_step exposed_step].
  unfold xsan_vhost_unexpose_volume_vbdev. destruct on_thread; [|done]. cbn [negb].
  destruct name as [name|]; [|done].
  pose proof (unlink_vbdev_spec vb_name name _ (vh_head h) (fun v => eq_refl) Hn) as Hu.
  destruct (unlink_vbdev _ (vh_head h)) as [[v|] l'].
  - destruct Hu as (Hv & Hperm & Hin). subst name.
    assert (Hin' : is_Some (ex_map a !! vb_name v)).
    { rewrite Hmap. apply (bool_decide_eq_true_1 (is_Some _)). rewrite <- listed_name. apply existsb_exists.
      exists v. split; [|now apply bool_decide_eq_true]. apply list_elem_of_In. rewrite Hperm. left. }
    destruct Hin' as [x Hx]. rewrite Hx. cbn [fst snd]. split; [|done]. constructor; cbn.
    + done.
    + rewrite (Permutation_map vb_name Hperm) in Hn. now apply NoDup_cons in Hn as [_ Hn].
    + rewrite Hmap. symmetry. now apply map_unlinked.
    + refine (addrs_perm _ _ _ Ha). rewrite Hperm. cbn. apply Permutation_middle.
  - destruct Hu as [-> Hin]. destruct (ex_map a !! name) as [x|] eqn:Hx; [|done].
    assert (Hyes : existsb (fun v => bool_decide (vb_name v = name)) (vh_head h) = true)
      by (rewrite listed_name, <- Hmap, Hx; now apply bool_decide_eq_true_2).
    apply existsb_exists in Hyes as (v & Hv & Hnv%bool_decide_eq_true). destruct Hin.
    apply list_elem_of_In, in_map_iff. eauto.
Qed.

Lemma expose_refines h a env id name :
  vhost_rep h a -> op_allowed h (OpExpose env id name) ->
  vhost_rep (vhost_step h (OpExpose env id name)).1 (exposed_step a (OpExpose env id name)).1 /\
  (vhost_step h (OpExpose env id name)).2 = (exposed_step a (OpExpose env id name)).2.
Proof.
  intros Hrep Hok. pose proof Hrep as [Hm Hn Hmap Ha]. cbn [vhost_step exposed_step].
  unfold xsan_vhost_expose_volume_as_vbdev. rewrite Hm.
  destruct (ee_on_thread env); [|done]. cbn [negb]. destruct (ex_manager a) eqn:Hem; [|done]. cbn [negb].
  destruct name as [name|]; [|done]. destruct (uuid_is_null id); [now destruct (get_by_id id)|].
  destruct (get_by_id id) as [vol|]; [|done]. destruct (_ || _); [done|].
  rewrite listed_name, <- Hmap. destruct (decide (is_Some (ex_map a !! name))) as [Hs|Hs];
    [now rewrite bool_decide_true|rewrite bool_decide_false by done].
  destruct (ee_alloc env), (ee_strdup env); cbn [negb andb]; try done.
  destruct (ee_register_rc env =? 0); [|done]. cbn [negb fst snd]. split; [|done].
  constructor; cbn; [done| |now rewrite Hmap|now constructor].
  constructor; [|done]. intros Hin. apply Hs. rewrite Hmap.
  rewrite <- elem_of_dom, dom_list_to_map, elem_of_list_to_set, entry_names. exact Hin.
Qed.

Lemma destruct_refines h a addr :
  vhost_rep h a -> op_allowed h (OpDestruct addr) -> vhost_rep (vbdev_destruct addr h) a.
Proof.
  intros [Hm Hn Hmap Ha] Hok. unfold vbdev_destruct. cbn in Hok.
  pose proof Ha as Ha'. rewrite map_app in Ha'. apply NoDup_app in Ha' as (Hh & Hdis & Hl).
  assert (Heq : forall v, (vb_addr v =? addr) = bool_decide (vb_addr v = addr)).
  { intros v. case_bool_decide; [now apply Z.eqb_eq|now apply Z.eqb_neq]. }
  pose proof (unlink_vbdev_spec vb_addr addr _ (vh_head h) Heq Hh) as Hu.
  pose proof (unlink_vbdev_spec vb_addr addr _ (vh_leaving h) Heq Hl) as Hu'.
  destruct (unlink_vbdev _ (vh_head h)) as [[v|] l1].
  { destruct Hu as (Hv & Hperm & _). destruct (Hdis addr); [|done].
    subst addr. rewrite (Permutation_map vb_addr Hperm). left. }
  destruct Hu as [-> _]. destruct (unlink_vbdev _ (vh_leaving h)) as [[w|] l2]; [|now destruct Hu'].
  destruct Hu' as (_ & Hperm & _). constructor; cbn; [done..|].
  assert (Hall : vh_head h ++ vh_leaving h ≡ₚ w :: vh_head h ++ l2)
    by (rewrite Hperm; symmetry; apply Permutation_middle).
  apply (addrs_perm _ _ Hall) in Ha. now apply NoDup_cons in Ha as [_ Ha].
Qed.

(** The states reached from the start by allowed operations, with what they promise. *)
Inductive vhost_reach : vhost -> exposed -> Prop :=
  | reach_start : vhost_reach (Vhost false [] []) (Exposed false ∅)
  | reach_step h a op : vhost_reach h a -> op_allowed h op ->
      vhost_reach (vhost_step h op).1 (exposed_step a op).1.

Lemma step_refines h a op :
  vhost_rep h a -> op_allowed h op ->
  vhost_rep (vhost_step h op).1 (exposed_step a op).1 /\
  (vhost_step h op).2 = (exposed_step a op).2.
Proof.
  intros Hrep Hok. destruct op as [vm| |env id name|on_thread name|addr].
  - destruct Hrep as [Hm Hn Hmap Ha]. destruct vm; now split.
  - destruct Hrep as [Hm Hn Hmap Ha]. split; [|done]. constructor; [done|constructor|done|].
    cbn. refine (addrs_perm _ _ _ Ha). apply Permutation_app_comm.
  - now apply expose_refines.
  - now apply unexpose_refines.
  - split; [now apply destruct_refines|done].
Qed.

(** The exposed volumes form a map from names: every operation answers as the map says
    and updates it, and a destruct removes nothing that is still exposed. *)
Theorem vbdev_list_is_map h a op :
  vhost_reach h a -> op_allowed h op ->
  vhost_rep h a /\ (vhost_step h op).2 = (exposed_step a op).2 /\
  vhost_rep (vhost_step h op).1 (exposed_step a op).1.
Proof.
  intros Hreach Hok. assert (Hrep : vhost_rep h a).
  { clear Hok. induction Hreach as [|h a op' Hr IH Hok']; [|now apply step_refines].
    constructor; cbn; [done|constructor|done|constructor]. }
  destruct (step_refines h a op Hrep Hok) as [Hr He]. now split_and!.
Qed.

End VbdevList.

(** ** An instance and witnesses *)

(** The bytes dealt out to parts of the lengths of [iovs]. *)
Fixpoint refill (iovs : list (list Z)) (bytes : list Z) : list (list Z) :=
  match iovs with
  | [] => []
  | v :: iovs => take (length v) bytes :: refill iovs (drop (length v) bytes)
  end.

Lemma refill_spec iovs bytes : length bytes = length (concat iovs) ->
  map length (refill iovs bytes) = map length iovs /\ concat (refill iovs bytes) = bytes.
Proof.
  revert bytes. induction iovs as [|v iovs IH]; intros bytes Hl; cbn [concat refill map] in *.
  { destruct bytes; [done|discriminate Hl]. }
  rewrite length_app in Hl. destruct (IH (drop (length v) bytes)) as [H1 H2];
    [rewrite length_drop; lia|]. rewrite H1, H2, take_drop, length_take. split; [f_equal; lia|done].
Qed.

#[export] Program Instance toy_iov : SpdkIov := {|
  iov_gather n iovs := take (Z.to_nat n) (concat iovs);
  iov_scatter iovs data := (refill iovs (data ++ drop (length data) (concat iovs)), Zlen data)
|}.
Next Obligation. done. Qed.
Next Obligation.
  intros iovs data Hl. cbn [fst snd]. unfold Zlen in Hl.
  destruct (refill_spec iovs (data ++ drop (length data) (concat iovs))) as [H1 H2];
    [rewrite length_app, length_drop; lia|]. now split_and!.
Qed.

#[local] Instance toy_store : MetaStore mem_db := rocksdb_meta_store (fun _ => true).
#[local] Instance toy_completion : WriteCompletion.
Proof.
  refine {| write_done c := rc_targeted c <=? rc_successful c + rc_failed c;
            write_status := rc_final_status |}.
  intros c. apply Z.leb_le.
Defined.

Definition pair_vbdev : xsan_vbdev := Vbdev 1 $"vd0" 7 (Some pair_volume) 4 4.
Definition pair_io (t : bdev_io_type) : spdk_bdev_io := BdevIo t 0 1 (Some [[1; 2]; [3; 4]]).

Lemma vhost_data_path_witness :
  run_request true true (IoAnswer [] XSAN_OK) [(XSAN_OK, [])] pair_vbdev (pair_io IO_WRITE) =
    ([VCtxAlloc; VDmaAlloc 4; VWrite 7 0 4 [1; 2; 3; 4]; VDmaFree; VCtxFree; VComplete IO_SUCCESS],
     Some None) /\
  exists iovs,
    run_request true true (IoAnswer [] XSAN_OK) [(XSAN_OK, [5; 6; 7; 8])] pair_vbdev (pair_io IO_READ) =
      ([VCtxAlloc; VDmaAlloc 4; VRead 7 0 4; VIovs iovs; VDmaFree; VCtxFree; VComplete IO_SUCCESS],
       Some None) /\ concat iovs = [5; 6; 7; 8] /\ map length iovs = [2%nat; 2%nat].
Proof.
  assert (Hok : forall t, request_ok pair_vbdev (pair_io t) [[1; 2]; [3; 4]]).
  { intros t. unfold request_ok. cbn. split_and!; (lia || done || (vm_compute; done) || now eexists). }
  split.
  - exact (proj1 (vhost_data_path pair_vbdev (pair_io IO_WRITE) _ [] (Hok _)) eq_refl).
  - exact (proj2 (vhost_data_path pair_vbdev (pair_io IO_READ) _ [5; 6; 7; 8] (Hok _)) eq_refl eq_refl).
Defined.
