(* ===== verification/Cli.v ===== *)
(** * The command line tool ([src/src/main/xsan_cli.c]) and the version
    ([src/src/common/version.c])

    Parsing of the arguments, the commands and the exit status; what is printed is the
    list of lines.  The tool does not talk to a node: its answers are fixed texts. *)

From stdpp Require Import prelude strings gmap.
From Stdlib Require Import ZArith Lia.
From S2P Require Import Prelude Errors StringUtils Log.

#[local] Open Scope string_scope.
#[local] Open Scope list_scope.
#[local] Open Scope Z_scope.

Inductive command_type := CMD_NONE | CMD_VERSION | CMD_CLUSTER | CMD_VOLUME | CMD_NODE | CMD_STATS.
Inductive subcommand_type :=
  | SUBCMD_NONE | SUBCMD_LIST | SUBCMD_INFO | SUBCMD_CREATE | SUBCMD_DELETE | SUBCMD_STATUS | SUBCMD_SHOW.

(** The options the code reads; the configuration file, the server address, the replica
    count and the two flags are never set. *)
Record cli_options := Options {
  command : command_type;
  subcommand : subcommand_type;
  opt_name : option string;
  opt_size : option string
}.

Definition g_options : cli_options := Options CMD_NONE SUBCMD_NONE None None.

(** ** Version *)

Definition XSAN_VERSION_MAJOR := 1.
Definition XSAN_VERSION_MINOR := 0.
Definition XSAN_VERSION_PATCH := 0.

(** The four values stored, for the pointers that are not null; [build] is the build
    date. *)
Definition xsan_get_version (build : string) (major minor patch build_string : bool) :
    option Z * option Z * option Z * option string :=
  (if major then Some XSAN_VERSION_MAJOR else None,
   if minor then Some XSAN_VERSION_MINOR else None,
   if patch then Some XSAN_VERSION_PATCH else None,
   if build_string then Some build else None).

Definition xsan_get_version_string : string := "1.0.0".

Definition decimal (n : Z) : string := String.string_of_list_ascii (print_unsigned n).

Definition xsan_print_version (build : string) : list string :=
  match xsan_get_version build true true true true with
  | (Some major, Some minor, Some patch, Some build_str) =>
      ["XSAN Distributed Storage System";
       "Version: " +:+ decimal major +:+ "." +:+ decimal minor +:+ "." +:+ decimal patch;
       "Built: " +:+ build_str;
       "Copyright (c) 2024 XSAN Project"]
  | _ => []
  end.

(** ** Usage *)

Definition usage_line (p rest : string) : string := "  " +:+ p +:+ rest.

Definition print_usage (p : string) : list string :=
  ["Usage: " +:+ p +:+ " [COMMAND] [OPTIONS]"; "";
   "XSAN Distributed Storage System - Command Line Interface"; "";
   "Commands:";
   "  cluster      Cluster management";
   "  volume       Volume management";
   "  node         Node management";
   "  stats        Statistics and monitoring";
   "  version      Show version information"; "";
   "Global Options:";
   "  -c, --config FILE       Configuration file path";
   "  -s, --server ADDRESS    Server address (default: localhost:8080)";
   "  -v, --verbose           Verbose output";
   "  -h, --help              Show help"; "";
   "Cluster Commands:";
   usage_line p " cluster status              Show cluster status";
   usage_line p " cluster list                List all nodes";
   usage_line p " cluster info                Show cluster information"; "";
   "Volume Commands:";
   usage_line p " volume list                 List all volumes";
   usage_line p " volume info <name>          Show volume information";
   usage_line p " volume create <name> <size> Create a new volume";
   usage_line p " volume delete <name>        Delete a volume"; "";
   "Node Commands:";
   usage_line p " node list                   List all nodes";
   usage_line p " node info <id>              Show node information"; "";
   "Statistics Commands:";
   usage_line p " stats show                  Show system statistics"; "";
   "Examples:";
   usage_line p " cluster status";
   usage_line p " volume create vm-disk-01 100GB";
   usage_line p " volume list";
   usage_line p " node info node-001"; ""].

(** ** Arguments *)

(** The command and whether parsing goes on; [None] is an unknown command. *)
Definition parse_command (c : string) : option command_type :=
  if decide (c = "cluster") then Some CMD_CLUSTER
  else if decide (c = "volume") then Some CMD_VOLUME
  else if decide (c = "node") then Some CMD_NODE
  else if decide (c = "stats") then Some CMD_STATS
  else None.

Definition parse_subcommand (cmd : command_type) (sub : string) (args : list string) :
    option cli_options :=
  if decide (sub = "list") then Some (Options cmd SUBCMD_LIST None None)
  else if decide (sub = "info") then Some (Options cmd SUBCMD_INFO (args !! 0%nat) None)
  else if decide (sub = "create") then Some (Options cmd SUBCMD_CREATE (args !! 0%nat) (args !! 1%nat))
  else if decide (sub = "delete") then Some (Options cmd SUBCMD_DELETE (args !! 0%nat) None)
  else if decide (sub = "status") then Some (Options cmd SUBCMD_STATUS None None)
  else if decide (sub = "show") then Some (Options cmd SUBCMD_SHOW None None)
  else None.

(** The program name and the arguments; the result, the options and what is printed. *)
Definition parse_arguments (p : string) (argv : list string) : Z * cli_options * list string :=
  match argv with
  | [] => (-1, g_options, print_usage p)
  | c :: rest =>
      if decide (c = "version") then (0, Options CMD_VERSION SUBCMD_NONE None None, []) else
      match parse_command c with
      | Some cmd =>
          match rest with
          | [] => (1, Options cmd SUBCMD_NONE None None, [])
          | sub :: args =>
              match parse_subcommand cmd sub args with
              | Some o => (1, o, [])
              | None => (-1, Options cmd SUBCMD_NONE None None, ["Unknown subcommand: " +:+ sub])
              end
          end
      | None =>
          if decide (c = "help" \/ c = "-h") then (0, g_options, print_usage p)
          else (-1, g_options, ("Unknown command: " +:+ c) :: print_usage p)
      end
  end.

(** ** Commands *)

Definition cmd_cluster (o : cli_options) : Z * list string :=
  match subcommand o with
  | SUBCMD_STATUS =>
      (0, ["Cluster Status:"; "  Status: Online"; "  Nodes: 3"; "  Leader: node-001"; "  Health: Good"])
  | SUBCMD_LIST =>
      (0, ["Cluster Nodes:"; "  node-001  192.168.1.10:8080  Leader    Online";
           "  node-002  192.168.1.11:8080  Follower  Online";
           "  node-003  192.168.1.12:8080  Follower  Online"])
  | SUBCMD_INFO =>
      (0, ["Cluster Information:"; "  Cluster ID: xsan-cluster-001"; "  Version: 1.0.0";
           "  Created: 2024-01-01 10:00:00"; "  Total Capacity: 10.0 TB"; "  Used Capacity: 2.5 TB";
           "  Available Capacity: 7.5 TB"])
  | _ => (-1, ["Unknown cluster subcommand"])
  end.

Definition cmd_volume (o : cli_options) : Z * list string :=
  match subcommand o with
  | SUBCMD_LIST =>
      (0, ["Volumes:"; "  vm-disk-01    100GB    2 replicas    Online";
           "  vm-disk-02    200GB    2 replicas    Online"; "  vm-disk-03    500GB    3 replicas    Online"])
  | SUBCMD_INFO =>
      match opt_name o with
      | None => (-1, ["Volume name required"])
      | Some n => (0, ["Volume Information: " +:+ n; "  Size: 100GB"; "  Replicas: 2"; "  Status: Online";
                       "  Policy: high-performance"; "  Created: 2024-01-01 10:00:00"])
      end
  | SUBCMD_CREATE =>
      match opt_name o, opt_size o with
      | Some n, Some s => (0, ["Creating volume: " +:+ n +:+ " (" +:+ s +:+ ")"; "Volume created successfully"])
      | _, _ => (-1, ["Volume name and size required"])
      end
  | SUBCMD_DELETE =>
      match opt_name o with
      | None => (-1, ["Volume name required"])
      | Some n => (0, ["Deleting volume: " +:+ n; "Volume deleted successfully"])
      end
  | _ => (-1, ["Unknown volume subcommand"])
  end.

Definition cmd_node (o : cli_options) : Z * list string :=
  match subcommand o with
  | SUBCMD_LIST =>
      (0, ["Nodes:"; "  node-001  192.168.1.10:8080  Leader    Online    CPU:15% MEM:2.1GB";
           "  node-002  192.168.1.11:8080  Follower  Online    CPU:12% MEM:1.8GB";
           "  node-003  192.168.1.12:8080  Follower  Online    CPU:18% MEM:2.3GB"])
  | SUBCMD_INFO =>
      match opt_name o with
      | None => (-1, ["Node ID required"])
      | Some n => (0, ["Node Information: " +:+ n; "  Address: 192.168.1.10:8080"; "  Role: Leader";
                       "  Status: Online"; "  CPU Usage: 15%"; "  Memory Usage: 2.1GB / 16GB";
                       "  Disk Usage: 2.5TB / 10TB"; "  Uptime: 7 days"])
      end
  | _ => (-1, ["Unknown node subcommand"])
  end.

Definition cmd_stats (o : cli_options) : Z * list string :=
  match subcommand o with
  | SUBCMD_SHOW =>
      (0, ["System Statistics:"; "  Total Capacity: 10.0 TB"; "  Used Capacity: 2.5 TB (25%)";
           "  Available Capacity: 7.5 TB (75%)"; "  Total Volumes: 3"; "  Total Nodes: 3";
           "  Active Connections: 25"; "  Read IOPS: 1,250"; "  Write IOPS: 850";
           "  Read Throughput: 125 MB/s"; "  Write Throughput: 85 MB/s"])
  | _ => (-1, ["Unknown stats subcommand"])
  end.

(** [version_text] is what [print_version] prints. *)
Definition execute_command (version_text : list string) (o : cli_options) : Z * list string :=
  match command o with
  | CMD_VERSION => (0, version_text)
  | CMD_CLUSTER => cmd_cluster o
  | CMD_VOLUME => cmd_volume o
  | CMD_NODE => cmd_node o
  | CMD_STATS => cmd_stats o
  | CMD_NONE => (-1, ["No command specified"])
  end.

Definition cli_log_config : xsan_log_config :=
  LogConfig [] XSAN_LOG_LEVEL_ERROR false false 0 0 None.

(** The exit status, what is printed, and the log afterwards. *)
Definition main (version_text : list string) (p : string) (argv : list string) (g : logger) :
    Z * list string * logger :=
  let '(parse_result, o, out) := parse_arguments p argv in
  if parse_result <=? 0 then (if parse_result =? 0 then 0 else 1, out, g) else
  let g := (xsan_log_init true (Some cli_log_config) g).1 in
  let '(result, text) := execute_command version_text o in
  (if result =? 0 then 0 else 1, out ++ text, xsan_log_shutdown g).

(** * Theorems *)

(** The command lines that are answered. *)
Inductive valid_command : list string -> Prop :=
  | vc_version args : valid_command ("version" :: args)
  | vc_help args : valid_command ("help" :: args)
  | vc_h args : valid_command ("-h" :: args)
  | vc_cluster sub args : sub ∈ ["status"; "list"; "info"] -> valid_command ("cluster" :: sub :: args)
  | vc_volume_list args : valid_command ("volume" :: "list" :: args)
  | vc_volume_info name args : valid_command ("volume" :: "info" :: name :: args)
  | vc_volume_create name size args : valid_command ("volume" :: "create" :: name :: size :: args)
  | vc_volume_delete name args : valid_command ("volume" :: "delete" :: name :: args)
  | vc_node_list args : valid_command ("node" :: "list" :: args)
  | vc_node_info id args : valid_command ("node" :: "info" :: id :: args)
  | vc_stats args : valid_command ("stats" :: "show" :: args).

Definition exit_status (version_text : list string) (p : string) (argv : list string) (g : logger) : Z :=
  (main version_text p argv g).1.1.

Lemma main_parsed v p argv g :
  exit_status v p argv g =
  let '(r, o, _) := parse_arguments p argv in
  if r <=? 0 then if r =? 0 then 0 else 1
  else if (execute_command v o).1 =? 0 then 0 else 1.
Proof.
  unfold exit_status, main. destruct (parse_arguments p argv) as [[r o] out].
  destruct (r <=? 0); [done|]. now destruct (execute_command v o).
Qed.

Ltac cli_cases :=
  repeat match goal with
  | |- context [decide (?x = ?y)] => destruct (decide (x = y)); [subst|]
  | |- context [decide (?P \/ ?Q)] => destruct (decide (P \/ Q)) as [[->| ->]|]
  end.

(** A command line is answered with status 0 exactly when it has one of the documented
    forms, extra arguments being ignored; the status is 1 otherwise. *)
Theorem cli_exit_status v p argv g :
  (exit_status v p argv g = 0 <-> valid_command argv) /\
  (exit_status v p argv g = 0 \/ exit_status v p argv g = 1).
Proof.
  rewrite main_parsed. split.
  - split.
    + destruct argv as [|c rest]; [done|]. unfold parse_arguments, parse_command. cli_cases;
        try (intros; constructor); try done;
        (destruct rest as [|sub args]; [done|]); unfold parse_subcommand; cli_cases; try done;
        destruct args as [|a [|b args]]; cbn; try done; intros; constructor; set_solver.
    + intros [args|args|args|sub args Hsub|args|n args|n s args|n args|args|n args|args]; try done.
      apply list_elem_of_In in Hsub. destruct Hsub as [<-|[<-|[<-|[]]]]; done.
  - destruct (parse_arguments p argv) as [[r o] out]. destruct (r <=? 0); [destruct (r =? 0)|];
      auto. destruct (_ =? 0); auto.
Qed.

(** Parsing answers the version command itself, so its text is never printed. *)
Theorem version_prints_nothing v p args g : main v p ("version" :: args) g = (0, [], g).
Proof. done. Qed.

(** The tool leaves the log shut down and no file touched. *)
Theorem cli_log_closed v p argv f :
  let g := (main v p argv (log_start f)).2 in
  g_log_initialized g = false /\ lg_files g = f /\ lg_open g = [].
Proof.
  unfold main. destruct (parse_arguments p argv) as [[r o] out]. destruct (r <=? 0); [done|].
  now destruct (execute_command v o).
Qed.

(** The version string is the printed numbers. *)
Theorem version_consistent build :
  xsan_print_version build !! 1%nat = Some ("Version: " +:+ xsan_get_version_string).
Proof. reflexivity. Qed.
