(* ===== verification/Nvmf.v ===== *)
(** * The NVMe-oF target ([src/src/nvmf/xsan_nvmf_target.c])

    Start, stop and namespaces of the target.  The two global pointers are the state;
    the answers of SPDK are arguments and the calls to it a trace. *)

From stdpp Require Import prelude strings.
From Stdlib Require Import ZArith Lia Ascii.
From S2P Require Import Prelude Errors StringUtils VolumeMeta Cluster ConfigLoad.

(** Sizes that SPDK's headers define: the longest name, and those of the two fields of
    a transport identifier. *)
Class NvmfSizes := {
  SPDK_NVMF_NQN_MAX_LEN : Z;
  sizeof_traddr : Z;
  sizeof_trsvcid : Z
}.

Definition XSAN_DEFAULT_NVMF_NQN_PREFIX : cstring := $"nqn.2024-01.org.xsan:".
Definition XSAN_DEFAULT_NVMF_SUBSYSTEM_SERIAL : cstring := $"XSAN000000000001".
Definition XSAN_DEFAULT_NVMF_SUBSYSTEM_MODEL : cstring := $"XSAN Virtual Controller".

Inductive nvmf_event :=
  | NTgtCreate | NTgtDestroy
  | NTransportCreate
  | NSubsystemCreate (nqn : cstring)
  | NAllowAnyHost
  | NSerial (sn : cstring)
  | NModel (mn : cstring)
  | NListen (traddr trsvcid : cstring)
  | NStart
  | NAddNs (bdev : cstring) (nsid : Z) (id : option uuid)
  | NRemoveNs (nsid : Z).

(** [nt_tgt]: the target pointer is set; [nt_subsystem]: the name of the subsystem it
    points to. *)
Record nvmf := Nvmf { nt_tgt : bool; nt_subsystem : option cstring }.

Definition nvmf_start : nvmf := Nvmf false None.

Record nvmf_env := NvmfEnv {
  ne_on_thread : bool;
  ne_tgt_ok : bool;
  ne_transport_ok : bool;
  ne_subsystem_ok : bool;
  ne_start_rc : Z
}.

Section Target.
Context {NS : NvmfSizes}.

(** The name used: the default without one, otherwise its first characters. *)
Definition used_nqn (target_nqn_param : option cstring) : cstring :=
  match target_nqn_param with
  | None | Some [] => snprintf_to (SPDK_NVMF_NQN_MAX_LEN + 1) (XSAN_DEFAULT_NVMF_NQN_PREFIX ++ $"tgt1")
  | Some nqn => take (Z.to_nat SPDK_NVMF_NQN_MAX_LEN) nqn
  end.

Definition xsan_nvmf_target_init (env : nvmf_env) (target_nqn_param listen_addr listen_port_str : option cstring)
    (s : nvmf) : nvmf * xsan_error_t * list nvmf_event :=
  if nt_tgt s then (s, XSAN_OK, []) else
  if negb (ne_on_thread env) then (s, XSAN_ERROR_THREAD_CONTEXT, []) else
  match listen_addr, listen_port_str with
  | Some addr, Some port =>
      let nqn := used_nqn target_nqn_param in
      if negb (ne_tgt_ok env) then (s, XSAN_ERROR_IO, []) else
      if negb (ne_transport_ok env)
      then (Nvmf false (nt_subsystem s), XSAN_ERROR_IO, [NTgtCreate; NTgtDestroy]) else
      if negb (ne_subsystem_ok env)
      then (Nvmf false None, XSAN_ERROR_TASK_FAILED, [NTgtCreate; NTransportCreate; NTgtDestroy]) else
      (Nvmf true (Some nqn),
       if ne_start_rc env =? 0 then XSAN_OK else XSAN_ERROR_TASK_FAILED,
       [NTgtCreate; NTransportCreate; NSubsystemCreate nqn; NAllowAnyHost;
        NSerial XSAN_DEFAULT_NVMF_SUBSYSTEM_SERIAL; NModel XSAN_DEFAULT_NVMF_SUBSYSTEM_MODEL;
        NListen (copied sizeof_traddr (Some addr))
          (snprintf_to sizeof_trsvcid port)] ++
       if ne_start_rc env =? 0 then [NStart] else [])
  | _, _ => (s, XSAN_ERROR_INVALID_PARAM, [])
  end.

Definition xsan_nvmf_target_fini (s : nvmf) : nvmf * list nvmf_event :=
  if nt_tgt s then (Nvmf false None, [NTgtDestroy]) else (s, []).

End Target.

Section Namespaces.
Context {SU : SpdkUuid}.

(** [bdev_exists]: the device is found; [add_ns] is the identifier SPDK gives
    when one or none is requested, 0 for a failure. *)
Definition xsan_nvmf_target_add_namespace (bdev_exists : cstring -> bool) (add_ns : option Z -> Z)
    (bdev_name : option cstring) (nsid : Z) (volume_uuid_str : option cstring) (s : nvmf) :
    xsan_error_t * list nvmf_event :=
  if negb (nt_tgt s) || bool_decide (nt_subsystem s = None) then (XSAN_ERROR_NOT_INITIALIZED, []) else
  match bdev_name with
  | None | Some [] => (XSAN_ERROR_INVALID_PARAM, [])
  | Some name =>
      if negb (bdev_exists name) then (XSAN_ERROR_NOT_FOUND, []) else
      let id := match volume_uuid_str with
                | None | Some [] => None
                | Some u => uuid_parse u
                end in
      let actual_nsid := add_ns (if 0 <? nsid then Some nsid else None) in
      if actual_nsid =? 0 then (XSAN_ERROR_TASK_FAILED, [])
      else (XSAN_OK, [NAddNs name actual_nsid id])
  end.

Definition xsan_nvmf_target_remove_namespace (remove_rc : Z) (nsid : Z) (s : nvmf) :
    xsan_error_t * list nvmf_event :=
  if negb (nt_tgt s) || bool_decide (nt_subsystem s = None) then (XSAN_ERROR_NOT_INITIALIZED, []) else
  if nsid =? 0 then (XSAN_ERROR_INVALID_PARAM, []) else
  if negb (remove_rc =? 0) then (XSAN_ERROR_TASK_FAILED, []) else (XSAN_OK, [NRemoveNs nsid]).
End Namespaces.

(** * Theorems *)

Section Theorems.
Context {NS : NvmfSizes}.

(** Targets created and not destroyed, and transports created, in a trace. *)
Definition live_targets (t : list nvmf_event) : Z :=
  foldr (fun e n => match e with NTgtCreate => n + 1 | NTgtDestroy => n - 1 | _ => n end) 0 t.
Definition transports (t : list nvmf_event) : Z :=
  foldr (fun e n => match e with NTransportCreate => n + 1 | _ => n end) 0 t.

Inductive nvmf_op :=
  | NOpInit (env : nvmf_env) (nqn addr port : option cstring)
  | NOpFini.

Definition nvmf_step (s : nvmf) (op : nvmf_op) : nvmf * list nvmf_event :=
  match op with
  | NOpInit env nqn addr port =>
      let '(s, _, t) := xsan_nvmf_target_init env nqn addr port s in (s, t)
  | NOpFini => xsan_nvmf_target_fini s
  end.

Definition b2z (b : bool) : Z := if b then 1 else 0.

Lemma live_targets_app t1 t2 : live_targets (t1 ++ t2) = live_targets t1 + live_targets t2.
Proof.
  unfold live_targets. induction t1 as [|e t1 IH]; [done|]. cbn [app foldr]. rewrite IH. destruct e; lia.
Qed.

Lemma nvmf_step_targets s op :
  live_targets (nvmf_step s op).2 + b2z (nt_tgt s) = b2z (nt_tgt (nvmf_step s op).1) /\
  (nt_tgt s = (bool_decide (nt_subsystem s <> None)) ->
   nt_tgt (nvmf_step s op).1 = bool_decide (nt_subsystem (nvmf_step s op).1 <> None)).
Proof.
  destruct s as [tgt sub]. destruct op as [env nqn addr port|]; cbn [nvmf_step].
  - unfold xsan_nvmf_target_init. cbn [nt_tgt nt_subsystem]. destruct tgt; [done|].
    destruct (ne_on_thread env); [|done]. destruct addr, port; try done. cbn [negb].
    destruct (ne_tgt_ok env); [|done]. destruct (ne_transport_ok env); [|done].
    destruct (ne_subsystem_ok env); [|done]. cbn [negb]. now destruct (ne_start_rc env =? 0).
  - unfold xsan_nvmf_target_fini. cbn [nt_tgt nt_subsystem]. now destruct tgt.
Qed.

Definition run_nvmf (s : nvmf) (ops : list nvmf_op) : nvmf * list nvmf_event :=
  foldl (fun '(s, t) op => let '(s', t') := nvmf_step s op in (s', t ++ t')) (s, []) ops.

Lemma run_nvmf_snoc s ops op :
  run_nvmf s (ops ++ [op]) =
  ((nvmf_step (run_nvmf s ops).1 op).1, (run_nvmf s ops).2 ++ (nvmf_step (run_nvmf s ops).1 op).2).
Proof.
  unfold run_nvmf. rewrite foldl_app. cbn. destruct (foldl _ _ ops) as [s1 t1]. cbn.
  now destruct (nvmf_step s1 op).
Qed.

(** Over any sequence of starts and stops at most one target is live, exactly when the
    pointer to it is set, and then so is that to its subsystem. *)
Theorem nvmf_single_target ops :
  let '(s, t) := run_nvmf nvmf_start ops in
  live_targets t = b2z (nt_tgt s) /\ nt_tgt s = bool_decide (nt_subsystem s <> None).
Proof.
  induction ops as [|op ops IH] using rev_ind; [done|]. rewrite run_nvmf_snoc.
  destruct (run_nvmf nvmf_start ops) as [s t]. cbn [fst snd]. destruct IH as [Hl Hs].
  destruct (nvmf_step_targets s op) as [Hstep Hsub]. rewrite live_targets_app, Hl.
  split; [lia|now apply Hsub].
Qed.

(** A start whose subsystem cannot be started reports an error and keeps the target;
    the next start then reports success, although the subsystem never runs. *)
Theorem failed_start_then_ok env nqn addr port env' :
  ne_on_thread env = true -> ne_tgt_ok env = true -> ne_transport_ok env = true ->
  ne_subsystem_ok env = true -> ne_start_rc env <> 0 ->
  exists s t, xsan_nvmf_target_init env nqn (Some addr) (Some port) nvmf_start =
      (s, XSAN_ERROR_TASK_FAILED, t) /\ NStart ∉ t /\
    xsan_nvmf_target_init env' nqn (Some addr) (Some port) s = (s, XSAN_OK, []).
Proof.
  intros H1 H2 H3 H4 H5. unfold xsan_nvmf_target_init at 1. cbn [nt_tgt nvmf_start].
  rewrite H1, H2, H3, H4, (proj2 (Z.eqb_neq _ _) H5). cbn [negb].
  do 2 eexists. split; [reflexivity|]. split; [|reflexivity].
  rewrite app_nil_r. intros Hin%list_elem_of_In. cbn in Hin. intuition discriminate.
Qed.

(** Transports are created and never destroyed: each start after a stop leaves one
    more behind. *)
Theorem transports_accumulate env nqn addr port n :
  ne_on_thread env = true -> ne_tgt_ok env = true -> ne_transport_ok env = true ->
  ne_subsystem_ok env = true ->
  transports (run_nvmf nvmf_start
    (concat (replicate n [NOpInit env nqn (Some addr) (Some port); NOpFini]))).2 = Z.of_nat n.
Proof.
  intros H1 H2 H3 H4.
  assert (Happ : forall t1 t2, transports (t1 ++ t2) = transports t1 + transports t2).
  { unfold transports. induction t1 as [|e t1 IH]; intros t2; [done|]. cbn [app foldr]. rewrite IH.
    destruct e; lia. }
  assert (Hrun : forall n,
    let r := run_nvmf nvmf_start (concat (replicate n [NOpInit env nqn (Some addr) (Some port); NOpFini])) in
    nt_tgt r.1 = false /\ transports r.2 = Z.of_nat n); [|apply Hrun].
  clear n. induction n as [|n IH]; [done|].
  replace (S n) with (n + 1)%nat by lia. rewrite replicate_add, concat_app. cbn [replicate concat app].
  change [NOpInit env nqn (Some addr) (Some port); NOpFini]
    with ([NOpInit env nqn (Some addr) (Some port)] ++ [NOpFini]).
  rewrite app_assoc, !run_nvmf_snoc.
  destruct (run_nvmf nvmf_start _) as [s t]. cbn [fst snd] in IH |- *. destruct IH as [Hs Ht].
  cbn [nvmf_step]. unfold xsan_nvmf_target_init. rewrite Hs, H1, H2, H3, H4. cbn [negb].
  rewrite !Happ, Ht. destruct (ne_start_rc env =? 0); cbn; split; (done || lia).
Qed.
End Theorems.
