(* ===== verification/SelfTest.v ===== *)
(** * The write and read sequence of the node ([src/src/main/xsan_node.c], lines 35-164)

    A test of a volume through the asynchronous interface: two writes and two reads that
    one callback steers through its phases.  The volume layer answers a submission with a
    code and may call the callback before it returns or later; the answers are arguments.
    The test is a trace of what it allocates, frees and submits; it has no result while it
    waits for a callback that does not come, or once it uses a buffer that is gone. *)

From stdpp Require Import prelude strings.
From Stdlib Require Import ZArith Lia Ascii.
From S2P Require Import Prelude Errors StringUtils VolumeMeta Nvmf.

Inductive test_phase :=
  | PHASE_IDLE | PHASE_WRITE1 | PHASE_READ1 | PHASE_VERIFY1_DONE | PHASE_WRITE2 | PHASE_READ2
  | PHASE_VERIFY2_DONE | PHASE_ALL_COMPLETED | PHASE_FAILED.

#[export] Instance test_phase_eq_dec : EqDecision test_phase.
Proof. solve_decision. Defined.

(** The four buffers. *)
Inductive test_buffer := BWrite1 | BRead1 | BWrite2 | BRead2.

#[export] Instance test_buffer_eq_dec : EqDecision test_buffer.
Proof. solve_decision. Defined.

Record test_ctrl := Ctrl {
  tc_volume : uuid;
  tc_block_size : Z;
  tc_buffers : test_buffer -> option (list Z);
  tc_phase : test_phase;
  tc_outstanding : Z;
  tc_finished : bool;
  tc_simulate : bool              (* [g_simulate_replica_local_write_failure] *)
}.

Definition ctrl_start : test_ctrl := Ctrl 0 0 (fun _ => None) PHASE_IDLE 0 false false.

Definition set_phase (p : test_phase) (c : test_ctrl) : test_ctrl :=
  Ctrl (tc_volume c) (tc_block_size c) (tc_buffers c) p (tc_outstanding c) (tc_finished c) (tc_simulate c).
Definition add_outstanding (d : Z) (c : test_ctrl) : test_ctrl :=
  Ctrl (tc_volume c) (tc_block_size c) (tc_buffers c) (tc_phase c) (tc_outstanding c + d) (tc_finished c)
    (tc_simulate c).
Definition set_buffer (b : test_buffer) (v : option (list Z)) (c : test_ctrl) : test_ctrl :=
  Ctrl (tc_volume c) (tc_block_size c) (fun x => if decide (x = b) then v else tc_buffers c x) (tc_phase c)
    (tc_outstanding c) (tc_finished c) (tc_simulate c).
Definition set_simulate (f : bool) (c : test_ctrl) : test_ctrl :=
  Ctrl (tc_volume c) (tc_block_size c) (tc_buffers c) (tc_phase c) (tc_outstanding c) (tc_finished c) f.
Definition set_finished (c : test_ctrl) : test_ctrl :=
  Ctrl (tc_volume c) (tc_block_size c) (tc_buffers c) (tc_phase c) (tc_outstanding c) true (tc_simulate c).
Definition set_volume (id : uuid) (bs : Z) (c : test_ctrl) : test_ctrl :=
  Ctrl id bs (tc_buffers c) (tc_phase c) (tc_outstanding c) (tc_finished c) (tc_simulate c).

Inductive test_event :=
  | TAlloc (b : test_buffer)
  | TFree (b : test_buffer)
  | TWrite (id : uuid) (off len : Z) (data : list Z)
  | TRead (id : uuid) (off len : Z)
  | TFinish (p : test_phase).

Definition free_buffer (b : test_buffer) (c : test_ctrl) : traced test_event test_ctrl :=
  let* _ := match tc_buffers c b with Some _ => temit (TFree b) | None => tret tt end in
  tret (set_buffer b None c).

(** [_finalize_async_io_test_sequence]. *)
Definition finalize_async_io_test_sequence (c : test_ctrl) : traced test_event test_ctrl :=
  if (tc_outstanding c =? 0) && negb (tc_finished c) then
    let* c := free_buffer BWrite1 c in
    let* c := free_buffer BRead1 c in
    let* c := free_buffer BWrite2 c in
    let* c := free_buffer BRead2 c in
    let* _ := temit (TFinish (tc_phase c)) in
    tret (set_finished c)
  else tret c.

Section Sequence.
Context {SU : SpdkUuid}.

(** The bytes of a text in a block of [bs] bytes, the rest filled with a pattern. *)
Definition fill_pattern (bs : Z) (text : cstring) (modulus shift : Z) : list Z :=
  let head := snprintf_to bs text in
  map code head ++ map (fun k => wrap 8 (k mod modulus + shift)) (seqZ (Zlen head) (bs - Zlen head)).

Definition run1_data (id : uuid) (bs : Z) : list Z :=
  fill_pattern bs ($"XSAN Async Test RUN 1! Vol " ++ uuid_fmt id) 250 5.
Definition run2_data (id : uuid) (bs : Z) : list Z :=
  fill_pattern bs ($"XSAN Async Test RUN 2 (expect replica fail) Vol " ++ uuid_fmt id) 240 10.

(** An answer of the volume layer to a submission: the call of the callback before it
    returns, with the status and what a read left in its buffer, and the code. *)
Record vol_answer := VolAnswer { va_call : option (xsan_error_t * list Z); va_code : xsan_error_t }.

(** No more answers: the submission is accepted and nothing is heard of it. *)
Definition next_answer (script : list vol_answer) : vol_answer * list vol_answer :=
  match script with
  | a :: script => (a, script)
  | [] => (VolAnswer None XSAN_OK, [])
  end.

(** A submission; [cb] is the callback.  The buffer of a read, if the callback is
    called, holds the answer. *)
Definition submit (cb : xsan_error_t -> test_ctrl -> list vol_answer -> traced test_event (test_ctrl * list vol_answer))
    (b : option test_buffer) (e : test_event) (c : test_ctrl) (script : list vol_answer) :
    traced test_event (test_ctrl * list vol_answer * xsan_error_t) :=
  let* _ := temit e in
  let '(a, script) := next_answer script in
  match va_call a with
  | None => tret (c, script, va_code a)
  | Some (status, data) =>
      let c := match b with Some b => set_buffer b (Some data) c | None => c end in
      let* r := cb status c script in
      tret (r.1, r.2, va_code a)
  end.

(** What the callback leaves to finish: a failed submission, and the end. *)
Definition after_phase (r : test_ctrl * list vol_answer * xsan_error_t) :
    traced test_event (test_ctrl * list vol_answer) :=
  let '(c, script, submit_err) := r in
  let c := if negb (submit_err =? XSAN_OK) && (0 <? tc_outstanding c) && bool_decide (tc_phase c <> PHASE_FAILED)
           then set_phase PHASE_FAILED (add_outstanding (-1) c) else c in
  let* c := finalize_async_io_test_sequence c in
  tret (c, script).

(** [_async_io_test_phase_complete_cb]; [fuel] bounds the callbacks inside callbacks. *)
Fixpoint async_io_test_phase_complete_cb (fuel : nat) (status : xsan_error_t) (c : test_ctrl)
    (script : list vol_answer) : traced test_event (test_ctrl * list vol_answer) :=
  match fuel with
  | O => tundef
  | S fuel =>
      let c := add_outstanding (-1) c in
      if negb (status =? XSAN_OK) && bool_decide (tc_phase c <> PHASE_WRITE2) &&
         (bool_decide (tc_phase c <> PHASE_READ2) && (status =? XSAN_ERROR_NOT_FOUND)) then
        let* c := finalize_async_io_test_sequence (set_phase PHASE_FAILED c) in
        tret (c, script)
      else
      let cb := async_io_test_phase_complete_cb fuel in
      let* r :=
        match tc_phase c with
        | PHASE_WRITE1 =>
            submit cb (Some BRead1) (TRead (tc_volume c) 0 (tc_block_size c))
              (add_outstanding 1 (set_phase PHASE_READ1 c)) script
        | PHASE_READ1 =>
            match tc_buffers c BWrite1, tc_buffers c BRead1 with
            | Some w, Some r =>
                if bool_decide (take (Z.to_nat (tc_block_size c)) w = take (Z.to_nat (tc_block_size c)) r) then
                  let data := run2_data (tc_volume c) (tc_block_size c) in
                  let c := add_outstanding 1 (set_phase PHASE_WRITE2 (set_simulate true c)) in
                  if bool_decide (tc_buffers c BWrite2 = None) then tundef else
                  submit cb None (TWrite (tc_volume c) 0 (tc_block_size c) data)
                    (set_buffer BWrite2 (Some data) c) script
                else tret (set_phase PHASE_FAILED c, script, XSAN_OK)
            | _, _ => tundef
            end
        | PHASE_WRITE2 =>
            submit cb (Some BRead2) (TRead (tc_volume c) 0 (tc_block_size c))
              (add_outstanding 1 (set_phase PHASE_READ2 (set_simulate false c))) script
        | PHASE_READ2 =>
            if negb (status =? XSAN_OK) then tret (set_phase PHASE_FAILED c, script, XSAN_OK) else
            match tc_buffers c BWrite2, tc_buffers c BRead2 with
            | Some w, Some r =>
                tret (set_phase
                  (if bool_decide (take (Z.to_nat (tc_block_size c)) w = take (Z.to_nat (tc_block_size c)) r)
                   then PHASE_VERIFY2_DONE else PHASE_FAILED) c, script, XSAN_OK)
            | _, _ => tundef
            end
        | _ => tret (c, script, XSAN_OK)
        end in
      after_phase r
  end.

(** Phases only go forward, so that at most four callbacks are active. *)
Definition TEST_FUEL : nat := 4.

Record start_env := StartEnv {
  sa_disk : bool;                 (* the group has a first disk with a name *)
  sa_buffers : test_buffer -> bool
}.

Definition alloc_buffer (env : start_env) (bs : Z) (b : test_buffer) (c : test_ctrl) :
    traced test_event test_ctrl :=
  if sa_buffers env b
  then let* _ := temit (TAlloc b) in tret (set_buffer b (Some (replicate (Z.to_nat bs) 0)) c)
  else tret (set_buffer b None c).

(** The code after the first submission. *)
Definition after_start (r : test_ctrl * list vol_answer * xsan_error_t) :
    traced test_event (test_ctrl * list vol_answer) :=
  let '(c, script, err) := r in
  if negb (err =? XSAN_OK) then
    let* c := finalize_async_io_test_sequence (set_phase PHASE_FAILED (add_outstanding (-1) c)) in
    tret (c, script)
  else tret (c, script).

(** Filling the buffers and submitting the first write. *)
Definition begin_sequence (vol : xsan_volume) (c : test_ctrl) (script : list vol_answer) :
    traced test_event (test_ctrl * list vol_answer) :=
  let bs := v_block_size vol in
  let data := run1_data (v_id vol) bs in
  let c := set_buffer BWrite1 (Some data) c in
  let c := set_buffer BRead1 (Some (replicate (Z.to_nat bs) 221)) c in
  let c := set_buffer BRead2 (Some (replicate (Z.to_nat bs) 238)) c in
  let* r := submit (async_io_test_phase_complete_cb TEST_FUEL) None (TWrite (v_id vol) 0 bs data)
              (add_outstanding 1 (set_phase PHASE_WRITE1 c)) script in
  after_start r.

(** [_start_async_io_test_on_volume]. *)
Definition start_async_io_test_on_volume (env : start_env) (vol : option xsan_volume) (c : test_ctrl)
    (script : list vol_answer) : traced test_event (test_ctrl * list vol_answer) :=
  let finish c := let* c := finalize_async_io_test_sequence c in tret (c, script) in
  match vol with
  | None => finish c
  | Some vol =>
      if v_block_size vol =? 0 then finish c else
      let c := set_volume (v_id vol) (v_block_size vol) c in
      if negb (sa_disk env) then finish c else
      let* c := alloc_buffer env (v_block_size vol) BWrite1 c in
      let* c := alloc_buffer env (v_block_size vol) BRead1 c in
      let* c := alloc_buffer env (v_block_size vol) BWrite2 c in
      let* c := alloc_buffer env (v_block_size vol) BRead2 c in
      if negb (sa_buffers env BWrite1 && sa_buffers env BRead1 && sa_buffers env BWrite2 && sa_buffers env BRead2)
      then finish c else begin_sequence vol c script
  end.

(** The data of a read that is answered later. *)
Definition read_answer (data : list Z) (c : test_ctrl) : test_ctrl :=
  match tc_phase c with
  | PHASE_READ1 => set_buffer BRead1 (Some data) c
  | PHASE_READ2 => set_buffer BRead2 (Some data) c
  | _ => c
  end.

(** The callbacks that come after the submissions returned, one at a time while an I/O
    is outstanding; without one, the test is not finished. *)
Fixpoint later_callbacks (later : list (xsan_error_t * list Z)) (c : test_ctrl) (script : list vol_answer) :
    traced test_event test_ctrl :=
  if tc_outstanding c =? 0 then tret c else
  match later with
  | [] => tundef
  | (status, data) :: later =>
      let* r := async_io_test_phase_complete_cb TEST_FUEL status (read_answer data c) script in
      later_callbacks later r.1 r.2
  end.

Definition run_sequence (env : start_env) (vol : option xsan_volume) (script : list vol_answer)
    (later : list (xsan_error_t * list Z)) : traced test_event test_ctrl :=
  let* r := start_async_io_test_on_volume env vol ctrl_start script in
  later_callbacks later r.1 r.2.

(** * Theorems *)

(** ** The sequence ends *)

(** The I/O submitted in a trace, and everything else. *)
Definition is_io (e : test_event) : bool := match e with TWrite _ _ _ _ | TRead _ _ _ => true | _ => false end.
Definition ios (t : list test_event) : list test_event := List.filter is_io t.
Definition effects (t : list test_event) : list test_event := List.filter (fun e => negb (is_io e)) t.

Lemma ios_app t1 t2 : ios (t1 ++ t2) = ios t1 ++ ios t2.
Proof. apply List.filter_app. Qed.
Lemma effects_app t1 t2 : effects (t1 ++ t2) = effects t1 ++ effects t2.
Proof. apply List.filter_app. Qed.

Definition all_buffers : list test_buffer := [BWrite1; BRead1; BWrite2; BRead2].

(** The I/O that is still to come in a phase. *)
Definition remaining (c : test_ctrl) : list test_event :=
  let id := tc_volume c in
  let bs := tc_block_size c in
  match tc_phase c with
  | PHASE_WRITE1 => [TRead id 0 bs; TWrite id 0 bs (run2_data id bs); TRead id 0 bs]
  | PHASE_READ1 => [TWrite id 0 bs (run2_data id bs); TRead id 0 bs]
  | PHASE_WRITE2 => [TRead id 0 bs]
  | _ => []
  end.

Definition rank (p : test_phase) : nat :=
  match p with PHASE_WRITE1 => 4 | PHASE_READ1 => 3 | PHASE_WRITE2 => 2 | PHASE_READ2 => 1 | _ => 0 end.

(** An I/O is outstanding; the test is over. *)
Record waiting (c : test_ctrl) : Prop := {
  wt_rank : (0 < rank (tc_phase c))%nat;
  wt_outstanding : tc_outstanding c = 1;
  wt_finished : tc_finished c = false;
  wt_buffers : forall b, is_Some (tc_buffers c b)
}.

Record over (c : test_ctrl) : Prop := {
  ov_outstanding : tc_outstanding c = 0;
  ov_finished : tc_finished c = true;
  ov_buffers : forall b, tc_buffers c b = None
}.

(** The volume layer does not call the callback of an I/O it refuses. *)
Definition answer_ok (a : vol_answer) : Prop := va_code a = XSAN_OK \/ va_call a = None.

(** What a step leads to: waiting for an I/O of a later phase, below [n], or the end;
    [rem] is the I/O still to come before the step. *)
Definition progresses (n : nat) (rem : list test_event) (id : uuid) (bs : Z)
    (x : traced test_event (test_ctrl * list vol_answer)) : Prop :=
  exists t c' script', x = (t, Some (c', script')) /\ Forall answer_ok script' /\
    tc_volume c' = id /\ tc_block_size c' = bs /\
    ((waiting c' /\ (rank (tc_phase c') < n)%nat /\ effects t = [] /\ ios t ++ remaining c' = rem) \/
     (over c' /\ tc_phase c' ∈ [PHASE_VERIFY2_DONE; PHASE_FAILED] /\
      effects t = map TFree all_buffers ++ [TFinish (tc_phase c')] /\ ios t `prefix_of` rem)).

Lemma free_buffer_spec b c :
  free_buffer b c = (if tc_buffers c b then [TFree b] else [], Some (set_buffer b None c)).
Proof. unfold free_buffer. now destruct (tc_buffers c b). Qed.

(** The buffers that are there. *)
Definition live_buffers (c : test_ctrl) : list test_buffer :=
  List.filter (fun b => if tc_buffers c b then true else false) all_buffers.

Lemma finalize_spec c :
  tc_outstanding c = 0 -> tc_finished c = false ->
  exists c', finalize_async_io_test_sequence c =
      (map TFree (live_buffers c) ++ [TFinish (tc_phase c)], Some c') /\ over c' /\ tc_phase c' = tc_phase c /\
    tc_volume c' = tc_volume c /\ tc_block_size c' = tc_block_size c.
Proof.
  intros Ho Hf. unfold finalize_async_io_test_sequence. rewrite Ho, Hf. cbn [Z.eqb negb andb].
  rewrite free_buffer_spec. cbn [tbind]. rewrite free_buffer_spec. cbn [tbind].
  rewrite free_buffer_spec. cbn [tbind]. rewrite free_buffer_spec. cbn [tbind].
  eexists. split.
  - cbn [fst snd temit tret]. f_equal. unfold live_buffers. cbn [List.filter all_buffers].
    change (tc_buffers (set_buffer BWrite1 None c) BRead1) with (tc_buffers c BRead1).
    change (tc_buffers (set_buffer BRead1 None (set_buffer BWrite1 None c)) BWrite2) with (tc_buffers c BWrite2).
    change (tc_buffers (set_buffer BWrite2 None (set_buffer BRead1 None (set_buffer BWrite1 None c))) BRead2)
      with (tc_buffers c BRead2).
    now destruct (tc_buffers c BWrite1), (tc_buffers c BRead1), (tc_buffers c BWrite2), (tc_buffers c BRead2).
  - split; [|done]. constructor; [done|done|]. now intros [].
Qed.

Lemma finalize_over c :
  tc_outstanding c = 0 -> tc_finished c = false -> (forall b, is_Some (tc_buffers c b)) ->
  exists c', finalize_async_io_test_sequence c =
      (map TFree all_buffers ++ [TFinish (tc_phase c)], Some c') /\ over c' /\ tc_phase c' = tc_phase c /\
    tc_volume c' = tc_volume c /\ tc_block_size c' = tc_block_size c.
Proof.
  intros Ho Hf Hb. destruct (finalize_spec c Ho Hf) as (c' & Hfin & H). exists c'. split; [|done].
  rewrite Hfin. do 3 f_equal. unfold live_buffers, all_buffers. cbn [List.filter].
  destruct (Hb BWrite1) as [? ->], (Hb BRead1) as [? ->], (Hb BWrite2) as [? ->], (Hb BRead2) as [? ->]. done.
Qed.

(** Finalising does nothing while an I/O is outstanding, or a second time. *)
Lemma finalize_idle c :
  tc_outstanding c <> 0 \/ tc_finished c = true -> finalize_async_io_test_sequence c = tret c.
Proof.
  intros H. unfold finalize_async_io_test_sequence.
  destruct (Z.eqb_spec (tc_outstanding c) 0), (tc_finished c); cbn; try done. now destruct H.
Qed.

Lemma waiting_set_buffer b v c : waiting c -> waiting (set_buffer b (Some v) c).
Proof.
  intros [H1 H2 H3 H4]. constructor; try done. intros x. cbn. destruct (decide (x = b)); [eauto|apply H4].
Qed.

(** What remains to be done when a submission returned with a code. *)
Definition settles (post : test_ctrl * list vol_answer * xsan_error_t -> traced test_event (test_ctrl * list vol_answer)) :
    Prop :=
  (forall c script, tc_outstanding c <> 0 \/ tc_finished c = true -> post (c, script, XSAN_OK) = tret (c, script)) /\
  (forall c script e, e <> XSAN_OK -> tc_outstanding c = 1 -> tc_phase c <> PHASE_FAILED ->
     post (c, script, e) =
       let* c := finalize_async_io_test_sequence (set_phase PHASE_FAILED (add_outstanding (-1) c)) in tret (c, script)).

Lemma after_phase_settles : settles after_phase.
Proof.
  split.
  - intros c script H. unfold after_phase. cbn [Z.eqb negb andb]. now rewrite finalize_idle.
  - intros c script e He Ho Hp. unfold after_phase.
    now rewrite (proj2 (Z.eqb_neq _ _) He), Ho, bool_decide_eq_true_2.
Qed.

(** An I/O [e] submitted with [c] waiting for it. *)
Lemma submit_progresses post cb b e n c script :
  settles post ->
  (forall st c' script, waiting c' -> Forall answer_ok script -> tc_phase c' = tc_phase c ->
     progresses (rank (tc_phase c')) (remaining c') (tc_volume c') (tc_block_size c') (cb st c' script)) ->
  waiting c -> Forall answer_ok script -> is_io e = true -> (rank (tc_phase c) < n)%nat ->
  progresses n (e :: remaining c) (tc_volume c) (tc_block_size c)
    (let* r := submit cb b e c script in post r).
Proof.
  intros [Hok Herr] Hcb Hw Hs He Hr. pose proof Hw as [W1 W2 W3 W4]. unfold submit.
  assert (Ha : answer_ok (next_answer script).1 /\ Forall answer_ok (next_answer script).2).
  { destruct Hs; cbn; [split; [now left|constructor]|done]. }
  destruct (next_answer script) as [a script1]. cbn [fst snd] in Ha. destruct Ha as [Ha Hs1].
  assert (Hio : ios [e] = [e]) by (cbn; now rewrite He). assert (Hef : effects [e] = []) by (cbn; now rewrite He).
  destruct (va_call a) as [[st data]|] eqn:Hcall.
  - destruct Ha as [Hcode|]; [|congruence].
    set (c2 := match b with Some b => set_buffer b (Some data) c | None => c end).
    assert (Hw2 : waiting c2) by (unfold c2; destruct b; [now apply waiting_set_buffer|done]).
    assert (Hp2 : tc_phase c2 = tc_phase c) by (unfold c2; now destruct b).
    assert (Hr2 : remaining c2 = remaining c) by (unfold c2; now destruct b).
    destruct (Hcb st c2 script1 Hw2 Hs1 Hp2) as (t & c3 & script3 & Hc & Hs3 & Hv3 & Hb3 & Hor).
    rewrite Hc, Hcode. cbn [tbind temit tret fst snd].
    rewrite Hok by (destruct Hor as [([_ ->] & _)|([_ ->] & _)]; [now left|now right]).
    exists (e :: t), c3, script3. split; [cbn; now rewrite !app_nil_r|].
    split_and!; [done|rewrite Hv3; unfold c2; now destruct b|rewrite Hb3; unfold c2; now destruct b|].
    change (e :: t) with ([e] ++ t). rewrite ios_app, effects_app, Hio, Hef. cbn [app]. rewrite Hp2, Hr2 in Hor.
    destruct Hor as [(Hw3 & Hr3 & Het & Hit)|(Ho3 & Hp3 & Het & Hit)].
    + left. split_and!; [done|lia|done|]. now rewrite Hit.
    + right. split_and!; [done|done|done|]. now apply prefix_cons.
  - cbn [tbind temit tret fst snd]. destruct (Z.eqb_spec (va_code a) XSAN_OK) as [Hcode|Hcode].
    + rewrite Hcode, Hok by (left; now rewrite W2). exists [e], c, script1.
      split_and!; [done..|]. left. rewrite Hio, Hef. now split_and!.
    + rewrite Herr; [|done|done|intros Hf; rewrite Hf in W1; cbn in W1; lia].
      destruct (finalize_over (set_phase PHASE_FAILED (add_outstanding (-1) c))) as (c' & Hf & Ho & Hp & Hv' & Hb').
      { cbn. lia. } { done. } { done. }
      rewrite Hf. cbn [tbind tret fst snd]. rewrite app_nil_r.
      exists ([e] ++ map TFree all_buffers ++ [TFinish PHASE_FAILED]), c', script1.
      cbn in Hp, Hv', Hb'. split_and!; [done|done|congruence|congruence|]. right.
      rewrite ios_app, effects_app, Hio, Hef, Hp. split_and!; [done|set_solver|done|].
      cbn. apply prefix_cons, prefix_nil.
Qed.

(** A test that ends in the callback. *)
Lemma finish_progresses n rem c script p :
  tc_outstanding c = 0 -> tc_finished c = false -> (forall b, is_Some (tc_buffers c b)) ->
  Forall answer_ok script -> p ∈ [PHASE_VERIFY2_DONE; PHASE_FAILED] ->
  progresses n rem (tc_volume c) (tc_block_size c)
    (let* c := finalize_async_io_test_sequence (set_phase p c) in tret (c, script)).
Proof.
  intros Ho Hf Hb Hs Hp.
  destruct (finalize_over (set_phase p c) Ho Hf Hb) as (c' & Hfin & Hov & Hp' & Hv' & Hb').
  rewrite Hfin. cbn [tbind tret fst snd]. rewrite app_nil_r. eexists _, c', script. split; [reflexivity|].
  cbn in Hp', Hv', Hb'. split_and!; [done|done|done|]. right. rewrite Hp'.
  split_and!; [done|done|done|apply prefix_nil].
Qed.

Lemma phase_cb_progresses fuel st c script :
  (rank (tc_phase c) <= fuel)%nat -> waiting c -> Forall answer_ok script ->
  progresses (rank (tc_phase c)) (remaining c) (tc_volume c) (tc_block_size c)
    (async_io_test_phase_complete_cb fuel st c script).
Proof.
  revert st c script. induction fuel as [|fuel IH]; intros st c script Hr Hw Hs.
  { destruct Hw. lia. }
  pose proof Hw as [W1 W2 W3 W4]. cbn [async_io_test_phase_complete_cb].
  set (c1 := add_outstanding (-1) c). assert (Ho1 : tc_outstanding c1 = 0) by (cbn; lia).
  destruct (_ && _ && _); [apply (finish_progresses _ _ c1); done || set_solver|].
  assert (Hend : forall n rem p, p ∈ [PHASE_VERIFY2_DONE; PHASE_FAILED] ->
    progresses n rem (tc_volume c) (tc_block_size c) (let* r := tret (set_phase p c1, script, XSAN_OK) in after_phase r)).
  { intros n rem p Hp. rewrite tbind_ret. unfold after_phase. cbn [Z.eqb negb andb]. now apply (finish_progresses _ _ c1). }
  assert (Hgo : forall e b (c2 : test_ctrl), waiting c2 -> (rank (tc_phase c2) < rank (tc_phase c))%nat ->
    is_io e = true -> progresses (rank (tc_phase c)) (e :: remaining c2) (tc_volume c2) (tc_block_size c2)
      (let* r := submit (async_io_test_phase_complete_cb fuel) b e c2 script in after_phase r)).
  { intros e b c2 Hw2 Hr2 He. apply submit_progresses; try done; [apply after_phase_settles|].
    intros st' c' script' Hw' Hs' Hp'. apply IH; [rewrite Hp'; lia|done|done]. }
  change (tc_phase c1) with (tc_phase c). change (tc_buffers c1) with (tc_buffers c).
  unfold remaining. unfold remaining in Hgo.
  destruct (W4 BWrite1) as [w1 HW1], (W4 BRead1) as [r1 HR1], (W4 BWrite2) as [w2 HW2], (W4 BRead2) as [r2 HR2].
  destruct (tc_phase c) eqn:Hph; cbn [rank] in W1; try lia.
  - apply (Hgo _ (Some BRead1) (add_outstanding 1 (set_phase PHASE_READ1 c1))); [|cbn; lia|done].
    constructor; [cbn; lia|cbn; lia|done|exact W4].
  - rewrite HW1, HR1. case_bool_decide; [|apply Hend; set_solver].
    rewrite bool_decide_eq_false_2 by (cbn; congruence).
    apply (Hgo _ None (set_buffer BWrite2 _ (add_outstanding 1 (set_phase PHASE_WRITE2 (set_simulate true c1)))));
      [|cbn; lia|done].
    apply waiting_set_buffer. constructor; [cbn; lia|cbn; lia|done|exact W4].
  - apply (Hgo _ (Some BRead2) (add_outstanding 1 (set_phase PHASE_READ2 (set_simulate false c1)))); [|cbn; lia|done].
    constructor; [cbn; lia|cbn; lia|done|exact W4].
  - destruct (negb _); [apply Hend; set_solver|]. rewrite HW2, HR2.
    destruct (bool_decide _); apply Hend; set_solver.
Qed.

(** The I/O of a complete run. *)
Definition planned (vol : option xsan_volume) : list test_event :=
  match vol with
  | Some v =>
      let id := v_id v in
      let bs := v_block_size v in
      [TWrite id 0 bs (run1_data id bs); TRead id 0 bs; TWrite id 0 bs (run2_data id bs); TRead id 0 bs]
  | None => []
  end.

(** A run that is over: each buffer that was allocated is freed once, after which the end
    is reported once, and the I/O is a beginning of the plan. *)
Definition run_over (vol : option xsan_volume) (t : list test_event) (c : test_ctrl) : Prop :=
  over c /\ ios t `prefix_of` planned vol /\
  exists bs, bs `sublist_of` all_buffers /\
    effects t = map TAlloc bs ++ map TFree bs ++ [TFinish (tc_phase c)].

Lemma read_answer_waiting data c :
  waiting c -> waiting (read_answer data c) /\ tc_phase (read_answer data c) = tc_phase c /\
    remaining (read_answer data c) = remaining c.
Proof.
  intros Hw. unfold read_answer. destruct (tc_phase c) eqn:Hp; (split; [(now apply waiting_set_buffer) || done|]);
    unfold remaining; cbn; now rewrite ?Hp.
Qed.

Lemma later_callbacks_none later c script : tc_outstanding c = 0 -> later_callbacks later c script = tret c.
Proof. intros Ho. destruct later as [|[]]; cbn [later_callbacks]; now rewrite Ho. Qed.

Lemma later_callbacks_cons st data later c script :
  tc_outstanding c = 1 ->
  later_callbacks ((st, data) :: later) c script =
  let* r := async_io_test_phase_complete_cb TEST_FUEL st (read_answer data c) script in
  later_callbacks later r.1 r.2.
Proof. intros Ho. cbn [later_callbacks]. now rewrite Ho. Qed.

Lemma later_callbacks_end vol t0 later c script :
  (rank (tc_phase c) <= length later)%nat -> Forall answer_ok script -> waiting c ->
  effects t0 = map TAlloc all_buffers -> ios t0 ++ remaining c = planned vol ->
  exists t c', later_callbacks later c script = (t, Some c') /\ run_over vol (t0 ++ t) c'.
Proof.
  revert t0 c script. induction later as [|[st data] later IH]; intros t0 c script Hr Hs Hw He Hi.
  { destruct Hw. cbn in Hr. lia. }
  rewrite later_callbacks_cons by apply Hw. cbn [length] in Hr.
  destruct (read_answer_waiting data c Hw) as (Hw1 & Hp1 & Hr1).
  destruct (phase_cb_progresses TEST_FUEL st (read_answer data c) script) as (t & c2 & script2 & Hc & Hs2 & _ & _ & Hor);
    [|done|done|].
  { rewrite Hp1. unfold TEST_FUEL. destruct (tc_phase c); cbn; lia. }
  rewrite Hc. cbn [tbind fst snd]. rewrite Hp1, Hr1 in Hor. clear Hc.
  destruct Hor as [(Hw2 & Hr2 & Het & Hit)|(Ho2 & Hp2 & Het & Hit)].
  - destruct (IH (t0 ++ t) c2 script2) as (t' & c' & Hl & Hover); [lia|done|done| | |].
    + rewrite effects_app, He, Het. now rewrite app_nil_r.
    + now rewrite ios_app, <- app_assoc, Hit.
    + rewrite Hl. exists (t ++ t'), c'. split; [done|]. now rewrite app_assoc.
  - rewrite later_callbacks_none by apply Ho2. cbn [tret fst snd]. rewrite app_nil_r.
    exists t, c2. split; [done|]. split_and!; [done| |].
    + rewrite ios_app, <- Hi. now apply prefix_app.
    + exists all_buffers. split; [done|]. now rewrite effects_app, He, Het.
Qed.

Lemma after_start_settles : settles after_start.
Proof.
  split; [done|]. intros c script e He Ho Hp. unfold after_start. now rewrite (proj2 (Z.eqb_neq _ _) He).
Qed.

(** The four allocations. *)
Lemma alloc_spec env bs c :
  (forall b, tc_buffers c b = None) ->
  exists c', (forall B (k : test_ctrl -> traced test_event B),
      (let* c := alloc_buffer env bs BWrite1 c in let* c := alloc_buffer env bs BRead1 c in
       let* c := alloc_buffer env bs BWrite2 c in let* c := alloc_buffer env bs BRead2 c in k c) =
      tbind (map TAlloc (List.filter (sa_buffers env) all_buffers), Some c') k) /\
    (forall b, (if tc_buffers c' b then true else false) = sa_buffers env b) /\
    tc_volume c' = tc_volume c /\ tc_block_size c' = tc_block_size c /\ tc_phase c' = tc_phase c /\
    tc_outstanding c' = tc_outstanding c /\ tc_finished c' = tc_finished c.
Proof.
  intros Hb. unfold alloc_buffer, all_buffers. cbn [List.filter].
  destruct (sa_buffers env BWrite1) eqn:H1, (sa_buffers env BRead1) eqn:H2, (sa_buffers env BWrite2) eqn:H3,
    (sa_buffers env BRead2) eqn:H4; (eexists; split; [intros B k; reflexivity|]); (split; [|done]);
    intros []; rewrite ?H1, ?H2, ?H3, ?H4; reflexivity.
Qed.

Lemma filter_sublist {A} (f : A -> bool) (l : list A) : List.filter f l `sublist_of` l.
Proof. induction l as [|x l IH]; cbn; [constructor|]. destruct (f x); now constructor. Qed.

Lemma no_io_ends vol later c script t0 :
  tc_outstanding c = 0 -> tc_finished c = false -> effects t0 = map TAlloc (live_buffers c) -> ios t0 = [] ->
  exists t c', (let* r := (let* c := finalize_async_io_test_sequence c in tret (c, script)) in
      later_callbacks later r.1 r.2) = (t, Some c') /\ run_over vol (t0 ++ t) c'.
Proof.
  intros Ho Hf He Hi. destruct (finalize_spec c Ho Hf) as (c' & Hfin & Hov & Hp & _).
  rewrite Hfin. cbn [tbind tret fst snd]. rewrite later_callbacks_none by apply Hov. cbn [tret fst snd].
  rewrite !app_nil_r. do 2 eexists. split; [reflexivity|].
  assert (Hn : ios (map TFree (live_buffers c) ++ [TFinish (tc_phase c)]) = [] /\
    effects (map TFree (live_buffers c) ++ [TFinish (tc_phase c)]) =
      map TFree (live_buffers c) ++ [TFinish (tc_phase c)]).
  { generalize (live_buffers c). intros bs. split; (induction bs as [|b bs IH]; [done|]); [exact IH|].
    cbn. unfold effects in IH. now rewrite IH. }
  destruct Hn as [Hn1 Hn2]. split_and!; [done|rewrite ios_app, Hi, Hn1; apply prefix_nil|].
  exists (live_buffers c). split; [apply filter_sublist|]. now rewrite effects_app, He, Hn2, Hp.
Qed.

(** Allocations are effects, and no I/O. *)
Lemma allocs_effects bs : effects (map TAlloc bs) = map TAlloc bs /\ ios (map TAlloc bs) = [].
Proof.
  split; (induction bs as [|b bs IH]; [done|]); [cbn; unfold effects in IH; now rewrite IH|exact IH].
Qed.

(** From the first write on, with the four buffers allocated. *)
Lemma begin_sequence_ends vol c script later :
  Forall answer_ok script -> (4 <= length later)%nat ->
  tc_outstanding c = 0 -> tc_finished c = false -> (forall b, is_Some (tc_buffers c b)) ->
  tc_volume c = v_id vol -> tc_block_size c = v_block_size vol ->
  exists t c', (let* r := begin_sequence vol c script in later_callbacks later r.1 r.2) = (t, Some c') /\
    run_over (Some vol) (map TAlloc all_buffers ++ t) c'.
Proof.
  intros Hs Hlater Ho Hf Hsome Hv Hbs. unfold begin_sequence.
  set (c1 := add_outstanding 1 (set_phase PHASE_WRITE1 _)).
  assert (Hw : waiting c1).
  { constructor; [cbn; lia|cbn; rewrite Ho; done|cbn; now rewrite Hf|].
    intros b. cbn. repeat destruct (decide _); eauto. }
  destruct (submit_progresses after_start (async_io_test_phase_complete_cb TEST_FUEL) None
    (TWrite (v_id vol) 0 (v_block_size vol) (run1_data (v_id vol) (v_block_size vol))) 5 c1 script)
    as (t & c2 & script2 & Hsub & Hs2 & _ & _ & Hor); [apply after_start_settles| |done|done|done|cbn; lia|].
  { intros st c' script' Hw' Hs' Hp'. apply phase_cb_progresses; [rewrite Hp'; cbn; unfold TEST_FUEL; lia|done|done]. }
  destruct (allocs_effects all_buffers) as [He Hi].
  assert (Hplan : TWrite (v_id vol) 0 (v_block_size vol) (run1_data (v_id vol) (v_block_size vol)) :: remaining c1 =
    planned (Some vol)).
  { unfold remaining. change (tc_phase c1) with PHASE_WRITE1. change (tc_volume c1) with (tc_volume c).
    change (tc_block_size c1) with (tc_block_size c). now rewrite Hv, Hbs. }
  rewrite Hplan in Hor. rewrite Hsub. cbn [tbind fst snd].
  destruct Hor as [(Hw2 & Hr2 & Het & Hit)|(Ho2 & Hp2 & Het & Hit)].
  - destruct (later_callbacks_end (Some vol) (map TAlloc all_buffers ++ t) later c2 script2)
      as (t' & c' & Hl & Hover); [lia|done|done|now rewrite effects_app, Het, app_nil_r, He|now rewrite ios_app, Hi|].
    exists (t ++ t'), c'. rewrite Hl. split; [done|now rewrite app_assoc].
  - exists t, c2. rewrite later_callbacks_none by apply Ho2. cbn [tret fst snd]. rewrite app_nil_r.
    split; [done|]. split_and!; [done|now rewrite ios_app, Hi|]. exists all_buffers.
    split; [done|now rewrite effects_app, Het, He].
Qed.

(** The write and read sequence ends for every volume and whatever the volume layer
    answers, as long as it calls the callback of an I/O it accepts, before it returns or
    later, and of no other: every buffer is freed exactly once, the end is signalled
    exactly once, nothing is outstanding, and the I/O submitted is a beginning of the two
    writes and two reads. *)
Theorem test_sequence_ends env vol script later :
  Forall answer_ok script -> (4 <= length later)%nat ->
  exists t c, run_sequence env vol script later = (t, Some c) /\ run_over vol t c.
Proof.
  intros Hs Hlater. unfold run_sequence, start_async_io_test_on_volume.
  destruct vol as [vol|]; [|now apply (no_io_ends None later ctrl_start script [])].
  destruct (v_block_size vol =? 0); [now apply (no_io_ends (Some vol) later ctrl_start script [])|].
  set (c0 := set_volume _ _ ctrl_start).
  destruct (sa_disk env); cbn [negb]; [|now apply (no_io_ends (Some vol) later c0 script [])].
  destruct (alloc_spec env (v_block_size vol) c0 (fun _ => eq_refl)) as (c & Hc & Hb & Hv & Hbs & Hp & Ho & Hf).
  rewrite Hc, tbind_assoc. set (t0 := map TAlloc _). cbn [tbind].
  assert (Hlive : live_buffers c = List.filter (sa_buffers env) all_buffers) by (apply List.filter_ext; exact Hb).
  destruct (allocs_effects (List.filter (sa_buffers env) all_buffers)) as [He Hi].
  destruct (negb (sa_buffers env BWrite1 && sa_buffers env BRead1 && sa_buffers env BWrite2 &&
    sa_buffers env BRead2)) eqn:Hall.
  - destruct (no_io_ends (Some vol) later c script t0) as (t & c' & Hg & Hover);
      [now rewrite Ho|now rewrite Hf|unfold t0; now rewrite He, Hlive|done|].
    rewrite Hg. eauto.
  - apply negb_false_iff, andb_true_iff in Hall as [[[H1 H2]%andb_true_iff H3]%andb_true_iff H4].
    assert (Hab : List.filter (sa_buffers env) all_buffers = all_buffers)
      by (unfold all_buffers; cbn [List.filter]; now rewrite H1, H2, H3, H4).
    assert (Hsome : forall b, is_Some (tc_buffers c b)).
    { intros b. specialize (Hb b). destruct (tc_buffers c b); [eauto|]. destruct b; congruence. }
    destruct (begin_sequence_ends vol c script later) as (t & c' & Hg & Hover);
      [done|done|now rewrite Ho|now rewrite Hf|done|now rewrite Hv|now rewrite Hbs|].
    unfold t0. rewrite Hab, Hg. eauto.
Qed.

(** A first write that fails with any code but that of something missing is not the end:
    the test goes on to read the block. *)
Theorem failed_write_goes_on c status script :
  tc_phase c = PHASE_WRITE1 -> tc_outstanding c = 1 -> status <> XSAN_ERROR_NOT_FOUND ->
  exists t, (async_io_test_phase_complete_cb TEST_FUEL status c script).1 =
    TRead (tc_volume c) 0 (tc_block_size c) :: t.
Proof.
  intros Hp Ho Hs. change TEST_FUEL with (S 3). generalize 3%nat as fuel. intros fuel.
  cbn [async_io_test_phase_complete_cb].
  rewrite (proj2 (Z.eqb_neq _ _) Hs), !andb_false_r. cbn [tc_phase add_outstanding]. rewrite Hp.
  unfold submit at 1. rewrite tbind_assoc. cbn [tbind temit]. eauto.
Qed.

End Sequence.

Definition sequence_volume : xsan_volume := Volume 5 $"vol" 1048576 64 16384 2 6 false 0 0 0 [].

(** The first write completes before it returns, the others later. *)
Lemma test_sequence_ends_witness :
  let script := [VolAnswer (Some (XSAN_OK, [])) XSAN_OK; VolAnswer None XSAN_OK] in
  let later := [(XSAN_OK, run1_data 5 64); (XSAN_OK, []); (XSAN_OK, run2_data 5 64); (XSAN_OK, [])] in
  let run := run_sequence (StartEnv true (fun _ => true)) (Some sequence_volume) script later in
  last run.1 = Some (TFinish PHASE_VERIFY2_DONE) /\
  exists t c, run = (t, Some c) /\ run_over (Some sequence_volume) t c.
Proof.
  cbv zeta. split; [vm_compute; reflexivity|].
  apply test_sequence_ends; [repeat constructor; now left|cbn; lia].
Defined.
