(* ===== verification/E2eTest.v ===== *)
(** * The end-to-end test of the node ([src/src/main/xsan_node.c], lines 167-308)

    The test that the daemon runs when it starts: it creates a disk group and a volume on
    it, exports the volume, writes two blocks, reads them back and removes what it
    created.  The results of the calls are arguments, except the namespaces of the
    NVMe-oF target and the decoding of the allocation metadata, which are those of
    [Nvmf.v] and [VolumeMeta.v].  The test is a trace of what it creates, releases and
    submits; it has no result while it polls for a callback that does not come. *)

From stdpp Require Import prelude strings.
From Stdlib Require Import ZArith Lia Ascii.
From S2P Require Import Prelude Errors StringUtils Json VolumeMeta Nvmf.

Inductive e2e_event :=
  | EGroup (id : uuid)
  | EVolume (id : uuid)
  | EJson | EFreeJson             (* the value of the metadata store *)
  | EMeta | EFreeMeta             (* the allocation metadata *)
  | ENvmf (e : nvmf_event)
  | EPause (seconds : Z)
  | EMapLba (id : uuid) (lba : Z)
  | EBuffer (write : bool) | EFreeBuffer (write : bool)
  | EWrite (id : uuid) (off len : Z) (data : list Z)
  | ERead (id : uuid) (off len : Z)
  | EVerified (passed : bool)
  | EDeleteVolume (id : uuid)
  | EDeleteGroup (id : uuid)
  | EFinished.

(** [xsan_e2e_io_test_ctx_t]. *)
Record e2e_ctx := E2eCtx {
  ec_completed : bool;
  ec_status : xsan_error_t;
  ec_buffer : option (list Z);
  ec_original : option (list Z);
  ec_len : Z
}.

(** How the volume layer treats an I/O: its code, the callback before it returns, and
    what each later poll of the thread does.  A call carries the status and what the I/O
    left in the buffer of a read. *)
Record e2e_answer := E2eAnswer {
  ea_code : xsan_error_t;
  ea_call : option (xsan_error_t * list Z);
  ea_polls : list (option (xsan_error_t * list Z))
}.

(** Results of the calls of the test; [ee_json] is the value in the metadata store,
    [ee_disk] the name of the device of a disk that is found. *)
Record e2e_env := E2eEnv {
  ee_group : xsan_error_t * uuid;
  ee_volume : xsan_error_t * uuid;
  ee_found : bool;
  ee_json : option cstring;
  ee_meta_ok : bool;
  ee_disk : uuid -> option cstring;
  ee_bdev_exists : cstring -> bool;
  ee_add_ns : option Z -> Z;
  ee_remove_rc : Z;
  ee_write_buf : bool;
  ee_read_buf : bool;
  ee_write : e2e_answer;
  ee_read : e2e_answer
}.

Definition test_vol_size_bytes : Z := 20 * 1024 * 1024.
Definition test_vol_block_size : Z := 4096.
Definition test_nsid : Z := 1.

Section EndToEnd.
Context {SU : SpdkUuid} {JC : JsonC}.
(** The code of a failed comparison, which no header of the repository defines. *)
Variable XSAN_ERROR_TEST_VERIFY_FAILED : xsan_error_t.

Definition e2e_io_completion_cb (status : xsan_error_t) (c : e2e_ctx) : traced e2e_event e2e_ctx :=
  let c := E2eCtx true status (ec_buffer c) (ec_original c) (ec_len c) in
  match ec_original c, ec_buffer c with
  | Some w, Some r =>
      if (status =? XSAN_OK) && (0 <? ec_len c) then
        if bool_decide (take (Z.to_nat (ec_len c)) w = take (Z.to_nat (ec_len c)) r)
        then let* _ := temit (EVerified true) in tret c
        else let* _ := temit (EVerified false) in
             tret (E2eCtx true XSAN_ERROR_TEST_VERIFY_FAILED (ec_buffer c) (ec_original c) (ec_len c))
      else tret c
  | _, _ => tret c
  end.

(** The callback comes with what the I/O left in the buffer. *)
Definition completion (call : xsan_error_t * list Z) (c : e2e_ctx) : traced e2e_event e2e_ctx :=
  e2e_io_completion_cb call.1
    (E2eCtx (ec_completed c) (ec_status c)
       (match ec_buffer c with Some _ => Some call.2 | None => None end) (ec_original c) (ec_len c)).

(** Polling until the I/O is complete. *)
Fixpoint wait_completed (polls : list (option (xsan_error_t * list Z))) (c : e2e_ctx) :
    traced e2e_event e2e_ctx :=
  if ec_completed c then tret c else
  match polls with
  | [] => tundef
  | None :: polls => wait_completed polls c
  | Some call :: polls => let* c := completion call c in wait_completed polls c
  end.

(** A submission with the wait that follows it; [None] when it is refused. *)
Definition e2e_submit (e : e2e_event) (a : e2e_answer) (c : e2e_ctx) :
    traced e2e_event (option e2e_ctx) :=
  let* _ := temit e in
  let* c := match ea_call a with Some call => completion call c | None => tret c end in
  if negb (ea_code a =? XSAN_OK) then tret None else
  let* c := wait_completed (ea_polls a) c in
  tret (Some c).

(** Exporting the device of the first extent as a namespace; the result is [ns_added]. *)
Definition add_test_namespace (env : e2e_env) (vol_id : uuid) (s : nvmf) : traced e2e_event bool :=
  match ee_json env with
  | None => tret false
  | Some js =>
      let* _ := temit EJson in
      let '(code, meta) := json_string_to_volume_allocation_meta (ee_meta_ok env) (Some js) in
      let* _ := match meta with Some _ => temit EMeta | None => tret tt end in
      let* added :=
        match meta with
        | Some am =>
            if (code =? XSAN_OK) && (0 <? am_num_extents am) then
              match am_extents am with
              | [] => tundef
              | ext :: _ =>
                  match ee_disk env (e_disk ext) with
                  | Some (c :: name) =>
                      let '(err, t) := xsan_nvmf_target_add_namespace (ee_bdev_exists env) (ee_add_ns env)
                        (Some (c :: name)) test_nsid (Some (uuid_fmt vol_id)) s in
                      let* _ := (map ENvmf t, Some tt) in
                      if negb (err =? XSAN_OK) then tret false
                      else let* _ := temit (EPause 60) in tret true
                  | _ => tret false
                  end
              end
            else tret false
        | None => tret false
        end in
      let* _ := match meta with Some _ => temit EFreeMeta | None => tret tt end in
      let* _ := temit EFreeJson in
      tret added
  end.

(** The label [cleanup_dg_e2e] and those after it. *)
Definition cleanup_dg_e2e (dg_id : uuid) : traced e2e_event unit :=
  let* _ := if negb (uuid_is_null dg_id) then temit (EDeleteGroup dg_id) else tret tt in
  temit EFinished.

(** The label [cleanup_vol_e2e] and those after it. *)
Definition cleanup_vol_e2e (env : e2e_env) (ns_added : bool) (vol_id dg_id : uuid) (s : nvmf) :
    traced e2e_event unit :=
  let* _ := if ns_added
            then (map ENvmf (xsan_nvmf_target_remove_namespace (ee_remove_rc env) test_nsid s).2, Some tt)
            else tret tt in
  let* _ := if negb (uuid_is_null vol_id) then temit (EDeleteVolume vol_id) else tret tt in
  cleanup_dg_e2e dg_id.

(** Writing and reading two blocks, with both buffers there. *)
Definition e2e_io (env : e2e_env) (vol_id : uuid) (io_size : Z) : traced e2e_event unit :=
  let write_buf := map (fun i => (i + 5) mod 256) (seqZ 0 io_size) in
  let read_buf := replicate (Z.to_nat io_size) 187 in
  let io_offset := test_vol_block_size * 5 in
  let io_size := if test_vol_size_bytes <? io_offset + io_size then test_vol_block_size else io_size in
  let* w := e2e_submit (EWrite vol_id io_offset io_size (take (Z.to_nat io_size) write_buf)) (ee_write env)
              (E2eCtx false XSAN_OK None None io_size) in
  match w with
  | Some w =>
      if ec_status w =? XSAN_OK then
        let* _ := e2e_submit (ERead vol_id io_offset io_size) (ee_read env)
                    (E2eCtx false XSAN_OK (Some read_buf) (Some write_buf) io_size) in
        tret tt
      else tret tt
  | None => tret tt
  end.

(** [_run_e2e_core_logic_tests]; the last event is the signal that the test is over. *)
Definition run_e2e_core_logic_tests (env : e2e_env) (s : nvmf) : traced e2e_event unit :=
  let '(err, dg_id) := ee_group env in
  if negb (err =? XSAN_OK) then temit EFinished else
  let* _ := temit (EGroup dg_id) in
  let '(err, vol_id) := ee_volume env in
  if negb (err =? XSAN_OK) then cleanup_dg_e2e dg_id else
  let* _ := temit (EVolume vol_id) in
  if negb (ee_found env) then cleanup_dg_e2e dg_id else
  let* ns_added := add_test_namespace env vol_id s in
  let* _ := temit (EMapLba vol_id 0) in
  let io_size := test_vol_block_size * 2 in
  let* _ := if ee_write_buf env then temit (EBuffer true) else tret tt in
  let* _ := if ee_read_buf env then temit (EBuffer false) else tret tt in
  if negb (ee_write_buf env && ee_read_buf env) then
    let* _ := if ee_write_buf env then temit (EFreeBuffer true) else tret tt in
    let* _ := if ee_read_buf env then temit (EFreeBuffer false) else tret tt in
    cleanup_vol_e2e env ns_added vol_id dg_id s
  else
    let* _ := e2e_io env vol_id io_size in
    let* _ := temit (EFreeBuffer true) in
    let* _ := temit (EFreeBuffer false) in
    cleanup_vol_e2e env ns_added vol_id dg_id s.

(** * Theorems *)

(** What is there during the test: the group, the volume, the namespace, the value of
    the metadata store, the allocation metadata and the two buffers. *)
Inductive e2e_live :=
  | Live (g v : option uuid) (n : option Z) (j m : bool) (b : bool * bool)
  | Over.

Definition nothing : e2e_live := Live None None None false false (false, false).

(** The discipline: everything is created once and released once, a volume after its
    group and before it, a namespace on a volume only, I/O only on a volume and with
    both buffers, and the end once, as the last event, with nothing left. *)
Definition e2e_track (l : option e2e_live) (e : e2e_event) : option e2e_live :=
  match l with
  | None | Some Over => None
  | Some (Live g v n j m b) =>
      match e, g, v, n, j, m, b with
      | EGroup id, None, None, _, _, _, _ => Some (Live (Some id) v n j m b)
      | EVolume id, Some _, None, _, _, _, _ => Some (Live g (Some id) n j m b)
      | EJson, _, _, _, false, _, _ => Some (Live g v n true m b)
      | EFreeJson, _, _, _, true, _, _ => Some (Live g v n false m b)
      | EMeta, _, _, _, _, false, _ => Some (Live g v n j true b)
      | EFreeMeta, _, _, _, _, true, _ => Some (Live g v n j false b)
      | ENvmf (NAddNs _ k _), _, Some _, None, _, _, _ => Some (Live g v (Some k) j m b)
      | ENvmf (NRemoveNs k), _, _, Some k', _, _, _ => if k =? k' then Some (Live g v None j m b) else None
      | EPause _, _, _, _, _, _, _ => l
      | EMapLba id _, _, Some id', _, _, _, _ => if id =? id' then l else None
      | EBuffer true, _, _, _, _, _, (false, r) => Some (Live g v n j m (true, r))
      | EBuffer false, _, _, _, _, _, (w, false) => Some (Live g v n j m (w, true))
      | EFreeBuffer true, _, _, _, _, _, (true, r) => Some (Live g v n j m (false, r))
      | EFreeBuffer false, _, _, _, _, _, (w, true) => Some (Live g v n j m (w, false))
      | EWrite id _ _ _, _, Some id', _, _, _, (true, true) => if id =? id' then l else None
      | ERead id _ _, _, Some id', _, _, _, (true, true) => if id =? id' then l else None
      | EVerified _, _, _, _, _, _, (true, true) => l
      | EDeleteVolume id, Some _, Some id', None, false, false, (false, false) =>
          if id =? id' then Some (Live g None n j m b) else None
      | EDeleteGroup id, Some id', None, None, false, false, (false, false) =>
          if id =? id' then Some (Live None v n j m b) else None
      | EFinished, None, None, None, false, false, (false, false) => Some Over
      | _, _, _, _, _, _, _ => None
      end
  end.

(** A part of the test returns, and leads from one state to another. *)
Definition leads {A} (l : e2e_live) (x : traced e2e_event A) (P : A -> e2e_live -> Prop) : Prop :=
  exists t a l', x = (t, Some a) /\ foldl e2e_track (Some l) t = Some l' /\ P a l'.

Lemma leads_ret {A} l (a : A) (P : A -> e2e_live -> Prop) : P a l -> leads l (tret a) P.
Proof. exists [], a, l. done. Qed.

Lemma leads_emit_bind {B} l e l' (f : unit -> traced e2e_event B) Q :
  e2e_track (Some l) e = Some l' -> leads l' (f tt) Q -> leads l (tbind (temit e) f) Q.
Proof.
  intros He (t & a & l'' & Hf & Ht & HQ). exists (e :: t), a, l''. cbn [tbind temit]. rewrite Hf.
  split_and!; [done|cbn [foldl]; now rewrite He|done].
Qed.

Lemma leads_bind {A B} l (x : traced e2e_event A) (f : A -> traced e2e_event B) P Q :
  leads l x P -> (forall a l', P a l' -> leads l' (f a) Q) -> leads l (tbind x f) Q.
Proof.
  intros (t & a & l' & -> & Ht & Ha) Hf. destruct (Hf a l' Ha) as (t' & b & l'' & Hb & Ht' & HQ).
  exists (t ++ t'), b, l''. cbn [tbind]. rewrite Hb. split_and!; [done|now rewrite foldl_app, Ht|done].
Qed.

(** The group and the volume are there, with a namespace and buffers. *)
Definition exported (g v : uuid) (n : option Z) (b : bool * bool) : e2e_live :=
  Live (Some g) (Some v) n false false b.

(** The callback of an accepted I/O comes, before the submission returns or at a poll. *)
Definition answered (a : e2e_answer) : Prop :=
  ea_code a = XSAN_OK -> is_Some (ea_call a) \/ Exists is_Some (ea_polls a).

Section Io.
Context (g v : uuid) (n : option Z).
#[local] Notation full := (exported g v n (true, true)).

Lemma completion_leads call c :
  leads full (completion call c) (fun c' l => l = full /\ ec_completed c' = true).
Proof.
  unfold completion, e2e_io_completion_cb. cbn [ec_original ec_buffer ec_len].
  destruct (ec_original c), (ec_buffer c); try (now apply leads_ret).
  destruct ((call.1 =? XSAN_OK) && (0 <? ec_len c)); [|now apply leads_ret].
  destruct (bool_decide _);
    (apply (leads_emit_bind _ _ full); [done|now apply leads_ret]).
Qed.

Lemma wait_leads polls c :
  ec_completed c = true \/ Exists is_Some polls ->
  leads full (wait_completed polls c) (fun _ l => l = full).
Proof.
  revert c. induction polls as [|p polls IH]; intros c Hc; cbn [wait_completed];
    destruct (ec_completed c); try (now apply leads_ret); destruct Hc as [Hc|Hc]; try discriminate.
  - now apply Exists_nil in Hc.
  - destruct p as [call|].
    + eapply leads_bind; [apply completion_leads|]. intros c' l [-> Hc']. apply IH. now left.
    + apply IH. right. apply Exists_cons in Hc as [[? ?]|Hc]; [discriminate|exact Hc].
Qed.

Lemma submit_leads e a c :
  e2e_track (Some full) e = Some full -> answered a ->
  leads full (e2e_submit e a c) (fun _ l => l = full).
Proof.
  intros He Ha. unfold e2e_submit.
  apply (leads_emit_bind _ _ full); [done|].
  eapply (leads_bind _ _ _ (fun c' l => l = full /\ (ec_completed c' = true \/ ea_call a = None))).
  { destruct (ea_call a); [|apply leads_ret; auto].
    destruct (completion_leads p c) as (t & c' & l & Ht & Hl & [-> Hc]). exists t, c', full. auto. }
  intros c' l [-> Hc]. destruct (Z.eqb_spec (ea_code a) XSAN_OK) as [Hok|_]; cbn [negb]; [|now apply leads_ret].
  eapply leads_bind; [apply wait_leads|intros ? l ->; now apply leads_ret].
  destruct Hc as [Hc|Hc]; [now left|]. destruct (Ha Hok) as [[? ?]|?]; [congruence|now right].
Qed.

Lemma e2e_io_leads env io_size :
  answered (ee_write env) -> answered (ee_read env) ->
  leads full (e2e_io env v io_size) (fun _ l => l = full).
Proof.
  intros Hw Hr. unfold e2e_io. eapply leads_bind.
  { apply submit_leads; [|done]. cbn. now rewrite Z.eqb_refl. }
  intros w l ->. destruct w as [w|]; [|now apply leads_ret].
  destruct (ec_status w =? XSAN_OK); [|now apply leads_ret].
  eapply leads_bind; [apply submit_leads; [cbn; now rewrite Z.eqb_refl|done]|intros ? l ->; now apply leads_ret].
Qed.
End Io.

(** SPDK gives the identifier that is asked for, or none. *)
Definition ns_ids (env : e2e_env) : Prop :=
  forall k, ee_add_ns env (Some k) = 0 \/ ee_add_ns env (Some k) = k.

Lemma alloc_meta_extents j : exists ext exts, am_extents (json_to_alloc_meta j) = ext :: exts.
Proof.
  unfold json_to_alloc_meta. destruct (json_get j "extents") as [[]|]; cbn; eauto.
  all: try (unfold array; cbn; destruct (map _ _); eauto).
Qed.

Lemma decode_cases ok js :
  (exists code, json_string_to_volume_allocation_meta ok (Some js) = (code, None)) \/
  exists am ext exts, json_string_to_volume_allocation_meta ok (Some js) = (XSAN_OK, Some am) /\
    am_extents am = ext :: exts.
Proof.
  unfold json_string_to_volume_allocation_meta. destruct (json_tokener_parse js) as [j|]; [|eauto].
  destruct ok; [|eauto]. right. destruct (alloc_meta_extents j) as (ext & exts & H). eauto.
Qed.

(** The call on the target, from metadata in memory. *)
Lemma add_namespace_leads env g v s name :
  ns_ids env ->
  let l n := Live (Some g) (Some v) n true true (false, false) in
  leads (l None)
    (let '(err, t) := xsan_nvmf_target_add_namespace (ee_bdev_exists env) (ee_add_ns env) (Some name) test_nsid
       (Some (uuid_fmt v)) s in
     let* _ := (map ENvmf t, Some tt) in
     if negb (err =? XSAN_OK) then tret false else let* _ := temit (EPause 60) in tret true)
    (fun added l' => l' = l (if added then Some test_nsid else None) /\
       (added = true -> nt_tgt s = true /\ nt_subsystem s <> None)).
Proof.
  intros Hns l. unfold xsan_nvmf_target_add_namespace.
  destruct (nt_tgt s); cbn [negb orb]; [|now exists [], false, (l None)].
  destruct (bool_decide_reflect (nt_subsystem s = None)) as [|Hs]; [now exists [], false, (l None)|].
  destruct name as [|c name]; [now exists [], false, (l None)|].
  destruct (ee_bdev_exists env (c :: name)); cbn [negb]; [|now exists [], false, (l None)].
  cbn [Z.ltb test_nsid]. change (0 <? test_nsid) with true. cbn iota.
  destruct (Hns test_nsid) as [-> | ->]; [now exists [], false, (l None)|].
  change (test_nsid =? 0) with false. cbn iota.
  eexists _, true, (l (Some test_nsid)). split_and!; [reflexivity|done|done|done].
Qed.

Lemma add_test_namespace_leads env g v s :
  ns_ids env ->
  leads (exported g v None (false, false)) (add_test_namespace env v s)
    (fun added l => l = exported g v (if added then Some test_nsid else None) (false, false) /\
       (added = true -> nt_tgt s = true /\ nt_subsystem s <> None)).
Proof.
  intros Hns. unfold add_test_namespace. destruct (ee_json env) as [js|]; [|now apply leads_ret].
  apply (leads_emit_bind _ _ (Live (Some g) (Some v) None true false (false, false))); [done|].
  destruct (decode_cases (ee_meta_ok env) js) as [[code ->]|(am & ext & exts & -> & Hext)].
  { now exists [EFreeJson], false, (exported g v None (false, false)). }
  set (l n := Live (Some g) (Some v) n true true (false, false)).
  apply (leads_emit_bind _ _ (l None)); [done|].
  eapply (leads_bind _ _ _ (fun (added : bool) l' => l' = l (if added then Some test_nsid else None) /\
    (added = true -> nt_tgt s = true /\ nt_subsystem s <> None))).
  { rewrite Hext. destruct ((XSAN_OK =? XSAN_OK) && (0 <? am_num_extents am)); [|now apply leads_ret].
    destruct (ee_disk env (e_disk ext)) as [[|c name]|]; [now apply leads_ret| |now apply leads_ret].
    now apply add_namespace_leads. }
  intros added l' [-> Ha].
  now exists [EFreeMeta; EFreeJson], added, (exported g v (if added then Some test_nsid else None) (false, false)).
Qed.

Lemma cleanup_dg_leads g :
  g <> 0 -> leads (Live (Some g) None None false false (false, false)) (cleanup_dg_e2e g) (fun _ => eq Over).
Proof.
  intros Hg. unfold cleanup_dg_e2e, uuid_is_null. rewrite (proj2 (Z.eqb_neq _ _) Hg). cbn [negb].
  exists [EDeleteGroup g; EFinished], tt, Over. split_and!; [done| |done]. cbn. now rewrite Z.eqb_refl.
Qed.

Lemma cleanup_vol_leads env ns g v s :
  g <> 0 -> v <> 0 -> ee_remove_rc env = 0 ->
  (ns = true -> nt_tgt s = true /\ nt_subsystem s <> None) ->
  leads (exported g v (if ns then Some test_nsid else None) (false, false))
    (cleanup_vol_e2e env ns v g s) (fun _ => eq Over).
Proof.
  intros Hg Hv Hrc Hns. unfold cleanup_vol_e2e.
  eapply (leads_bind _ _ _ (fun _ => eq (exported g v None (false, false)))).
  { destruct ns; [|now apply leads_ret]. destruct (Hns eq_refl) as [Ht Hs].
    unfold xsan_nvmf_target_remove_namespace. rewrite Ht, (bool_decide_eq_false_2 _ Hs), Hrc.
    now exists [ENvmf (NRemoveNs test_nsid)], tt, (exported g v None (false, false)). }
  intros _ ? <-. unfold uuid_is_null. rewrite (proj2 (Z.eqb_neq _ _) Hv). cbn [negb].
  apply (leads_emit_bind _ _ (Live (Some g) None None false false (false, false))); [|now apply cleanup_dg_leads].
  cbn. now rewrite Z.eqb_refl.
Qed.

(** What the test relies on: identifiers of what is created are not null, a volume that
    was created is found, a namespace that was added is removed on request, and the
    callbacks of accepted I/O come. *)
Record e2e_env_ok (env : e2e_env) : Prop := {
  eo_group : (ee_group env).1 = XSAN_OK -> (ee_group env).2 <> 0;
  eo_volume : (ee_volume env).1 = XSAN_OK -> (ee_volume env).2 <> 0 /\ ee_found env = true;
  eo_ids : ns_ids env;
  eo_remove : ee_remove_rc env = 0;
  eo_write : answered (ee_write env);
  eo_read : answered (ee_read env)
}.

(** The whole test. *)
Lemma e2e_leads env s : e2e_env_ok env -> leads nothing (run_e2e_core_logic_tests env s) (fun _ => eq Over).
Proof.
  intros [Hg Hv Hids Hrm Hw Hr].
  unfold run_e2e_core_logic_tests. destruct (ee_group env) as [err g], (ee_volume env) as [err' v].
  destruct (Z.eqb_spec err XSAN_OK) as [->|_]; cbn [negb]; [|now exists [EFinished], tt, Over].
  specialize (Hg eq_refl). cbn in Hg.
  apply (leads_emit_bind _ _ (Live (Some g) None None false false (false, false))); [done|].
  destruct (Z.eqb_spec err' XSAN_OK) as [->|_]; cbn [negb]; [|now apply cleanup_dg_leads].
  destruct (Hv eq_refl) as [Hv0 ->]. cbn in Hv0. cbn [negb].
  apply (leads_emit_bind _ _ (exported g v None (false, false))); [done|].
  eapply leads_bind; [now apply (add_test_namespace_leads env g v s)|]. intros ns ? [-> Hns].
  set (n := if ns then Some test_nsid else None).
  apply (leads_emit_bind _ _ (exported g v n (false, false))); [cbn; now rewrite Z.eqb_refl|].
  eapply (leads_bind _ _ _ (fun _ => eq (exported g v n (ee_write_buf env, false)))).
  { destruct (ee_write_buf env); [|now apply leads_ret]. now exists [EBuffer true], tt, (exported g v n (true, false)). }
  intros _ ? <-. eapply (leads_bind _ _ _ (fun _ => eq (exported g v n (ee_write_buf env, ee_read_buf env)))).
  { destruct (ee_read_buf env); [|now apply leads_ret].
    now exists [EBuffer false], tt, (exported g v n (ee_write_buf env, true)). }
  intros _ ? <-. destruct (ee_write_buf env && ee_read_buf env) eqn:Hb; cbn [negb].
  - apply andb_true_iff in Hb as [-> ->]. eapply leads_bind; [now apply e2e_io_leads|]. intros _ ? ->.
    apply (leads_emit_bind _ _ (exported g v n (false, true))); [done|].
    apply (leads_emit_bind _ _ (exported g v n (false, false))); [done|]. now apply cleanup_vol_leads.
  - eapply (leads_bind _ _ _ (fun _ => eq (exported g v n (false, ee_read_buf env)))).
    { destruct (ee_write_buf env); [|now apply leads_ret].
      now exists [EFreeBuffer true], tt, (exported g v n (false, ee_read_buf env)). }
    intros _ ? <-. eapply (leads_bind _ _ _ (fun _ => eq (exported g v n (false, false)))).
    { destruct (ee_read_buf env); [|now apply leads_ret].
      now exists [EFreeBuffer false], tt, (exported g v n (false, false)). }
    intros _ ? <-. now apply cleanup_vol_leads.
Qed.

(** Wherever the end-to-end test fails, it returns, it respects the order of what
    depends on what, I/O is done on the volume with both buffers, and nothing it created
    is left when it signals its end. *)
Theorem e2e_test_cleans_up env s :
  e2e_env_ok env ->
  exists t, run_e2e_core_logic_tests env s = (t, Some tt) /\ foldl e2e_track (Some nothing) t = Some Over.
Proof. intros Hok. destruct (e2e_leads env s Hok) as (t & [] & l & Ht & Hl & <-). eauto. Qed.

(** The first call of the callback that the test sees. *)
Definition first_call (a : e2e_answer) : option (xsan_error_t * list Z) :=
  match ea_call a with Some call => Some call | None => head (omap id (ea_polls a)) end.

Lemma wait_first polls c call :
  ec_completed c = false -> head (omap id polls) = Some call ->
  exists t c', completion call c = (t, Some c') /\ wait_completed polls c = (t, Some c').
Proof.
  intros Hc Hp. destruct (completion_leads 0 0 None call c) as (t & c' & l & Ht & _ & _ & Hdone).
  exists t, c'. split; [done|]. induction polls as [|[p|] polls IH]; [done| |].
  - injection Hp as ->. cbn [wait_completed]. rewrite Hc, Ht.
    destruct polls; cbn [wait_completed tbind]; rewrite Hdone; cbn; now rewrite app_nil_r.
  - cbn [wait_completed]. rewrite Hc. now apply IH.
Qed.

Lemma submit_first e a c call :
  ec_completed c = false -> ea_code a = XSAN_OK -> first_call a = Some call ->
  exists t c', completion call c = (t, Some c') /\ e2e_submit e a c = (e :: t, Some (Some c')).
Proof.
  intros Hc Hok Hf. unfold first_call in Hf. unfold e2e_submit. rewrite Hok.
  destruct (ea_call a) as [call'|].
  - injection Hf as ->. destruct (completion_leads 0 0 None call c) as (t & c' & l & Ht & _ & _ & Hdone).
    exists t, c'. split; [done|]. rewrite Ht.
    destruct (ea_polls a); cbn; rewrite Hdone; cbn; now rewrite app_nil_r.
  - destruct (wait_first _ c call Hc Hf) as (t & c' & Ht & Hw). exists t, c'. split; [done|].
    cbn. rewrite Hw. cbn. now rewrite app_nil_r.
Qed.

(** An accepted write and read of two blocks that complete: the test reports a pass
    exactly when the read left the bytes written. *)
Theorem e2e_verifies env v data wdata :
  ea_code (ee_write env) = XSAN_OK -> first_call (ee_write env) = Some (XSAN_OK, wdata) ->
  ea_code (ee_read env) = XSAN_OK -> first_call (ee_read env) = Some (XSAN_OK, data) ->
  let written := map (fun i => (i + 5) mod 256) (seqZ 0 8192) in
  e2e_io env v 8192 =
    ([EWrite v 20480 8192 written; ERead v 20480 8192; EVerified (bool_decide (written = take 8192 data))], Some tt).
Proof.
  intros Hw Hwc Hr Hrc written. unfold e2e_io. fold written.
  assert (Hlen : take (Z.to_nat 8192) written = written).
  { apply take_ge. unfold written. rewrite length_map, length_seqZ. lia. }
  change (test_vol_size_bytes <? test_vol_block_size * 5 + 8192) with false. cbn iota. rewrite Hlen.
  change (test_vol_block_size * 5) with 20480.
  destruct (submit_first (EWrite v 20480 8192 written) _ (E2eCtx false XSAN_OK None None 8192) _ eq_refl Hw Hwc)
    as (t & c & Ht & ->). injection Ht as <- <-.
  set (rc := E2eCtx false XSAN_OK (Some (replicate (Z.to_nat 8192) 187)) (Some written) 8192).
  destruct (submit_first (ERead v 20480 8192) _ rc _ eq_refl Hr Hrc) as (t & c & Ht & Hs).
  cbn [tbind ec_status]. change (XSAN_OK =? XSAN_OK) with true. cbn iota. rewrite Hs.
  revert Ht. unfold completion, e2e_io_completion_cb. cbn [rc ec_original ec_buffer ec_len fst snd].
  change ((XSAN_OK =? XSAN_OK) && (0 <? 8192)) with true. cbn iota. rewrite Hlen.
  change (Z.to_nat 8192) with 8192%nat.
  destruct (bool_decide _); intros [= <- <-]; reflexivity.
Qed.

(** A volume that was created and is not found afterwards stays, on a group that the
    test then deletes. *)
Theorem e2e_volume_left env s g v :
  ee_group env = (XSAN_OK, g) -> ee_volume env = (XSAN_OK, v) -> ee_found env = false -> g <> 0 ->
  run_e2e_core_logic_tests env s = ([EGroup g; EVolume v; EDeleteGroup g; EFinished], Some tt) /\
  foldl e2e_track (Some nothing) [EGroup g; EVolume v; EDeleteGroup g] = None.
Proof.
  intros Hg Hv Hf Hn. unfold run_e2e_core_logic_tests, cleanup_dg_e2e, uuid_is_null.
  now rewrite Hg, Hv, Hf, (proj2 (Z.eqb_neq _ _) Hn).
Qed.

End EndToEnd.

(** A run in which the read comes at the second poll. *)
Definition e2e_example : e2e_env :=
  E2eEnv (XSAN_OK, 7) (XSAN_OK, 9) true None true (fun _ => Some $"Malloc0") (fun _ => true) (default 1) 0 true true
    (E2eAnswer XSAN_OK (Some (XSAN_OK, [])) []) (E2eAnswer XSAN_OK None [None; Some (XSAN_OK, [1; 2])]).

Lemma e2e_test_cleans_up_witness :
  e2e_env_ok e2e_example /\
  exists t, run_e2e_core_logic_tests (-1) e2e_example (Nvmf true (Some $"nqn")) = (t, Some tt) /\
    foldl e2e_track (Some nothing) t = Some Over.
Proof.
  assert (Hok : e2e_env_ok e2e_example).
  { constructor; try done.
    - intros k. now right.
    - intros _. left. eauto.
    - intros _. right. apply Exists_cons_tl, Exists_cons_hd. eauto. }
  split; [exact Hok|]. apply e2e_test_cleans_up. exact Hok.
Defined.
