(* ===== verification/Node.v ===== *)
(** * The node daemon ([src/src/main/xsan_node.c]) and the SPDK manager
    ([src/src/core/spdk_manager.c])

    Start of the SPDK application, the order in which the node brings its parts up and
    down, and the program's entry.  The outcomes of the parts are arguments, except the
    volume manager, whose start is that of [VolumeInit.v] and may never return, the NVMe-oF
    target, which is that of [Nvmf.v], and the end-to-end test that the daemon runs on it,
    which is that of [E2eTest.v]. *)

From stdpp Require Import prelude strings gmap.
From Stdlib Require Import ZArith Lia Ascii.
From S2P Require Import Prelude Errors Protocol StringUtils Json VolumeMeta MetadataStore Cluster.
From S2P Require Import Volume VolumeInit Nvmf E2eTest.

(** ** The SPDK application *)

(** The fields of SPDK's options that the manager sets; it leaves the others as
    [spdk_app_opts_init] filled them in. *)
Record app_opts := AppOpts {
  ao_name : cstring;
  ao_json_config_file : option cstring;
  ao_reactor_mask : option cstring;
  ao_rpc_addr : option cstring
}.

(** The global options and whether they were set. *)
Record spdk_manager := SpdkManager { sm_opts : app_opts; sm_customized : bool }.

Inductive app_event :=
  | AppStart (o : app_opts)
  | AppFini
  | AppStop.

Section SpdkApp.
(** What [spdk_app_opts_init] fills in, and SPDK's default address. *)
Variable default_opts : app_opts.
Variable SPDK_DEFAULT_RPC_ADDR : cstring.

Definition xsan_spdk_manager_opts_init (app_name spdk_conf_file reactor_mask : option cstring)
    (enable_rpc : bool) (rpc_addr : option cstring) (s : spdk_manager) : spdk_manager * xsan_error_t :=
  match app_name, spdk_conf_file with
  | Some name, Some conf =>
      (SpdkManager (AppOpts name (Some conf)
         (match reactor_mask with Some m => Some m | None => ao_reactor_mask default_opts end)
         (if enable_rpc then Some (default SPDK_DEFAULT_RPC_ADDR rpc_addr) else None)) true, XSAN_OK)
  | _, _ => (s, XSAN_ERROR_CONFIG_PARSE)
  end.

(** [has_fn]: there is a start function; [rc] is the result of [spdk_app_start], which
    runs the start function when it is 0. *)
Definition xsan_spdk_manager_start_app (has_fn : bool) (rc : Z) (s : spdk_manager) :
    spdk_manager * xsan_error_t * list app_event :=
  let s := if sm_customized s then s
           else SpdkManager (AppOpts $"xsan_default_app" (ao_json_config_file default_opts)
                  (ao_reactor_mask default_opts) (ao_rpc_addr default_opts)) false in
  if negb has_fn then (s, XSAN_ERROR_CONFIG_PARSE, []) else
  (s, if rc =? 0 then XSAN_OK else XSAN_ERROR_TASK_FAILED, [AppStart (sm_opts s); AppFini]).

Definition xsan_spdk_manager_request_app_stop : list app_event := [AppStop].

Definition xsan_spdk_manager_app_fini (s : spdk_manager) : spdk_manager * list app_event :=
  (SpdkManager (sm_opts s) false, [AppFini]).

(** ** The program *)

(** What [getopt_long] returns, one by one. *)
Inductive node_opt := OptConfig (file : cstring) | OptHelp | OptUnknown.

(** The exit status when the options end the program. *)
Fixpoint node_options (file : cstring) (opts : list node_opt) : cstring + Z :=
  match opts with
  | [] => inl file
  | OptConfig f :: opts => node_options f opts
  | OptHelp :: _ => inr 0
  | OptUnknown :: _ => inr 1
  end.

(** The exit status, the configuration file, the calls of SPDK and whether the
    configuration is destroyed at the end; [config_left]: it is still there when the
    application returns. *)
Definition node_main (opts : list node_opt) (rc : Z) (config_left : bool) (s : spdk_manager) :
    Z * option cstring * list app_event * bool :=
  match node_options $"xsan_node.conf" opts with
  | inr status => (status, None, [], false)
  | inl file =>
      let s := (xsan_spdk_manager_opts_init (Some $"xsan_node_spdk_app") None None true
                  (Some $"/var/tmp/xsan.sock") s).1 in
      let '(s, err, t) := xsan_spdk_manager_start_app true rc s in
      if negb (err =? XSAN_OK) then (1, Some file, t, config_left)
      else (0, Some file, t ++ (xsan_spdk_manager_app_fini s).2, false)
  end.
End SpdkApp.

(** ** Bringing the node up and down *)

Inductive node_part := PConfig | PCluster | PDisks | PVolumes | PComm | PNvmf.

Inductive node_event :=
  | Up (p : node_part)
  | Down (p : node_part)
  | ScanDisks
  | Registered (t : xsan_message_type)
  | Test (e : e2e_event)
  | StopApp.

(** Results of the parts: [nd_id_empty] tells whether the configured node has no
    identifier, [nd_volumes] and [nd_scan] are what the start of the volume manager meets,
    [nd_nqn], [nd_addr] and [nd_port] are its settings for the target, and
    [nd_tests] are the results the end-to-end test sees.  The results of reading the file
    and of its cluster section only lead to a message. *)
Record node_env := NodeEnv {
  nd_config : bool;
  nd_node_config : bool;
  nd_id_empty : bool;
  nd_cluster : xsan_error_t;
  nd_disks : xsan_error_t;
  nd_volumes : init_env;
  nd_scan : scan_env;
  nd_comm : xsan_error_t;
  nd_write_handler : xsan_error_t;
  nd_read_handler : xsan_error_t;
  nd_nvmf : nvmf_env;
  nd_nqn : cstring;
  nd_addr : cstring;
  nd_port : cstring;
  nd_tests : e2e_env
}.

(** The labels at the end of the function, each falling through to the next. *)
Definition app_cleanup_stop : list node_event := [Down PConfig; StopApp].
Definition cluster_cleanup_stop : list node_event := Down PCluster :: app_cleanup_stop.
Definition dm_cleanup_stop : list node_event := Down PDisks :: cluster_cleanup_stop.
Definition vm_cleanup_stop : list node_event := Down PVolumes :: dm_cleanup_stop.
Definition comm_cleanup_stop : list node_event := Down PComm :: vm_cleanup_stop.

Definition goto (label : list node_event) (s : nvmf) : traced node_event nvmf := (label, Some s).

Section Node.
Context {NS : NvmfSizes} {SU : SpdkUuid} {JC : JsonC} {SC : StorageCodes}.
Context {St : Type} {MS : MetaStore St} {DM : Type} {DK : DiskManager DM}.
(** The disk manager and the opened store of the volume manager. *)
Variables (disk_manager : DM) (store : St).
Variable XSAN_ERROR_TEST_VERIFY_FAILED : xsan_error_t.

(** The end-to-end test as a part of the trace of the node. *)
Definition run_tests (env : e2e_env) (s : nvmf) : traced node_event unit :=
  let '(t, r) := run_e2e_core_logic_tests XSAN_ERROR_TEST_VERIFY_FAILED env s in (map Test t, r).

(** The start of the volume manager, which the daemon has not started before. *)
Definition init_volumes (env : node_env) : traced node_event xsan_error_t :=
  match xsan_volume_manager_init (nd_volumes env) (nd_scan env) None (Some disk_manager) store with
  | (_, Some (_, err)) => tret err
  | (_, None) => tundef
  end.

(** The state of the target is that after the function. *)
Definition xsan_node_main_spdk_thread_start (env : node_env) (spdk_startup_rc : Z) (s : nvmf) :
    traced node_event nvmf :=
  if negb (spdk_startup_rc =? 0) then tret s else
  if negb (nd_config env) then goto [StopApp] s else
  let* _ := temit (Up PConfig) in
  if negb (nd_node_config env) then goto app_cleanup_stop s else
  if nd_id_empty env then goto app_cleanup_stop s else
  if negb (nd_cluster env =? XSAN_OK) then goto app_cleanup_stop s else
  let* _ := temit (Up PCluster) in
  if negb (nd_disks env =? XSAN_OK) then goto cluster_cleanup_stop s else
  let* _ := temit (Up PDisks) in
  let* _ := temit ScanDisks in
  let* err := init_volumes env in
  if negb (err =? XSAN_OK) then goto dm_cleanup_stop s else
  let* _ := temit (Up PVolumes) in
  if negb (nd_comm env =? XSAN_OK) then goto vm_cleanup_stop s else
  let* _ := temit (Up PComm) in
  if negb (nd_write_handler env =? XSAN_OK) then goto comm_cleanup_stop s else
  let* _ := temit (Registered REPLICA_WRITE_BLOCK_REQ) in
  if negb (nd_read_handler env =? XSAN_OK) then goto comm_cleanup_stop s else
  let* _ := temit (Registered REPLICA_READ_BLOCK_REQ) in
  let '(s', err, _) :=
    xsan_nvmf_target_init (nd_nvmf env) (Some (nd_nqn env)) (Some (nd_addr env)) (Some (nd_port env)) s in
  if negb (err =? XSAN_OK) then goto comm_cleanup_stop s' else
  let* _ := temit (Up PNvmf) in
  let* _ := run_tests (nd_tests env) s' in
  let s' := (xsan_nvmf_target_fini s').1 in
  let* _ := temit (Down PNvmf) in
  goto comm_cleanup_stop s'.

(** The function that SPDK calls on its first reactor. *)
Definition _xsan_internal_spdk_app_main {A} (user_main_fn : option (Z -> A)) : option A :=
  match user_main_fn with
  | Some fn => Some (fn 0)
  | None => None
  end.

(** * Theorems *)

#[global] Instance node_part_eq : EqDecision node_part.
Proof. solve_decision. Defined.

(** The parts that are up, the last first: a part comes up once and goes down only as
    the last one; the disks are scanned, the handlers registered and the tests run only
    with the parts they need, and the application stops only with none. *)
Definition node_track (up : option (list node_part)) (e : node_event) : option (list node_part) :=
  match e, up with
  | Up p, Some up => if decide (p ∈ up) then None else Some (p :: up)
  | Down p, Some (q :: up) => if decide (p = q) then Some up else None
  | ScanDisks, Some up => if decide (PDisks ∈ up) then Some up else None
  | Registered _, Some up => if decide (PVolumes ∈ up /\ PComm ∈ up) then Some up else None
  | Test _, Some up =>
      if decide (Forall (.∈ up) [PConfig; PCluster; PDisks; PVolumes; PComm; PNvmf]) then Some up else None
  | StopApp, Some [] => Some []
  | _, _ => None
  end.

Ltac node_cases env :=
  repeat match goal with
  | |- context [negb ?b] => destruct b eqn:?; cbn [negb orb]
  | |- context [if nd_id_empty env then _ else _] => destruct (nd_id_empty env)
  end.

Lemma node_track_tests up t :
  Forall (.∈ up) [PConfig; PCluster; PDisks; PVolumes; PComm; PNvmf] ->
  foldl node_track (Some up) (map Test t) = Some up.
Proof. intros Hup. induction t as [|e t IH]; [done|]. cbn [map foldl node_track]. now rewrite decide_True. Qed.

(** The store has a record of a volume that the scan at the start can load. *)
Definition volume_stored (scan : scan_env) : Prop :=
  exists iter, sc_iter scan = Some iter /\
    Exists (loadable (sc_alloc scan) (sc_append scan) (sc_tail scan))
      (take_prefix $"v:" (it_rest (xsan_metadata_iterator_seek iter (Some $"v:")))).

(** The start of the volume manager blocks only on a stored volume. *)
Lemma init_volumes_returns env :
  match init_volumes env with
  | (t, Some _) => t = []
  | (t, None) => t = [] /\ volume_stored (nd_scan env)
  end.
Proof.
  unfold init_volumes.
  pose proof (volume_manager_resources (nd_volumes env) (nd_scan env) disk_manager store) as H.
  destruct (xsan_volume_manager_init _ _ _ _ _) as [t [[vm e]|]]; [done|]. by split.
Qed.

(** C33: Whatever part fails to come up, those before it are taken down in reverse order
    and the application is then asked to stop, as the last action, when SPDK calls the
    function; the end-to-end test runs with all parts up.  The function fails to return in
    two cases only.  The start of the volume manager blocks on its own lock when the store
    has a volume that can be loaded: the parts before it then stay up, and nothing else
    happens.  Or the test does not end, for a reason outside of it, with all parts up.
    The other parts are taken to return from their start and their stop. *)
Theorem node_parts_balanced env s :
  match _xsan_internal_spdk_app_main (Some (fun rc => xsan_node_main_spdk_thread_start env rc s)) with
  | Some (t, Some _) => foldl node_track (Some []) t = Some [] /\ last t = Some StopApp
  | Some (t, None) =>
      t = [Up PConfig; Up PCluster; Up PDisks; ScanDisks] /\ volume_stored (nd_scan env) \/
      foldl node_track (Some []) t = Some [PNvmf; PComm; PVolumes; PDisks; PCluster; PConfig] /\
      ~ e2e_env_ok (nd_tests env)
  | None => False
  end.
Proof.
  cbn [_xsan_internal_spdk_app_main]. unfold xsan_node_main_spdk_thread_start. cbn [negb Z.eqb].
  destruct (xsan_nvmf_target_init _ _ _ _ s) as [[s' err'] t'].
  destruct (run_tests (nd_tests env) s') as [tests r] eqn:Hrun.
  assert (Ht : exists t, tests = map Test t /\ (r = None -> ~ e2e_env_ok (nd_tests env))).
  { unfold run_tests in Hrun. destruct (run_e2e_core_logic_tests _ _ _) as [t r'] eqn:He.
    injection Hrun as <- <-. exists t. split; [done|]. intros -> Hok.
    destruct (e2e_leads XSAN_ERROR_TEST_VERIFY_FAILED (nd_tests env) s' Hok) as (? & ? & ? & He' & _). congruence. }
  clear Hrun. destruct Ht as (t & -> & Hr).
  pose proof (init_volumes_returns env) as Hv.
  set (stored := volume_stored (nd_scan env)) in *. set (ok := e2e_env_ok (nd_tests env)) in *.
  clearbody stored ok.
  destruct (init_volumes env) as [tv [err|]]; [subst tv; cbn [tbind]|destruct Hv as [-> Hv]];
    node_cases env; try (vm_compute; now auto).
  assert (Hup := node_track_tests [PNvmf; PComm; PVolumes; PDisks; PCluster; PConfig] t).
  specialize (Hup ltac:(repeat constructor; set_solver)).
  destruct r as [[]|]; cbn [tbind temit goto fst snd app]; cbn [foldl].
  - split; [rewrite foldl_app|change comm_cleanup_stop with ([Down PComm; Down PVolumes; Down PDisks; Down PCluster;
      Down PConfig] ++ [StopApp]); now rewrite !app_comm_cons, !app_assoc, last_snoc].
    change (node_track _ (Up PNvmf)) with (Some [PNvmf; PComm; PVolumes; PDisks; PCluster; PConfig]).
    now rewrite Hup.
  - right. split; [|now apply Hr].
    change (node_track _ (Up PNvmf)) with (Some [PNvmf; PComm; PVolumes; PDisks; PCluster; PConfig]).
    exact Hup.
Qed.

(** The node leaves a target behind exactly when everything before it came up and its
    subsystem does not start. *)
Theorem node_target_left env t s :
  xsan_node_main_spdk_thread_start env 0 nvmf_start = (t, Some s) ->
  nt_tgt s = true <->
  Registered REPLICA_READ_BLOCK_REQ ∈ t /\ ne_on_thread (nd_nvmf env) = true /\
  ne_tgt_ok (nd_nvmf env) = true /\ ne_transport_ok (nd_nvmf env) = true /\
  ne_subsystem_ok (nd_nvmf env) = true /\ ne_start_rc (nd_nvmf env) <> 0.
Proof.
  unfold xsan_node_main_spdk_thread_start, xsan_nvmf_target_init. cbn [negb Z.eqb nt_tgt nvmf_start].
  assert (Hin : forall l, Registered REPLICA_READ_BLOCK_REQ ∈ l <->
    existsb (fun e => match e with Registered m => msg_type_code m =? msg_type_code REPLICA_READ_BLOCK_REQ | _ => false end) l = true).
  { intros l. rewrite existsb_exists. setoid_rewrite <- list_elem_of_In. split.
    - intros Hl. eexists. split; [exact Hl|]. reflexivity.
    - intros (e & He & Hm). destruct e; try discriminate. now destruct t0. }
  pose proof (init_volumes_returns env) as Hv.
  destruct (init_volumes env) as [tv [err|]]; [subst tv; cbn [tbind]|destruct Hv as [-> _]];
  destruct (Z.eqb_spec (ne_start_rc (nd_nvmf env)) 0);
    node_cases env; try destruct (run_tests (nd_tests env) _) as [? [[]|]]; cbn [tbind temit goto fst snd app];
    intros [= <- <-]; rewrite Hin; cbn; (discriminate || intuition congruence).
Qed.

End Node.

(** The daemon passes no configuration file of SPDK, which the manager refuses although
    its header allows it; the application is then started with the default name and
    the default address of the RPC server, and finalised twice. *)
Theorem node_options_lost d addr opts file o left :
  node_options $"xsan_node.conf" opts = inl file ->
  node_main d addr opts 0 left (SpdkManager o false) =
    (0, Some file,
     [AppStart (AppOpts $"xsan_default_app" (ao_json_config_file d) (ao_reactor_mask d) (ao_rpc_addr d));
      AppFini; AppFini], false).
Proof. intros Hf. unfold node_main. now rewrite Hf. Qed.
