(* ===== verification/UnitTests.v ===== *)
(** * The repository's tests ([src/tests])

    The assertions of [test_infrastructure.c] and [test_cluster.c], run on the models of
    the functions they test.  Memory is available, as the tests assume. *)

From stdpp Require Import prelude strings gmap.
From Stdlib Require Import ZArith Lia Ascii.
From S2P Require Import Prelude Errors StringUtils Memory MemoryPool Config VolumeMeta Cluster ConfigLoad Log Format.

(** ** Strings *)

Definition available (size : Z) : bool := true.

Definition test_string_utils : bool :=
  bool_decide (xsan_strsplit available (Some $"a,b,c,d") (Some $",") 10 = [$"a"; $"b"; $"c"; $"d"]) &&
  bool_decide (xsan_strtrim available (Some $"  hello world  ") = Some $"hello world") &&
  bool_decide (xsan_strupper available (Some $"hello") = Some $"HELLO") &&
  bool_decide (xsan_strlower available (Some $"WORLD") = Some $"world") &&
  xsan_str_starts_with (Some $"hello world") (Some $"hello") &&
  xsan_str_ends_with (Some $"hello world") (Some $"world") &&
  xsan_str_contains (Some $"hello world") (Some $"lo wo") &&
  bool_decide (xsan_str_replace available (Some $"hello world") (Some $"world") (Some $"XSAN") = Some $"hello XSAN") &&
  bool_decide (xsan_str_to_int (Some $"123") = Some 123) &&
  bool_decide (xsan_str_to_bool available (Some $"true") = Some true).

(** ** Configuration *)

Definition test_text : cstring :=
  $"# Test configuration" ++ ["010"%char] ++ $"node.id = node-001" ++ ["010"%char] ++ $"node.port = 9090" ++ ["010"%char] ++
  $"storage.block_size = 4096" ++ ["010"%char] ++ $"cluster.enable_auto_failover = false" ++ ["010"%char].

Definition get_is (c : xsan_config (D := Empty_set)) (key value : cstring) : bool :=
  bool_decide (xsan_config_get_string c (Some key) (Some []) = Some value).

Definition test_config_management : bool :=
  match xsan_config_create (D := Empty_set) true with
  | None => false
  | Some c =>
      let c := (xsan_config_set_string all_ok c (Some $"node.name") (Some $"test-node")).1 in
      let c := (xsan_config_set_int all_ok c (Some $"node.port") 8080).1 in
      let c := (xsan_config_set_bool all_ok c (Some $"node.enable_ssl") true).1 in
      let before :=
        get_is c $"node.name" $"test-node" && (xsan_config_get_int c (Some $"node.port") 0 =? 8080) &&
        xsan_config_get_bool c (Some $"node.enable_ssl") false &&
        xsan_config_has_key c (Some $"node.name") && negb (xsan_config_has_key c (Some $"non.existent")) in
      let c := (xsan_config_load_from_string no_double (fun _ => all_ok) true c (Some test_text)).1 in
      let node := xsan_config_load_node_config c in
      before && get_is c $"node.id" $"node-001" && (xsan_config_get_int c (Some $"node.port") 0 =? 9090) &&
      (xsan_config_get_int c (Some $"storage.block_size") 0 =? 4096) &&
      negb (xsan_config_get_bool c (Some $"cluster.enable_auto_failover") true) &&
      bool_decide (xn_node_id node = $"node-001") && (xn_port node =? 9090)
  end.

(** ** Memory *)

(** One block of the pool is taken and given back, and the pool destroyed: all ten blocks
    and their data go back to the allocator. *)
Definition test_pool : bool :=
  match xsan_memory_pool_create true true (fun _ => true) (Some (PoolConfig 64 10 100 true)) with
  | None => false
  | Some pool =>
      let '(pool, out) := xsan_memory_pool_alloc true pool in
      match out with
      | OutPtr (Some p) => bool_decide (length <$> xsan_memory_pool_destroy (xsan_memory_pool_free (Some p) pool).1 = Some 20%nat)
      | _ => false
      end
  end.

(** The test of the allocator, with the addresses of its blocks. *)
Definition test_memory_management (p1 p2 p3 : ptr) : outcome bool :=
  '(m, ret) <~ xsan_memory_init true memory0;
  '(m, ptr1) <~ xsan_malloc (Some p1) 1024 m;
  '(m, ptr2) <~ xsan_calloc (Some p2) 10 100 m;
  '(m, str) <~ xsan_strdup (Some p3) (Some $"Hello, XSAN!") m;
  '(m, _) <~ xsan_memory_get_stats m;
  m <~ xsan_free ptr1 m;
  m <~ xsan_free ptr2 m;
  m <~ xsan_free (fst <$> str) m;
  '(m, leaks) <~ xsan_memory_check_leaks m;
  m <~ xsan_memory_cleanup m;
  Ret ((ret =? XSAN_OK) && bool_decide (is_Some ptr1) && bool_decide (is_Some ptr2) &&
       bool_decide (snd <$> str = Some $"Hello, XSAN!") && test_pool && negb leaks).

(** ** Logging *)

(** The messages of the test with the texts made of their formats. *)
Definition test_logging (e : log_env) (texts : list cstring) (file func : cstring) (g : logger) :
    option (logger * bool) :=
  let config := LogConfig [] XSAN_LOG_LEVEL_DEBUG true false (10 * 1024 * 1024) 5 None in
  let '(g, ret) := xsan_log_init true (Some config) g in
  let log i l g := xsan_log_message e (LogCall l file 0 func (default [] (texts !! i))) g in
  g ← log 0%nat XSAN_LOG_LEVEL_DEBUG g;
  g ← log 1%nat XSAN_LOG_LEVEL_INFO g;
  g ← log 2%nat XSAN_LOG_LEVEL_WARN g;
  g ← log 3%nat XSAN_LOG_LEVEL_ERROR g;
  g ← log 4%nat XSAN_LOG_LEVEL_INFO g;
  Some (g, ret =? XSAN_OK).

(** ** The local node *)

Section LocalNode.
Context {SU : SpdkUuid}.

Definition test_uuid_str : cstring := $"a1b2c3d4-e5f6-7788-9900-aabbccddeeff".

(** The five calls of the tests, in their order. *)
Definition test_get_local_node_info : list (xsan_error_t * option (uuid * cstring * Z)) :=
  map (fun cfg => xsan_get_local_node_info true cfg 64)
    [NodeConfig [] [] 0; NodeConfig test_uuid_str $"192.168.1.100" 8080;
     NodeConfig $"not-a-uuid" $"10.0.0.1" 7070; NodeConfig test_uuid_str [] 8080;
     NodeConfig test_uuid_str $"10.0.0.1" 0].
End LocalNode.

(** * Theorems *)

Theorem string_tests_pass : test_string_utils = true.
Proof. vm_compute. reflexivity. Qed.

Theorem config_tests_pass : test_config_management = true.
Proof. vm_compute. reflexivity. Qed.

Theorem pool_tests_pass : test_pool = true.
Proof. vm_compute. reflexivity. Qed.

(** The manager runs in debug mode and tracks blocks at these addresses. *)
Definition tracks (m : memory_mgr) (l : list ptr) : Prop :=
  mm_initialized m = true /\ mm_debug m = true /\ mm_locked m = false /\ map tr_ptr (mm_blocks m) = l.

Lemma malloc_tracks m l h size :
  tracks m l -> size <> 0 ->
  exists m', xsan_malloc (Some h) size m = Ret (m', Some (h + HEADER_SIZE)) /\ tracks m' (h + HEADER_SIZE :: l).
Proof.
  intros (Hi & Hd & Hl & Hb) Hs. unfold xsan_malloc, mutex_lock. rewrite (proj2 (Z.eqb_neq _ _) Hs), Hl.
  cbn [obind mm_initialized mm_debug with_lock]. rewrite Hi, Hd. eexists. split; [reflexivity|].
  unfold tracks. cbn. now rewrite Hb.
Qed.

Lemma free_tracks m l1 l2 p :
  tracks m (l1 ++ p :: l2) -> p ∉ l1 ->
  exists m', xsan_free (Some p) m = Ret m' /\ tracks m' (l1 ++ l2).
Proof.
  intros (Hi & Hd & Hl & Hb) Hp. unfold xsan_free, mutex_lock. rewrite Hl.
  cbn [obind mm_initialized mm_debug mm_blocks with_lock]. rewrite Hi, Hd.
  assert (Hf : exists b, find_block p (mm_blocks m) = Some b /\ map tr_ptr (unlink p (mm_blocks m)) = l1 ++ l2).
  { revert Hb Hp. generalize (mm_blocks m) as bs. induction l1 as [|q l1 IH]; intros [|b bs] Hb Hp; try discriminate.
    - injection Hb as Hb1 Hb2. unfold find_block. cbn. rewrite Hb1, Z.eqb_refl. eauto.
    - injection Hb as Hb1 Hb2. apply not_elem_of_cons in Hp as [Hpq Hp]. destruct (IH bs Hb2 Hp) as (b' & Hf & Hu).
      unfold find_block in *. cbn. rewrite Hb1, (proj2 (Z.eqb_neq _ _)) by congruence. exists b'. split; [done|].
      cbn. now rewrite Hb1, Hu. }
  destruct Hf as (b & -> & Hu). eexists. split; [reflexivity|]. unfold tracks. cbn. now rewrite Hu.
Qed.

(** Wherever the three blocks are, as long as they are apart. *)
Theorem memory_tests_pass p1 p2 p3 :
  NoDup [p1; p2; p3] -> test_memory_management p1 p2 p3 = Ret true.
Proof.
  intros Hnd. apply NoDup_cons in Hnd as [H1 Hnd]. apply NoDup_cons in Hnd as [H2 _].
  assert (p1 <> p2 /\ p1 <> p3 /\ p2 <> p3) as (H12 & H13 & H23) by set_solver.
  unfold test_memory_management. rewrite pool_tests_pass.
  assert (E0 : exists m0, xsan_memory_init true memory0 = Ret (m0, XSAN_OK) /\ tracks m0 []).
  { eexists. split; [reflexivity|]. repeat split. }
  destruct E0 as (m0 & E0 & T0). rewrite E0. cbn [obind].
  destruct (malloc_tracks m0 [] p1 1024 T0) as (m1 & E1 & T1); [done|]. rewrite E1. cbn [obind].
  change (xsan_calloc (Some p2) 10 100 m1) with (xsan_malloc (Some p2) 1000 m1).
  destruct (malloc_tracks m1 _ p2 1000 T1) as (m2 & E2 & T2); [done|]. rewrite E2. cbn [obind xsan_strdup].
  destruct (malloc_tracks m2 _ p3 (Zlen $"Hello, XSAN!" + 1) T2) as (m3 & E3 & T3); [done|].
  rewrite E3. cbn [obind fmap option_fmap option_map fst snd].
  assert (E4 : exists m4 st, xsan_memory_get_stats m3 = Ret (m4, st) /\ tracks m4 [p3 + HEADER_SIZE; p2 + HEADER_SIZE; p1 + HEADER_SIZE]).
  { destruct T3 as (Hi & Hd & Hl & Hb). unfold xsan_memory_get_stats, mutex_lock. rewrite Hl. cbn [obind].
    do 2 eexists. split; [reflexivity|]. unfold tracks. cbn. now rewrite Hi, Hd, Hb. }
  destruct E4 as (m4 & st & E4 & T4). rewrite E4. cbn [obind].
  destruct (free_tracks m4 [p3 + HEADER_SIZE; p2 + HEADER_SIZE] [] (p1 + HEADER_SIZE) T4) as (m5 & E5 & T5).
  { rewrite !elem_of_cons, elem_of_nil. lia. }
  rewrite E5. cbn [obind].
  destruct (free_tracks m5 [p3 + HEADER_SIZE] [] (p2 + HEADER_SIZE) T5) as (m6 & E6 & T6).
  { rewrite !elem_of_cons, elem_of_nil. lia. }
  rewrite E6. cbn [obind].
  destruct (free_tracks m6 [] [] (p3 + HEADER_SIZE) T6) as (m7 & E7 & T7); [apply not_elem_of_nil|].
  rewrite E7. cbn [obind]. destruct T7 as (Hi & Hd & Hl & Hb). apply map_eq_nil in Hb.
  destruct m7 as [? ? ? ? ? ? ? ?]. cbn in Hi, Hd, Hl, Hb. subst. reflexivity.
Qed.

(** All five messages are shown, and nothing is written to a file. *)
Theorem logging_tests_pass e texts file func g :
  exists g', test_logging e texts file func g = Some (g', true) /\
    length (lg_stderr g') = (length (lg_stderr g) + 5)%nat /\ lg_files g' = lg_files g.
Proof.
  eexists. split; [reflexivity|]. cbn. rewrite !length_app. cbn. split; [lia|reflexivity].
Qed.

(** With a library that parses the identifier of the test and rejects the text that is
    none. *)
Theorem local_node_tests_pass `{SpdkUuid} id :
  uuid_parse test_uuid_str = Some id -> uuid_parse $"not-a-uuid" = None ->
  test_get_local_node_info =
    [(XSAN_ERROR_NOT_INITIALIZED, None); (XSAN_OK, Some (id, $"192.168.1.100", 8080));
     (XSAN_ERROR_CONFIG_PARSE, None); (XSAN_ERROR_CONFIG_INVALID, Some (id, [], 8080));
     (XSAN_OK, Some (id, $"10.0.0.1", 0))].
Proof.
  intros Hid Hno. unfold test_get_local_node_info, xsan_get_local_node_info. cbn [map nc_node_id nc_bind_address nc_port].
  rewrite Hid, Hno. reflexivity.
Qed.
